(* ===== verification/_CoqProject ===== *)
-Q . S2P
Prelude.v
GoStrings.v
GoSort.v
ConsistentHash.v
Murmur.v
RingSpec.v
Namespaces.v
Mappings.v
Resolver.v
Wire.v
TaskToken.v
Http.v
Messages.v
Samples.v
Handlers.v
HandlerSpec.v
ConnPark.v
Proxy.v
FanOut.v
Json.v
Checkpoint.v
Admin.v
ResolveRace.v
Fleet.v
Payloads.v
TaskQueueRecorder.v
ClusterPool.v
ReplicationRecorder.v
MetricCapture.v
TaskPoller.v
GoNet.v
ClusterOptions.v
TestEnv.v
Onebox.v
TestBase.v
TestCluster.v
MixedBrain.v
DataConverter.v
NexusPoller.v
XdcSuite.v
Wiring.v
Certs.v
Base64.v
Updates.v
SuiteLife.v
SuiteSetup.v
Scripts.v
MixedBuild.v
ProxyConn.v
Helpers.v
EnvSdk.v
DemoRun.v
ClusterSetup.v
