(* ===== verification/Prelude.v ===== *)
(** * Tempura: a routing proxy for Temporal clusters

    Tempura ([src/*.go], package main) stands between Temporal SDK clients and
    several Temporal clusters.  A client talks to a _virtual namespace_; the
    proxy gives each workflow id a _physical namespace_ (a namespace of one
    cluster, written ["name::address"]), remembers the choice in Redis, and
    sends every later request about the workflow to the same cluster.  Worker
    polls are sent to all clusters of the virtual namespace at once.  This
    library models the proxy, the parts it is made of, and the stateful parts
    of the test harness beside it, and proves what makes them correct.

    ** Parts of the program and files of the library

    Language and library layer:
    - [Prelude]: machine integers ([u8], [u32], [u64], [i64]), bytes and
      strings, the results of a Go call ([res]: a value, an error, a panic, or
      divergence) and the state monad [GoM] over them; the state reached is
      kept when a call fails or panics.
    - [GoStrings], [GoSort]: [strings.Contains]/[Split]/..., [sort.Search] and
      [sort.Slice] as the sources use them.
    - [Json]: encoding/json as far as it is used: UTF-8, string literals,
      values, decoding into structs and maps, and encoding, with its round
      trips.
    - [Http]: requests, responses and response writers; [writeProxyResponse].
    - [Messages], [Samples]: the Temporal messages with the fields the proxy
      reads (the rest of a message is an opaque part), the class [Codecs] of
      their wire formats, and an executable instance for the witnesses.

    The proxy, bottom up:
    - [ConsistentHash], [Murmur], [RingSpec] ([resolver.go], ConsistentHash):
      the ring of virtual nodes with AddSlot, RemoveSlot and GetSlot; the
      reference murmur3; the abstract specification (a list of slots, the
      clockwise owner of a key).
    - [Namespaces] ([virtualnamespace.go]): physical namespace names, virtual
      namespaces, the registry.
    - [Mappings] ([mappings.go]): the routing cache over Redis.
    - [Resolver], [ResolveRace] ([resolver.go], Resolve): the lookup-or-allocate
      operation and its refinement of a routing table; its interleavings.
    - [Wire] ([extractPayload], [encodeGRPCPayload]): gRPC frames.
    - [TaskToken] ([extractWorkflowIDFromTaskToken]): the token scanner.
    - [Handlers], [HandlerSpec] ([proxy.go], handle...): the eight handlers, and
      what they have in common through the interface of an API call.
    - [ConnPark], [FanOut] ([connpark.go]): the poll fan-out, first with its
      answers collected in a given order, then with its goroutines, channel and
      wait group as a step relation that refines the former.
    - [Proxy] ([proxy.go], NewStickyProxy): dispatch, Director and the HTTP
      handler that composes all of the above.
    - [Checkpoint] ([NewVirtualNamespaceRegistry]): loading and checkpointing
      the registry.
    - [Admin] ([apis.go]): the admin endpoints.
    - [Fleet] ([main.go]): processes that run all of the above, several of them
      over one Redis server.
    - [Payloads] ([payload.go]): the random workload of the routing tests.

    The test harness ([src/conformance-tests]):
    - [GoNet]: addresses, numerals and words as the harness reads them.
    - [TaskPoller] ([taskpoller.go]), [TaskQueueRecorder]
      ([task_queue_recorder.go]), [ClusterPool] ([test_cluster_pool.go]),
      [ReplicationRecorder] ([replication_stream_recorder.go]),
      [MetricCapture] ([metric_capture.go], [matching_behavior.go]),
      [DataConverter] ([test_data_converter.go]): the tools of a test.
    - [ClusterOptions], [TestEnv] ([functional_test_base.go], [test_env.go]): what
      a test may ask of its cluster and do to it.
    - [Onebox] ([onebox.go]), [TestCluster] ([test_cluster.go]), [TestBase]
      ([functional_test_base.go]): the server a test runs on, the proxy started
      in front of it, and the registration of namespaces with both.
    - [ClusterSetup] ([test_cluster.go], newClusterWithPersistenceTestBaseFactory):
      the constructor of a cluster step by step, with what it takes hold of and
      the ways it fails, and the teardown.
    - [EnvSdk] ([test_env.go], SdkClient, SdkWorker): the SDK client and worker a
      test makes on first use, their release, and the channel helpers.
    - [Wiring] ([onebox.go], start...): the applications of the four services
      that the server is started as, and what each is built from.
    - [SuiteLife], [SuiteSetup] ([functional_test_base.go]): the SDK client and
      worker of a test, payloads and traces, and setting a suite up.
    - [Certs], [Base64] ([testutils], [createFixedTLSConfigProvider]): test
      certificates and the TLS provider of a cluster.
    - [MixedBrain], [MixedBuild], [ProxyConn] ([mixedbrain]): the test of two server
      versions, its builds, and the connections of its load-balancing proxy.
    - [NexusPoller] ([nexus_test_base.go]), [XdcSuite] ([xdc/base.go]): the bases of
      the Nexus and of the cross-cluster suites.
    - [Updates] ([update_workflow_utils.go], [workflow_utils.go],
      [matching_utils.go]): sending updates and synchronising task queues.
    - [Helpers] ([utils.go], [flag.go], [context.go], [dynamic_config_overrides.go],
      [ndc/cluster_config.go], [testutils]): the smaller helpers.

    The demonstration programs: [Scripts] ([scripts/start_workflows.go],
    [scripts/worker.go]); [DemoRun]: the two of them over the proxy.

    Records keep the fields of the Go structs, operations keep their names;
    a receiver that is mutated is passed and returned.  Mutexes make the
    operations they guard atomic; where the code leaves a gap between two
    locked sections (Resolve, the poll fan-out, the cluster pool) the gap is a
    step of a relation.

    ** What the theorems show

    - Stickiness, from the ring to the HTTP handler: the resolver refines a
      routing table ([Resolver]), handlers rewrite a request's namespace and
      target and nothing else ([HandlerSpec]), a polled task's workflow is bound
      to the cluster it came from ([ConnPark]), and requests about one workflow
      reach one cluster end to end, through one process ([Proxy]) or any of
      several, with restarts in between ([Fleet]).
    - The ring refines a set of slots, finds the clockwise owner, moves few keys
      when it changes and, as long as virtual nodes do not collide, does not depend
      on the order of changes ([RingSpec]);
      cordoned physical namespaces get no new workflow, active ones are
      available ([Namespaces]).
    - Polls: a task is delivered whenever a cluster has one, eventually and under
      every schedule, even if other clusters never answer; without a task a poll
      ends when every cluster answers, and one that does not keeps it waiting; the
      goroutines neither use the channel and the wait group wrongly nor block on a
      send, and every interleaving is an arrival order of the sequential model.  A
      poller for a slot that is not a physical namespace kills the process; a
      registry built by the admin API has no such slot ([ConnPark], [FanOut]).
    - Persistence and administration: a restart restores statuses and routing
      ([Checkpoint]); any history of admin requests keeps the registry
      well-formed, and each request is answered and changes the registry, the rings
      included, as documented, refusals and panics too ([Admin]).  Of processes that
      share a server the last to checkpoint decides what any of them loads
      ([Fleet]).
    - Encodings: frames, names, tokens and JSON round trip, with the exact
      limits of each ([Wire], [Namespaces], [TaskToken], [Json]); on any token the
      scanner does what a decoder of the format does ([TaskToken]).
    - Limits of the code, as theorems about the same definitions: requests for
      unknown namespaces panic, hostile tokens hang the scanner, the cache key
      ignores the virtual namespace, the checkpoint shares the cache's keys and
      that of every other process, a Resolve that straddles a request to the admin
      API splits a workflow ([ResolveRace], from an empty proxy).
    - Harness: the pollers respond at most once and to the polled task, the
      recorders are transparent and complete, but for the tasks of two kinds of
      writes that the task recorder only passes on ([TaskQueueRecorder]), exclusive
      pools isolate tests.
    - Tests and their clusters: a test on a shared cluster touches its own
      namespace only, reading metrics of others apart, the guard of dedicated clusters is exact ([TestEnv]), the
      cleanups undo what a test did ([Onebox]); registering a namespace ends, in
      success or in an error ([TestBase]), a suite is set up with two namespaces,
      each of them with the proxy if the admin API was reached, or fails
      ([SuiteSetup]), and registration sends the namespace's traffic to
      the suite's own cluster ([TestCluster], over the models of the admin API,
      the resolver and the HTTP handler), as the proxy is started when the cluster
      is created ([ClusterSetup], over [TestCluster] and [Wiring], which also shows
      that teardown gives back what creation took, as far as it can be removed and
      but for two clients that are never closed, and that a creation that fails
      gives back nothing); every application of a server is given
      its own host and bound to it ([Wiring]), and clients and servers with the
      generated certificates accept each other ([Certs]); a test's SDK worker and
      client are released ([SuiteLife]), and those of a [TestEnv] with the worker
      always stopped before its client is closed ([EnvSdk]); ports, releases and connections of the
      mixed-version test ([MixedBrain]), whose release is built from a fresh clone
      of its tag ([MixedBuild]) and whose proxy relays bytes in order and can be
      stopped once its connections are closed, unless a peer keeps its connection
      open without reading ([ProxyConn]); a Nexus task is answered at most once and
      in one dialect, and endpoints are deleted again ([NexusPoller]); the two
      clusters of a cross-cluster suite know each other's addresses and share no
      failover version, and a failover that passes was seen by every registry
      ([XdcSuite]); an update is sent with its admission seen, or the test hangs
      ([Updates]); batches of events in order have the version history of their
      versions' last events, ten clusters have distinguishable failover versions,
      temporary files are removed but not closed ([Helpers]).
    - The starter of the demonstration starts every workflow once, two at a time,
      and ends; the worker serves what it starts ([Scripts]); and behind the
      proxy every one of the thousand workflows is routed once, to an active
      physical namespace, with exact allocation counters ([DemoRun], over the
      resolver's and the ring's refinement theorems).

    ** Parameters

    Code outside the repository is an argument, with what the proxy relies on
    as the laws of a class: [Murmur3] (with a reference implementation), [Gzip]
    (decompression undoes compression), [Redis] (a key-value store that may be
    unreachable), [Codecs] (a message decodes to what was encoded), the clusters
    behind the transport, the arrival order of their answers, [MapRange] (the
    iteration order of Go maps: some enumeration of the entries), the error
    texts of encoding/json, and in the harness the service, the handlers, the
    wrapped manager and the streams, [Services] (a cluster, a clock that does not
    run backwards and a paced ticker), [Gob] (a value decodes into a variable of
    its type), [Semver] (precedence is a strict order), [EndpointService] (a set
    of endpoints), [XdcServices] (the clusters of a suite and how often a
    condition is checked before its timeout), [UpdateService] (the calls about
    updates), [VersionHistories] (items only move forward), the dependency
    container, the outcome of commands, the clock, faults and address parsing
    behind the certificates, how the SDK runs an activity, and the free ports.  Each
    class has a concrete instance, at which the theorems are applied to concrete
    inputs.

    ** Bounds and fuel

    Loops over a list are structural.  [GoStrings.Split] and the JSON parser
    take fuel from the length of the input, shown to be enough for it.  The
    token scanner is run for a bound computed from the token's length, shown to
    decide the unbounded loop: what has not finished by then never does; every
    token that declares no absurd length is shown to finish, with a decoder's result.
    Termination of the fan-out is a decreasing measure.  [TaskPoller] takes
    the largest number of history pages as fuel; its theorem holds for every
    fuel and covers running out of it.  The two loops of [TestBase]'s
    registration take a number of tries as fuel; fourteen are shown to be
    enough, because the deadline is ten periods of the ticker away.  Waits that
    try again until a timeout take the number of tries that fit into it, and their
    theorems hold for every number.  Updates, the starter and the proxied
    connections are step relations; that they come to an end is [eventually],
    by a decreasing measure.

    ** Not modelled

    Clients of the proxy that disconnect while they wait; flag parsing; the listener, the HTTP/2 transport and the reverse proxy beyond
    the Director; the ticker's period; Prometheus metrics other than the
    allocation counter; the conformance tests themselves and their data
    ([ndc/test_data.go]); of the harness, the modules and databases of the server,
    which other packages hold, the assertion objects, and one-line accessors and
    conversions ([DecodeString], [MustToPayload]).  What is left of the sources
    beyond these is imports, declarations of fields without behaviour, logging and
    the tests.

    [ClusterSetup] keeps of a cluster's configuration the fields its constructor
    reads, and takes the results of every call into the server's packages, the
    Go tool, Elasticsearch and the operating system as the record [outside]; the
    two seconds it waits for the proxy are not modelled, so its theorems say what
    the proxy does once it serves. *)

From stdpp Require Export base gmap strings list sorting numbers pretty.
From stdpp Require Import options.
From Stdlib Require Export Init.Byte.
From Stdlib Require Strings.Byte.

#[export] Set Default Goal Selector "!".

(** * Machine integers

    Go's fixed-width integers are integers in Z with the wrap-around written
    out: [u8], [u32] and [u64] are conversions to the unsigned types, [i64] is
    the conversion to Go's 64-bit [int]. *)

Definition u8 (z : Z) : Z := z mod 2 ^ 8.
Definition u32 (z : Z) : Z := z mod 2 ^ 32.
Definition u64 (z : Z) : Z := z mod 2 ^ 64.
Definition i64 (z : Z) : Z := (z + 2 ^ 63) mod 2 ^ 64 - 2 ^ 63.

Lemma i64_small z : (- 2 ^ 63 ≤ z < 2 ^ 63)%Z → i64 z = z.
Proof. intros ?. unfold i64. rewrite Z.mod_small; lia. Qed.

Lemma u64_small z : (0 ≤ z < 2 ^ 64)%Z → u64 z = z.
Proof. intros ?. unfold u64. by rewrite Z.mod_small. Qed.

Lemma u64_range z : (0 ≤ u64 z < 2 ^ 64)%Z.
Proof. unfold u64. apply Z.mod_pos_bound. lia. Qed.

Lemma i64_range z : (- 2 ^ 63 ≤ i64 z < 2 ^ 63)%Z.
Proof.
  unfold i64. pose proof (Z.mod_pos_bound (z + 2 ^ 63) (2 ^ 64)). lia.
Qed.

(** Joining bits that do not overlap is adding. *)
Lemma lor_shiftl_disjoint a b n :
  (0 ≤ a < 2 ^ n)%Z → (0 ≤ b)%Z → (0 ≤ n)%Z → Z.lor a (Z.shiftl b n) = (a + b * 2 ^ n)%Z.
Proof.
  intros Ha Hb Hn.
  assert (Z.land a (Z.shiftl b n) = 0%Z) as Hland.
  { apply Z.bits_inj'. intros i Hi. rewrite Z.land_spec, Z.bits_0.
    destruct (decide (i < n)%Z).
    - rewrite Z.shiftl_spec_low by done. by rewrite andb_false_r.
    - rewrite <-(Z.mod_small a (2 ^ n)%Z) by done.
      rewrite Z.mod_pow2_bits_high by lia. done. }
  rewrite <-(Z.lxor_lor _ _ Hland), <-Z.add_nocarry_lxor by done.
  by rewrite Z.shiftl_mul_pow2.
Qed.

(** * Bytes and strings

    A [[]byte] is a [list byte]; a Go string is a byte sequence, a [string]. *)

#[global] Instance byte_eq_dec : EqDecision byte := Byte.byte_eq_dec.

Definition byteZ (b : byte) : Z := Z.of_N (Byte.to_N b).

(** [byte(z)] of Go: truncation to the low eight bits. *)
Definition byte_of_Z (z : Z) : byte :=
  default x00 (Byte.of_N (Z.to_N (u8 z))).

Definition bytes_of (s : string) : list byte := String.list_byte_of_string s.
Definition string_of (l : list byte) : string := String.string_of_list_byte l.

Lemma byteZ_range b : (0 ≤ byteZ b < 256)%Z.
Proof.
  unfold byteZ. pose proof (Byte.to_N_bounded b). lia.
Qed.

Lemma byteZ_of_Z z : byteZ (byte_of_Z z) = u8 z.
Proof.
  unfold byteZ, byte_of_Z, u8.
  pose proof (Z.mod_pos_bound z (2 ^ 8) ltac:(lia)) as Hb.
  destruct (Byte.of_N (Z.to_N (z mod 2 ^ 8))) as [b|] eqn:E; simpl.
  - apply Byte.to_of_N in E. rewrite E. lia.
  - apply Byte.of_N_None_iff in E. lia.
Qed.

Lemma byte_of_byteZ b : byte_of_Z (byteZ b) = b.
Proof.
  unfold byte_of_Z, u8. rewrite Z.mod_small by apply byteZ_range.
  unfold byteZ. by rewrite N2Z.id, Byte.of_to_N.
Qed.

Lemma string_of_bytes_of s : string_of (bytes_of s) = s.
Proof. apply String.string_of_list_byte_of_string. Qed.

Lemma bytes_of_string_of l : bytes_of (string_of l) = l.
Proof. apply String.list_byte_of_string_of_list_byte. Qed.

#[global] Instance bytes_of_inj : Inj (=) (=) bytes_of.
Proof.
  intros s1 s2 H%(f_equal string_of). by rewrite !string_of_bytes_of in H.
Qed.

(** * Results of a Go call

    A call returns a value, returns a non-nil [error], panics, or runs forever
    ([Diverge]; a definition answers it only where no number of iterations of
    the loop suffices, or where a bound given to it as fuel is used up).
    [GoM S] is the state monad over these outcomes: the state reached is kept
    also when the call fails or panics, because the writes it made remain. *)

Inductive res (A : Type) : Type :=
| Ok (a : A)
| Err (e : string)
| Panic (msg : string)
| Diverge.
Arguments Ok {_} _.
Arguments Err {_} _.
Arguments Panic {_} _.
Arguments Diverge {_}.

Definition GoM (S A : Type) : Type := S → S * res A.

#[global] Instance go_ret {S} : MRet (GoM S) := λ A a s, (s, Ok a).
#[global] Instance go_bind {S} : MBind (GoM S) := λ A B f m s,
  match m s with
  | (s', Ok a) => f a s'
  | (s', Err e) => (s', Err e)
  | (s', Panic p) => (s', Panic p)
  | (s', Diverge) => (s', Diverge)
  end.

Definition fail {S A} (e : string) : GoM S A := λ s, (s, Err e).
Definition panic {S A} (msg : string) : GoM S A := λ s, (s, Panic msg).
Definition gets {S A} (f : S → A) : GoM S A := λ s, (s, Ok (f s)).
Definition modify {S} (f : S → S) : GoM S unit := λ s, (f s, Ok tt).

(** A result computed without state, inside a stateful computation. *)
Definition lift {S A} (r : res A) : GoM S A := λ s, (s, r).

(** [if x, err := m; err != nil { ... }]: the error becomes a value. *)
Definition try {S A} (m : GoM S A) : GoM S (string + A) := λ s,
  match m s with
  | (s', Ok a) => (s', Ok (inr a))
  | (s', Err e) => (s', Ok (inl e))
  | (s', Panic p) => (s', Panic p)
  | (s', Diverge) => (s', Diverge)
  end.

Definition is_panic {A} (r : res A) : bool :=
  match r with Panic _ => true | _ => false end.

(** The call returns, with a value or an error. *)
Definition returns {A} (r : res A) : bool :=
  match r with Ok _ | Err _ => true | _ => false end.

Lemma go_bind_ret {S A B} (a : A) (f : A → GoM S B) s :
  (mret a ≫= f) s = f a s.
Proof. done. Qed.

Lemma go_bind_assoc {S A B C} (m : GoM S A) (f : A → GoM S B) (g : B → GoM S C) s :
  ((m ≫= f) ≫= g) s = (m ≫= λ a, f a ≫= g) s.
Proof. unfold mbind, go_bind. by destruct (m s) as [? []]. Qed.

Lemma go_bind_ok {S A B} (m : GoM S A) (f : A → GoM S B) s s' a :
  m s = (s', Ok a) → (m ≫= f) s = f a s'.
Proof. unfold mbind, go_bind. by intros ->. Qed.

Lemma go_bind_panic {S A B} (m : GoM S A) (f : A → GoM S B) s s' p :
  m s = (s', Panic p) → (m ≫= f) s = (s', Panic p).
Proof. unfold mbind, go_bind. by intros ->. Qed.

(** A sequence that ends well: every part did. *)
Lemma go_bind_Ok_inv {S A B} (m : GoM S A) (f : A → GoM S B) s s' b :
  (m ≫= f) s = (s', Ok b) → ∃ s1 a, m s = (s1, Ok a) ∧ f a s1 = (s', Ok b).
Proof. unfold mbind, go_bind. destruct (m s) as [s1 []]; naive_solver. Qed.

(** * Lists *)

Section list_facts.
Context {A : Type} (P : A → Prop) `{HP : ∀ x, Decision (P x)}.

Lemma list_filter_all (l : list A) : (∀ x, x ∈ l → P x) → filter P l = l.
Proof.
  induction l as [|x l IH]; intros Hl; [done|].
  rewrite filter_cons_True by set_solver. f_equal. set_solver.
Qed.

Lemma list_filter_none (l : list A) : (∀ x, x ∈ l → ¬ P x) → filter P l = [].
Proof.
  induction l as [|x l IH]; intros Hl; [done|].
  rewrite filter_cons_False by set_solver. set_solver.
Qed.
End list_facts.

(** * Liveness

    [eventually step P s]: every run from [s] reaches [P]; a run can only stop
    where no step is possible. *)

Section eventually.
Context {S : Type} (step : S → S → Prop).

Inductive eventually (P : S → Prop) (s : S) : Prop :=
| eventually_now : P s → eventually P s
| eventually_later :
    (∃ s', step s s') → (∀ s', step s s' → eventually P s') → eventually P s.

(** Whatever must happen can happen. *)
Lemma eventually_reaches (P : S → Prop) s :
  eventually P s → ∃ s', rtc step s s' ∧ P s'.
Proof.
  induction 1 as [s Hs|s [s1 H1] _ IH]; [by exists s|].
  destruct (IH s1 H1) as (s' & Hr & HP). exists s'. split; [by eapply rtc_l|done].
Qed.

Lemma eventually_weaken (P Q : S → Prop) s :
  (∀ s', P s' → Q s') → eventually P s → eventually Q s.
Proof.
  intros HPQ. induction 1 as [s Hs|s Hex _ IH]; [by apply eventually_now, HPQ|].
  by apply eventually_later.
Qed.

(** Under an invariant with a decreasing measure, progress is enough. *)
Lemma eventually_measure (I P : S → Prop) (m : S → nat) s :
  (∀ s, I s → P s ∨ ∃ s', step s s') →
  (∀ s s', I s → step s s' → I s' ∧ m s' < m s) →
  I s → eventually P s.
Proof.
  intros Hprog Hdec. revert s.
  refine (well_founded_induction (well_founded_ltof _ m) _ _). intros s IH Hs.
  destruct (Hprog s Hs) as [HP|Hex]; [by apply eventually_now|].
  apply eventually_later; [done|]. intros s' Hss'.
  destruct (Hdec s s' Hs Hss') as [Hs' Hlt]. by apply IH.
Qed.
End eventually.

(** Facts that close routine side conditions, shared by every component. *)
Create HintDb tempura.
#[export] Hint Resolve byteZ_range u64_range i64_range : tempura.

(** Unfolds the monad's operations in the goal. *)
Ltac go_simpl :=
  unfold mbind, go_bind, mret, go_ret, gets, modify, fail, panic, lift, try in *;
  cbn beta iota in *.
