(* ===== verification/GoStrings.v ===== *)
(** The functions of Go's [strings] and [strconv] packages the proxy calls:
    [strings.Index], [Contains], [Split], [Join], [Cut], [strconv.Itoa] and
    [Atoi], on byte strings, with the lemmas the namespace and ring components use. *)

From S2P Require Import Prelude.
From Stdlib Require Import Ascii.
From stdpp Require Import options.

(** [s[:n]] and [s[n:]] (the callers never slice out of range). *)
Fixpoint str_take (n : nat) (s : string) : string :=
  match n, s with
  | S n, String c s => String c (str_take n s)
  | _, _ => ""
  end.

Fixpoint str_drop (n : nat) (s : string) : string :=
  match n, s with
  | S n, String _ s => str_drop n s
  | _, _ => s
  end.

(** [strings.HasPrefix(s, p)]. *)
Fixpoint HasPrefix (s p : string) {struct p} : bool :=
  match p, s with
  | "", _ => true
  | String c p, String d s => bool_decide (c = d) && HasPrefix s p
  | String _ _, "" => false
  end.

(** [strings.Index(s, sep)]: the leftmost occurrence, [None] for -1. *)
Fixpoint Index (s sep : string) : option nat :=
  if HasPrefix s sep then Some 0
  else match s with
       | "" => None
       | String _ s => S <$> Index s sep
       end.

Definition Contains (s sub : string) : bool := bool_decide (is_Some (Index s sub)).

(** [strings.Split(s, sep)] for a non-empty separator: cut at the leftmost
    occurrence until none is left.  Every cut removes at least one byte, so the
    length of [s] bounds the number of cuts. *)
Fixpoint Split_fuel (fuel : nat) (s sep : string) : list string :=
  match fuel with
  | 0 => [s]
  | S fuel =>
      match Index s sep with
      | None => [s]
      | Some m => str_take m s :: Split_fuel fuel (str_drop (m + String.length sep) s) sep
      end
  end.

Definition Split (s sep : string) : list string := Split_fuel (String.length s) s sep.

(** [strings.Join(elems, sep)]. *)
Fixpoint Join (elems : list string) (sep : string) : string :=
  match elems with
  | [] => ""
  | [x] => x
  | x :: rest => x +:+ sep +:+ Join rest sep
  end.

(** [before, after, found := strings.Cut(s, sep)]. *)
Definition Cut (s sep : string) : string * string * bool :=
  match Index s sep with
  | Some m => (str_take m s, str_drop (m + String.length sep) s, true)
  | None => (s, "", false)
  end.

(** [strconv.Itoa] on the non-negative counters of the source. *)
Definition Itoa (n : nat) : string := pretty n.

(** [strconv.Atoi]: [None] is an error. *)
Definition digit_val (c : Ascii.ascii) : option Z :=
  let n := Z.of_nat (Ascii.nat_of_ascii c) in
  if decide (48 ≤ n ≤ 57)%Z then Some (n - 48)%Z else None.

Fixpoint digits_val (s : string) (acc : Z) : option Z :=
  match s with
  | EmptyString => Some acc
  | String c s => d ← digit_val c; digits_val s (acc * 10 + d)%Z
  end.

Definition Atoi (s : string) : option Z :=
  let '(neg, ds) :=
    if HasPrefix s "-" then (true, str_drop 1 s)
    else if HasPrefix s "+" then (false, str_drop 1 s) else (false, s) in
  if decide (ds = "") then None
  else
    v ← digits_val ds 0;
    let v := if neg : bool then (- v)%Z else v in
    if decide (- 2 ^ 63 ≤ v < 2 ^ 63)%Z then Some v else None.

(** * Facts about strings as character lists *)

Definition chars (s : string) : list Ascii.ascii := String.list_ascii_of_string s.

Lemma chars_app s1 s2 : chars (s1 +:+ s2) = chars s1 ++ chars s2.
Proof. unfold chars. induction s1 as [|c s1 IH]; simpl; [done|by f_equal]. Qed.

#[global] Instance chars_inj : Inj (=) (=) chars.
Proof.
  intros s1 s2 H%(f_equal String.string_of_list_ascii). unfold chars in H.
  by rewrite !String.string_of_list_ascii_of_string in H.
Qed.

Lemma length_chars s : length (chars s) = String.length s.
Proof. unfold chars. induction s; simpl; congruence. Qed.

Lemma str_app_assoc s1 s2 s3 : (s1 +:+ s2) +:+ s3 = s1 +:+ s2 +:+ s3.
Proof. apply (inj chars). rewrite !chars_app. by rewrite (assoc_L (++)). Qed.

Lemma str_app_nil_r s : s +:+ "" = s.
Proof. apply (inj chars). rewrite chars_app. by rewrite app_nil_r. Qed.

Lemma str_length_app s1 s2 : String.length (s1 +:+ s2) = String.length s1 + String.length s2.
Proof. rewrite <-!length_chars, chars_app. apply length_app. Qed.

Lemma str_cons_app c s1 s2 : String c s1 +:+ s2 = String c (s1 +:+ s2).
Proof. done. Qed.

Lemma str_take_app s1 s2 : str_take (String.length s1) (s1 +:+ s2) = s1.
Proof. induction s1 as [|c s1 IH]; simpl; [by destruct s2|by rewrite IH]. Qed.

Lemma str_drop_app s1 s2 : str_drop (String.length s1) (s1 +:+ s2) = s2.
Proof. induction s1 as [|c s1 IH]; simpl; [by destruct s2|done]. Qed.

Lemma str_take_length n s : n ≤ String.length s → String.length (str_take n s) = n.
Proof.
  revert s; induction n as [|n IH]; intros [|c s]; simpl; intros; try lia.
  rewrite IH; lia.
Qed.

Lemma str_drop_length n s : String.length (str_drop n s) = String.length s - n.
Proof. revert s; induction n as [|n IH]; intros [|c s]; simpl; auto. Qed.

Lemma str_take_drop n s : str_take n s +:+ str_drop n s = s.
Proof.
  revert s; induction n as [|n IH]; intros [|c s]; simpl; auto.
  by rewrite str_cons_app, IH.
Qed.

Lemma HasPrefix_spec s p : HasPrefix s p = true ↔ ∃ r, s = p +:+ r.
Proof.
  revert s. induction p as [|c p IH]; intros s; simpl.
  { split; [by exists s|by destruct s]. }
  destruct s as [|d s]; simpl.
  { split; [done|]. intros [r Hr]. by rewrite str_cons_app in Hr. }
  rewrite andb_true_iff, bool_decide_eq_true, IH. split.
  - intros [-> [r ->]]. exists r. done.
  - intros [r Hr]. rewrite str_cons_app in Hr. simplify_eq. split; [done|by exists r].
Qed.

#[global] Arguments HasPrefix : simpl never.

(** The separator sits where [Index] says. *)
Lemma Index_Some s sep m :
  Index s sep = Some m → str_drop m s = sep +:+ str_drop (m + String.length sep) s.
Proof.
  revert m. induction s as [|c s IH]; intros m; simpl.
  - destruct sep; simpl; [by intros [= <-]|done].
  - destruct (HasPrefix (String c s) sep) eqn:E.
    + intros [= <-]. simpl. apply HasPrefix_spec in E as [r Hr]. rewrite Hr at 2.
      by rewrite str_drop_app.
    + destruct (Index s sep) as [k|] eqn:Ek; simpl; [|done]. intros [= <-]. simpl. by apply IH.
Qed.

Lemma Index_bound s sep m :
  Index s sep = Some m → m + String.length sep ≤ String.length s.
Proof.
  intros H. pose proof H as Hs%Index_Some.
  apply (f_equal String.length) in Hs.
  rewrite str_length_app, !str_drop_length in Hs.
  assert (m ≤ String.length s); [|lia].
  revert m H Hs. induction s as [|c s IH]; intros m; simpl.
  - destruct sep; simpl; [by intros [= <-]|done].
  - destruct (HasPrefix _ _); [intros [= <-]; lia|].
    destruct (Index s sep) as [k|] eqn:Ek; simpl; [|done]. intros [= <-] ?.
    specialize (IH k eq_refl). lia.
Qed.

(** The fuel of [Split] is enough. *)
Lemma Split_fuel_enough sep s f1 f2 :
  sep ≠ "" → String.length s ≤ f1 → String.length s ≤ f2 →
  Split_fuel f1 s sep = Split_fuel f2 s sep.
Proof.
  intros Hsep. revert f2 s. induction f1 as [|f1 IH]; intros f2 s H1 H2.
  - destruct s; simpl in *; [|lia]. destruct f2; simpl; [done|]. by destruct sep.
  - destruct f2 as [|f2]; simpl.
    + destruct s; simpl in *; [|lia]. by destruct sep.
    + destruct (Index s sep) as [m|] eqn:E; [|done]. f_equal.
      apply Index_bound in E. destruct sep; [done|]. simpl in *.
      apply IH; rewrite str_drop_length; lia.
Qed.

(** [Split] cuts at the leftmost separator and goes on after it. *)
Lemma Split_unfold s sep :
  sep ≠ "" →
  Split s sep =
    match Index s sep with
    | None => [s]
    | Some m => str_take m s :: Split (str_drop (m + String.length sep) s) sep
    end.
Proof.
  intros Hsep. unfold Split.
  rewrite (Split_fuel_enough sep s _ (S (String.length s))); [|done|lia..].
  simpl. destruct (Index s sep) as [m|] eqn:E; [|done]. f_equal.
  apply Split_fuel_enough; [done| |lia].
  rewrite str_drop_length. lia.
Qed.

(** Cutting and joining are inverse: nothing of the input is lost. *)
Lemma Join_Split s sep : sep ≠ "" → Join (Split s sep) sep = s.
Proof.
  intros Hsep. remember (String.length s) as n eqn:Hn.
  revert s Hn. induction (lt_wf n) as [n _ IH]; intros s ->.
  rewrite Split_unfold by done.
  destruct (Index s sep) as [m|] eqn:E; [|done].
  pose proof (Index_bound _ _ _ E) as Hb. pose proof (Index_Some _ _ _ E) as Hd.
  set (r := str_drop (m + String.length sep) s) in *.
  assert (Hlt : String.length r < String.length s).
  { unfold r. rewrite str_drop_length. destruct sep; [done|]. simpl in *. lia. }
  specialize (IH _ Hlt r eq_refl).
  destruct (Split r sep) as [|x l] eqn:Es.
  { exfalso. rewrite Split_unfold in Es by done. by destruct (Index r sep). }
  change (str_take m s +:+ sep +:+ Join (x :: l) sep = s).
  rewrite IH, <-Hd. apply str_take_drop.
Qed.

(** * Decimal numerals *)

Definition is_digit (c : Ascii.ascii) : Prop :=
  c ∈ ["0"; "1"; "2"; "3"; "4"; "5"; "6"; "7"; "8"; "9"]%char.

Lemma pretty_N_go_digits x s :
  Forall is_digit (chars s) → Forall is_digit (chars (pretty_N_go x s)).
Proof.
  revert s. induction (N.lt_wf_0 x) as [x _ IH]; intros s Hs.
  destruct (decide (x = 0%N)) as [->|]; [by rewrite pretty_N_go_0|].
  rewrite pretty_N_go_step by lia. apply IH; [apply N.div_lt; lia|].
  constructor; [|done]. unfold is_digit, pretty_N_char. repeat case_match; set_solver.
Qed.

Lemma Itoa_digits n : Forall is_digit (chars (Itoa n)).
Proof.
  unfold Itoa, pretty, pretty_nat, pretty, pretty_N. case_decide.
  - repeat constructor.
  - apply pretty_N_go_digits. constructor.
Qed.

#[global] Instance Itoa_inj : Inj (=) (=) Itoa.
Proof. unfold Itoa. apply _. Qed.
