(* ===== verification/GoSort.v ===== *)
(** The two functions of Go's [sort] package the ring uses: the binary search
    [sort.Search] and the in-place [sort.Slice], with the specifications the
    ring's proofs rely on. *)

From S2P Require Import Prelude.
From Equations Require Import Equations.
From stdpp Require Import options.

(** [h := int(uint(i+j) >> 1)]. *)
Definition midpoint (i j : nat) : nat := Nat.div2 (i + j).

Lemma midpoint_bound i j : i < j → i ≤ midpoint i j < j.
Proof.
  unfold midpoint. intros ?.
  pose proof (Nat.div2_odd (i + j)). destruct (Nat.odd (i + j)); simpl in *; lia.
Qed.

(** [sort.Search]'s loop, [for i < j { h := ...; if !f(h) { i = h+1 } else { j = h } }]. *)
Equations? Search_loop (f : nat → bool) (i j : nat) : nat by wf (j - i) lt :=
  Search_loop f i j with decide (i < j) => {
    | right _ => i
    | left Hlt with f (midpoint i j) => {
        | false => Search_loop f (S (midpoint i j)) j
        | true => Search_loop f i (midpoint i j) } }.
Proof. all: pose proof (midpoint_bound i j Hlt); lia. Qed.

Definition Search (n : nat) (f : nat → bool) : nat := Search_loop f 0 n.

(** The loop keeps "everything below [i] fails, everything from [j] on holds";
    for a monotone predicate it ends at the boundary. *)
Lemma Search_loop_spec f n i j :
  (∀ a b, a ≤ b → b < n → f a = true → f b = true) →
  i ≤ j → j ≤ n →
  (∀ a, a < i → f a = false) → (∀ a, j ≤ a → a < n → f a = true) →
  Search_loop f i j ≤ n ∧
  (∀ a, a < Search_loop f i j → f a = false) ∧
  (∀ a, Search_loop f i j ≤ a → a < n → f a = true).
Proof.
  intros Hmono. funelim (Search_loop f i j); intros Hij Hjn Hlo Hhi.
  - assert (i = j) as -> by lia. auto.
  - pose proof (midpoint_bound i j Hlt). apply H; [done|lia|lia|done|].
    intros a ??. apply (Hmono (midpoint i j)); auto.
  - pose proof (midpoint_bound i j Hlt). apply H; [done|lia|lia| |done].
    intros a ?. destruct (f a) eqn:Ea; [|done].
    rewrite (Hmono a (midpoint i j)) in Heq; [done|lia|lia|done].
Qed.

Lemma Search_spec n f :
  (∀ a b, a ≤ b → b < n → f a = true → f b = true) →
  Search n f ≤ n ∧
  (∀ a, a < Search n f → f a = false) ∧
  (∀ a, Search n f ≤ a → a < n → f a = true).
Proof. intros H. apply (Search_loop_spec f n 0 n); auto with lia. Qed.

(** [sort.Slice(s, func(i, j int) bool { return s[i] < s[j] })] on integers.
    The algorithm is not stable, but a sorted permutation of a list of integers
    is unique ([sort_ints_unique]), so the result does not depend on it. *)
Definition sort_ints (l : list Z) : list Z := merge_sort Z.le l.

Lemma sort_ints_sorted l : Sorted Z.le (sort_ints l).
Proof. apply Sorted_merge_sort. apply _. Qed.

Lemma sort_ints_perm l : sort_ints l ≡ₚ l.
Proof. apply merge_sort_Permutation. Qed.

Lemma sort_ints_unique l k : Sorted Z.le k → k ≡ₚ l → k = sort_ints l.
Proof.
  intros Hs Hp. apply (Sorted_unique Z.le); [done|apply sort_ints_sorted|].
  by rewrite sort_ints_perm.
Qed.

Lemma elem_of_sort_ints x l : x ∈ sort_ints l ↔ x ∈ l.
Proof. by rewrite sort_ints_perm. Qed.

Lemma sorted_lookup_le l i j x y :
  Sorted Z.le l → i ≤ j → l !! i = Some x → l !! j = Some y → (x ≤ y)%Z.
Proof.
  intros Hs%(Sorted_StronglySorted _) Hij Hi Hj.
  destruct (decide (i = j)) as [->|]; [assert (x = y) by congruence; lia|].
  rewrite <-(take_drop (S i) l) in Hs.
  eapply (StronglySorted_app_1_elem_of _ _ _ x y) in Hs; [done| |].
  - apply list_elem_of_lookup. exists i. rewrite lookup_take_lt by lia. done.
  - apply list_elem_of_lookup. exists (j - S i). rewrite lookup_drop.
    by replace (S i + (j - S i)) with j by lia.
Qed.

Lemma Sorted_filter_le (P : Z → Prop) `{∀ x, Decision (P x)} (l : list Z) :
  Sorted Z.le l → Sorted Z.le (filter P l).
Proof.
  intros Hs%(Sorted_StronglySorted _). apply StronglySorted_Sorted.
  induction Hs as [|x l Hs IH Hx]; [constructor|].
  rewrite filter_cons. case_decide; [|done]. constructor; [done|].
  rewrite Forall_forall in *.
  intros y [_ Hy]%list_elem_of_filter. auto.
Qed.
