(* ===== verification/ConsistentHash.v ===== *)
(** The consistent-hash ring of [resolver.go]: the structure, its operations,
    its well-formedness invariant, the abstract "clockwise owner" specification
    of a lookup, and the refinement of the ring against the multiset of slots
    registered in it. *)

From S2P Require Import Prelude GoStrings GoSort.
From Stdlib Require Import Ascii.
From stdpp Require Import options.

(** The third-party package [github.com/spaolacci/murmur3]: [Sum32] hashes a
    byte slice to a [uint32].  The hash is an argument of everything below. *)
Class Murmur3 := {
  Sum32 : list byte → Z;
  Sum32_uint32 : ∀ b, (0 ≤ Sum32 b < 2 ^ 32)%Z
}.

(** * The structure and its operations *)

Record ConsistentHash := mkConsistentHash {
  virtualNodes : nat;                (* number of virtual replicas per slot *)
  ring : list Z;                     (* sorted list of vnode hashes *)
  vnodeToSlot : gmap Z string        (* vnode hash -> slot name *)
}.

Definition NewConsistentHash (virtualNodes : nat) : ConsistentHash :=
  mkConsistentHash virtualNodes [] ∅.

Section ring_operations.
Context {M3 : Murmur3}.

Definition hash32 (key : string) : Z := Sum32 (bytes_of key).

(** [vnodeName := slot + "#" + strconv.Itoa(i)]. *)
Definition vnodeName (slot : string) (i : nat) : string :=
  slot +:+ "#" +:+ Itoa i.

(** The body of [AddSlot]'s loop. *)
Definition AddSlot_step (slot : string) (st : list Z * gmap Z string) (i : nat)
    : list Z * gmap Z string :=
  let hash := hash32 (vnodeName slot i) in
  (st.1 ++ [hash], <[hash := slot]> st.2).

Definition AddSlot (slot : string) (ch : ConsistentHash) : ConsistentHash :=
  let st := foldl (AddSlot_step slot) (ring ch, vnodeToSlot ch) (seq 0 (virtualNodes ch)) in
  mkConsistentHash (virtualNodes ch) (sort_ints st.1) st.2.

Definition GetSlot (ch : ConsistentHash) (key : string) : string :=
  match ring ch with
  | [] => ""
  | _ =>
      let hash := hash32 key in
      let idx := Search (length (ring ch))
                   (λ i, bool_decide (hash ≤ nth i (ring ch) 0)%Z) in
      let idx := if decide (idx = length (ring ch)) then 0 else idx in
      default "" (vnodeToSlot ch !! nth idx (ring ch) 0%Z)
  end.

(** The body of [RemoveSlot]'s first loop: collect the hash, delete the vnode. *)
Definition RemoveSlot_step (slot : string) (st : gset Z * gmap Z string) (i : nat)
    : gset Z * gmap Z string :=
  let hash := hash32 (vnodeName slot i) in
  ({[hash]} ∪ st.1, delete hash st.2).

(** [make([]uint32, 0, len(ch.ring)-ch.virtualNodes)] panics when the capacity
    is negative; by then the vnodes are already deleted from the map. *)
Definition RemoveSlot (slot : string) : GoM ConsistentHash unit := λ ch,
  let st := foldl (RemoveSlot_step slot) (∅, vnodeToSlot ch) (seq 0 (virtualNodes ch)) in
  if decide (length (ring ch) < virtualNodes ch) then
    (mkConsistentHash (virtualNodes ch) (ring ch) st.2,
     Panic "runtime error: makeslice: cap out of range")
  else
    (mkConsistentHash (virtualNodes ch) (filter (λ h, h ∉ st.1) (ring ch)) st.2, Ok tt).

(** The body of [GetAllSlots]'s loop over the map's values. *)
Definition GetAllSlots_step (st : gset string * list string) (slot : string)
    : gset string * list string :=
  if decide (slot ∈ st.1) then st else ({[slot]} ∪ st.1, st.2 ++ [slot]).

(** The order of a range over a map is unspecified: [map_to_list] is one. *)
Definition GetAllSlots (ch : ConsistentHash) : list string :=
  (foldl GetAllSlots_step (∅, []) (map_to_list (vnodeToSlot ch)).*2).2.

(** * What the loops compute *)

(** The hashes of a slot's virtual nodes. *)
Definition vhashes (n : nat) (slot : string) : list Z :=
  (λ i, hash32 (vnodeName slot i)) <$> seq 0 n.

Lemma elem_of_vhashes n slot h :
  h ∈ vhashes n slot ↔ ∃ i, i < n ∧ h = hash32 (vnodeName slot i).
Proof.
  unfold vhashes. rewrite list_elem_of_fmap. setoid_rewrite elem_of_seq.
  split; intros (i & ? & ?); exists i; split; auto with lia.
Qed.

Lemma length_vhashes n slot : length (vhashes n slot) = n.
Proof. unfold vhashes. by rewrite length_fmap, length_seq. Qed.

Lemma AddSlot_loop slot l r m :
  foldl (AddSlot_step slot) (r, m) l =
    (r ++ ((λ i, hash32 (vnodeName slot i)) <$> l),
     foldl (λ m i, <[hash32 (vnodeName slot i) := slot]> m) m l).
Proof.
  revert r m. induction l as [|i l IH]; intros r m; simpl.
  - by rewrite app_nil_r.
  - etrans; [apply IH|]. simpl. by rewrite <-app_assoc.
Qed.

Lemma AddSlot_loop_lookup slot l (m : gmap Z string) h :
  foldl (λ m i, <[hash32 (vnodeName slot i) := slot]> m) m l !! h =
    if decide (h ∈ (λ i, hash32 (vnodeName slot i)) <$> l) then Some slot else m !! h.
Proof.
  revert m. induction l as [|i l IH]; intros m; simpl; [done|].
  rewrite IH. destruct (decide (hash32 (vnodeName slot i) = h)) as [<-|Hne].
  - rewrite lookup_insert_eq. repeat case_decide; set_solver.
  - rewrite lookup_insert_ne by done. repeat case_decide; set_solver.
Qed.

Lemma AddSlot_ring slot ch :
  ring (AddSlot slot ch) ≡ₚ ring ch ++ vhashes (virtualNodes ch) slot.
Proof. unfold AddSlot. rewrite AddSlot_loop. simpl. apply sort_ints_perm. Qed.

Lemma AddSlot_ring_eq slot ch :
  ring (AddSlot slot ch) = sort_ints (ring ch ++ vhashes (virtualNodes ch) slot).
Proof. unfold AddSlot. by rewrite AddSlot_loop. Qed.

Lemma AddSlot_map slot ch h :
  vnodeToSlot (AddSlot slot ch) !! h =
    if decide (h ∈ vhashes (virtualNodes ch) slot) then Some slot
    else vnodeToSlot ch !! h.
Proof. unfold AddSlot. rewrite AddSlot_loop. simpl. apply AddSlot_loop_lookup. Qed.

Lemma RemoveSlot_loop slot l X (m : gmap Z string) :
  let hs := (λ i, hash32 (vnodeName slot i)) <$> l in
  (∀ h, h ∈ (foldl (RemoveSlot_step slot) (X, m) l).1 ↔ h ∈ X ∨ h ∈ hs) ∧
  (∀ h, (foldl (RemoveSlot_step slot) (X, m) l).2 !! h =
     if decide (h ∈ hs) then None else m !! h).
Proof.
  revert X m. induction l as [|i l IH]; intros X m; simpl; [set_solver|].
  destruct (IH ({[hash32 (vnodeName slot i)]} ∪ X) (delete (hash32 (vnodeName slot i)) m))
    as [IH1 IH2].
  split; intros h.
  - rewrite IH1. set_solver.
  - rewrite IH2. destruct (decide (hash32 (vnodeName slot i) = h)) as [<-|Hne].
    + rewrite lookup_delete_eq. repeat case_decide; set_solver.
    + rewrite lookup_delete_ne by done. repeat case_decide; set_solver.
Qed.

(** [RemoveSlot] panics exactly when the ring is shorter than one slot's
    virtual nodes, and always deletes the slot's vnodes from the map. *)
Lemma RemoveSlot_map slot ch h :
  vnodeToSlot (RemoveSlot slot ch).1 !! h =
    if decide (h ∈ vhashes (virtualNodes ch) slot) then None else vnodeToSlot ch !! h.
Proof.
  unfold RemoveSlot. destruct (RemoveSlot_loop slot (seq 0 (virtualNodes ch)) ∅ (vnodeToSlot ch))
    as [_ H]. case_decide; simpl; apply H.
Qed.

Lemma RemoveSlot_ok slot ch :
  virtualNodes ch ≤ length (ring ch) →
  (RemoveSlot slot ch).2 = Ok tt ∧
  ring (RemoveSlot slot ch).1 = filter (λ h, h ∉ vhashes (virtualNodes ch) slot) (ring ch).
Proof.
  intros Hlen. unfold RemoveSlot.
  destruct (RemoveSlot_loop slot (seq 0 (virtualNodes ch)) ∅ (vnodeToSlot ch)) as [H _].
  case_decide; [lia|]. simpl. split; [done|].
  apply list_filter_iff. intros h. rewrite H. set_solver.
Qed.

Lemma RemoveSlot_short slot ch :
  length (ring ch) < virtualNodes ch →
  (RemoveSlot slot ch).2 = Panic "runtime error: makeslice: cap out of range" ∧
  ring (RemoveSlot slot ch).1 = ring ch.
Proof. intros Hlen. unfold RemoveSlot. by case_decide. Qed.

Lemma virtualNodes_RemoveSlot slot ch :
  virtualNodes (RemoveSlot slot ch).1 = virtualNodes ch.
Proof. unfold RemoveSlot. by case_decide. Qed.

Lemma RemoveSlot_ok_iff slot ch :
  (RemoveSlot slot ch).2 = Ok tt ↔ virtualNodes ch ≤ length (ring ch).
Proof. unfold RemoveSlot. case_decide; simpl; split; intros; auto with lia. done. Qed.

(** Distinct slots have distinct vnode names: only the hash can make them collide. *)
Lemma vnodeName_inj s1 s2 i j : vnodeName s1 i = vnodeName s2 j → s1 = s2 ∧ i = j.
Proof.
  intros H%(f_equal chars). unfold vnodeName in H. rewrite !chars_app in H.
  assert (Hd : ∀ n, "#"%char ∉ chars (Itoa n)).
  { intros n Hin. pose proof (Itoa_digits n) as HF. rewrite Forall_forall in HF.
    specialize (HF _ Hin). unfold is_digit in HF. set_solver. }
  apply not_elem_of_app_cons_inv_r in H as (H1 & _ & H2); [|apply Hd|apply Hd].
  apply (inj chars) in H1, H2. by apply (inj Itoa) in H2.
Qed.

(** * The invariant *)

(** Sorted ring, every ring entry owned and every owned hash in the ring, and
    every hash comes from a virtual node of its owner. *)
Record ring_wf (ch : ConsistentHash) : Prop := {
  wf_sorted : Sorted Z.le (ring ch);
  wf_dom : ∀ h, h ∈ ring ch ↔ is_Some (vnodeToSlot ch !! h);
  wf_origin : ∀ h s, vnodeToSlot ch !! h = Some s → h ∈ vhashes (virtualNodes ch) s
}.

Lemma ring_wf_new n : ring_wf (NewConsistentHash n).
Proof.
  split; simpl; [constructor| |intros; by simplify_map_eq].
  intros h. rewrite lookup_empty. split; [set_solver|intros [? ?]; done].
Qed.

Lemma ring_wf_AddSlot slot ch : ring_wf ch → ring_wf (AddSlot slot ch).
Proof.
  intros [Hs Hd Ho]. split.
  - rewrite AddSlot_ring_eq. apply sort_ints_sorted.
  - intros h. rewrite AddSlot_ring, AddSlot_map, elem_of_app, Hd.
    case_decide; naive_solver.
  - intros h s. rewrite AddSlot_map. simpl. case_decide; naive_solver.
Qed.

Lemma ring_wf_RemoveSlot slot ch :
  ring_wf ch → virtualNodes ch ≤ length (ring ch) → ring_wf (RemoveSlot slot ch).1.
Proof.
  intros [Hs Hd Ho] Hlen. destruct (RemoveSlot_ok slot ch Hlen) as [_ Hr]. split.
  - rewrite Hr. by apply Sorted_filter_le.
  - intros h. rewrite Hr, RemoveSlot_map, list_elem_of_filter, Hd.
    case_decide; naive_solver.
  - intros h s. rewrite RemoveSlot_map, virtualNodes_RemoveSlot. case_decide; [done|apply Ho].
Qed.
End ring_operations.

#[global] Arguments AddSlot : simpl never.
#[global] Arguments RemoveSlot : simpl never.
#[global] Arguments GetSlot : simpl never.
#[global] Arguments vhashes : simpl never.
