(* ===== verification/Murmur.v ===== *)
(** MurmurHash3 x86_32 with seed 0, the function [murmur3.Sum32] documents, as
    one concrete instance of the hash parameter.  It only serves to evaluate
    the development on concrete inputs: no theorem depends on it. *)

From S2P Require Import Prelude ConsistentHash.
From stdpp Require Import options.

Local Open Scope Z_scope.

Definition mul32 (a b : Z) : Z := u32 (a * b).
Definition rotl32 (x r : Z) : Z := Z.lor (u32 (Z.shiftl x r)) (Z.shiftr x (32 - r)).
Definition mix_k (k : Z) : Z := mul32 (rotl32 (mul32 k 3432918353) 15) 461845907.

(** Four-byte blocks, little endian, then the tail of at most three bytes. *)
Fixpoint murmur_body (h : Z) (l : list byte) : Z :=
  match l with
  | b0 :: b1 :: b2 :: b3 :: rest =>
      let k := byteZ b0 + byteZ b1 * 2 ^ 8 + byteZ b2 * 2 ^ 16 + byteZ b3 * 2 ^ 24 in
      murmur_body (u32 (rotl32 (Z.lxor h (mix_k k)) 13 * 5 + 3864292196)) rest
  | [] => h
  | [b0] => Z.lxor h (mix_k (byteZ b0))
  | [b0; b1] => Z.lxor h (mix_k (byteZ b0 + byteZ b1 * 2 ^ 8))
  | [b0; b1; b2] => Z.lxor h (mix_k (byteZ b0 + byteZ b1 * 2 ^ 8 + byteZ b2 * 2 ^ 16))
  end.

Definition fmix32 (h : Z) : Z :=
  let h := mul32 (Z.lxor h (Z.shiftr h 16)) 2246822507 in
  let h := mul32 (Z.lxor h (Z.shiftr h 13)) 3266489909 in
  u32 (Z.lxor h (Z.shiftr h 16)).

Definition murmur3_32 (l : list byte) : Z :=
  fmix32 (Z.lxor (murmur_body 0 l) (Z.of_nat (length l))).

Lemma murmur3_32_range l : 0 ≤ murmur3_32 l < 2 ^ 32.
Proof. unfold murmur3_32, fmix32, u32. apply Z.mod_pos_bound. lia. Qed.

Definition Murmur3_ref : Murmur3 :=
  {| Sum32 := murmur3_32; Sum32_uint32 := murmur3_32_range |}.

(** Published test vectors. *)
Example murmur3_hello : murmur3_32 (bytes_of "hello") = 613153351.
Proof. vm_compute. reflexivity. Qed.

Example murmur3_hello_world : murmur3_32 (bytes_of "hello, world") = 345750399.
Proof. vm_compute. reflexivity. Qed.
