(* ===== verification/RingSpec.v ===== *)
(** What the consistent-hash ring promises: a lookup returns the clockwise
    owner of the key, adding or removing a slot moves only the keys it must,
    and the ring refines the multiset of slots registered in it. *)

From S2P Require Import Prelude GoStrings GoSort ConsistentHash Murmur.
From stdpp Require Import options.

(** * Clockwise successor, for any set of points on the circle *)

(** [x] is the first point of [P] at or after [h], wrapping to the least one. *)
Definition clockwise (P : Z → Prop) (h x : Z) : Prop :=
  P x ∧ ((h ≤ x ∧ ∀ y, P y → h ≤ y → x ≤ y) ∨ (∀ y, P y → y < h ∧ x ≤ y))%Z.

Lemma clockwise_unique P h x y : clockwise P h x → clockwise P h y → x = y.
Proof.
  intros [Hx [[Hhx Hmx]|Hwx]] [Hy [[Hhy Hmy]|Hwy]].
  - specialize (Hmx y Hy Hhy). specialize (Hmy x Hx Hhx). lia.
  - specialize (Hwy x Hx). lia.
  - specialize (Hwx y Hy). lia.
  - pose proof (Hwx y Hy). pose proof (Hwy x Hx). lia.
Qed.

Lemma clockwise_iff P Q h x : (∀ y, P y ↔ Q y) → clockwise P h x ↔ clockwise Q h x.
Proof.
  intros HPQ. unfold clockwise. rewrite HPQ. setoid_rewrite HPQ. done.
Qed.

(** Restricting to a subset that keeps the successor keeps it the successor. *)
Lemma clockwise_subset (P Q : Z → Prop) h x :
  (∀ y, P y → Q y) → P x → clockwise Q h x → clockwise P h x.
Proof. unfold clockwise. naive_solver. Qed.

Section ring_spec.
Context {M3 : Murmur3}.

(** * The lookup *)

Lemma nth_lookup_Some (l : list Z) i : i < length l → l !! i = Some (nth i l 0%Z).
Proof.
  intros [x Hx]%lookup_lt_is_Some. rewrite nth_lookup, Hx. done.
Qed.

(** The binary search of [GetSlot] finds the clockwise successor. *)
Lemma Search_clockwise (l : list Z) h :
  Sorted Z.le l → l ≠ [] →
  let idx := Search (length l) (λ i, bool_decide (h ≤ nth i l 0)%Z) in
  let idx := if decide (idx = length l) then 0 else idx in
  clockwise (.∈ l) h (nth idx l 0%Z).
Proof.
  intros Hs Hne. cbv zeta. set (f := λ i, bool_decide (h ≤ nth i l 0)%Z).
  destruct (Search_spec (length l) f) as (Hle & Hlo & Hhi).
  { intros a b Hab Hb. unfold f. rewrite !bool_decide_eq_true. intros Ha.
    etrans; [exact Ha|].
    apply (sorted_lookup_le l a b); [done|done|apply nth_lookup_Some; lia..]. }
  set (k := Search (length l) f) in *.
  assert (Hlow : ∀ i y, i < k → l !! i = Some y → (y < h)%Z).
  { intros i y Hi Hy. specialize (Hlo i Hi). unfold f in Hlo.
    rewrite bool_decide_eq_false, nth_lookup, Hy in Hlo. simpl in Hlo. lia. }
  assert (Hin : ∀ i, i < length l → nth i l 0%Z ∈ l).
  { intros i Hi. apply list_elem_of_lookup. exists i. by apply nth_lookup_Some. }
  destruct l as [|z l']; [done|]. set (l := z :: l') in *.
  case_decide as Hk.
  - split; [apply Hin; simpl; lia|]. right. intros y [i Hi]%list_elem_of_lookup.
    pose proof (lookup_lt_Some _ _ _ Hi). split; [eapply Hlow; [|done]; lia|].
    apply (sorted_lookup_le l 0 i); [done|lia|apply nth_lookup_Some; simpl; lia|done].
  - split; [apply Hin; lia|]. left. split.
    { specialize (Hhi k ltac:(lia) ltac:(lia)). unfold f in Hhi.
      by apply bool_decide_eq_true in Hhi. }
    intros y [i Hi]%list_elem_of_lookup Hy.
    assert (k ≤ i). { destruct (decide (i < k)) as [Hc|]; [|lia].
      specialize (Hlow i y Hc Hi). lia. }
    apply (sorted_lookup_le l k i); [done|done|apply nth_lookup_Some; lia|done].
Qed.

(** A lookup in a well-formed non-empty ring returns the slot that owns the
    clockwise successor of the key's hash. *)
Lemma GetSlot_owner ch key :
  ring_wf ch → ring ch ≠ [] →
  ∃ x, clockwise (.∈ ring ch) (hash32 key) x ∧
       vnodeToSlot ch !! x = Some (GetSlot ch key).
Proof.
  intros Hwf Hne.
  pose proof (Search_clockwise _ (hash32 key) (wf_sorted _ Hwf) Hne) as Hc.
  cbv zeta in Hc. eexists. split; [exact Hc|].
  destruct Hc as [Hin _]. apply (wf_dom _ Hwf) in Hin as [s Hs].
  unfold GetSlot. destruct (ring ch) as [|z l'] eqn:E; [done|].
  rewrite <-E in *. by rewrite Hs.
Qed.

Lemma GetSlot_empty ch key : ring ch = [] → GetSlot ch key = "".
Proof. unfold GetSlot. by intros ->. Qed.

(** The owner determines the lookup. *)
Lemma GetSlot_eq ch key x s :
  ring_wf ch → clockwise (.∈ ring ch) (hash32 key) x →
  vnodeToSlot ch !! x = Some s → GetSlot ch key = s.
Proof.
  intros Hwf Hc Hs.
  destruct (GetSlot_owner ch key Hwf) as (y & Hy & Hs').
  { intros E. destruct Hc as [Hin _]. rewrite E in Hin. set_solver. }
  rewrite (clockwise_unique _ _ _ _ Hc Hy) in Hs. congruence.
Qed.

(** * Equivalent rings

    Two well-formed rings with the same owner map answer every lookup alike,
    also when one holds a hash several times (a slot added twice). *)
Definition ring_eqv (c1 c2 : ConsistentHash) : Prop :=
  ring_wf c1 ∧ ring_wf c2 ∧ virtualNodes c1 = virtualNodes c2 ∧
  vnodeToSlot c1 = vnodeToSlot c2.

#[global] Instance ring_eqv_sym : Symmetric ring_eqv.
Proof. unfold ring_eqv. intros ??. naive_solver. Qed.

#[global] Instance ring_eqv_trans : Transitive ring_eqv.
Proof. unfold ring_eqv. intros ???. naive_solver congruence. Qed.

Lemma ring_eqv_elem c1 c2 h : ring_eqv c1 c2 → h ∈ ring c1 ↔ h ∈ ring c2.
Proof. intros (H1 & H2 & _ & Hm). by rewrite (wf_dom _ H1), (wf_dom _ H2), Hm. Qed.

#[global] Instance GetSlot_proper : Proper (ring_eqv ==> eq ==> eq) GetSlot.
Proof.
  intros c1 c2 Heqv key ? <-. pose proof Heqv as (Hwf1 & Hwf2 & _ & Hm).
  destruct (decide (ring c1 = [])) as [E1|Hne].
  - assert (ring c2 = []) as E2.
    { destruct (ring c2) as [|z l] eqn:E2; [done|].
      assert (z ∈ ring c1) as Hz by (apply (ring_eqv_elem _ _ z Heqv); rewrite E2; set_solver).
      rewrite E1 in Hz. set_solver. }
    by rewrite !GetSlot_empty.
  - destruct (GetSlot_owner c1 key Hwf1 Hne) as (x & Hx & Hs). symmetry.
    eapply GetSlot_eq; [done| |by rewrite <-Hm].
    eapply clockwise_iff; [|exact Hx]. intros y. symmetry. by apply ring_eqv_elem.
Qed.

#[global] Instance AddSlot_proper : Proper (eq ==> ring_eqv ==> ring_eqv) AddSlot.
Proof.
  intros s ? <- c1 c2 (H1 & H2 & Hn & Hm).
  split; [by apply ring_wf_AddSlot|]. split; [by apply ring_wf_AddSlot|].
  split; [done|]. apply map_eq. intros h. by rewrite !AddSlot_map, Hn, Hm.
Qed.

(** Registering a slot a second time changes no lookup. *)
Lemma AddSlot_twice s ch :
  ring_wf ch → ring_eqv (AddSlot s (AddSlot s ch)) (AddSlot s ch).
Proof.
  intros Hwf. pose proof (ring_wf_AddSlot s _ Hwf) as H1.
  split; [by apply ring_wf_AddSlot|]. split; [done|]. split; [done|].
  apply map_eq. intros h. rewrite !AddSlot_map. simpl. by case_decide.
Qed.

(** * Minimal disruption *)

Lemma AddSlot_elem s ch h :
  h ∈ ring (AddSlot s ch) ↔ h ∈ ring ch ∨ h ∈ vhashes (virtualNodes ch) s.
Proof. by rewrite AddSlot_ring, elem_of_app. Qed.

(** After [AddSlot s], a key stays where it was or moves to [s]. *)
Lemma AddSlot_stays_or_new s ch key :
  ring_wf ch → ring ch ≠ [] →
  GetSlot (AddSlot s ch) key = GetSlot ch key ∨ GetSlot (AddSlot s ch) key = s.
Proof.
  intros Hwf Hne. pose proof (ring_wf_AddSlot s _ Hwf) as Hwf'.
  destruct (GetSlot_owner (AddSlot s ch) key Hwf') as (x & Hx & Hs).
  { destruct (ring ch) as [|z l] eqn:E; [done|]. intros E'.
    assert (z ∈ ring (AddSlot s ch)) as Hz by (rewrite AddSlot_elem, E; set_solver).
    rewrite E' in Hz. set_solver. }
  rewrite AddSlot_map in Hs. case_decide as Hin; [right; congruence|left].
  symmetry. eapply GetSlot_eq; [done| |done].
  eapply clockwise_subset; [| |exact Hx].
  - intros y. rewrite AddSlot_elem. auto.
  - apply (wf_dom _ Hwf). eauto.
Qed.

(** A ring with one slot sends every key to it. *)
Lemma GetSlot_single n s key : 0 < n → GetSlot (AddSlot s (NewConsistentHash n)) key = s.
Proof.
  intros Hn.
  destruct (GetSlot_owner (AddSlot s (NewConsistentHash n)) key) as (x & _ & Hx).
  - apply ring_wf_AddSlot, ring_wf_new.
  - intros E%(f_equal length). rewrite AddSlot_ring in E. simpl in E.
    rewrite length_vhashes in E. lia.
  - rewrite AddSlot_map in Hx. case_decide; [congruence|]. simpl in Hx. by rewrite lookup_empty in Hx.
Qed.

(** No virtual node of [s] is owned by another slot. *)
Definition unshared (s : string) (ch : ConsistentHash) : Prop :=
  ∀ h t, h ∈ vhashes (virtualNodes ch) s → vnodeToSlot ch !! h = Some t → t = s.

Lemma RemoveSlot_elem s ch h :
  virtualNodes ch ≤ length (ring ch) →
  h ∈ ring (RemoveSlot s ch).1 ↔ h ∈ ring ch ∧ h ∉ vhashes (virtualNodes ch) s.
Proof.
  intros Hlen. destruct (RemoveSlot_ok s ch Hlen) as [_ ->].
  rewrite list_elem_of_filter. naive_solver.
Qed.

(** After [RemoveSlot s], a key that was not on [s] stays where it was. *)
Lemma RemoveSlot_others_stay s ch key :
  ring_wf ch → virtualNodes ch ≤ length (ring ch) → unshared s ch →
  GetSlot ch key ≠ s → GetSlot (RemoveSlot s ch).1 key = GetSlot ch key.
Proof.
  intros Hwf Hlen Hun Hne.
  destruct (decide (ring ch = [])) as [E|Hring].
  { rewrite !GetSlot_empty; [done|done|].
    destruct (RemoveSlot_ok s ch Hlen) as [_ ->]. by rewrite E. }
  destruct (GetSlot_owner ch key Hwf Hring) as (x & Hx & Hs).
  assert (x ∉ vhashes (virtualNodes ch) s) as Hnin by (intros Hin; eauto).
  eapply GetSlot_eq.
  - by apply ring_wf_RemoveSlot.
  - eapply clockwise_subset; [| |exact Hx].
    + intros y. rewrite RemoveSlot_elem by done. naive_solver.
    + rewrite RemoveSlot_elem by done. destruct Hx. auto.
  - rewrite RemoveSlot_map. by case_decide.
Qed.

(** After [RemoveSlot s], no key is on [s]. *)
Lemma RemoveSlot_gone s ch key :
  ring_wf ch → virtualNodes ch ≤ length (ring ch) → s ≠ "" →
  GetSlot (RemoveSlot s ch).1 key ≠ s.
Proof.
  intros Hwf Hlen Hs Heq. pose proof (ring_wf_RemoveSlot s ch Hwf Hlen) as Hwf'.
  destruct (decide (ring (RemoveSlot s ch).1 = [])) as [E|Hring].
  { rewrite GetSlot_empty in Heq; auto. }
  destruct (GetSlot_owner _ key Hwf' Hring) as (x & _ & Hx).
  rewrite Heq in Hx. pose proof (wf_origin _ Hwf' _ _ Hx) as Ho.
  rewrite RemoveSlot_map in Hx. rewrite virtualNodes_RemoveSlot in Ho.
  by case_decide.
Qed.

(** Every lookup answers with a slot the ring holds. *)
Lemma GetSlot_in ch key :
  ring_wf ch → ring ch ≠ [] → ∃ h, vnodeToSlot ch !! h = Some (GetSlot ch key).
Proof. intros Hwf Hne. destruct (GetSlot_owner ch key Hwf Hne) as (x & _ & ?). eauto. Qed.

(** [GetAllSlots] lists every owner once. *)
Lemma GetAllSlots_loop (l : list string) X acc :
  (∀ s, s ∈ X ↔ s ∈ acc) → NoDup acc →
  let r := foldl GetAllSlots_step (X, acc) l in
  NoDup r.2 ∧ ∀ s, s ∈ r.2 ↔ s ∈ acc ∨ s ∈ l.
Proof.
  revert X acc. induction l as [|x l IH]; intros X acc HX Hnd; simpl.
  { split; [done|]. set_solver. }
  destruct (decide (x ∈ X)) as [Hx|Hx].
  - replace (GetAllSlots_step (X, acc) x) with (X, acc)
      by (unfold GetAllSlots_step; simpl; by rewrite decide_True).
    destruct (IH X acc HX Hnd) as [? Hiff]. split; [done|].
    intros s. rewrite Hiff, elem_of_cons. specialize (HX x). naive_solver.
  - replace (GetAllSlots_step (X, acc) x) with ({[x]} ∪ X, acc ++ [x])
      by (unfold GetAllSlots_step; simpl; by rewrite decide_False).
    destruct (IH ({[x]} ∪ X) (acc ++ [x])) as [? Hiff].
    + intros s. rewrite elem_of_union, elem_of_singleton, elem_of_app, list_elem_of_singleton, HX.
      naive_solver.
    + apply NoDup_app. split; [done|]. split; [|apply NoDup_singleton]. set_solver.
    + split; [done|]. intros s.
      rewrite Hiff, elem_of_app, list_elem_of_singleton, elem_of_cons. naive_solver.
Qed.

Lemma GetAllSlots_spec ch :
  NoDup (GetAllSlots ch) ∧
  ∀ s, s ∈ GetAllSlots ch ↔ ∃ h, vnodeToSlot ch !! h = Some s.
Proof.
  unfold GetAllSlots.
  destruct (GetAllSlots_loop (map_to_list (vnodeToSlot ch)).*2 ∅ []) as [Hnd Hiff].
  { set_solver. } { constructor. }
  split; [done|]. intros s. rewrite Hiff, list_elem_of_fmap. split.
  - intros [?|([h t] & -> & Hh)]; [set_solver|]. exists h. by apply elem_of_map_to_list.
  - intros [h Hh]. right. exists (h, s). split; [done|]. by apply elem_of_map_to_list.
Qed.

(** * Refinement

    Abstractly the ring is the list of the slots registered since their last
    removal, with repetitions.  [AddSlot] appends, [RemoveSlot] drops every
    copy and panics when the list is empty. *)

Inductive ring_op := OpAdd (s : string) | OpRemove (s : string).

Definition op_slot (op : ring_op) : string :=
  match op with OpAdd s | OpRemove s => s end.

Definition run_op (op : ring_op) : GoM ConsistentHash unit :=
  match op with
  | OpAdd s => modify (AddSlot s)
  | OpRemove s => RemoveSlot s
  end.

Definition abs_op (op : ring_op) : GoM (list string) unit := λ L,
  match op with
  | OpAdd s => (L ++ [s], Ok tt)
  | OpRemove s =>
      match L with
      | [] => ([], Panic "runtime error: makeslice: cap out of range")
      | _ => (filter (λ t, t ≠ s) L, Ok tt)
      end
  end.

Lemma length_bind_vhashes n L : length (L ≫= vhashes n) = n * length L.
Proof.
  induction L as [|s L IH]; [simpl; lia|].
  rewrite bind_cons, length_app, length_vhashes, IH. simpl. lia.
Qed.

Lemma elem_of_bind_vhashes n L h :
  h ∈ L ≫= vhashes n ↔ ∃ s, s ∈ L ∧ h ∈ vhashes n s.
Proof. rewrite list_elem_of_bind. naive_solver. Qed.

(** The virtual nodes of different slots of [U] do not collide. *)
Definition collision_free (n : nat) (U : gset string) : Prop :=
  ∀ s t h, s ∈ U → t ∈ U → h ∈ vhashes n s → h ∈ vhashes n t → s = t.

(** A check that decides it for a list of slots. *)
Lemma collision_free_check n (l : list string) :
  NoDup (l ≫= vhashes n) → collision_free n (list_to_set l).
Proof.
  intros Hnd s t h Hs%elem_of_list_to_set Ht%elem_of_list_to_set Hhs Hht.
  induction l as [|x l IH]; [set_solver|].
  rewrite bind_cons in Hnd. apply NoDup_app in Hnd as (_ & Hdis & Hnd).
  assert (∀ y, y ∈ l → h ∈ vhashes n x → h ∈ vhashes n y → False) as Hno.
  { intros y Hy Hx Hhy. apply (Hdis h Hx), elem_of_bind_vhashes. eauto. }
  apply elem_of_cons in Hs as [->|Hs], Ht as [->|Ht]; [done| | |by apply IH].
  - destruct (Hno t); auto.
  - destruct (Hno s); auto.
Qed.

(** The concrete ring [ch] stands for the abstract list [L]. *)
Record ring_repr (n : nat) (ch : ConsistentHash) (L : list string) : Prop := {
  repr_nodes : virtualNodes ch = n;
  repr_sorted : Sorted Z.le (ring ch);
  repr_ring : ring ch ≡ₚ L ≫= vhashes n;
  repr_map : ∀ h s, vnodeToSlot ch !! h = Some s ↔ s ∈ L ∧ h ∈ vhashes n s
}.

Lemma ring_repr_wf n ch L : ring_repr n ch L → ring_wf ch.
Proof.
  intros [Hn Hs Hr Hm]. split; [done| |].
  - intros h. rewrite Hr, elem_of_bind_vhashes. unfold is_Some. setoid_rewrite Hm. naive_solver.
  - intros h s. rewrite Hm, Hn. naive_solver.
Qed.

Lemma ring_repr_new n : ring_repr n (NewConsistentHash n) [].
Proof.
  split; simpl; [done|constructor|done|].
  intros h s. rewrite lookup_empty. set_solver.
Qed.

Lemma ring_repr_add n U s ch L :
  collision_free n U → s ∈ U → (∀ t, t ∈ L → t ∈ U) →
  ring_repr n ch L → ring_repr n (AddSlot s ch) (L ++ [s]).
Proof.
  intros Hcf HsU HLU [Hn Hs Hr Hm]. split; [done| | |].
  - rewrite AddSlot_ring_eq. apply sort_ints_sorted.
  - rewrite AddSlot_ring, Hr, Hn, bind_app. simpl. by rewrite app_nil_r.
  - intros h t. rewrite AddSlot_map, Hn, elem_of_app, list_elem_of_singleton.
    case_decide as Hin.
    + split; [naive_solver|]. intros [[Ht| ->] Hht]; [|done].
      f_equal. eapply Hcf; eauto.
    + rewrite Hm. naive_solver.
Qed.

Lemma bind_filter_vhashes n U s (L : list string) :
  collision_free n U → s ∈ U → (∀ t, t ∈ L → t ∈ U) →
  filter (λ h, h ∉ vhashes n s) (L ≫= vhashes n) = filter (λ t, t ≠ s) L ≫= vhashes n.
Proof.
  intros Hcf HsU. induction L as [|t L IH]; intros HLU; [done|].
  rewrite bind_cons, filter_app, IH by set_solver.
  rewrite filter_cons. case_decide as Hts.
  - rewrite bind_cons. f_equal. apply list_filter_all.
    intros h Hh Hh'. apply Hts. eapply Hcf; eauto. set_solver.
  - destruct (decide (t = s)) as [->|]; [|done].
    rewrite list_filter_none; [done|]. naive_solver.
Qed.

Lemma ring_repr_remove n U s ch L :
  0 < n → collision_free n U → s ∈ U → (∀ t, t ∈ L → t ∈ U) →
  ring_repr n ch L →
  (RemoveSlot s ch).2 = (abs_op (OpRemove s) L).2 ∧
  ring_repr n (RemoveSlot s ch).1 (abs_op (OpRemove s) L).1.
Proof.
  intros Hpos Hcf HsU HLU Hrep. pose proof Hrep as [Hn Hs Hr Hm].
  pose proof (Permutation_length Hr) as Hlen. rewrite length_bind_vhashes in Hlen.
  destruct L as [|t0 L0] eqn:EL.
  - destruct (RemoveSlot_short s ch) as [Hp Hring]; [simpl in Hlen; lia|].
    split; [done|]. split; rewrite ?Hring, ?virtualNodes_RemoveSlot; [done..|].
    intros h t. rewrite RemoveSlot_map. case_decide; [set_solver|apply Hm].
  - rewrite <-EL in *. assert (virtualNodes ch ≤ length (ring ch)) as Hge.
    { rewrite Hlen, Hn, EL. simpl. nia. }
    destruct (RemoveSlot_ok s ch Hge) as [Hok Hring].
    assert (abs_op (OpRemove s) L = (filter (λ t, t ≠ s) L, Ok tt)) as -> by (by rewrite EL).
    split; [done|]. simpl. split.
    + by rewrite virtualNodes_RemoveSlot.
    + rewrite Hring. by apply Sorted_filter_le.
    + rewrite Hring, Hr, Hn. by rewrite (bind_filter_vhashes n U).
    + intros h t. rewrite RemoveSlot_map, Hn, list_elem_of_filter.
      case_decide as Hin; rewrite ?Hm; [|naive_solver].
      split; [done|]. intros [[Hts Ht] Hh]. destruct Hts. eapply Hcf; eauto.
Qed.

(** A history of registrations and removals, with the outcome of each. *)
Fixpoint run_ops {S} (run : ring_op → GoM S unit) (ops : list ring_op) (s : S)
    : S * list (res unit) :=
  match ops with
  | [] => (s, [])
  | op :: ops =>
      let r := run op s in
      let rest := run_ops run ops r.1 in
      (rest.1, r.2 :: rest.2)
  end.

Lemma abs_op_subset op L U :
  op_slot op ∈ U → (∀ t : string, t ∈ L → t ∈ (U : gset string)) →
  ∀ t, t ∈ (abs_op op L).1 → t ∈ U.
Proof.
  intros Hop HL t. destruct op as [s|s]; simpl in *.
  - rewrite elem_of_app, list_elem_of_singleton. naive_solver.
  - destruct L; simpl; [set_solver|]. rewrite list_elem_of_filter. naive_solver.
Qed.

(** The simulation, for histories from any pair of related states. *)
Lemma run_ops_refines n U ops ch L :
  0 < n → collision_free n U → Forall (λ op, op_slot op ∈ U) ops →
  (∀ t, t ∈ L → t ∈ U) → ring_repr n ch L →
  (run_ops run_op ops ch).2 = (run_ops abs_op ops L).2 ∧
  ring_repr n (run_ops run_op ops ch).1 (run_ops abs_op ops L).1.
Proof.
  intros Hpos Hcf Hops. revert ch L.
  induction Hops as [|op ops Hop Hops IH]; intros ch L HL Hrep; [done|].
  assert ((run_op op ch).2 = (abs_op op L).2 ∧
          ring_repr n (run_op op ch).1 (abs_op op L).1) as [H1 H2].
  { destruct op as [s|s]; [|by eapply ring_repr_remove].
    split; [done|]. by eapply ring_repr_add. }
  destruct (IH _ _ (abs_op_subset op L U Hop HL) H2) as [IH1 IH2].
  simpl. by rewrite H1, IH1.
Qed.

(** Abstract lookup: [s] is registered and owns the clockwise successor. *)
Definition abs_owner (n : nat) (L : list string) (key s : string) : Prop :=
  ∃ h, clockwise (λ h, ∃ t, t ∈ L ∧ h ∈ vhashes n t) (hash32 key) h ∧
       s ∈ L ∧ h ∈ vhashes n s.

Lemma ring_repr_ring_nonempty n ch L :
  0 < n → ring_repr n ch L → L ≠ [] → ring ch ≠ [].
Proof.
  intros Hpos [_ _ Hr _] HL E. apply Permutation_length in Hr.
  rewrite E, length_bind_vhashes in Hr. destruct L; simpl in *; [done|nia].
Qed.

Lemma GetSlot_abs_owner n ch L key :
  0 < n → ring_repr n ch L → L ≠ [] → abs_owner n L key (GetSlot ch key).
Proof.
  intros Hpos Hrep HL. pose proof (ring_repr_wf _ _ _ Hrep) as Hwf.
  pose proof (ring_repr_ring_nonempty _ _ _ Hpos Hrep HL) as Hne.
  destruct (GetSlot_owner ch key Hwf Hne) as (x & Hx & Hs).
  exists x. split; [|by apply (repr_map _ _ _ Hrep)].
  eapply clockwise_iff; [|exact Hx]. intros h.
  rewrite <-elem_of_bind_vhashes. simpl. by rewrite (repr_ring _ _ _ Hrep).
Qed.

Lemma abs_owner_unique n U L key s t :
  collision_free n U → (∀ x, x ∈ L → x ∈ U) →
  abs_owner n L key s → abs_owner n L key t → s = t.
Proof.
  intros Hcf HL (h & Hh & Hs & Hhs) (k & Hk & Ht & Hkt).
  assert (h = k) as -> by (by eapply clockwise_unique). eapply Hcf; eauto.
Qed.

Lemma abs_owner_ext n L1 L2 key s :
  (∀ t, t ∈ L1 ↔ t ∈ L2) → abs_owner n L1 key s → abs_owner n L2 key s.
Proof.
  intros HL (h & Hh & Hs & Hhs). exists h. split; [|split; [by apply HL|done]].
  eapply clockwise_iff; [|exact Hh]. intros y. setoid_rewrite HL. done.
Qed.

(** Rings that stand for the same set of slots answer alike. *)
Lemma ring_repr_same_lookup n U c1 c2 L1 L2 key :
  0 < n → collision_free n U → (∀ s, s ∈ L2 → s ∈ U) →
  ring_repr n c1 L1 → ring_repr n c2 L2 → (∀ s, s ∈ L1 ↔ s ∈ L2) →
  GetSlot c1 key = GetSlot c2 key.
Proof.
  intros Hpos Hcf HU R1 R2 Hsame. destruct (decide (L1 = [])) as [->|HL1].
  - assert (L2 = []) as ->.
    { destruct L2 as [|s L2]; [done|]. specialize (Hsame s). set_solver. }
    rewrite !GetSlot_empty; [done|apply Permutation_nil_r, R2|apply Permutation_nil_r, R1].
  - assert (L2 ≠ []) as HL2.
    { intros ->. destruct L1 as [|s L1]; [done|]. specialize (Hsame s). set_solver. }
    eapply abs_owner_unique; [done|exact HU| |by eapply GetSlot_abs_owner].
    eapply abs_owner_ext; [done|]. by eapply GetSlot_abs_owner.
Qed.

Lemma run_abs_subset ops L U :
  Forall (λ op, op_slot op ∈ (U : gset string)) ops → (∀ t, t ∈ L → t ∈ U) →
  ∀ t, t ∈ (run_ops abs_op ops L).1 → t ∈ U.
Proof.
  intros Hops. revert L. induction Hops as [|op ops Hop Hops IH]; intros L HL; [done|].
  simpl. apply IH. by apply abs_op_subset.
Qed.
End ring_spec.

(** * Properties of the ring *)

Section ring_theorems.
Context {M3 : Murmur3}.

(** The ring invariant.  Every ring reached from [NewConsistentHash] by any
    sequence of [AddSlot] and [RemoveSlot] calls none of which panicked is
    well-formed: sorted, its entries are exactly the owned hashes, and every
    hash belongs to a virtual node of its owner. *)
Theorem ring_invariant n ops ch outs :
  run_ops run_op ops (NewConsistentHash n) = (ch, outs) →
  Forall (λ r, r = Ok tt) outs → ring_wf ch.
Proof.
  pose proof (ring_wf_new n) as Hwf. revert Hwf.
  generalize (NewConsistentHash n) as c0. revert ch outs.
  induction ops as [|op ops IH]; intros ch outs c0 Hwf; simpl; [by intros [= <- <-]|].
  intros [= <- <-] [Hok Hrest]%Forall_cons_1. eapply IH; [|apply surjective_pairing|done].
  destruct op as [s|s]; [by apply ring_wf_AddSlot|].
  apply ring_wf_RemoveSlot; [done|]. by apply RemoveSlot_ok_iff in Hok.
Qed.

(** C14: functional correctness of a lookup.  In a well-formed ring [GetSlot]
    (a binary search with wrap-around) returns the owner of the first virtual
    node at or after the key's hash, wrapping to the least one, and the empty
    string when the ring is empty. *)
Theorem GetSlot_clockwise ch key :
  ring_wf ch →
  match ring ch with
  | [] => GetSlot ch key = ""
  | _ => ∃ h i, clockwise (.∈ ring ch) (hash32 key) h ∧
                vnodeToSlot ch !! h = Some (GetSlot ch key) ∧
                i < virtualNodes ch ∧ h = hash32 (vnodeName (GetSlot ch key) i)
  end.
Proof.
  intros Hwf. destruct (ring ch) as [|z l] eqn:E; [by apply GetSlot_empty|].
  rewrite <-E. destruct (GetSlot_owner ch key Hwf) as (h & Hh & Hs); [by rewrite E|].
  pose proof (wf_origin _ Hwf _ _ Hs) as (i & ? & ?)%elem_of_vhashes. eauto 10.
Qed.

(** C19: minimal disruption when a slot joins.  After [AddSlot s] every key is
    on the slot it was on or on [s]; registering [s] again gives an equivalent
    ring, and moves no key. *)
Theorem AddSlot_minimal_disruption s ch key :
  ring_wf ch → ring ch ≠ [] →
  (GetSlot (AddSlot s ch) key = GetSlot ch key ∨ GetSlot (AddSlot s ch) key = s) ∧
  ring_eqv (AddSlot s (AddSlot s ch)) (AddSlot s ch) ∧
  GetSlot (AddSlot s (AddSlot s ch)) key = GetSlot (AddSlot s ch) key.
Proof.
  intros Hwf Hne. split; [by apply AddSlot_stays_or_new|].
  pose proof (AddSlot_twice s ch Hwf) as Heqv. split; [done|]. by rewrite Heqv.
Qed.

(** Minimal disruption when a slot leaves.  After [RemoveSlot s] no key is
    on [s], and, when no virtual node of [s] is owned by another slot, every
    key that was not on [s] stays where it was. *)
Theorem RemoveSlot_minimal_disruption s ch key :
  ring_wf ch → virtualNodes ch ≤ length (ring ch) → s ≠ "" →
  (RemoveSlot s ch).2 = Ok tt ∧
  GetSlot (RemoveSlot s ch).1 key ≠ s ∧
  (unshared s ch → GetSlot ch key ≠ s →
   GetSlot (RemoveSlot s ch).1 key = GetSlot ch key).
Proof.
  intros Hwf Hlen Hs. split; [by apply RemoveSlot_ok_iff|].
  split; [by apply RemoveSlot_gone|]. intros. by apply RemoveSlot_others_stay.
Qed.

(** C2: refinement.  For slots whose virtual nodes do not collide, any history
    of registrations and removals leaves a ring that stands for the list of
    slots registered since their last removal, with the same outcome at each
    step: a removal panics exactly when nothing is registered. *)
Theorem ring_refines_slots n U ops :
  0 < n → collision_free n U → Forall (λ op, op_slot op ∈ U) ops →
  (run_ops run_op ops (NewConsistentHash n)).2 = (run_ops abs_op ops []).2 ∧
  ring_repr n (run_ops run_op ops (NewConsistentHash n)).1 (run_ops abs_op ops []).1.
Proof.
  intros Hpos Hcf Hops. apply (run_ops_refines n U); [done..|set_solver|].
  apply ring_repr_new.
Qed.

(** C20: replicas agree, unless virtual nodes collide.  Two proxies with at least one
    virtual node per slot whose histories registered the same set of slots, in
    any order and any number of times, route every key alike, provided that the
    virtual nodes of the slots of their histories do not collide.  The proviso
    is needed: when two slots have a virtual node in common the one registered
    last owns it, and the order of registration decides where the key at that
    node goes. *)
Theorem replicas_agree n :
  0 < n →
  (∀ U ops1 ops2 key, collision_free n U →
   Forall (λ op, op_slot op ∈ U) ops1 → Forall (λ op, op_slot op ∈ U) ops2 →
   (∀ s, s ∈ (run_ops abs_op ops1 []).1 ↔ s ∈ (run_ops abs_op ops2 []).1) →
   GetSlot (run_ops run_op ops1 (NewConsistentHash n)).1 key =
   GetSlot (run_ops run_op ops2 (NewConsistentHash n)).1 key) ∧
  (∀ s t key, hash32 key ∈ vhashes n s → hash32 key ∈ vhashes n t →
   GetSlot (run_ops run_op [OpAdd s; OpAdd t] (NewConsistentHash n)).1 key = t ∧
   GetSlot (run_ops run_op [OpAdd t; OpAdd s] (NewConsistentHash n)).1 key = s).
Proof.
  intros Hpos. split.
  - intros U ops1 ops2 key Hcf H1 H2 Hsame.
    pose proof (ring_repr_new n) as Hnew.
    destruct (run_ops_refines n U ops1 _ [] Hpos Hcf H1 ltac:(set_solver) Hnew) as [_ R1].
    destruct (run_ops_refines n U ops2 _ [] Hpos Hcf H2 ltac:(set_solver) Hnew) as [_ R2].
    eapply ring_repr_same_lookup; [done|done| |exact R1|exact R2|done].
    eapply run_abs_subset; [exact H2|set_solver].
  - assert (∀ s t key, hash32 key ∈ vhashes n t →
      GetSlot (AddSlot t (AddSlot s (NewConsistentHash n))) key = t) as Hlast.
    { intros s t key Ht. apply (GetSlot_eq _ _ (hash32 key)).
      - do 2 apply ring_wf_AddSlot. apply ring_wf_new.
      - split; [rewrite AddSlot_elem; by right|]. left. split; [lia|done].
      - rewrite AddSlot_map. by rewrite decide_True. }
    intros s t key Hs Ht. split; by apply Hlast.
Qed.
End ring_theorems.

(** * The properties at concrete rings, with MurmurHash3 as the hash *)

Definition w_ops : list ring_op := [OpAdd "ns1::c1"; OpAdd "ns2::c2"; OpRemove "ns1::c1"].
Definition w_ops' : list ring_op := [OpAdd "ns2::c2"; OpAdd "ns2::c2"].
Definition w_slots : list string := ["ns1::c1"; "ns2::c2"].
Definition w_ring : ConsistentHash :=
  AddSlot (M3 := Murmur3_ref) "ns2::c2"
    (AddSlot (M3 := Murmur3_ref) "ns1::c1" (NewConsistentHash 4)).

Lemma w_ring_wf : ring_wf (M3 := Murmur3_ref) w_ring.
Proof. do 2 apply ring_wf_AddSlot. apply ring_wf_new. Qed.

Lemma w_collision_free : collision_free (M3 := Murmur3_ref) 4 (list_to_set w_slots).
Proof. apply collision_free_check. apply (bool_decide_unpack _). vm_compute. exact I. Qed.

Lemma ring_invariant_witness :
  ring_wf (M3 := Murmur3_ref)
    (run_ops (run_op (M3 := Murmur3_ref)) w_ops (NewConsistentHash 4)).1.
Proof.
  apply (ring_invariant (M3 := Murmur3_ref) 4 w_ops _
           (run_ops (run_op (M3 := Murmur3_ref)) w_ops (NewConsistentHash 4)).2).
  - apply surjective_pairing.
  - vm_compute. repeat constructor.
Defined.

Lemma GetSlot_clockwise_witness :
  ∃ h i, clockwise (.∈ ring w_ring) (hash32 (M3 := Murmur3_ref) "wf-1") h ∧
    vnodeToSlot w_ring !! h = Some (GetSlot (M3 := Murmur3_ref) w_ring "wf-1") ∧
    i < virtualNodes w_ring ∧
    h = hash32 (M3 := Murmur3_ref)
          (vnodeName (GetSlot (M3 := Murmur3_ref) w_ring "wf-1") i).
Proof. exact (GetSlot_clockwise (M3 := Murmur3_ref) w_ring "wf-1" w_ring_wf). Defined.

Lemma AddSlot_minimal_disruption_witness :
  GetSlot (M3 := Murmur3_ref) (AddSlot (M3 := Murmur3_ref) "ns3::c3" w_ring) "wf-1"
    = GetSlot (M3 := Murmur3_ref) w_ring "wf-1" ∨
  GetSlot (M3 := Murmur3_ref) (AddSlot (M3 := Murmur3_ref) "ns3::c3" w_ring) "wf-1"
    = "ns3::c3".
Proof.
  apply (AddSlot_minimal_disruption (M3 := Murmur3_ref) "ns3::c3" w_ring "wf-1").
  - exact w_ring_wf.
  - vm_compute. discriminate.
Defined.

Lemma RemoveSlot_minimal_disruption_witness :
  GetSlot (M3 := Murmur3_ref) (RemoveSlot (M3 := Murmur3_ref) "ns1::c1" w_ring).1 "wf-1"
    ≠ "ns1::c1".
Proof.
  apply (RemoveSlot_minimal_disruption (M3 := Murmur3_ref) "ns1::c1" w_ring "wf-1").
  - exact w_ring_wf.
  - vm_compute. lia.
  - discriminate.
Defined.

Lemma ring_refines_slots_witness :
  ring_repr (M3 := Murmur3_ref) 4
    (run_ops (run_op (M3 := Murmur3_ref)) w_ops (NewConsistentHash 4)).1 ["ns2::c2"].
Proof.
  apply (ring_refines_slots (M3 := Murmur3_ref) 4 (list_to_set w_slots) w_ops).
  - lia.
  - exact w_collision_free.
  - repeat constructor; apply (bool_decide_unpack _); vm_compute; exact I.
Defined.

Lemma replicas_agree_witness :
  GetSlot (M3 := Murmur3_ref)
    (run_ops (run_op (M3 := Murmur3_ref)) w_ops (NewConsistentHash 4)).1 "wf-1" =
  GetSlot (M3 := Murmur3_ref)
    (run_ops (run_op (M3 := Murmur3_ref)) w_ops' (NewConsistentHash 4)).1 "wf-1".
Proof.
  apply (proj1 (replicas_agree (M3 := Murmur3_ref) 4 ltac:(lia)) (list_to_set w_slots) w_ops w_ops').
  - exact w_collision_free.
  - repeat constructor; apply (bool_decide_unpack _); vm_compute; exact I.
  - repeat constructor; apply (bool_decide_unpack _); vm_compute; exact I.
  - intros s. vm_compute. set_solver.
Defined.
