(* ===== verification/Namespaces.v ===== *)
(** Virtual and physical namespaces ([virtualnamespace.go]): the textual form
    of a physical namespace, the [VirtualNamespace] with its ring and its
    status map, and the registry of virtual namespaces. *)

From S2P Require Import Prelude GoStrings GoSort ConsistentHash RingSpec Murmur.
From stdpp Require Import options.

(** * Physical namespaces *)

Record Cluster := mkCluster { address : string }.

(** [cluster] is a pointer: the admin API and the checkpoint leave it nil. *)
Record Namespace := mkNamespace { cluster : option Cluster; name : string }.

Definition delim : string := "::".

Definition buildPhysicalNamespace (actualName clusterAddress : string) : string :=
  Join [actualName; clusterAddress] delim.

(** [s[1]] is evaluated first: an index out of range panics. *)
Definition parsePhysicalNamespace (physicalNamespace : string) : res Namespace :=
  match Split physicalNamespace delim with
  | s0 :: s1 :: _ => Ok (mkNamespace (Some (mkCluster s1)) s0)
  | _ => Panic "runtime error: index out of range [1] with length 1"
  end.

(** * Virtual namespaces *)

Definition NamespaceStatus := string.
Definition NamespaceActive : NamespaceStatus := "active".
Definition NamespaceCordoned : NamespaceStatus := "cordoned".

Record VirtualNamespace := mkVirtualNamespace {
  Name : string;
  Ring : ConsistentHash;
  Namespaces : gmap string NamespaceStatus
}.

Definition NewVirtualNamespace (name : string) : VirtualNamespace :=
  mkVirtualNamespace name (NewConsistentHash 50) ∅.

Section virtual_namespace.
Context {M3 : Murmur3}.

Definition Add (namespace : Namespace) (v : VirtualNamespace) : VirtualNamespace :=
  mkVirtualNamespace (Name v) (AddSlot (name namespace) (Ring v))
    (<[name namespace := NamespaceActive]> (Namespaces v)).

(** The status is set before the ring is touched, so it stays set when
    [RemoveSlot] panics. *)
Definition Remove (namespace : Namespace) : GoM VirtualNamespace unit := λ v,
  let nss :=
    match Namespaces v !! name namespace with
    | Some _ => <[name namespace := NamespaceCordoned]> (Namespaces v)
    | None => Namespaces v
    end in
  let r := RemoveSlot (name namespace) (Ring v) in
  (mkVirtualNamespace (Name v) r.1 nss, r.2).
End virtual_namespace.

(** A copy of the map. *)
Definition GetAllNamespacesWithStatus (v : VirtualNamespace) : gmap string NamespaceStatus :=
  map_fold (λ k val result, <[k := val]> result) ∅ (Namespaces v).

(** The order of a range over a map is unspecified: this is one such order. *)
Definition GetAllNamespaces (v : VirtualNamespace) : list string :=
  (map_to_list (Namespaces v)).*1.

(** * The registry *)

(** Every [VirtualNamespace] is reached only through its registry entry, so the
    entry holds the object the pointer designates.  [db], the Redis client, is
    the service parameter of the components that use it. *)
Record VirtualNamespaceRegistry := mkRegistry {
  namespaces : gmap string VirtualNamespace
}.

Definition GetSize (vr : VirtualNamespaceRegistry) : nat := size (namespaces vr).

Definition Resolve_ns (vr : VirtualNamespaceRegistry) (namespace : string)
    : option VirtualNamespace := namespaces vr !! namespace.

Definition Register (v : VirtualNamespace) (vr : VirtualNamespaceRegistry)
    : VirtualNamespaceRegistry := mkRegistry (<[Name v := v]> (namespaces vr)).

(** Writing through the pointer [Resolve] returned. *)
Definition update_ns (namespace : string) (v : VirtualNamespace)
    (vr : VirtualNamespaceRegistry) : VirtualNamespaceRegistry :=
  mkRegistry (<[namespace := v]> (namespaces vr)).

(** * The textual form *)

Lemma Index_delim_app n a :
  Index (n +:+ delim +:+ a) delim = Some (String.length n) ↔
  Contains (n +:+ ":") delim = false.
Proof.
  unfold Contains. rewrite bool_decide_eq_false, <-eq_None_not_Some.
  induction n as [|c n IH]; [split; intros; reflexivity|].
  rewrite !str_cons_app. simpl Index.
  assert (HasPrefix (String c (n +:+ delim +:+ a)) delim =
          HasPrefix (String c (n +:+ ":")) delim) as ->.
  { destruct n; done. }
  destruct (HasPrefix _ _); [done|].
  destruct (Index (n +:+ delim +:+ a) delim) as [k|], (Index (n +:+ ":") delim);
    simpl in *; naive_solver.
Qed.

Lemma Split_delim_head a :
  ∃ rest, Split a delim = (match Index a delim with Some m => str_take m a | None => a end) :: rest.
Proof. rewrite Split_unfold by done. destruct (Index a delim); eauto. Qed.

Lemma build_unfold n a : buildPhysicalNamespace n a = n +:+ delim +:+ a.
Proof. done. Qed.

Lemma parse_build_clean n a :
  Contains (n +:+ ":") delim = false → Contains a delim = false →
  parsePhysicalNamespace (buildPhysicalNamespace n a) =
    Ok (mkNamespace (Some (mkCluster a)) n).
Proof.
  intros Hn Ha. rewrite build_unfold. unfold parsePhysicalNamespace.
  rewrite Split_unfold by done. apply (Index_delim_app n a) in Hn. rewrite Hn.
  rewrite str_take_app.
  replace (str_drop (String.length n + String.length delim) (n +:+ delim +:+ a)) with a.
  2:{ rewrite <-str_app_assoc, <-str_length_app. by rewrite str_drop_app. }
  destruct (Split_delim_head a) as [rest ->].
  unfold Contains in Ha. apply bool_decide_eq_false, eq_None_not_Some in Ha. by rewrite Ha.
Qed.

Lemma parse_Ok_iff s ns :
  parsePhysicalNamespace s = Ok ns →
  ∃ m, Index s delim = Some m ∧ name ns = str_take m s ∧
       ∃ rest, Split (str_drop (m + 2) s) delim = default "" (address <$> cluster ns) :: rest.
Proof.
  unfold parsePhysicalNamespace. rewrite Split_unfold by done.
  destruct (Index s delim) as [m|] eqn:E; [|done].
  destruct (Split_delim_head (str_drop (m + String.length delim) s)) as [rest Hr].
  rewrite Hr. intros [= <-]. exists m. split; [done|]. split; [done|].
  exists rest. simpl. exact Hr.
Qed.

Lemma parse_panics_iff s :
  is_panic (parsePhysicalNamespace s) = negb (Contains s delim).
Proof.
  unfold parsePhysicalNamespace, Contains. rewrite Split_unfold by done.
  destruct (Index s delim) as [m|] eqn:E.
  - destruct (Split_delim_head (str_drop (m + String.length delim) s)) as [rest ->].
    by rewrite bool_decide_eq_true_2.
  - by rewrite bool_decide_eq_false_2 by (by intros [? ?]).
Qed.

(** A parse has no error value: it returns or it panics. *)
Lemma parse_no_err s e : parsePhysicalNamespace s ≠ Err e.
Proof.
  unfold parsePhysicalNamespace. by destruct (Split s delim) as [|? []].
Qed.

Lemma parse_no_diverge s : parsePhysicalNamespace s ≠ Diverge.
Proof.
  unfold parsePhysicalNamespace. by destruct (Split s delim) as [|? []].
Qed.

(** A namespace with the delimiter parses to one with a cluster. *)
Lemma parse_delim s :
  Contains s delim = true →
  ∃ addr n, parsePhysicalNamespace s = Ok (mkNamespace (Some (mkCluster addr)) n).
Proof.
  intros Hc. pose proof (parse_panics_iff s) as Hp. rewrite Hc in Hp.
  unfold parsePhysicalNamespace in *. destruct (Split s delim) as [|? []]; eauto; done.
Qed.

Lemma Index_take_ne s sep m : sep ≠ "" → Index s sep = Some m → str_take m s ≠ s.
Proof.
  intros Hsep Hi Heq. apply Index_bound in Hi.
  apply (f_equal String.length) in Heq. rewrite str_take_length in Heq by lia.
  destruct sep; [done|]. simpl in *. lia.
Qed.

(** C22: exactly which physical namespaces survive the textual form.  Parsing
    [buildPhysicalNamespace n a] gives back [n] and [a] if and only if neither
    [a] nor [n] followed by a colon contains the delimiter: an IPv6 cluster
    address, or a name that ends with a colon, does not round-trip. *)
Theorem parse_build_roundtrip n a :
  parsePhysicalNamespace (buildPhysicalNamespace n a) =
    Ok (mkNamespace (Some (mkCluster a)) n) ↔
  Contains (n +:+ ":") delim = false ∧ Contains a delim = false.
Proof.
  split; [|intros [? ?]; by apply parse_build_clean].
  intros (m & Hm & Hname & rest & Hrest)%parse_Ok_iff. rewrite build_unfold in *.
  pose proof (Index_bound _ _ _ Hm) as Hb. simpl in Hname, Hrest.
  assert (m = String.length n) as ->.
  { rewrite Hname. rewrite str_take_length; [done|lia]. }
  split; [by apply (Index_delim_app n a)|].
  change 2 with (String.length delim) in Hrest.
  rewrite <-str_app_assoc, <-str_length_app, str_drop_app in Hrest.
  destruct (Split_delim_head a) as [rest' Hr]. rewrite Hr in Hrest.
  unfold Contains. apply bool_decide_eq_false, eq_None_not_Some.
  destruct (Index a delim) as [k|] eqn:Ek; [|done]. simplify_eq.
  by destruct (Index_take_ne a delim k).
Qed.

(** Parsing a physical namespace never returns an error; it panics (an
    index out of range) exactly on the strings without the delimiter, among
    them the empty string the resolver returns when it finds no target. *)
Theorem parse_total_or_panics s :
  (∃ ns, parsePhysicalNamespace s = Ok ns ∧ Contains s delim = true) ∨
  (is_panic (parsePhysicalNamespace s) = true ∧ Contains s delim = false).
Proof.
  pose proof (parse_panics_iff s) as Hp. pose proof (parse_no_err s) as He.
  pose proof (parse_no_diverge s) as Hd.
  destruct (parsePhysicalNamespace s) as [ns|e|p|]; simpl in *.
  - left. exists ns. split; [done|]. by destruct (Contains s delim).
  - by destruct (He e).
  - right. split; [done|]. by destruct (Contains s delim).
  - done.
Qed.

(** * Histories of a virtual namespace *)

Inductive ns_op := NsAdd (s : string) | NsRemove (s : string).

Definition ns_op_name (op : ns_op) : string :=
  match op with NsAdd s | NsRemove s => s end.

Definition to_ring_op (op : ns_op) : ring_op :=
  match op with NsAdd s => OpAdd s | NsRemove s => OpRemove s end.

Section namespace_histories.
Context {M3 : Murmur3}.

Definition run_ns_op (op : ns_op) : GoM VirtualNamespace unit :=
  match op with
  | NsAdd s => modify (Add (mkNamespace None s))
  | NsRemove s => Remove (mkNamespace None s)
  end.

(** A history goes on after a panic: the HTTP server recovers it. *)
Fixpoint run_ns_ops (ops : list ns_op) (v : VirtualNamespace)
    : VirtualNamespace * list (res unit) :=
  match ops with
  | [] => (v, [])
  | op :: ops =>
      let r := run_ns_op op v in
      let rest := run_ns_ops ops r.1 in
      (rest.1, r.2 :: rest.2)
  end.

(** Every owned hash comes from a virtual node of an active namespace.  The
    invariant does not mention the sorted ring: it also survives panics. *)
Record ns_safe (v : VirtualNamespace) : Prop := {
  safe_nodes : virtualNodes (Ring v) = 50;
  safe_origin : ∀ h s, vnodeToSlot (Ring v) !! h = Some s → h ∈ vhashes 50 s;
  safe_active : ∀ h s, vnodeToSlot (Ring v) !! h = Some s →
                       Namespaces v !! s = Some NamespaceActive
}.

Lemma ns_safe_new n : ns_safe (NewVirtualNamespace n).
Proof. split; simpl; [done|intros; by simplify_map_eq..]. Qed.

Lemma Remove_Ring s v : Ring (Remove (mkNamespace None s) v).1 = (RemoveSlot s (Ring v)).1.
Proof. done. Qed.

Lemma Remove_Namespaces s v t :
  Namespaces (Remove (mkNamespace None s) v).1 !! t =
    if decide (t = s) then (λ _, NamespaceCordoned) <$> Namespaces v !! s else Namespaces v !! t.
Proof.
  unfold Remove. simpl. destruct (Namespaces v !! s) eqn:E; case_decide; subst; simpl.
  - by rewrite lookup_insert_eq.
  - by rewrite lookup_insert_ne.
  - done.
  - done.
Qed.

(** Unfolds an operation down to the ring operation it performs. *)
Ltac ns_cbn := cbn [run_ns_op modify Add Ring Namespaces Name name fst snd] in *.

Lemma ns_safe_op op v : ns_safe v → ns_safe (run_ns_op op v).1.
Proof.
  intros [Hn Ho Ha]. destruct op as [s|s].
  - split; ns_cbn; [done| |]; intros h t; rewrite AddSlot_map, Hn; case_decide.
    + naive_solver.
    + apply Ho.
    + intros [= <-]. by rewrite lookup_insert_eq.
    + intros Ht. destruct (decide (s = t)) as [<-|]; [by rewrite lookup_insert_eq|].
      rewrite lookup_insert_ne by done. eauto.
  - cbn [run_ns_op]. split; rewrite ?Remove_Ring.
    + by rewrite virtualNodes_RemoveSlot.
    + intros h t. rewrite RemoveSlot_map. case_decide; [done|apply Ho].
    + intros h t. rewrite RemoveSlot_map, Hn. case_decide as Hin; [done|].
      intros Ht. rewrite Remove_Namespaces. case_decide as Hts; [|eauto].
      subst t. by destruct (Hin (Ho _ _ Ht)).
Qed.

Lemma ns_safe_ops ops v : ns_safe v → ns_safe (run_ns_ops ops v).1.
Proof.
  revert v. induction ops as [|op ops IH]; intros v Hv; simpl; [done|].
  by apply IH, ns_safe_op.
Qed.

(** Whatever the ring answers, it is the empty string or an active namespace. *)
Lemma ns_safe_GetSlot v key :
  ns_safe v → GetSlot (Ring v) key = "" ∨
              Namespaces v !! GetSlot (Ring v) key = Some NamespaceActive.
Proof.
  intros Hv. unfold GetSlot at 1 2. unfold GetSlot. destruct (ring (Ring v)); [by left|].
  destruct (vnodeToSlot (Ring v) !! _) as [s|] eqn:E; simpl; [|by left].
  right. by eapply safe_active.
Qed.

(** No operation forgets a namespace. *)
Lemma run_ns_op_keeps op v s :
  is_Some (Namespaces v !! s) → is_Some (Namespaces (run_ns_op op v).1 !! s).
Proof.
  intros Hs. destruct op as [t|t]; ns_cbn.
  - destruct (decide (t = s)) as [<-|]; [rewrite lookup_insert_eq; eauto|].
    by rewrite lookup_insert_ne.
  - rewrite Remove_Namespaces. case_decide; [subst|done]. destruct Hs as [x ->]. eauto.
Qed.

Lemma run_ns_ops_keeps ops v s :
  is_Some (Namespaces v !! s) → is_Some (Namespaces (run_ns_ops ops v).1 !! s).
Proof.
  revert v. induction ops as [|op ops IH]; intros v Hs; simpl; [done|].
  by apply IH, run_ns_op_keeps.
Qed.

Lemma elem_of_GetAllNamespaces v s : s ∈ GetAllNamespaces v ↔ is_Some (Namespaces v !! s).
Proof.
  unfold GetAllNamespaces. rewrite list_elem_of_fmap. split.
  - intros ([k x] & -> & Hin%elem_of_map_to_list). simpl. eauto.
  - intros [x Hx]. exists (s, x). split; [done|]. by apply elem_of_map_to_list.
Qed.

Lemma NoDup_GetAllNamespaces v : NoDup (GetAllNamespaces v).
Proof. apply NoDup_fst_map_to_list. Qed.

Lemma GetAllNamespacesWithStatus_eq v : GetAllNamespacesWithStatus v = Namespaces v.
Proof.
  unfold GetAllNamespacesWithStatus.
  apply (map_fold_weak_ind (λ r m, r = m)); [done|]. by intros k x m r _ ->.
Qed.

(** The virtual namespace, seen through the ring's abstraction. *)
Record ns_repr (v : VirtualNamespace) (L : list string) : Prop := {
  ns_repr_ring : ring_repr 50 (Ring v) L;
  ns_repr_active : ∀ s, s ∈ L ↔ Namespaces v !! s = Some NamespaceActive
}.

Lemma ns_repr_new n : ns_repr (NewVirtualNamespace n) [].
Proof.
  split; [apply ring_repr_new|]. intros s. simpl. rewrite lookup_empty. set_solver.
Qed.

Lemma ns_repr_op U op v L :
  collision_free 50 U → ns_op_name op ∈ U → (∀ t, t ∈ L → t ∈ U) → ns_repr v L →
  (run_ns_op op v).2 = (abs_op (to_ring_op op) L).2 ∧
  ns_repr (run_ns_op op v).1 (abs_op (to_ring_op op) L).1.
Proof.
  intros Hcf HU HL [Hr Ha]. destruct op as [s|s]; cbn [ns_op_name to_ring_op] in *; ns_cbn.
  - split; [done|]. split; ns_cbn; [by eapply ring_repr_add|]. intros t. cbn [abs_op fst].
    rewrite elem_of_app, list_elem_of_singleton, Ha.
    destruct (decide (s = t)) as [<-|]; [rewrite lookup_insert_eq; naive_solver|].
    rewrite lookup_insert_ne by done. naive_solver.
  - destruct (ring_repr_remove 50 U s (Ring v) L) as [H1 H2]; [lia|done..|].
    split; [done|]. split; [done|]. intros t. rewrite Remove_Namespaces.
    assert (t ∈ (abs_op (OpRemove s) L).1 ↔ t ∈ L ∧ t ≠ s) as Hin.
    { destruct L as [|x L]; [set_solver|].
      change (abs_op (OpRemove s) (x :: L)).1 with (filter (λ t, t ≠ s) (x :: L)).
      rewrite list_elem_of_filter. naive_solver. }
    rewrite Hin, Ha. case_decide as Hts; [|naive_solver].
    split; [naive_solver|]. destruct (Namespaces v !! s); done.
Qed.

Lemma ns_repr_ops U ops v L :
  collision_free 50 U → Forall (λ op, ns_op_name op ∈ U) ops →
  (∀ t, t ∈ L → t ∈ U) → ns_repr v L →
  (run_ns_ops ops v).2 = (run_ops abs_op (to_ring_op <$> ops) L).2 ∧
  ns_repr (run_ns_ops ops v).1 (run_ops abs_op (to_ring_op <$> ops) L).1.
Proof.
  intros Hcf Hops. revert v L.
  induction Hops as [|op ops Hop Hops IH]; intros v L HL Hv; [done|].
  destruct (ns_repr_op U op v L Hcf Hop HL Hv) as [H1 H2].
  assert (op_slot (to_ring_op op) ∈ U) as HU by (by destruct op).
  destruct (IH _ _ (abs_op_subset _ L U HU HL) H2) as [IH1 IH2].
  simpl. by rewrite H1, IH1.
Qed.

(** Cordoning.  After any history of [Add] and [Remove] calls on a virtual
    namespace, panicking ones included, a ring lookup never returns a cordoned
    physical namespace (it returns an active one or the empty string), while
    every namespace ever added is still listed for the polls to drain it. *)
Theorem cordoned_never_allocated vn ops key s :
  let v := (run_ns_ops ops (NewVirtualNamespace vn)).1 in
  (GetSlot (Ring v) key = "" ∨
   Namespaces v !! GetSlot (Ring v) key = Some NamespaceActive) ∧
  (NsAdd s ∈ ops → s ∈ GetAllNamespaces v).
Proof.
  intros v. split; [apply ns_safe_GetSlot, ns_safe_ops, ns_safe_new|].
  intros (pre & post & ->)%list_elem_of_split. unfold v. rewrite elem_of_GetAllNamespaces.
  generalize (NewVirtualNamespace vn) as v0.
  induction pre as [|op pre IH]; intros v0; simpl; [|apply IH].
  apply run_ns_ops_keeps. simpl. rewrite lookup_insert_eq. eauto.
Qed.

(** C21: a registered namespace is reachable.  When virtual nodes do not
    collide, every history ends in a ring whose lookups all return an active
    namespace if there is one, and the empty string otherwise; a removal
    panics exactly when no namespace is active. *)
Theorem active_always_allocated U vn ops key :
  collision_free 50 U → Forall (λ op, ns_op_name op ∈ U) ops →
  let v := (run_ns_ops ops (NewVirtualNamespace vn)).1 in
  ((∃ s, Namespaces v !! s = Some NamespaceActive) →
   Namespaces v !! GetSlot (Ring v) key = Some NamespaceActive) ∧
  ((∀ s, Namespaces v !! s ≠ Some NamespaceActive) → GetSlot (Ring v) key = "") ∧
  ∀ s, s ∈ U →
    (is_panic (Remove (mkNamespace None s) v).2 = true ↔
     ∀ t, Namespaces v !! t ≠ Some NamespaceActive).
Proof.
  intros Hcf Hops v.
  destruct (ns_repr_ops U ops (NewVirtualNamespace vn) [] Hcf Hops) as [_ Hrep];
    [set_solver|apply ns_repr_new|].
  assert (Forall (λ op, op_slot op ∈ U) (to_ring_op <$> ops)) as Hops'.
  { apply Forall_fmap. eapply Forall_impl; [done|]. by intros [?|?]. }
  pose proof (run_abs_subset _ [] U Hops' ltac:(set_solver)) as HLU.
  change (run_ns_ops ops (NewVirtualNamespace vn)).1 with v in Hrep.
  set (L := (run_ops abs_op (to_ring_op <$> ops) []).1) in *.
  assert ((∀ s, Namespaces v !! s ≠ Some NamespaceActive) ↔ L = []) as Hnil.
  { setoid_rewrite <-(ns_repr_active _ _ Hrep). destruct L; set_solver. }
  split; [|split].
  - intros [s Hs]. apply (ns_repr_active _ _ Hrep).
    assert (L ≠ []) as HL by (apply (ns_repr_active _ _ Hrep) in Hs; by destruct L; set_solver).
    by destruct (GetSlot_abs_owner 50 _ L key ltac:(lia) (ns_repr_ring _ _ Hrep) HL)
      as (h & _ & ? & _).
  - intros HL%Hnil. apply GetSlot_empty, Permutation_nil_r.
    rewrite (repr_ring _ _ _ (ns_repr_ring _ _ Hrep)), HL. done.
  - intros s Hs. rewrite Hnil.
    destruct (ns_repr_op U (NsRemove s) v L Hcf Hs HLU Hrep) as [Hout _].
    simpl run_ns_op in Hout. rewrite Hout. simpl. by destruct L.
Qed.
End namespace_histories.

(** * The properties at a concrete virtual namespace *)

Definition w_ns_ops : list ns_op :=
  [NsAdd "ns1::c1:7233"; NsAdd "ns2::c2:7233"; NsRemove "ns1::c1:7233"].

Lemma w_ns_collision_free :
  collision_free (M3 := Murmur3_ref) 50 (list_to_set ["ns1::c1:7233"; "ns2::c2:7233"]).
Proof. apply collision_free_check. apply (bool_decide_unpack _). vm_compute. exact I. Qed.

Lemma active_always_allocated_witness :
  let v := (run_ns_ops (M3 := Murmur3_ref) w_ns_ops (NewVirtualNamespace "v")).1 in
  Namespaces v !! GetSlot (M3 := Murmur3_ref) (Ring v) "wf-1" = Some NamespaceActive.
Proof.
  apply (active_always_allocated (M3 := Murmur3_ref)
           (list_to_set ["ns1::c1:7233"; "ns2::c2:7233"]) "v" w_ns_ops "wf-1").
  - exact w_ns_collision_free.
  - repeat constructor; apply (bool_decide_unpack _); vm_compute; exact I.
  - exists "ns2::c2:7233". vm_compute. reflexivity.
Defined.
