(* ===== verification/Mappings.v ===== *)
(** The routing cache ([mappings.go]) and the Redis service behind it.  The
    service is a parameter: a class of its commands, and a class of the
    documented behaviour of a reachable server. *)

From S2P Require Import Prelude.
From stdpp Require Import options.

(** * The Redis client, [github.com/redis/go-redis/v9] *)

(** A reply: a value, [redis.Nil] (no such key), or another error. *)
Inductive redis_reply (A : Type) : Type :=
| RVal (a : A)
| RNil
| RErr (e : string).
Arguments RVal {_} _.
Arguments RNil {_}.
Arguments RErr {_} _.

Class Redis (R : Type) := {
  redis_Ping : R → R * redis_reply string;
  redis_Get : string → R → R * redis_reply string;
  redis_Set : string → string → R → R * redis_reply unit;
  redis_Del : string → R → R * redis_reply Z;
  redis_DBSize : R → R * redis_reply Z;
  redis_FlushDB : R → R * redis_reply unit
}.

(** What a reachable server does: the commands read and write one string map,
    and it stays reachable. *)
Class RedisLaws (R : Type) `{Redis R} := {
  store : R → gmap string string;
  online : R → Prop;
  redis_Ping_online r : online r →
    online (redis_Ping r).1 ∧ store (redis_Ping r).1 = store r;
  redis_Get_online k r : online r →
    online (redis_Get k r).1 ∧ store (redis_Get k r).1 = store r ∧
    (redis_Get k r).2 = match store r !! k with Some v => RVal v | None => RNil end;
  redis_Set_online k v r : online r →
    online (redis_Set k v r).1 ∧ store (redis_Set k v r).1 = <[k := v]> (store r) ∧
    (redis_Set k v r).2 = RVal tt;
  redis_Del_online k r : online r →
    online (redis_Del k r).1 ∧ store (redis_Del k r).1 = delete k (store r);
  redis_DBSize_online r : online r →
    online (redis_DBSize r).1 ∧ store (redis_DBSize r).1 = store r ∧
    (redis_DBSize r).2 = RVal (Z.of_nat (size (store r)));
  redis_FlushDB_online r : online r →
    online (redis_FlushDB r).1 ∧ store (redis_FlushDB r).1 = ∅
}.

(** * The cache *)

Record Mappings (R : Type) := mkMappings {
  client : R;
  cacheHitCount : Z;
  cacheMissCount : Z
}.
Arguments mkMappings {_} _ _ _.
Arguments client {_} _.
Arguments cacheHitCount {_} _.
Arguments cacheMissCount {_} _.

Section mappings.
Context {R : Type} `{Redis R}.

(** [redis.NewClient] connects lazily: [dial] is the client for an address. *)
Definition NewMappings (dial : string → R) (redisAddr : string) : Mappings R :=
  let redisAddr :=
    if decide (redisAddr = "" ∨ redisAddr = "./data/mappings.json")
    then "localhost:6379" else redisAddr in
  (* the reply of the ping is only logged *)
  mkMappings (redis_Ping (dial redisAddr)).1 0 0.

Definition Get (key : string) : GoM (Mappings R) string := λ m,
  let r := redis_Get key (client m) in
  match r.2 with
  | RVal val => (mkMappings r.1 (i64 (cacheHitCount m + 1)) (cacheMissCount m), Ok val)
  | RNil | RErr _ => (mkMappings r.1 (cacheHitCount m) (i64 (cacheMissCount m + 1)), Ok "")
  end.

Definition Put (key value : string) : GoM (Mappings R) unit := λ m,
  (mkMappings (redis_Set key value (client m)).1 (cacheHitCount m) (cacheMissCount m), Ok tt).

Definition Delete (key : string) : GoM (Mappings R) unit := λ m,
  (mkMappings (redis_Del key (client m)).1 (cacheHitCount m) (cacheMissCount m), Ok tt).

(** The error of [DBSize] is dropped: the size is then 0. *)
Definition Size : GoM (Mappings R) Z := λ m,
  let r := redis_DBSize (client m) in
  (mkMappings r.1 (cacheHitCount m) (cacheMissCount m),
   Ok match r.2 with RVal n => n | _ => 0%Z end).

Definition Clear : GoM (Mappings R) unit := λ m,
  (mkMappings (redis_FlushDB (client m)).1 (cacheHitCount m) (cacheMissCount m), Ok tt).

(** * The cache over a reachable server is a string map *)

Context `{!RedisLaws R}.

Definition cached (m : Mappings R) : gmap string string := store (client m).
Definition reachable (m : Mappings R) : Prop := online (client m).

Lemma Get_online key m :
  reachable m →
  reachable (Get key m).1 ∧ cached (Get key m).1 = cached m ∧
  (Get key m).2 = Ok (default "" (cached m !! key)).
Proof.
  intros Hon. unfold Get, reachable, cached in *.
  destruct (redis_Get_online key _ Hon) as (H1 & H2 & H3). rewrite H3.
  destruct (store (client m) !! key); auto.
Qed.

Lemma Put_online key value m :
  reachable m →
  reachable (Put key value m).1 ∧ cached (Put key value m).1 = <[key := value]> (cached m).
Proof. intros Hon. destruct (redis_Set_online key value _ Hon) as (? & ? & _). auto. Qed.

Lemma Delete_online key m :
  reachable m →
  reachable (Delete key m).1 ∧ cached (Delete key m).1 = delete key (cached m).
Proof. apply redis_Del_online. Qed.

Lemma Clear_online m : reachable m → reachable (Clear m).1 ∧ cached (Clear m).1 = ∅.
Proof. apply redis_FlushDB_online. Qed.

Lemma Size_online m :
  reachable m → reachable (Size m).1 ∧ cached (Size m).1 = cached m ∧
                (Size m).2 = Ok (Z.of_nat (size (cached m))).
Proof.
  intros Hon. unfold Size, reachable, cached in *.
  destruct (redis_DBSize_online _ Hon) as (? & ? & Hs). rewrite Hs. auto.
Qed.
End mappings.

(** * A concrete server

    An in-memory map that answers errors while it is down: one instance of the
    parameter, on which the development is evaluated. *)

Record MemRedis := mkMemRedis { mem_up : bool; mem_store : gmap string string }.

Definition mem_cmd {A} (f : gmap string string → gmap string string * redis_reply A)
    (r : MemRedis) : MemRedis * redis_reply A :=
  if mem_up r then (mkMemRedis true (f (mem_store r)).1, (f (mem_store r)).2)
  else (r, RErr "dial tcp: connection refused").

#[global] Instance MemRedis_Redis : Redis MemRedis := {|
  redis_Ping := mem_cmd (λ s, (s, RVal "PONG"));
  redis_Get k := mem_cmd (λ s, (s, match s !! k with Some v => RVal v | None => RNil end));
  redis_Set k v := mem_cmd (λ s, (<[k := v]> s, RVal tt));
  redis_Del k := mem_cmd (λ s, (delete k s, RVal (if decide (is_Some (s !! k)) then 1 else 0)%Z));
  redis_DBSize := mem_cmd (λ s, (s, RVal (Z.of_nat (size s))));
  redis_FlushDB := mem_cmd (λ s, (∅, RVal tt))
|}.

#[global] Program Instance MemRedis_laws : RedisLaws MemRedis := {|
  store := mem_store;
  online r := mem_up r = true
|}.
Solve Obligations with
  intros; simpl in *; unfold mem_cmd;
  match goal with H : mem_up _ = true |- _ => rewrite H end; auto.
