(* ===== verification/Resolver.v ===== *)
(** The resolver ([resolver.go], [payload.go]): the sticky assignment of a
    workflow to a physical namespace, over the cache and the registry. *)

From S2P Require Import Prelude GoStrings GoSort ConsistentHash RingSpec Murmur Namespaces.
From S2P Require Import Mappings.
From stdpp Require Import options.

(** [Payload.VirtualNamespace] is [PayloadNamespace] here. *)
Record Payload := mkPayload { WorkflowID : string; PayloadNamespace : string }.

(** What the requests share: the cache, the registry and the Prometheus counter
    [total_workflow_allocated] by namespace label.  The registry's own Redis
    client and the cache's reach the same server, so the world holds one. *)
Record World (R : Type) := mkWorld {
  Cache : Mappings R;
  registry : VirtualNamespaceRegistry;
  totalWorkflowAllocated : gmap string Z
}.
Arguments mkWorld {_} _ _ _.
Arguments Cache {_} _.
Arguments registry {_} _.
Arguments totalWorkflowAllocated {_} _.

Section resolver.
Context {M3 : Murmur3} {R : Type} `{Redis R}.

Definition on_cache {A} (m : GoM (Mappings R) A) : GoM (World R) A := λ w,
  let r := m (Cache w) in (mkWorld r.1 (registry w) (totalWorkflowAllocated w), r.2).

Definition counter (w : World R) (s : string) : Z :=
  default 0%Z (totalWorkflowAllocated w !! s).

(** [totalWorkflowAllocated.WithLabelValues(physNs).Inc()]. *)
Definition inc_allocated (physNs : string) : GoM (World R) unit :=
  modify (λ w, mkWorld (Cache w) (registry w)
                 (<[physNs := (counter w physNs + 1)%Z]> (totalWorkflowAllocated w))).

Definition Resolve (payload : Payload) : GoM (World R) (string * bool) :=
  let key := WorkflowID payload in
  physNs ← on_cache (Get key);
  if decide (physNs ≠ "") then mret (physNs, true)
  else
    reg ← gets registry;
    match Resolve_ns reg (PayloadNamespace payload) with
    | None => mret ("", false)
    | Some virtualNamespace =>
        let physNs := GetSlot (Ring virtualNamespace) key in
        inc_allocated physNs;;
        on_cache (Put key physNs);;
        mret (physNs, false)
    end.

(** [Resolve] returns: it neither fails nor panics. *)
Lemma Resolve_returns p w : ∃ w' r, Resolve p w = (w', Ok r).
Proof.
  unfold Resolve, on_cache, Get, Put. go_simpl.
  destruct (redis_Get (WorkflowID p) (client (Cache w))).2; simpl; go_simpl;
    repeat case_decide; simpl; try case_match; simpl; eauto.
Qed.

(** The registry is read, never written. *)
Lemma Resolve_registry p w : registry (Resolve p w).1 = registry w.
Proof.
  unfold Resolve, on_cache, Get, Put. go_simpl.
  destruct (redis_Get (WorkflowID p) (client (Cache w))).2; simpl; go_simpl;
    repeat case_decide; simpl; try case_match; done.
Qed.

(** On a miss, with the server down or without the key, the ring decides. *)
Lemma Resolve_miss p w v :
  (∀ x, (redis_Get (WorkflowID p) (client (Cache w))).2 ≠ RVal x) →
  Resolve_ns (registry w) (PayloadNamespace p) = Some v →
  (Resolve p w).2 = Ok (GetSlot (Ring v) (WorkflowID p), false) ∧
  counter (Resolve p w).1 (GetSlot (Ring v) (WorkflowID p)) =
    (counter w (GetSlot (Ring v) (WorkflowID p)) + 1)%Z.
Proof.
  intros Hmiss Hv. unfold Resolve, on_cache, Get, counter. go_simpl.
  destruct (redis_Get (WorkflowID p) (client (Cache w))).2 as [x| |e] eqn:E;
    [by destruct (Hmiss x)| |]; simpl; go_simpl; simpl;
    rewrite Hv; simpl; by rewrite lookup_insert_eq.
Qed.

Context `{!RedisLaws R}.

Definition w_cached (w : World R) : gmap string string := cached (Cache w).
Definition w_reachable (w : World R) : Prop := reachable (Cache w).

(** The abstract resolver: a lookup in the routing table, or a choice by the
    ring that is then recorded. *)
Definition abs_Resolve (p : Payload) (reg : VirtualNamespaceRegistry)
    (T : gmap string string) : gmap string string * (string * bool) :=
  match T !! WorkflowID p with
  | Some s =>
      if decide (s ≠ "") then (T, (s, true))
      else match namespaces reg !! PayloadNamespace p with
           | None => (T, ("", false))
           | Some v => let s := GetSlot (Ring v) (WorkflowID p) in
                       (<[WorkflowID p := s]> T, (s, false))
           end
  | None =>
      match namespaces reg !! PayloadNamespace p with
      | None => (T, ("", false))
      | Some v => let s := GetSlot (Ring v) (WorkflowID p) in
                  (<[WorkflowID p := s]> T, (s, false))
      end
  end.

(** Over a reachable server [Resolve] is the abstract resolver on the cache. *)
Lemma Resolve_refines p w :
  w_reachable w →
  w_reachable (Resolve p w).1 ∧
  w_cached (Resolve p w).1 = (abs_Resolve p (registry w) (w_cached w)).1 ∧
  (Resolve p w).2 = Ok (abs_Resolve p (registry w) (w_cached w)).2.
Proof.
  unfold w_reachable, w_cached. intros Hon.
  destruct (Get_online (WorkflowID p) _ Hon) as (H1 & H2 & H3).
  unfold Resolve, abs_Resolve. go_simpl. unfold on_cache at 1 3 5. rewrite H3.
  set (m := (Get (WorkflowID p) (Cache w)).1) in *. simpl.
  assert (∀ v, let s := GetSlot (Ring v) (WorkflowID p) in
    reachable (Put (WorkflowID p) s m).1 ∧
    cached (Put (WorkflowID p) s m).1 = <[WorkflowID p := s]> (cached (Cache w))) as HPut.
  { intros v s. destruct (Put_online (WorkflowID p) s m H1) as [? Hc]. by rewrite Hc, H2. }
  destruct (cached (Cache w) !! WorkflowID p) as [s|]; simpl.
  - case_decide; simpl; [auto|].
    unfold Resolve_ns. destruct (namespaces (registry w) !! _) as [v|]; simpl; [|auto].
    destruct (HPut v). auto.
  - simpl.
    unfold Resolve_ns. destruct (namespaces (registry w) !! _) as [v|]; simpl; [|auto].
    destruct (HPut v). auto.
Qed.

(** On a hit the answer is the cached entry, and nothing is written. *)
Lemma Resolve_hit p w s :
  w_reachable w → w_cached w !! WorkflowID p = Some s → s ≠ "" →
  (Resolve p w).2 = Ok (s, true) ∧ w_cached (Resolve p w).1 = w_cached w.
Proof.
  intros Hon Hs Hne. destruct (Resolve_refines p w Hon) as (_ & Hc & Hr).
  unfold abs_Resolve in *. rewrite Hs, decide_True in Hc, Hr by done. auto.
Qed.

(** A non-empty answer is cached under the workflow's id. *)
Lemma Resolve_caches p w s hit :
  w_reachable w → (Resolve p w).2 = Ok (s, hit) → s ≠ "" →
  w_cached (Resolve p w).1 !! WorkflowID p = Some s.
Proof.
  intros Hon Hr Hne. destruct (Resolve_refines p w Hon) as (_ & Hc & Hr').
  rewrite Hr in Hr'. rewrite Hc. unfold abs_Resolve in *.
  repeat case_match; simpl in *; simplify_eq; try done; by rewrite lookup_insert_eq.
Qed.

(** Entries of other workflows are untouched. *)
Lemma Resolve_other p w k :
  w_reachable w → k ≠ WorkflowID p → w_cached (Resolve p w).1 !! k = w_cached w !! k.
Proof.
  intros Hon Hk. destruct (Resolve_refines p w Hon) as (_ & -> & _).
  unfold abs_Resolve. repeat case_match; simpl; by rewrite ?lookup_insert_ne.
Qed.

(** * Histories

    What happens to the shared state between two requests: requests resolve,
    the admin API changes the registry, a poll records where it found a task,
    and a completed workflow is deleted from the cache. *)
Inductive event :=
| EResolve (p : Payload)
| ERegistry (f : VirtualNamespaceRegistry → VirtualNamespaceRegistry)
| EPolled (workflowID physNs : string)
| ECompleted (workflowID : string).

Definition exec_event (e : event) (w : World R) : World R * option (string * bool) :=
  match e with
  | EResolve p =>
      let r := Resolve p w in
      (r.1, match r.2 with Ok a => Some a | _ => None end)
  | ERegistry f => (mkWorld (Cache w) (f (registry w)) (totalWorkflowAllocated w), None)
  | EPolled k v => ((on_cache (Put k v) w).1, None)
  | ECompleted k => ((on_cache (Delete k) w).1, None)
  end.

Fixpoint exec_events (es : list event) (w : World R)
    : World R * list (option (string * bool)) :=
  match es with
  | [] => (w, [])
  | e :: es =>
      let r := exec_event e w in
      let rest := exec_events es r.1 in
      (rest.1, r.2 :: rest.2)
  end.

(** The same history on the abstract state: the registry and the routing table. *)
Definition abs_event (e : event) (st : VirtualNamespaceRegistry * gmap string string)
    : (VirtualNamespaceRegistry * gmap string string) * option (string * bool) :=
  match e with
  | EResolve p =>
      let r := abs_Resolve p st.1 st.2 in ((st.1, r.1), Some r.2)
  | ERegistry f => ((f st.1, st.2), None)
  | EPolled k v => ((st.1, <[k := v]> st.2), None)
  | ECompleted k => ((st.1, delete k st.2), None)
  end.

Fixpoint abs_events (es : list event) (st : VirtualNamespaceRegistry * gmap string string)
    : (VirtualNamespaceRegistry * gmap string string) * list (option (string * bool)) :=
  match es with
  | [] => (st, [])
  | e :: es =>
      let r := abs_event e st in
      let rest := abs_events es r.1 in
      (rest.1, r.2 :: rest.2)
  end.

Definition w_abs (w : World R) : VirtualNamespaceRegistry * gmap string string :=
  (registry w, w_cached w).

Lemma exec_event_refines e w :
  w_reachable w →
  w_reachable (exec_event e w).1 ∧
  w_abs (exec_event e w).1 = (abs_event e (w_abs w)).1 ∧
  (exec_event e w).2 = (abs_event e (w_abs w)).2.
Proof.
  intros Hon. unfold w_abs, w_reachable, w_cached in *.
  destruct e as [p|f|k v|k]; cbn [exec_event abs_event fst snd].
  - destruct (Resolve_refines p w Hon) as (H1 & H2 & H3).
    unfold w_cached in H2. rewrite Resolve_registry, H2, H3. auto.
  - auto.
  - destruct (Put_online k v _ Hon) as [Hp Hc]. unfold on_cache. cbn [Cache registry fst].
    by rewrite Hc.
  - destruct (Delete_online k _ Hon) as [Hp Hc]. unfold on_cache. cbn [Cache registry fst].
    by rewrite Hc.
Qed.

Lemma exec_events_refines es w :
  w_reachable w →
  w_reachable (exec_events es w).1 ∧
  w_abs (exec_events es w).1 = (abs_events es (w_abs w)).1 ∧
  (exec_events es w).2 = (abs_events es (w_abs w)).2.
Proof.
  revert w. induction es as [|e es IH]; intros w Hon; simpl; [auto|].
  destruct (exec_event_refines e w Hon) as (H1 & H2 & H3).
  destruct (IH _ H1) as (? & IH2 & IH3). rewrite IH2, IH3, H2, H3. auto.
Qed.

(** The events that may overwrite a workflow's entry. *)
Definition rewrites (k : string) (e : event) : Prop :=
  match e with EPolled k' _ | ECompleted k' => k' = k | _ => False end.

#[global] Instance rewrites_dec k e : Decision (rewrites k e).
Proof. destruct e; unfold rewrites; apply _. Defined.

Lemma abs_event_keeps e st k s :
  st.2 !! k = Some s → s ≠ "" → ¬ rewrites k e → (abs_event e st).1.2 !! k = Some s.
Proof.
  intros Hk Hs Hr. destruct e as [p|f|k' v|k']; simpl in *.
  - unfold abs_Resolve. destruct (decide (WorkflowID p = k)) as [->|Hne].
    + by rewrite Hk, decide_True.
    + repeat case_match; simpl; by rewrite ?lookup_insert_ne.
  - done.
  - by rewrite lookup_insert_ne.
  - by rewrite lookup_delete_ne.
Qed.

Lemma abs_events_keep es st k s :
  st.2 !! k = Some s → s ≠ "" → Forall (λ e, ¬ rewrites k e) es →
  (abs_events es st).1.2 !! k = Some s.
Proof.
  intros Hk Hs Hes. revert st Hk.
  induction Hes as [|e es He Hes IH]; intros st Hk; simpl; [done|].
  by apply IH, abs_event_keeps.
Qed.

(** * Accounting *)

(** The allocations to [s] recorded in the table. *)
Definition assigned (s : string) (T : gmap string string) : nat :=
  size (filter (λ kv, kv.2 = s) T).

Definition balanced (w : World R) : Prop :=
  ∀ s, s ≠ "" → counter w s = Z.of_nat (assigned s (w_cached w)).

Lemma assigned_insert k t s (T : gmap string string) :
  s ≠ "" → (∀ x, T !! k = Some x → x = "") →
  assigned s (<[k := t]> T) = (if decide (t = s) then 1 else 0) + assigned s T.
Proof.
  intros Hs Hold. unfold assigned. case_decide as Ht.
  - rewrite map_filter_insert_True by done.
    rewrite map_size_insert_None; [done|].
    apply map_lookup_filter_None. right. intros x Hx. simpl. specialize (Hold x Hx). congruence.
  - rewrite map_filter_insert_False by done.
    rewrite map_filter_delete_not; [done|]. simpl. intros x Hx. specialize (Hold x Hx). congruence.
Qed.

(** What a resolution does to the counter. *)
Lemma Resolve_counter p w s :
  w_reachable w →
  counter (Resolve p w).1 s =
    (counter w s +
     match (Resolve p w).2 with
     | Ok (t, false) =>
         if decide (t = s ∧ is_Some (Resolve_ns (registry w) (PayloadNamespace p)))
         then 1 else 0
     | _ => 0
     end)%Z.
Proof.
  intros Hon. destruct (Get_online (WorkflowID p) (Cache w) Hon) as (_ & _ & Hg).
  unfold Resolve, counter. go_simpl. unfold on_cache at 1 3. rewrite Hg. simpl.
  case_decide as Hd; simpl; [by rewrite Z.add_0_r|].
  destruct (Resolve_ns (registry w) (PayloadNamespace p)) as [v|] eqn:E; simpl.
  - destruct (decide (GetSlot (Ring v) (WorkflowID p) = s)) as [<-|Hne].
    + rewrite lookup_insert_eq. rewrite decide_True by eauto. done.
    + rewrite lookup_insert_ne by done. rewrite decide_False by naive_solver. simpl. lia.
  - rewrite decide_False by (by intros [_ [? ?]]). lia.
Qed.

Lemma balanced_Resolve p w : w_reachable w → balanced w → balanced (Resolve p w).1.
Proof.
  intros Hon Hb s Hs. rewrite Resolve_counter by done.
  destruct (Resolve_refines p w Hon) as (_ & Hc & Hr). rewrite Hr, Hc, (Hb s Hs).
  unfold abs_Resolve, Resolve_ns.
  destruct (w_cached w !! WorkflowID p) as [x|] eqn:Ex; simpl.
  - case_decide as Hx; simpl; [lia|].
    destruct (namespaces (registry w) !! PayloadNamespace p) as [v|]; simpl.
    + rewrite assigned_insert; [|done|intros y; rewrite Ex; intros [= <-]; destruct (decide (x = "")); tauto].
      destruct (decide (GetSlot (Ring v) (WorkflowID p) = s)) as [He|He];
        [rewrite decide_True by eauto|rewrite decide_False by naive_solver]; lia.
    + rewrite decide_False by (by intros [_ [? ?]]). lia.
  - destruct (namespaces (registry w) !! PayloadNamespace p) as [v|]; simpl.
    + rewrite assigned_insert; [|done|by rewrite Ex].
      destruct (decide (GetSlot (Ring v) (WorkflowID p) = s)) as [He|He];
        [rewrite decide_True by eauto|rewrite decide_False by naive_solver]; lia.
    + rewrite decide_False by (by intros [_ [? ?]]). lia.
Qed.
End resolver.

(** * Properties of the resolver *)

Section resolver_theorems.
Context {M3 : Murmur3} {R : Type} `{Redis R} `{!RedisLaws R}.

(** Sticky routing.  Over a reachable cache, once a workflow id resolved to
    a physical namespace, every later resolution of that id returns the same
    one as a cache hit, whatever the admin API did to the registry in between,
    as long as no poll re-recorded it and it was not completed. *)
Theorem sticky_routing p p' (w : World R) s hit es :
  w_reachable w → (Resolve p w).2 = Ok (s, hit) → s ≠ "" →
  Forall (λ e, ¬ rewrites (WorkflowID p) e) es → WorkflowID p' = WorkflowID p →
  (Resolve p' (exec_events es (Resolve p w).1).1).2 = Ok (s, true).
Proof.
  intros Hon Hr Hs Hes Hp'. destruct (Resolve_refines p w Hon) as (Hon1 & _).
  pose proof (Resolve_caches p w s hit Hon Hr Hs) as Hc.
  destruct (exec_events_refines es _ Hon1) as (Hon2 & Habs & _).
  apply Resolve_hit; [done| |done]. rewrite Hp'.
  apply (f_equal snd) in Habs. simpl in Habs. rewrite Habs. by apply abs_events_keep.
Qed.

(** C3: refinement.  Over a reachable cache, any history of resolutions,
    registry changes, polled tasks and completions gives the same answers as,
    and leaves the state of, the abstract routing table. *)
Theorem resolver_refines_table es (w : World R) :
  w_reachable w →
  (exec_events es w).2 = (abs_events es (registry w, w_cached w)).2 ∧
  (registry (exec_events es w).1, w_cached (exec_events es w).1) =
    (abs_events es (registry w, w_cached w)).1.
Proof. intros Hon. by destruct (exec_events_refines es w Hon) as (_ & ? & ?). Qed.

(** Allocation accounting.  Starting from an empty cache and zero counters,
    after any history of resolutions and registry changes the counter
    [total_workflow_allocated] of every physical namespace equals the number
    of workflows the cache assigns to it, cordoned namespaces included. *)
Theorem allocation_counter_exact es (w : World R) s :
  w_reachable w → w_cached w = ∅ → totalWorkflowAllocated w = ∅ →
  Forall (λ e, match e with EResolve _ | ERegistry _ => True | _ => False end) es →
  s ≠ "" →
  counter (exec_events es w).1 s =
    Z.of_nat (assigned s (w_cached (exec_events es w).1)).
Proof.
  intros Hon Hc Hm Hes Hs.
  assert (balanced w) as Hb.
  { intros t _. unfold counter, assigned. by rewrite Hm, Hc, map_filter_empty. }
  clear Hc Hm. revert w Hon Hb.
  induction Hes as [|e es He Hes IH]; intros w Hon Hb; simpl; [by apply Hb|].
  destruct (exec_event_refines e w Hon) as (Hon' & _).
  apply IH; [done|]. destruct e as [p|f| |]; [by apply balanced_Resolve|exact Hb|done..].
Qed.

(** Resolution without the cache.  When Redis answers with an error or has
    no entry, [Resolve] still returns, without panicking: the ring's choice
    for a registered virtual namespace (and the counter is incremented), the
    empty string for an unregistered one. *)
Theorem resolve_without_cache p (w : World R) :
  (∀ x, (redis_Get (WorkflowID p) (client (Cache w))).2 ≠ RVal x) →
  match Resolve_ns (registry w) (PayloadNamespace p) with
  | Some v =>
      (Resolve p w).2 = Ok (GetSlot (Ring v) (WorkflowID p), false) ∧
      counter (Resolve p w).1 (GetSlot (Ring v) (WorkflowID p)) =
        (counter w (GetSlot (Ring v) (WorkflowID p)) + 1)%Z
  | None => (Resolve p w).2 = Ok ("", false) ∧
            totalWorkflowAllocated (Resolve p w).1 = totalWorkflowAllocated w
  end.
Proof.
  intros Hmiss. destruct (Resolve_ns (registry w) (PayloadNamespace p)) as [v|] eqn:E.
  - by apply Resolve_miss.
  - unfold Resolve, on_cache, Get. go_simpl.
    destruct (redis_Get (WorkflowID p) (client (Cache w))).2 as [x| |e];
      [by destruct (Hmiss x)|..]; simpl; by rewrite E.
Qed.

(** The routing key ignores the virtual namespace.  A workflow id cached
    for one virtual namespace is routed there also when the request names
    another virtual namespace, even one that holds no such physical namespace. *)
Theorem routing_key_ignores_namespace (w : World R) id ns s :
  w_reachable w → w_cached w !! id = Some s → s ≠ "" →
  (Resolve (mkPayload id ns) w).2 = Ok (s, true).
Proof. intros Hon Hc Hs. by apply Resolve_hit. Qed.
End resolver_theorems.

(** * The properties at a concrete world *)

Definition w_vns : VirtualNamespace :=
  (run_ns_ops (M3 := Murmur3_ref)
     [NsAdd "ns1::c1:7233"; NsAdd "ns2::c2:7233"] (NewVirtualNamespace "v")).1.

Definition w_world (up : bool) (m : gmap string string) : World MemRedis :=
  mkWorld (mkMappings (mkMemRedis up m) 0 0) (Register w_vns (mkRegistry ∅)) ∅.

Definition w_cordon : event :=
  ERegistry (λ reg, mkRegistry
    ((λ v, (Remove (M3 := Murmur3_ref)
              (mkNamespace None (GetSlot (M3 := Murmur3_ref) (Ring v) "wf-1")) v).1)
     <$> namespaces reg)).

Lemma sticky_routing_witness :
  (Resolve (M3 := Murmur3_ref) (mkPayload "wf-1" "v")
     (exec_events (M3 := Murmur3_ref) [w_cordon; EResolve (mkPayload "wf-2" "v")]
        (Resolve (M3 := Murmur3_ref) (mkPayload "wf-1" "v") (w_world true ∅)).1).1).2 =
  Ok (GetSlot (M3 := Murmur3_ref) (Ring w_vns) "wf-1", true).
Proof.
  apply (sticky_routing (M3 := Murmur3_ref) (mkPayload "wf-1" "v") (mkPayload "wf-1" "v")
           (w_world true ∅) _ false).
  - reflexivity.
  - vm_compute. reflexivity.
  - vm_compute. discriminate.
  - repeat constructor; vm_compute; tauto.
  - reflexivity.
Defined.

Lemma resolver_refines_table_witness :
  (exec_events (M3 := Murmur3_ref) [EResolve (mkPayload "wf-1" "v"); ECompleted "wf-1"]
     (w_world true ∅)).2 =
  [Some (GetSlot (M3 := Murmur3_ref) (Ring w_vns) "wf-1", false); None].
Proof.
  destruct (resolver_refines_table (M3 := Murmur3_ref)
    [EResolve (mkPayload "wf-1" "v"); ECompleted "wf-1"] (w_world true ∅)) as [Heq _].
  - reflexivity.
  - rewrite Heq. vm_compute. reflexivity.
Defined.

Lemma allocation_counter_exact_witness :
  counter (exec_events (M3 := Murmur3_ref)
             [EResolve (mkPayload "wf-1" "v"); w_cordon; EResolve (mkPayload "wf-1" "v")]
             (w_world true ∅)).1 (GetSlot (M3 := Murmur3_ref) (Ring w_vns) "wf-1") = 1%Z.
Proof.
  rewrite (allocation_counter_exact (M3 := Murmur3_ref)
    [EResolve (mkPayload "wf-1" "v"); w_cordon; EResolve (mkPayload "wf-1" "v")]
    (w_world true ∅) (GetSlot (M3 := Murmur3_ref) (Ring w_vns) "wf-1")).
  - vm_compute. reflexivity.
  - reflexivity.
  - reflexivity.
  - reflexivity.
  - repeat constructor.
  - vm_compute. discriminate.
Defined.

Lemma resolve_without_cache_witness :
  (Resolve (M3 := Murmur3_ref) (mkPayload "wf-1" "v") (w_world false ∅)).2 =
    Ok (GetSlot (M3 := Murmur3_ref) (Ring w_vns) "wf-1", false).
Proof.
  apply (resolve_without_cache (M3 := Murmur3_ref) (mkPayload "wf-1" "v") (w_world false ∅)).
  intros x. vm_compute. discriminate.
Defined.

Lemma routing_key_ignores_namespace_witness :
  (Resolve (M3 := Murmur3_ref) (mkPayload "wf-1" "another-tenant")
     (w_world true {["wf-1" := "ns1::c1:7233"]})).2 = Ok ("ns1::c1:7233", true).
Proof.
  apply (routing_key_ignores_namespace (M3 := Murmur3_ref)
           (w_world true {["wf-1" := "ns1::c1:7233"]})).
  - reflexivity.
  - reflexivity.
  - discriminate.
Defined.
