(* ===== verification/Wire.v ===== *)
(** The wire formats the proxy reads and writes by hand: the gRPC message frame
    ([extractPayload] of [connpark.go], [encodeGRPCPayload] of [proxy.go]), the
    base-128 varints of [encoding/binary], and the scan of a Temporal task
    token for its workflow id ([extractWorkflowIDFromTaskToken]). *)

From S2P Require Import Prelude GoStrings.
From stdpp Require Import options.

Local Open Scope Z_scope.

Definition len {A} (l : list A) : Z := Z.of_nat (length l).

(** * The gRPC frame *)

(** [compress/gzip]: the error of [gzip.NewReader], if any, and the bytes
    [io.ReadAll] gets from the reader with the error that stopped it. *)
Class Gzip := {
  gzip_NewReader_err : list byte → option string;
  gzip_ReadAll : list byte → list byte * option string
}.

Section frame.
Context {GZ : Gzip}.

Definition extractPayload (bodyBytes : list byte) : res (list byte * bool) :=
  if decide (len bodyBytes ≤ 5) then Err "payload too short to be valid gRPC"
  else
    let isCompressed := bool_decide (nth 0 bodyBytes x00 = x01) in
    let rest := drop 5 bodyBytes in
    if isCompressed then
      match gzip_NewReader_err rest with
      | Some e => Err ("failed to create gzip reader: " +:+ e)
      | None =>
          match gzip_ReadAll rest with
          | (_, Some e) => Err ("failed to decompress gzip payload: " +:+ e)
          | (pbPayload, None) => Ok (pbPayload, isCompressed)
          end
      end
    else Ok (rest, isCompressed).
End frame.

(** The frame [encodeGRPCPayload] and the pollers build: flag 0, the length in
    four big-endian bytes, the message. *)
Definition grpc_frame (finalPayload : list byte) : list byte :=
  let newBodyLen := len finalPayload in
  [x00; byte_of_Z (Z.shiftr newBodyLen 24); byte_of_Z (Z.shiftr newBodyLen 16);
   byte_of_Z (Z.shiftr newBodyLen 8); byte_of_Z newBodyLen] ++ finalPayload.

(** The length a receiver reads from a frame's header. *)
Definition frame_length (frame : list byte) : Z :=
  byteZ (nth 1 frame x00) * 2 ^ 24 + byteZ (nth 2 frame x00) * 2 ^ 16 +
  byteZ (nth 3 frame x00) * 2 ^ 8 + byteZ (nth 4 frame x00).

Lemma u8_shiftr_digits n :
  0 ≤ n →
  u8 (Z.shiftr n 24) * 2 ^ 24 + u8 (Z.shiftr n 16) * 2 ^ 16 + u8 (Z.shiftr n 8) * 2 ^ 8 + u8 n
  = n mod 2 ^ 32.
Proof.
  intros Hn. unfold u8. rewrite !Z.shiftr_div_pow2 by lia.
  pose proof (Z.div_mod n (2 ^ 8)). pose proof (Z.div_mod (n / 2 ^ 8) (2 ^ 8)).
  pose proof (Z.div_mod (n / 2 ^ 16) (2 ^ 8)). pose proof (Z.div_mod (n / 2 ^ 24) (2 ^ 8)).
  rewrite !Z.div_div in * by lia. change (2 ^ 8 * 2 ^ 8) with (2 ^ 16) in *.
  change (2 ^ 16 * 2 ^ 8) with (2 ^ 24) in *. change (2 ^ 24 * 2 ^ 8) with (2 ^ 32) in *.
  pose proof (λ a, Z.mod_pos_bound a (2 ^ 8) ltac:(lia)) as Hb.
  pose proof (Hb n). pose proof (Hb (n / 2 ^ 8)).
  pose proof (Hb (n / 2 ^ 16)). pose proof (Hb (n / 2 ^ 24)).
  apply (Z.mod_unique_pos _ _ (n / 2 ^ 32)); lia.
Qed.

Lemma frame_length_correct p : frame_length (grpc_frame p) = len p mod 2 ^ 32.
Proof.
  unfold frame_length, grpc_frame. simpl nth. rewrite !byteZ_of_Z.
  apply u8_shiftr_digits. unfold len. lia.
Qed.

Lemma length_grpc_frame p : len (grpc_frame p) = 5 + len p.
Proof. unfold len, grpc_frame. simpl. lia. Qed.

Lemma drop_grpc_frame p : drop 5 (grpc_frame p) = p.
Proof. done. Qed.

Lemma extractPayload_grpc_frame {GZ : Gzip} p :
  p ≠ [] → extractPayload (grpc_frame p) = Ok (p, false).
Proof.
  intros Hp. unfold extractPayload. rewrite length_grpc_frame, drop_grpc_frame.
  rewrite decide_False; [done|]. destruct p as [|b p]; [done|]. unfold len. simpl. lia.
Qed.

(** C25: the frame round trip.  [extractPayload] of a frame the proxy builds
    gives back the message, marked uncompressed, for every non-empty message
    (the empty one is refused as too short), whatever decompressor is used;
    and the header holds the message's length modulo 2^32. *)
Theorem frame_roundtrip {GZ : Gzip} p :
  extractPayload (grpc_frame p) =
    (if decide (p = []) then Err "payload too short to be valid gRPC" else Ok (p, false)) ∧
  frame_length (grpc_frame p) = len p mod 2 ^ 32 ∧
  len (grpc_frame p) = 5 + len p.
Proof.
  split; [|split; [apply frame_length_correct|apply length_grpc_frame]].
  case_decide as Hp; [by subst|by apply extractPayload_grpc_frame].
Qed.

(** [extractPayload] on every input.  It never panics and never diverges;
    it fails exactly on bodies of at most five bytes and on compressed bodies
    that do not decompress, and otherwise returns the rest of the body, or its
    decompression, without consulting the length in the header. *)
Theorem extractPayload_total {GZ : Gzip} b :
  (∃ e, extractPayload b = Err e ∧
     (len b ≤ 5 ∨
      nth 0 b x00 = x01 ∧ (is_Some (gzip_NewReader_err (drop 5 b)) ∨
                           is_Some (gzip_ReadAll (drop 5 b)).2))) ∨
  (∃ p, extractPayload b = Ok (p, bool_decide (nth 0 b x00 = x01)) ∧ 5 < len b ∧
     p = if bool_decide (nth 0 b x00 = x01) then (gzip_ReadAll (drop 5 b)).1 else drop 5 b).
Proof.
  unfold extractPayload. case_decide; [left; eauto|].
  destruct (bool_decide (nth 0 b x00 = x01)) eqn:E; [|right; eauto with lia].
  apply bool_decide_eq_true in E.
  destruct (gzip_NewReader_err (drop 5 b)); [left; eauto 10|].
  destruct (gzip_ReadAll (drop 5 b)) as [q [e|]] eqn:Eq; simpl; [left; eauto 10|right; eauto with lia].
Qed.

(** * Varints *)

(** [binary.Uvarint]: the value and the number of bytes read, 0 when the buffer
    ends, negative on overflow. *)
Fixpoint Uvarint_loop (buf : list byte) (i x s : Z) : Z * Z :=
  match buf with
  | [] => (0, 0)
  | b :: rest =>
      let b := byteZ b in
      if decide (i = 10) then (0, - (i + 1))
      else if decide (b < 128) then
        if decide (i = 9 ∧ 1 < b) then (0, - (i + 1))
        else (Z.lor x (u64 (Z.shiftl b s)), i + 1)
      else Uvarint_loop rest (i + 1) (Z.lor x (u64 (Z.shiftl (Z.land b 127) s))) (s + 7)
  end.

Definition Uvarint (buf : list byte) : Z * Z := Uvarint_loop buf 0 0 0.

(** The encoder of the same format, for a [uint64]. *)
Fixpoint put_uvarint (fuel : nat) (z : Z) : list byte :=
  match fuel with
  | O => []
  | S fuel =>
      if decide (z < 128) then [byte_of_Z z]
      else byte_of_Z (z mod 128 + 128) :: put_uvarint fuel (z / 128)
  end.

Definition uvarint (z : Z) : list byte := put_uvarint 10 z.

(** The loop's reading of an encoded number, at any position of the number. *)
Lemma Uvarint_loop_put fuel z rest (i x : Z) :
  0 ≤ i → Z.of_nat fuel = 10 - i → (0 < fuel)%nat → 0 ≤ z < 2 ^ (64 - 7 * i) →
  0 ≤ x < 2 ^ (7 * i) →
  Uvarint_loop (put_uvarint fuel z ++ rest) i x (7 * i) =
    (x + z * 2 ^ (7 * i), i + len (put_uvarint fuel z)).
Proof.
  revert z i x. induction fuel as [|fuel IH]; intros z i x Hi Hf Hpos Hz Hx; [lia|].
  simpl put_uvarint.
  assert (2 ^ (64 - 7 * i) * 2 ^ (7 * i) = 2 ^ 64) as Hpow.
  { rewrite <-Z.pow_add_r by lia. f_equal. lia. }
  assert (0 < 2 ^ (7 * i)) by (apply Z.pow_pos_nonneg; lia).
  case_decide as Hsmall; simpl Uvarint_loop; rewrite byteZ_of_Z; unfold u8.
  - rewrite (Z.mod_small z) by lia. rewrite decide_False by lia. rewrite decide_True by lia.
    rewrite decide_False.
    2:{ intros [-> ?]. simpl in Hz. lia. }
    rewrite u64_small.
    2:{ rewrite Z.shiftl_mul_pow2 by lia. nia. }
    rewrite lor_shiftl_disjoint by lia. unfold len. simpl. f_equal; lia.
  - pose proof (Z.mod_pos_bound z 128 ltac:(lia)) as Hm.
    rewrite (Z.mod_small (z mod 128 + 128)) by lia.
    assert (i < 9) as Hi9.
    { destruct (decide (i = 9)) as [->|]; [|lia]. simpl in Hz. lia. }
    rewrite decide_False by lia. rewrite decide_False by lia.
    replace (Z.land (z mod 128 + 128) 127) with (z mod 128).
    2:{ change 127 with (Z.ones 7). rewrite Z.land_ones by lia.
        replace (z mod 128 + 128) with (z mod 128 + 1 * 2 ^ 7) by lia.
        rewrite Z.mod_add by lia. symmetry. apply Z.mod_small. lia. }
    assert (2 ^ (7 * (i + 1)) = 128 * 2 ^ (7 * i)) as Hnext.
    { replace (7 * (i + 1)) with (7 + 7 * i) by lia. rewrite Z.pow_add_r by lia. done. }
    assert (2 ^ (64 - 7 * i) = 128 * 2 ^ (64 - 7 * (i + 1))) as Hprev.
    { replace (64 - 7 * i) with (7 + (64 - 7 * (i + 1))) by lia. rewrite Z.pow_add_r by lia. done. }
    rewrite u64_small.
    2:{ rewrite Z.shiftl_mul_pow2 by lia. pose proof (Z.mod_le z 128). nia. }
    rewrite lor_shiftl_disjoint by lia.
    replace (7 * i + 7) with (7 * (i + 1)) by lia.
    rewrite IH; [|lia|lia|lia| |].
    + rewrite Hnext. unfold len. simpl length. f_equal; [|lia].
      rewrite (Z.div_mod z 128) at 3 by lia. lia.
    + split; [apply Z.div_pos; lia|]. apply Z.div_lt_upper_bound; lia.
    + nia.
Qed.

(** Reading back what the encoder wrote. *)
Lemma Uvarint_uvarint z rest :
  0 ≤ z < 2 ^ 64 → Uvarint (uvarint z ++ rest) = (z, len (uvarint z)).
Proof.
  intros Hz. unfold Uvarint, uvarint.
  change 0 with (7 * 0) at 3. rewrite Uvarint_loop_put; [f_equal; lia|lia..].
Qed.

Lemma uvarint_nonempty z : 0 < len (uvarint z) ≤ 10.
Proof.
  assert (∀ fuel z, (len (put_uvarint fuel z) ≤ Z.of_nat fuel)) as Hle.
  { induction fuel as [|fuel IH]; intros y; simpl; [done|].
    case_decide; unfold len in *; simpl; [lia|]. specialize (IH (y / 128)). lia. }
  split; [|apply (Hle 10%nat)]. unfold uvarint, put_uvarint.
  case_decide; unfold len; simpl; lia.
Qed.

(** Every successful read consumes between one and ten of the bytes given. *)
Lemma Uvarint_loop_bound buf i x s v n :
  0 ≤ i → Uvarint_loop buf i x s = (v, n) → 0 < n → i < n ≤ i + len buf.
Proof.
  revert i x s. induction buf as [|b buf IH]; intros i x s Hi; simpl; [naive_solver lia|].
  unfold len in *. simpl length.
  repeat case_decide; [naive_solver lia..|].
  intros Hl Hn. apply IH in Hl; lia.
Qed.

Lemma Uvarint_bound buf v n : Uvarint buf = (v, n) → 0 < n → n ≤ len buf.
Proof. intros Hu Hn. apply Uvarint_loop_bound in Hu; [lia..]. Qed.
