(* ===== verification/TaskToken.v ===== *)
(** [extractWorkflowIDFromTaskToken] of [proxy.go]: the hand-written protobuf
    scan of a task token for field 2, its correctness on encoded tokens, and
    its behaviour on adversarial ones. *)

From S2P Require Import Prelude GoStrings Wire.
From stdpp Require Import options.

Local Open Scope Z_scope.

(** * The scan *)

(** [token[i:]], with Go's bounds check. *)
Definition slice_from (token : list byte) (i : Z) : res (list byte) :=
  if decide (0 ≤ i ≤ len token) then Ok (drop (Z.to_nat i) token)
  else Panic "runtime error: slice bounds out of range".

(** [token[lo:hi]] for [hi <= len(token)]. *)
Definition slice (token : list byte) (lo hi : Z) : res (list byte) :=
  if decide (0 ≤ lo ≤ hi ∧ hi ≤ len token)
  then Ok (take (Z.to_nat (hi - lo)) (drop (Z.to_nat lo) token))
  else Panic "runtime error: slice bounds out of range".

(** What an iteration does next: go on at an index, or return. *)
Notation next := (Z + res string)%type.

(** Go on with the bytes of a slice expression, or propagate its panic. *)
Definition with_slice (r : res (list byte)) (k : list byte → next) : next :=
  match r with
  | Ok buf => k buf
  | Err e => inr (Err e)
  | Panic p => inr (Panic p)
  | Diverge => inr Diverge
  end.

(** [v, n := binary.Uvarint(token[i:]); if n <= 0 { return "", err }]. *)
Definition read_uvarint (token : list byte) (i : Z) (err : string) (k : Z → Z → next) : next :=
  with_slice (slice_from token i) (λ buf,
    let vn := Uvarint buf in
    if decide (vn.2 ≤ 0) then inr (Err err) else k vn.1 vn.2).

(** One iteration of the loop, at index [i]. *)
Definition scan_step (token : list byte) (i : Z) : next :=
  read_uvarint token i ("invalid varint at index " +:+ Itoa (Z.to_nat i)) (λ tag n,
    let i := i64 (i + n) in
    let fieldNum := Z.shiftr tag 3 in
    let wireType := Z.land tag 7 in
    if decide (wireType = 0) then
      read_uvarint token i "invalid varint value" (λ _ n, inl (i64 (i + n)))
    else if decide (wireType = 1) then inl (i64 (i + 8))
    else if decide (wireType = 2) then
      read_uvarint token i "invalid length value" (λ length n,
        let i := i64 (i + n) in
        if decide (fieldNum = 2) then
          if decide (i64 (i + i64 length) > len token) then
            inr (Err "length-delimited field extends past end")
          else with_slice (slice token i (i64 (i + i64 length))) (λ id, inr (Ok (string_of id)))
        else inl (i64 (i + i64 length)))
    else if decide (wireType = 5) then inl (i64 (i + 4))
    else inr (Err ("unsupported wire type " +:+ Itoa (Z.to_nat wireType)))).

(** [for i < len(token) { ... }], at most [fuel] iterations. *)
Fixpoint scan (fuel : nat) (token : list byte) (i : Z) : option (res string) :=
  if decide (i < len token) then
    match fuel with
    | O => None
    | S fuel =>
        match scan_step token i with
        | inl i' => scan fuel token i'
        | inr r => Some r
        end
    end
  else Some (Err "workflow_id (field 2) not found in TaskToken").

(** [len(token)+1] iterations decide the loop: see [scan_decides]. *)
Definition extractWorkflowIDFromTaskToken (token : list byte) : res string :=
  default Diverge (scan (S (length token)) token 0).

(** * Termination

    The loop's only state is the index, so a scan that is still running after
    [len(token)+1] iterations has been at some index twice and runs forever. *)

(** The index at the head of the [k]-th iteration, while the loop runs. *)
Fixpoint scan_pos (k : nat) (token : list byte) (i : Z) : option Z :=
  if decide (i < len token) then
    match k with
    | O => Some i
    | S k => match scan_step token i with inl i' => scan_pos k token i' | inr _ => None end
    end
  else None.

Lemma scan_None_pos k token i : scan k token i = None ↔ is_Some (scan_pos k token i).
Proof.
  revert i. induction k as [|k IH]; intros i; simpl; case_decide.
  - split; eauto.
  - split; [done|]. by intros [? ?].
  - destruct (scan_step token i); [apply IH|]. split; [done|]. by intros [? ?].
  - split; [done|]. by intros [? ?].
Qed.

Lemma scan_pos_add a b token i j :
  scan_pos a token i = Some j → scan_pos (a + b) token i = scan_pos b token j.
Proof.
  revert i. induction a as [|a IH]; intros i; simpl; case_decide; try done.
  - intros [= <-]. by destruct b; simpl; case_decide.
  - destruct (scan_step token i); [apply IH|done].
Qed.

(** A running iteration starts inside the token. *)
Lemma scan_step_inl token i i' : scan_step token i = inl i' → 0 ≤ i.
Proof.
  unfold scan_step, read_uvarint, slice_from. case_decide; simpl; [lia|done].
Qed.

Lemma scan_pos_Some k token i j : scan_pos k token i = Some j → j < len token.
Proof.
  revert i. induction k as [|k IH]; intros i; simpl; case_decide; try done.
  - by intros [= <-].
  - destruct (scan_step token i); [apply IH|done].
Qed.

Lemma scan_pos_pred a k token i :
  (a ≤ k)%nat → is_Some (scan_pos k token i) → is_Some (scan_pos a token i).
Proof.
  revert k i. induction a as [|a IH]; intros k i Hak [j Hj].
  - destruct k; simpl in *; case_decide; eauto; done.
  - destruct k as [|k]; [lia|]. simpl in *. case_decide; [|done].
    destruct (scan_step token i); [|done]. apply (IH k); [lia|eauto].
Qed.

Lemma scan_pos_range a k token i j :
  (a < k)%nat → is_Some (scan_pos k token i) → scan_pos a token i = Some j →
  0 ≤ j < len token.
Proof.
  intros Hak Hk Hj. split; [|by eapply scan_pos_Some].
  assert (is_Some (scan_pos (a + 1) token i)) as [x Hx] by (eapply scan_pos_pred; [|done]; lia).
  rewrite (scan_pos_add _ _ _ _ _ Hj) in Hx. simpl in Hx. case_decide; [|done].
  destruct (scan_step token j) eqn:E; [|done]. by eapply scan_step_inl.
Qed.

(** Two visits of one index: the loop never ends. *)
Lemma scan_pos_cycle a b token i j :
  (a < b)%nat → scan_pos a token i = Some j → scan_pos b token i = Some j →
  ∀ m, is_Some (scan_pos m token i).
Proof.
  intros Hab Ha Hb m.
  assert (∀ t, scan_pos (a + t * (b - a)) token i = Some j) as Hcyc.
  { induction t as [|t IH]; [by rewrite Nat.add_0_r|].
    replace (a + S t * (b - a))%nat with ((a + t * (b - a)) + (b - a))%nat by lia.
    rewrite (scan_pos_add _ _ _ _ _ IH), <-(scan_pos_add a _ _ _ _ Ha).
    by replace (a + (b - a))%nat with b by lia. }
  apply (scan_pos_pred m (a + m * (b - a))); [nia|]. eauto.
Qed.

(** If the fuel of [extractWorkflowIDFromTaskToken] runs out, every fuel does. *)
Lemma scan_fuel_decides token :
  scan (S (length token)) token 0 = None → ∀ fuel, scan fuel token 0 = None.
Proof.
  intros Hn fuel. apply scan_None_pos in Hn. apply scan_None_pos.
  destruct (scan_pos fuel token 0) eqn:Ef; [eauto|]. exfalso.
  set (n := length token) in *.
  set (l := (λ k, default 0 (scan_pos k token 0)) <$> seq 0 (S n)).
  assert (∀ a, (a ≤ n)%nat → ∃ j, scan_pos a token 0 = Some j ∧ 0 ≤ j < len token) as Hrun.
  { intros a Ha. destruct (scan_pos_pred a (S n) token 0) as [j Hj]; [lia|done|].
    exists j. split; [done|]. eapply (scan_pos_range a (S n)); [lia|done|done]. }
  assert (NoDup l) as Hnd.
  { apply NoDup_alt. intros a b x. unfold l. rewrite !list_lookup_fmap.
    destruct (seq 0 (S n) !! a) as [a'|] eqn:Ea, (seq 0 (S n) !! b) as [b'|] eqn:Eb; try done.
    apply lookup_seq in Ea as [-> Ha], Eb as [-> Hb]. simpl in *. intros [= <-] [= Heq].
    destruct (Hrun a) as (j & Hj & _), (Hrun b) as (j' & Hj' & _); [lia..|].
    rewrite Hj, Hj' in Heq. simpl in Heq. subst j'.
    destruct (decide (a = b)) as [|Hne]; [done|]. exfalso.
    assert (is_Some (scan_pos fuel token 0)) as [? ?]; [|congruence].
    destruct (decide (a < b)%nat); [by eapply (scan_pos_cycle a b)|].
    eapply (scan_pos_cycle b a); eauto. lia. }
  assert (l ⊆+ (Z.of_nat <$> seq 0 n)) as Hsub%submseteq_length.
  { apply NoDup_submseteq; [done|]. intros x.
    unfold l. rewrite !list_elem_of_fmap. intros (a & -> & Ha%elem_of_seq).
    destruct (Hrun a) as (j & Hj & Hr); [lia|]. rewrite Hj. simpl.
    exists (Z.to_nat j). unfold len in Hr. rewrite elem_of_seq. lia. }
  unfold l in Hsub. rewrite !length_fmap, !length_seq in Hsub. lia.
Qed.

Lemma scan_more a b token i r : scan a token i = Some r → scan (a + b) token i = Some r.
Proof.
  revert i. induction a as [|a IH]; intros i; simpl; case_decide; try done.
  - by destruct b; simpl; rewrite decide_False.
  - destruct (scan_step token i); [apply IH|done].
Qed.

Lemma scan_not_Diverge k token i : scan k token i ≠ Some Diverge.
Proof.
  revert i. induction k as [|k IH]; intros i; simpl; case_decide; try done.
  destruct (scan_step token i) as [i'|r] eqn:E; [apply IH|]. intros [= ->].
  unfold scan_step, read_uvarint, slice_from, slice, with_slice in E.
  repeat case_decide; simplify_eq.
Qed.

(** The bound decides the loop.  The call returns a result exactly when
    some number of iterations produces it, and [len(token)+1] iterations then
    suffice; it runs forever exactly when no number of iterations ends it. *)
Theorem scan_decides token :
  (∀ r, r ≠ Diverge →
     extractWorkflowIDFromTaskToken token = r ↔ ∃ fuel, scan fuel token 0 = Some r) ∧
  (extractWorkflowIDFromTaskToken token = Diverge ↔ ∀ fuel, scan fuel token 0 = None).
Proof.
  unfold extractWorkflowIDFromTaskToken.
  destruct (scan (S (length token)) token 0) as [r0|] eqn:E; simpl.
  - assert (∀ fuel r, scan fuel token 0 = Some r → r = r0) as Huniq.
    { intros fuel r Hr. apply (scan_more _ (S (length token))) in Hr.
      apply (scan_more _ fuel) in E. rewrite Nat.add_comm in E. congruence. }
    split; [intros r Hr; split; [intros <-; eauto|intros [fuel ?]; symmetry; eauto]|].
    split; [intros ->; by apply scan_not_Diverge in E|].
    intros Hall. by rewrite Hall in E.
  - pose proof (scan_fuel_decides token E) as Hall.
    split; [|done]. intros r Hr. split; [by intros <-|]. intros [fuel Hf]. by rewrite Hall in Hf.
Qed.

(** * Encoded tokens *)

(** The fields of a protobuf message, with the wire types the scan knows. *)
Inductive wfield :=
| FVarint (num v : Z)
| F64 (num : Z) (bs : list byte)
| FLen (num : Z) (payload : list byte)
| F32 (num : Z) (bs : list byte).

Definition field_num (f : wfield) : Z :=
  match f with FVarint n _ | F64 n _ | FLen n _ | F32 n _ => n end.

Definition field_ok (f : wfield) : Prop :=
  1 ≤ field_num f < 2 ^ 29 ∧
  match f with
  | FVarint _ v => 0 ≤ v < 2 ^ 64
  | F64 _ bs => length bs = 8%nat
  | FLen _ _ => True
  | F32 _ bs => length bs = 4%nat
  end.

Definition encode_field (f : wfield) : list byte :=
  match f with
  | FVarint num v => uvarint (num * 8) ++ uvarint v
  | F64 num bs => uvarint (num * 8 + 1) ++ bs
  | FLen num payload => uvarint (num * 8 + 2) ++ uvarint (len payload) ++ payload
  | F32 num bs => uvarint (num * 8 + 5) ++ bs
  end.

Definition encode_fields (fs : list wfield) : list byte := fs ≫= encode_field.

(** The first length-delimited field 2. *)
Fixpoint find_workflow_id (fs : list wfield) : option (list byte) :=
  match fs with
  | [] => None
  | FLen num payload :: fs => if decide (num = 2) then Some payload else find_workflow_id fs
  | _ :: fs => find_workflow_id fs
  end.

Lemma len_app {A} (l1 l2 : list A) : len (l1 ++ l2) = len l1 + len l2.
Proof. unfold len. rewrite length_app. lia. Qed.

Lemma len_nonneg {A} (l : list A) : 0 ≤ len l.
Proof. unfold len. lia. Qed.

Lemma slice_from_app l1 l2 : slice_from (l1 ++ l2) (len l1) = Ok l2.
Proof.
  unfold slice_from. rewrite decide_True.
  - unfold len. by rewrite Nat2Z.id, drop_app_length.
  - rewrite len_app. pose proof (len_nonneg l1). pose proof (len_nonneg l2). lia.
Qed.

Lemma read_uvarint_app pre z rest err k :
  0 ≤ z < 2 ^ 64 →
  read_uvarint (pre ++ uvarint z ++ rest) (len pre) err k = k z (len (uvarint z)).
Proof.
  intros Hz. unfold read_uvarint. rewrite slice_from_app. simpl.
  rewrite Uvarint_uvarint by done. simpl.
  pose proof (uvarint_nonempty z). by rewrite decide_False by lia.
Qed.

Lemma tag_split num wt :
  0 ≤ wt < 8 → Z.shiftr (num * 8 + wt) 3 = num ∧ Z.land (num * 8 + wt) 7 = wt.
Proof.
  intros Hwt. split.
  - rewrite Z.shiftr_div_pow2 by lia. change (2 ^ 3) with 8.
    rewrite Z.div_add_l by lia. rewrite Z.div_small; lia.
  - change 7 with (Z.ones 3). rewrite Z.land_ones by lia. change (2 ^ 3) with 8.
    rewrite Z.add_comm, Z.mod_add by lia. by apply Z.mod_small.
Qed.

(** One iteration over an encoded length-delimited field. *)
Lemma scan_step_FLen pre num payload rest :
  1 ≤ num < 2 ^ 29 → len (pre ++ encode_field (FLen num payload) ++ rest) < 2 ^ 62 →
  scan_step (pre ++ encode_field (FLen num payload) ++ rest) (len pre) =
    if decide (num = 2) then inr (Ok (string_of payload))
    else inl (len (pre ++ encode_field (FLen num payload))).
Proof.
  intros Hnum Hlen. simpl encode_field in *. rewrite !len_app in Hlen.
  pose proof (len_nonneg pre). pose proof (len_nonneg rest). pose proof (len_nonneg payload).
  pose proof (len_nonneg (uvarint (num * 8 + 2))).
  pose proof (len_nonneg (uvarint (len payload))).
  unfold scan_step. rewrite <-?app_assoc. rewrite read_uvarint_app by lia. cbv zeta.
  destruct (tag_split num 2 ltac:(lia)) as [-> ->].
  rewrite !(decide_False (P := _ = _)), decide_True by done.
  rewrite (i64_small (len pre + _)), <-len_app by lia.
  rewrite (assoc_L (++) pre). rewrite read_uvarint_app by lia. cbv zeta.
  rewrite (i64_small (len (pre ++ _) + _)), <-len_app by (rewrite !len_app; lia).
  set (pre' := (pre ++ uvarint (num * 8 + 2)) ++ uvarint (len payload)).
  rewrite (assoc_L (++) (pre ++ _)). fold pre'.
  assert (len pre' + len payload < 2 ^ 62) by (unfold pre'; rewrite !len_app; lia).
  pose proof (len_nonneg pre').
  rewrite (i64_small (len payload)), (i64_small (len pre' + _)) by lia.
  case_decide as Hn2.
  - rewrite decide_False by (rewrite !len_app; lia).
    unfold slice. rewrite decide_True by (rewrite !len_app; lia). simpl.
    replace (len pre' + len payload - len pre') with (len payload) by lia.
    unfold len. by rewrite !Nat2Z.id, drop_app_length, take_app_length.
  - f_equal. unfold pre'. rewrite !len_app. lia.
Qed.

(** One iteration over an encoded fixed-width field. *)
Lemma scan_step_fixed pre num wt w bs rest :
  (wt = 1 ∧ w = 8 ∨ wt = 5 ∧ w = 4) → 1 ≤ num < 2 ^ 29 → len bs = w →
  len (pre ++ (uvarint (num * 8 + wt) ++ bs) ++ rest) < 2 ^ 62 →
  scan_step (pre ++ (uvarint (num * 8 + wt) ++ bs) ++ rest) (len pre) =
    inl (len (pre ++ uvarint (num * 8 + wt) ++ bs)).
Proof.
  intros Hwt Hnum Hbs Hlen. rewrite !len_app in Hlen.
  pose proof (len_nonneg pre). pose proof (len_nonneg rest).
  pose proof (len_nonneg (uvarint (num * 8 + wt))).
  unfold scan_step. rewrite <-?app_assoc. rewrite read_uvarint_app by lia. cbv zeta.
  destruct (tag_split num wt ltac:(lia)) as [-> ->].
  rewrite (i64_small (len pre + _)) by lia. rewrite !len_app.
  destruct Hwt as [[-> ->]|[-> ->]]; simpl; rewrite i64_small by lia; f_equal; lia.
Qed.

(** One iteration over an encoded field: it returns the id at field 2 and goes
    on behind the field otherwise. *)
Lemma scan_step_field pre f rest :
  field_ok f → len (pre ++ encode_field f ++ rest) < 2 ^ 62 →
  scan_step (pre ++ encode_field f ++ rest) (len pre) =
    match find_workflow_id [f] with
    | Some id => inr (Ok (string_of id))
    | None => inl (len (pre ++ encode_field f))
    end.
Proof.
  intros [Hnum Hok] Hlen. destruct f as [num v|num bs|num payload|num bs]; simpl field_num in *.
  - simpl encode_field in *. rewrite !len_app in Hlen.
    pose proof (len_nonneg pre). pose proof (len_nonneg rest).
    pose proof (len_nonneg (uvarint (num * 8))). pose proof (len_nonneg (uvarint v)).
    unfold scan_step. rewrite <-?app_assoc. rewrite read_uvarint_app by lia. cbv zeta.
    destruct (tag_split num 0 ltac:(lia)) as [E1 E2]. rewrite Z.add_0_r in E1, E2.
    rewrite E1, E2, decide_True by done.
    rewrite i64_small, <-len_app by lia. rewrite (assoc_L (++) pre).
    rewrite read_uvarint_app by done. simpl. rewrite !len_app, i64_small by lia.
    f_equal. lia.
  - apply (scan_step_fixed pre num 1 8); auto. unfold len. by rewrite Hok.
  - rewrite scan_step_FLen by done. simpl. by case_decide.
  - apply (scan_step_fixed pre num 5 4); auto. unfold len. by rewrite Hok.
Qed.

Lemma encode_field_pos f : 0 < len (encode_field f).
Proof.
  pose proof (λ z, uvarint_nonempty z) as Hu. unfold len in *.
  destruct f as [n v|n b|n b|n b]; simpl; rewrite !length_app.
  - specialize (Hu (n * 8)). lia.
  - specialize (Hu (n * 8 + 1)). lia.
  - specialize (Hu (n * 8 + 2)). lia.
  - specialize (Hu (n * 8 + 5)). lia.
Qed.

Lemma scan_fields fs pre fuel :
  Forall field_ok fs → len (pre ++ encode_fields fs) < 2 ^ 62 → (length fs ≤ fuel)%nat →
  scan fuel (pre ++ encode_fields fs) (len pre) =
    Some match find_workflow_id fs with
         | Some id => Ok (string_of id)
         | None => Err "workflow_id (field 2) not found in TaskToken"
         end.
Proof.
  intros Hfs. revert pre fuel. induction Hfs as [|f fs Hf Hfs IH]; intros pre fuel Hlen Hfuel.
  { unfold encode_fields. simpl. rewrite app_nil_r. by destruct fuel; simpl; rewrite decide_False by lia. }
  unfold encode_fields in *. rewrite bind_cons in *.
  destruct fuel as [|fuel]; simpl in Hfuel; [lia|]. simpl scan.
  pose proof (encode_field_pos f).
  rewrite decide_True by (rewrite !len_app; pose proof (len_nonneg (fs ≫= encode_field)); lia).
  rewrite scan_step_field by done.
  specialize (IH (pre ++ encode_field f) fuel). rewrite <-app_assoc in IH.
  specialize (IH Hlen ltac:(lia)).
  destruct f as [n v|n b|n b|n b]; simpl; [apply IH..| |apply IH].
  case_decide; [done|apply IH].
Qed.

Lemma length_encode_fields fs :
  Forall field_ok fs → (length fs ≤ length (encode_fields fs))%nat.
Proof.
  induction 1 as [|f fs _ _ IH]; [done|]. unfold encode_fields in *.
  rewrite bind_cons, length_app. simpl.
  pose proof (encode_field_pos f) as Hpos. unfold len in Hpos. lia.
Qed.

(** C9: the token scan is correct on encoded tokens.  On the encoding of any
    list of well-formed fields (shorter than 2^62 bytes) the scan returns the
    bytes of the first length-delimited field 2, and the not-found error when
    there is none; it neither panics nor diverges. *)
Theorem token_scan_correct fs :
  Forall field_ok fs → len (encode_fields fs) < 2 ^ 62 →
  extractWorkflowIDFromTaskToken (encode_fields fs) =
    match find_workflow_id fs with
    | Some id => Ok (string_of id)
    | None => Err "workflow_id (field 2) not found in TaskToken"
    end.
Proof.
  intros Hfs Hlen. unfold extractWorkflowIDFromTaskToken.
  pose proof (scan_fields fs [] (S (length (encode_fields fs))) Hfs Hlen) as Hscan.
  simpl app in Hscan. change (len []) with 0 in Hscan.
  rewrite Hscan; [done|]. pose proof (length_encode_fields fs Hfs). lia.
Qed.

(** * Any token

    A decoder of the wire format that consumes the bytes, without an index: what
    the scan is meant to do with bytes that need not be an encoding. *)

Inductive verdict :=
| Found (id : list byte)
| Refused (err : string)
| Oversized (length : Z).      (* a declared length of 2^62 or more *)

(** One field, [off] bytes having been consumed before [buf], and how to go on. *)
Definition decode_field (next : Z → list byte → verdict) (off : Z) (buf : list byte) : verdict :=
  let '(tag, n) := Uvarint buf in
  if decide (n ≤ 0) then Refused ("invalid varint at index " +:+ Itoa (Z.to_nat off))
  else
    let rest := drop (Z.to_nat n) buf in
    let skip (m : Z) := next (off + n + m) (drop (Z.to_nat m) rest) in
    match Z.land tag 7 with
    | 0 => if decide ((Uvarint rest).2 ≤ 0) then Refused "invalid varint value"
           else skip (Uvarint rest).2
    | 1 => skip 8
    | 2 =>
        let '(length, m) := Uvarint rest in
        if decide (m ≤ 0) then Refused "invalid length value"
        else if decide (2 ^ 62 ≤ length) then Oversized length
        else if decide (Z.shiftr tag 3 = 2) then
          let payload := drop (Z.to_nat m) rest in
          if decide (len payload < length) then Refused "length-delimited field extends past end"
          else Found (take (Z.to_nat length) payload)
        else skip (m + length)
    | 5 => skip 4
    | wireType => Refused ("unsupported wire type " +:+ Itoa (Z.to_nat wireType))
    end.

(** Every field has at least one byte, so the number of bytes bounds the fields. *)
Fixpoint decode_fields (fuel : nat) (off : Z) (buf : list byte) : verdict :=
  match buf, fuel with
  | [], _ | _, O => Refused "workflow_id (field 2) not found in TaskToken"
  | _, S fuel => decode_field (decode_fields fuel) off buf
  end.

Definition decode_id (token : list byte) : verdict := decode_fields (length token) 0 token.

Lemma slice_from_drop token i :
  0 ≤ i ≤ len token → slice_from token i = Ok (drop (Z.to_nat i) token).
Proof. intros Hi. unfold slice_from. by rewrite decide_True. Qed.

Lemma drop_add token i n :
  0 ≤ i → 0 ≤ n → drop (Z.to_nat n) (drop (Z.to_nat i) token) = drop (Z.to_nat (i + n)) (token : list byte).
Proof. intros. rewrite drop_drop. f_equal. lia. Qed.

Lemma len_drop (token : list byte) i :
  0 ≤ i ≤ len token → len (drop (Z.to_nat i) token) = len token - i.
Proof. unfold len. intros. rewrite length_drop. lia. Qed.

(** The value read is not negative. *)
Lemma Uvarint_loop_nonneg buf i x s : 0 ≤ x → 0 ≤ (Uvarint_loop buf i x s).1.
Proof.
  revert i x s. induction buf as [|b buf IH]; intros i x s Hx; simpl; [lia|].
  repeat case_decide; simpl; try lia.
  - apply Z.lor_nonneg. split; [done|]. apply u64_range.
  - apply IH, Z.lor_nonneg. split; [done|]. apply u64_range.
Qed.

Lemma Uvarint_nonneg buf : 0 ≤ (Uvarint buf).1.
Proof. by apply Uvarint_loop_nonneg. Qed.

(** The scan agrees with the decoder at any index it gets to; past the end both
    are done. *)
Definition agrees (v : verdict) (r : option (res string)) : Prop :=
  match v with
  | Found id => r = Some (Ok (string_of id))
  | Refused err => r = Some (Err err)
  | Oversized length => 2 ^ 62 ≤ length
  end.

Lemma scan_past fuel token i : len token ≤ i →
  scan fuel token i = Some (Err "workflow_id (field 2) not found in TaskToken").
Proof. intros Hi. destruct fuel; simpl; by rewrite decide_False by lia. Qed.

Lemma land_7 z : 0 ≤ Z.land z 7 < 8.
Proof. change 7 with (Z.ones 3). rewrite Z.land_ones by lia. apply Z.mod_pos_bound. lia. Qed.

Lemma scan_decode fuel token i :
  len token < 2 ^ 62 → 0 ≤ i → (length (drop (Z.to_nat i) token) ≤ fuel)%nat →
  agrees (decode_fields fuel i (drop (Z.to_nat i) token)) (scan fuel token i).
Proof.
  intros Hlen. revert i. induction fuel as [|fuel IH]; intros i Hi Hfuel.
  { assert (drop (Z.to_nat i) token = []) as E by (apply nil_length_inv; lia).
    rewrite E. simpl. rewrite length_drop in Hfuel. unfold len in *. by rewrite decide_False by lia. }
  destruct (decide (i < len token)) as [Hlt|Hge].
  2:{ assert (drop (Z.to_nat i) token = []) as -> by (apply drop_ge; unfold len in *; lia).
      by rewrite scan_past by lia. }
  assert (∀ j, i < j → agrees (decode_fields fuel j (drop (Z.to_nat j) token)) (scan fuel token j)) as Hnext.
  { intros j Hj. apply IH; [lia|]. rewrite length_drop in *. unfold len in *. lia. }
  clear IH. simpl scan. rewrite decide_True by done.
  assert (decode_fields (S fuel) i (drop (Z.to_nat i) token) =
    decode_field (decode_fields fuel) i (drop (Z.to_nat i) token)) as ->.
  { destruct (drop (Z.to_nat i) token) eqn:E; [|done]. apply (f_equal length) in E.
    rewrite length_drop in E. unfold len in *. simpl in E. lia. }
  assert (∀ j m, i < j → 0 ≤ m →
    agrees (decode_fields fuel (j + m) (drop (Z.to_nat m) (drop (Z.to_nat j) token)))
      (scan fuel token (j + m))) as Hskip.
  { intros j m Hj Hm. rewrite drop_add by lia. apply Hnext. lia. }
  unfold scan_step, read_uvarint. rewrite slice_from_drop by lia. cbn [with_slice].
  unfold decode_field. destruct (Uvarint (drop (Z.to_nat i) token)) as [tag n] eqn:Eu. cbn [fst snd].
  case_decide as Hn; [done|].
  apply Uvarint_bound in Eu; [|lia]. rewrite len_drop in Eu by lia.
  rewrite (i64_small (i + n)) by lia. rewrite drop_add by lia.
  pose proof (Uvarint_nonneg (drop (Z.to_nat (i + n)) token)) as Hval.
  destruct (Uvarint (drop (Z.to_nat (i + n)) token)) as [v m] eqn:Ev. cbn [fst snd] in *.
  assert (0 < m → m ≤ len token - (i + n)) as Hm.
  { intros Hm. apply Uvarint_bound in Ev; [|done]. by rewrite len_drop in Ev by lia. }
  pose proof (land_7 tag) as Ht. set (wt := Z.land tag 7) in *. clearbody wt.
  assert (wt = 0 ∨ wt = 1 ∨ wt = 2 ∨ wt = 3 ∨ wt = 4 ∨ wt = 5 ∨ wt = 6 ∨ wt = 7) as Hcases by lia.
  rewrite slice_from_drop by lia. cbn [with_slice]. rewrite Ev. cbn [fst snd].
  destruct Hcases as [->|[->|[->|[->|[->|[->|[->| ->]]]]]]];
    repeat match goal with |- context [decide (?x = ?y :> Z)] =>
      first [rewrite (decide_False (P := x = y)) by done | rewrite (decide_True (P := x = y)) by done] end;
    try done.
  - case_decide; [done|]. rewrite i64_small by lia. apply Hskip; lia.
  - rewrite i64_small by lia. apply Hskip; lia.
  - case_decide; [done|]. rewrite (i64_small (i + n + m)) by lia.
    case_decide as Hv; [done|]. rewrite (i64_small v), (i64_small (i + n + m + v)) by lia.
    case_decide as Hf; [|rewrite <-(Z.add_assoc (i + n) m v); apply Hskip; lia].
    rewrite drop_add, len_drop by lia. case_decide; [by rewrite decide_True by lia|].
    rewrite decide_False by lia. unfold slice. rewrite decide_True by lia. simpl.
    by replace (i + n + m + v - (i + n + m)) with v by lia.
  - rewrite i64_small by lia. apply Hskip; lia.
Qed.

(** C15: the scan of any token ends, and does what the format says.  Whatever bytes
    a token of less than 2^62 has, unless a declared length of 2^62 or more is met on
    the way, the call returns: the bytes of the first length-delimited field 2, if
    reading field by field gets to one that lies inside the token; the error
    for the first thing that cannot be read; or not found.  It neither panics nor
    loops. *)
Theorem token_scan_total token :
  len token < 2 ^ 62 →
  match decode_id token with
  | Found id => extractWorkflowIDFromTaskToken token = Ok (string_of id)
  | Refused err => extractWorkflowIDFromTaskToken token = Err err
  | Oversized length => 2 ^ 62 ≤ length
  end.
Proof.
  intros Hlen. pose proof (scan_decode (length token) token 0 Hlen ltac:(lia) ltac:(done)) as Ha.
  unfold extractWorkflowIDFromTaskToken, decode_id. rewrite drop_0 in Ha.
  destruct (decode_fields _ _ _); cbn [agrees] in Ha; [..|done];
    by rewrite <-Nat.add_1_r, (scan_more _ 1 _ _ _ Ha).
Qed.

(** A token of one length-delimited field 1 whose declared length, converted to
    [int], is -11: the index goes back to 0. *)
Definition looping_token : list byte := x0a :: uvarint (2 ^ 64 - 11).

(** A field 2 whose declared length is negative as an [int]. *)
Definition panicking_token : list byte := x12 :: uvarint (2 ^ 63).

(** C26: hostile tokens.  A declared length of 2^63 or more is negative as an
    [int]: eleven bytes sent by a client make the scan run forever, and eleven
    others make it panic, instead of an error being returned. *)
Theorem hostile_tokens :
  (∀ fuel, scan fuel looping_token 0 = None) ∧
  extractWorkflowIDFromTaskToken looping_token = Diverge ∧
  is_panic (extractWorkflowIDFromTaskToken panicking_token) = true.
Proof.
  assert (scan (S (length looping_token)) looping_token 0 = None) as Hn
    by (vm_compute; reflexivity).
  split; [by apply scan_fuel_decides|].
  split; [|vm_compute; reflexivity].
  unfold extractWorkflowIDFromTaskToken. by rewrite Hn.
Qed.

(** A Temporal task token: namespace id, workflow id, run id, scheduled event. *)
Definition w_token : list wfield :=
  [FLen 1 (bytes_of "ns-id"); FLen 2 (bytes_of "wf-1"); FLen 3 (bytes_of "run"); FVarint 4 5].

Lemma token_scan_correct_witness :
  extractWorkflowIDFromTaskToken (encode_fields w_token) = Ok "wf-1".
Proof.
  rewrite (token_scan_correct w_token).
  - vm_compute. reflexivity.
  - repeat constructor; simpl; lia.
  - vm_compute. reflexivity.
Defined.

(** A token cut off in the middle of its workflow id. *)
Definition w_truncated : list byte := take 12 (encode_fields w_token).

Lemma token_scan_total_witness :
  extractWorkflowIDFromTaskToken w_truncated = Err "length-delimited field extends past end".
Proof. exact (token_scan_total w_truncated ltac:(reflexivity)). Defined.
