(* ===== verification/Http.v ===== *)
(** Requests, responses and the response writer of [net/http], as far as the
    proxy reads and writes them, and [writeProxyResponse] of [proxy.go]. *)

From S2P Require Import Prelude GoStrings Wire.
From stdpp Require Import options.

(** What [io.ReadAll] gets from a body: its bytes, or an error on the way. *)
Inductive body := BodyBytes (b : list byte) | BodyError (e : string).

(** Header keys are kept in canonical form, as the source writes them. *)
Record Request := mkRequest {
  URLPath : string;
  URLScheme : string;
  URLHost : string;
  Host : string;
  Header : gmap string (list string);
  ContentLength : Z;
  RequestURI : string;
  Body : body
}.

Record Response := mkResponse {
  StatusCode : Z;
  RespHeader : gmap string (list string);
  Trailer : gmap string (list string);
  RespBody : body
}.

(** [io.ReadAll(r.Body)]: the body is consumed. *)
Definition ReadAll (b : body) : string + list byte :=
  match b with BodyBytes l => inr l | BodyError e => inl e end.

Definition drained (b : body) : body :=
  match b with BodyBytes _ => BodyBytes [] | BodyError e => BodyError e end.

Definition set_body (b : body) (r : Request) : Request :=
  mkRequest (URLPath r) (URLScheme r) (URLHost r) (Host r) (Header r) (ContentLength r)
    (RequestURI r) b.

(** [r.URL.Host = addr; r.Host = addr]. *)
Definition set_target (addr : string) (r : Request) : Request :=
  mkRequest (URLPath r) (URLScheme r) addr addr (Header r) (ContentLength r)
    (RequestURI r) (Body r).

(** [r.ContentLength = -1; r.Header.Del("Content-Length")]. *)
Definition drop_content_length (r : Request) : Request :=
  mkRequest (URLPath r) (URLScheme r) (URLHost r) (Host r)
    (delete "Content-Length" (Header r)) (-1) (RequestURI r) (Body r).

(** * The response writer *)

(** [WriteHeader] sends the status and the headers as they are then; headers
    added later only matter as trailers. *)
Record ResponseWriter := mkWriter {
  wHeader : gmap string (list string);
  wSent : option (Z * gmap string (list string));
  wBody : list byte
}.

Definition new_writer : ResponseWriter := mkWriter ∅ None [].

Definition WriteHeader (code : Z) (w : ResponseWriter) : ResponseWriter :=
  match wSent w with
  | Some _ => w
  | None => mkWriter (wHeader w) (Some (code, wHeader w)) (wBody w)
  end.

Definition set_header (k : string) (vs : list string) (w : ResponseWriter) : ResponseWriter :=
  mkWriter (<[k := vs]> (wHeader w)) (wSent w) (wBody w).

Definition add_header (k v : string) (w : ResponseWriter) : ResponseWriter :=
  mkWriter (<[k := default [] (wHeader w !! k) ++ [v]]> (wHeader w)) (wSent w) (wBody w).

Definition write_body (b : list byte) (w : ResponseWriter) : ResponseWriter :=
  mkWriter (wHeader w) (wSent w) (wBody w ++ b).

(** [w.Write(b)]: the first write sends status 200 if none was sent. *)
Definition Write (b : list byte) (w : ResponseWriter) : ResponseWriter :=
  write_body b (WriteHeader 200 w).

Definition newline : string := String (Ascii.ascii_of_nat 10) "".

(** The status the client sees: 200 when the handler sent none. *)
Definition status (w : ResponseWriter) : Z :=
  match wSent w with Some (code, _) => code | None => 200 end.

(** [http.Error(w, msg, code)]. *)
Definition http_Error (msg : string) (code : Z) (w : ResponseWriter) : ResponseWriter :=
  let w := mkWriter (delete "Content-Length" (wHeader w)) (wSent w) (wBody w) in
  let w := set_header "Content-Type" ["text/plain; charset=utf-8"] w in
  let w := set_header "X-Content-Type-Options" ["nosniff"] w in
  write_body (bytes_of (msg +:+ newline)) (WriteHeader code w).

Definition TrailerPrefix : string := "Trailer:".

(** [io.Copy(w, body)] stops at the first read error, which is dropped. *)
Definition copy_body (b : body) (w : ResponseWriter) : ResponseWriter :=
  match b with BodyBytes l => write_body l w | BodyError _ => w end.

(** The loops range over maps: no two iterations touch the same key, so the
    unspecified order does not matter. *)
Definition writeProxyResponse (resp : Response) (w : ResponseWriter) : ResponseWriter :=
  let w := map_fold (λ k v w, set_header k v w) w (RespHeader resp) in
  let w :=
    if decide (0 < size (Trailer resp)) then
      set_header "Trailer" [Join (map_to_list (Trailer resp)).*1 ","] w
    else w in
  let w := WriteHeader (StatusCode resp) w in
  let w := copy_body (RespBody resp) w in
  map_fold (λ k v w, foldl (λ w vv, add_header (TrailerPrefix +:+ k) vv w) w v) w (Trailer resp).

(** The trailers the server sends when the handler returns. *)
Definition sent_trailer (w : ResponseWriter) (k : string) : list string :=
  default [] (wHeader w !! (TrailerPrefix +:+ k)).

(** * What the client receives *)

Lemma fold_set_header (hs : gmap string (list string)) w :
  let w' := map_fold (λ k v w, set_header k v w) w hs in
  wSent w' = wSent w ∧ wBody w' = wBody w ∧ wHeader w' = hs ∪ wHeader w.
Proof.
  apply (map_fold_weak_ind (λ (w' : ResponseWriter) hs,
    wSent w' = wSent w ∧ wBody w' = wBody w ∧ wHeader w' = hs ∪ wHeader w)).
  - by rewrite (left_id_L ∅ (∪)).
  - intros k v m r Hk (H1 & H2 & H3). simpl. rewrite H3. split; [done|]. split; [done|].
    by rewrite insert_union_l.
Qed.

Lemma foldl_add_header k vs w :
  let w' := foldl (λ w vv, add_header k vv w) w vs in
  wSent w' = wSent w ∧ wBody w' = wBody w ∧
  default [] (wHeader w' !! k) = default [] (wHeader w !! k) ++ vs ∧
  ∀ k', k' ≠ k → wHeader w' !! k' = wHeader w !! k'.
Proof.
  revert w. induction vs as [|v vs IH]; intros w; simpl; [by rewrite app_nil_r|].
  destruct (IH (add_header k v w)) as (H1 & H2 & H3 & H4).
  split; [done|]. split; [done|]. split.
  - rewrite H3. simpl. rewrite lookup_insert_eq. simpl. by rewrite <-(assoc_L (++)).
  - intros k' Hk'. rewrite H4 by done. simpl. by rewrite lookup_insert_ne.
Qed.

Lemma fold_trailers (ts : gmap string (list string)) w :
  let w' := map_fold (λ k v w, foldl (λ w vv, add_header (TrailerPrefix +:+ k) vv w) w v) w ts in
  wSent w' = wSent w ∧ wBody w' = wBody w ∧
  ∀ k, sent_trailer w' k = sent_trailer w k ++ default [] (ts !! k).
Proof.
  apply (map_fold_weak_ind (λ (w' : ResponseWriter) ts,
    wSent w' = wSent w ∧ wBody w' = wBody w ∧
    ∀ k, sent_trailer w' k = sent_trailer w k ++ default [] (ts !! k))).
  - split; [done|]. split; [done|]. intros k. by rewrite lookup_empty, app_nil_r.
  - intros k v m r Hk (H1 & H2 & H3).
    destruct (foldl_add_header (TrailerPrefix +:+ k) v r) as (F1 & F2 & F3 & F4).
    rewrite F1, F2. split; [done|]. split; [done|]. intros k'. unfold sent_trailer in *.
    destruct (decide (k' = k)) as [->|Hne].
    + rewrite F3, H3, Hk, app_nil_r, lookup_insert_eq. done.
    + rewrite F4, H3, lookup_insert_ne; [done|done|].
      intros Heq. apply Hne. by apply (inj (String.app TrailerPrefix)) in Heq.
Qed.

(** A response is relayed faithfully.  [writeProxyResponse] sends the
    upstream's status, its headers (with the names of the trailers announced
    when there are any), its body, and, for headers that do not use the
    reserved trailer prefix, exactly its trailers with all their values. *)
Theorem writeProxyResponse_relays resp b :
  RespBody resp = BodyBytes b →
  (∀ k, RespHeader resp !! (TrailerPrefix +:+ k) = None) →
  let w := writeProxyResponse resp new_writer in
  (∃ hs, wSent w = Some (StatusCode resp, hs) ∧
         ∀ k, k ≠ "Trailer" → hs !! k = RespHeader resp !! k) ∧
  wBody w = b ∧
  (∀ k, sent_trailer w k = default [] (Trailer resp !! k)).
Proof.
  intros Hb Hpre w. unfold w, writeProxyResponse. rewrite Hb.
  destruct (fold_set_header (RespHeader resp) new_writer) as (S1 & S2 & S3).
  simpl in S1, S2, S3. rewrite (right_id_L ∅ (∪)) in S3.
  set (w1 := map_fold (λ k v w, set_header k v w) new_writer (RespHeader resp)) in *.
  set (w2 := if decide (0 < size (Trailer resp)) then _ else w1).
  assert (wSent w2 = None ∧ wBody w2 = [] ∧
          ∀ k, k ≠ "Trailer" → wHeader w2 !! k = RespHeader resp !! k) as (E1 & E2 & E3).
  { unfold w2. case_decide; simpl; [|by rewrite S3].
    split; [done|]. split; [done|]. intros k Hk. by rewrite lookup_insert_ne, S3. }
  set (w3 := copy_body (BodyBytes b) (WriteHeader (StatusCode resp) w2)).
  assert (wSent w3 = Some (StatusCode resp, wHeader w2) ∧ wBody w3 = b ∧
          wHeader w3 = wHeader w2) as (F1 & F2 & F3).
  { unfold w3, WriteHeader. rewrite E1. simpl. by rewrite E2. }
  destruct (fold_trailers (Trailer resp) w3) as (T1 & T2 & T3). cbv zeta in T1, T2, T3.
  rewrite T1, T2, F1, F2. split; [eauto|]. split; [done|]. intros k. rewrite T3.
  unfold sent_trailer. rewrite F3, E3, Hpre; [done|]. by destruct k.
Qed.

(** A gRPC response, at which the property is applied. *)
Definition w_response : Response :=
  mkResponse 200 {["Content-Type" := ["application/grpc"]]} {["Grpc-Status" := ["0"]]}
    (BodyBytes [x00]).

Lemma writeProxyResponse_relays_witness :
  sent_trailer (writeProxyResponse w_response new_writer) "Grpc-Status" = ["0"].
Proof.
  destruct (writeProxyResponse_relays w_response [x00]) as (_ & _ & Ht).
  - reflexivity.
  - intros k. apply lookup_singleton_ne. discriminate.
  - rewrite Ht. reflexivity.
Defined.
