(* ===== verification/Messages.v ===== *)
(** The generated messages of [go.temporal.io/api/workflowservice/v1] the proxy
    decodes.  The package is not part of the repository: each message is a
    record of the fields the proxy reads or writes, with all its other fields
    in [other], and the codec of [google.golang.org/protobuf/proto] is a
    parameter. *)

From S2P Require Import Prelude.
From stdpp Require Import options.

(** [proto.Unmarshal] into a fresh message, and [proto.Marshal]. *)
Class Message (M : Type) := {
  proto_Unmarshal : list byte → string + M;
  proto_Marshal : M → string + list byte
}.

(** The documented contract of the codec: what was marshalled unmarshals to an
    equal message. *)
Class MessageLaws (M : Type) `{Message M} := {
  proto_roundtrip (m : M) b : proto_Marshal m = inr b → proto_Unmarshal b = inr m
}.

Record WorkflowExecution := mkExecution { WorkflowId : string; RunId : string }.

(** [x.GetWorkflowId()] on a possibly nil pointer. *)
Definition GetWorkflowId (x : option WorkflowExecution) : string :=
  match x with Some e => WorkflowId e | None => "" end.

Inductive CommandType :=
| COMMAND_TYPE_COMPLETE_WORKFLOW_EXECUTION
| OTHER_COMMAND_TYPE (n : Z).

#[global] Instance CommandType_eq_dec : EqDecision CommandType.
Proof. solve_decision. Defined.

(** [X] holds the fields of a message the proxy does not look at. *)
Record StartWorkflowExecutionRequest (X : Type) := mkStart {
  start_Namespace : string; start_WorkflowId : string; start_other : X }.

Record RespondWorkflowTaskCompletedRequest (X : Type) := mkRespondWorkflowTask {
  rwt_TaskToken : list byte; rwt_Commands : list CommandType;
  rwt_Namespace : string; rwt_ResourceId : string; rwt_other : X }.

Record RespondActivityTaskCompletedRequest (X : Type) := mkRespondActivityTask {
  rat_TaskToken : list byte; rat_Namespace : string; rat_ResourceId : string; rat_other : X }.

Record RequestCancelWorkflowExecutionRequest (X : Type) := mkCancel {
  cancel_Namespace : string; cancel_WorkflowExecution : option WorkflowExecution; cancel_other : X }.

Record SignalWorkflowExecutionRequest (X : Type) := mkSignal {
  signal_Namespace : string; signal_WorkflowExecution : option WorkflowExecution; signal_other : X }.

Record QueryWorkflowRequest (X : Type) := mkQuery {
  query_Namespace : string; query_Execution : option WorkflowExecution; query_other : X }.

Record RespondQueryTaskCompletedRequest (X : Type) := mkRespondQuery {
  rqt_TaskToken : list byte; rqt_Namespace : string; rqt_other : X }.

Record GetWorkflowExecutionHistoryRequest (X : Type) := mkHistory {
  history_Namespace : string; history_Execution : option WorkflowExecution; history_other : X }.

Record PollWorkflowTaskQueueRequest (X : Type) := mkPollWorkflow {
  pw_Namespace : string; pw_other : X }.

Record PollActivityTaskQueueRequest (X : Type) := mkPollActivity {
  pa_Namespace : string; pa_other : X }.

Record PollWorkflowTaskQueueResponse (X : Type) := mkPolledWorkflow {
  pwr_TaskToken : list byte; pwr_WorkflowExecution : option WorkflowExecution; pwr_other : X }.

Record PollActivityTaskQueueResponse (X : Type) := mkPolledActivity {
  par_TaskToken : list byte; par_WorkflowExecution : option WorkflowExecution; par_other : X }.

Arguments mkStart {_} _ _ _.
Arguments start_Namespace {_} _.
Arguments start_WorkflowId {_} _.
Arguments start_other {_} _.
Arguments mkRespondWorkflowTask {_} _ _ _ _ _.
Arguments rwt_TaskToken {_} _.
Arguments rwt_Commands {_} _.
Arguments rwt_Namespace {_} _.
Arguments rwt_ResourceId {_} _.
Arguments rwt_other {_} _.
Arguments mkRespondActivityTask {_} _ _ _ _.
Arguments rat_TaskToken {_} _.
Arguments rat_Namespace {_} _.
Arguments rat_ResourceId {_} _.
Arguments rat_other {_} _.
Arguments mkCancel {_} _ _ _.
Arguments cancel_Namespace {_} _.
Arguments cancel_WorkflowExecution {_} _.
Arguments cancel_other {_} _.
Arguments mkSignal {_} _ _ _.
Arguments signal_Namespace {_} _.
Arguments signal_WorkflowExecution {_} _.
Arguments signal_other {_} _.
Arguments mkQuery {_} _ _ _.
Arguments query_Namespace {_} _.
Arguments query_Execution {_} _.
Arguments query_other {_} _.
Arguments mkRespondQuery {_} _ _ _.
Arguments rqt_TaskToken {_} _.
Arguments rqt_Namespace {_} _.
Arguments rqt_other {_} _.
Arguments mkHistory {_} _ _ _.
Arguments history_Namespace {_} _.
Arguments history_Execution {_} _.
Arguments history_other {_} _.
Arguments mkPollWorkflow {_} _ _.
Arguments pw_Namespace {_} _.
Arguments pw_other {_} _.
Arguments mkPollActivity {_} _ _.
Arguments pa_Namespace {_} _.
Arguments pa_other {_} _.
Arguments mkPolledWorkflow {_} _ _ _.
Arguments pwr_TaskToken {_} _.
Arguments pwr_WorkflowExecution {_} _.
Arguments pwr_other {_} _.
Arguments mkPolledActivity {_} _ _ _.
Arguments par_TaskToken {_} _.
Arguments par_WorkflowExecution {_} _.
Arguments par_other {_} _.

(** Every codec the proxy uses, for one type of other fields. *)
Class Codecs (X : Type) := {
  #[global] codec_start :: Message (StartWorkflowExecutionRequest X);
  #[global] codec_rwt :: Message (RespondWorkflowTaskCompletedRequest X);
  #[global] codec_rat :: Message (RespondActivityTaskCompletedRequest X);
  #[global] codec_cancel :: Message (RequestCancelWorkflowExecutionRequest X);
  #[global] codec_signal :: Message (SignalWorkflowExecutionRequest X);
  #[global] codec_query :: Message (QueryWorkflowRequest X);
  #[global] codec_rqt :: Message (RespondQueryTaskCompletedRequest X);
  #[global] codec_history :: Message (GetWorkflowExecutionHistoryRequest X);
  #[global] codec_pw :: Message (PollWorkflowTaskQueueRequest X);
  #[global] codec_pa :: Message (PollActivityTaskQueueRequest X);
  #[global] codec_pwr :: Message (PollWorkflowTaskQueueResponse X);
  #[global] codec_par :: Message (PollActivityTaskQueueResponse X)
}.
