(* ===== verification/Samples.v ===== *)
(** Concrete instances of the parameters, on which the development is evaluated:
    a message codec that satisfies the protobuf contract, a decompressor, and a
    few requests.  Nothing here models code of the repository. *)

From S2P Require Import Prelude Wire Http Messages.
From stdpp Require Import options.

(** A decompressor that copies its input, and refuses an empty one. *)
Definition CopyGzip : Gzip := {|
  gzip_NewReader_err b := match b with [] => Some "EOF" | _ => None end;
  gzip_ReadAll b := (b, None)
|}.

(** * Length-prefixed fields *)

Definition enc_fields (fs : list (list byte)) : list byte :=
  f ← fs; byte_of_Z (len f) :: f.

Fixpoint dec_fields (n : nat) (b : list byte) : option (list (list byte)) :=
  match n, b with
  | 0, [] => Some []
  | 0, _ :: _ => None
  | S n, [] => None
  | S n, l :: b =>
      let k := Z.to_nat (byteZ l) in
      if decide (k ≤ length b) then cons (take k b) <$> dec_fields n (drop k b) else None
  end.

(** A codec that refuses to marshal what it could not read back. *)
Definition checked_codec {M} `{EqDecision M} (n : nat) (enc : M → list (list byte))
    (dec : list (list byte) → option M) : Message M := {|
  proto_Unmarshal b :=
    match dec_fields n b ≫= dec with Some m => inr m | None => inl "cannot parse" end;
  proto_Marshal m :=
    if decide (dec_fields n (enc_fields (enc m)) ≫= dec = Some m)
    then inr (enc_fields (enc m)) else inl "field too long"
|}.

Lemma checked_codec_laws {M} `{EqDecision M} n (enc : M → list (list byte)) dec :
  @MessageLaws M (checked_codec n enc dec).
Proof. split. intros m b. simpl. case_decide as Hd; [|done]. intros [= <-]. by rewrite Hd. Qed.

(** * The messages without other fields *)

#[global] Instance WorkflowExecution_eq_dec : EqDecision WorkflowExecution.
Proof. solve_decision. Defined.
#[global] Instance Start_eq_dec : EqDecision (StartWorkflowExecutionRequest unit).
Proof. solve_decision. Defined.
#[global] Instance RespondWorkflowTask_eq_dec :
  EqDecision (RespondWorkflowTaskCompletedRequest unit).
Proof. solve_decision. Defined.
#[global] Instance RespondActivityTask_eq_dec :
  EqDecision (RespondActivityTaskCompletedRequest unit).
Proof. solve_decision. Defined.
#[global] Instance Cancel_eq_dec : EqDecision (RequestCancelWorkflowExecutionRequest unit).
Proof. solve_decision. Defined.
#[global] Instance Signal_eq_dec : EqDecision (SignalWorkflowExecutionRequest unit).
Proof. solve_decision. Defined.
#[global] Instance Query_eq_dec : EqDecision (QueryWorkflowRequest unit).
Proof. solve_decision. Defined.
#[global] Instance RespondQuery_eq_dec : EqDecision (RespondQueryTaskCompletedRequest unit).
Proof. solve_decision. Defined.
#[global] Instance History_eq_dec : EqDecision (GetWorkflowExecutionHistoryRequest unit).
Proof. solve_decision. Defined.
#[global] Instance PollWorkflow_eq_dec : EqDecision (PollWorkflowTaskQueueRequest unit).
Proof. solve_decision. Defined.
#[global] Instance PollActivity_eq_dec : EqDecision (PollActivityTaskQueueRequest unit).
Proof. solve_decision. Defined.
#[global] Instance PolledWorkflow_eq_dec : EqDecision (PollWorkflowTaskQueueResponse unit).
Proof. solve_decision. Defined.
#[global] Instance PolledActivity_eq_dec : EqDecision (PollActivityTaskQueueResponse unit).
Proof. solve_decision. Defined.

(** An optional execution takes two fields: a marked id and the run. *)
Definition enc_exec (x : option WorkflowExecution) : list (list byte) :=
  match x with
  | None => [[]; []]
  | Some e => [x01 :: bytes_of (WorkflowId e); bytes_of (RunId e)]
  end.

Definition dec_exec (w r : list byte) : option WorkflowExecution :=
  match w with
  | [] => None
  | _ :: w => Some (mkExecution (string_of w) (string_of r))
  end.

Definition enc_command (c : CommandType) : byte :=
  match c with
  | COMMAND_TYPE_COMPLETE_WORKFLOW_EXECUTION => x01
  | OTHER_COMMAND_TYPE n => byte_of_Z n
  end.

Definition dec_command (b : byte) : CommandType :=
  if decide (b = x01) then COMMAND_TYPE_COMPLETE_WORKFLOW_EXECUTION
  else OTHER_COMMAND_TYPE (byteZ b).

(** A codec for a namespace and an optional execution. *)
Definition exec_codec {M} `{EqDecision M} (ns : M → string)
    (ex : M → option WorkflowExecution) (mk : string → option WorkflowExecution → M)
    : Message M :=
  checked_codec 3 (λ m, bytes_of (ns m) :: enc_exec (ex m))
    (λ fs, match fs with [n; w; r] => Some (mk (string_of n) (dec_exec w r)) | _ => None end).

(** A codec for a task token and an optional execution. *)
Definition polled_codec {M} `{EqDecision M} (tok : M → list byte)
    (ex : M → option WorkflowExecution) (mk : list byte → option WorkflowExecution → M)
    : Message M :=
  checked_codec 3 (λ m, tok m :: enc_exec (ex m))
    (λ fs, match fs with [t; w; r] => Some (mk t (dec_exec w r)) | _ => None end).

#[global] Instance SampleCodecs : Codecs unit := {|
  codec_start :=
    checked_codec 2 (λ m, [bytes_of (start_Namespace m); bytes_of (start_WorkflowId m)])
      (λ fs, match fs with
             | [n; i] => Some (mkStart (string_of n) (string_of i) tt) | _ => None end);
  codec_rwt :=
    checked_codec 4 (λ m, [rwt_TaskToken m; enc_command <$> rwt_Commands m;
                           bytes_of (rwt_Namespace m); bytes_of (rwt_ResourceId m)])
      (λ fs, match fs with
             | [t; c; n; i] =>
                 Some (mkRespondWorkflowTask t (dec_command <$> c) (string_of n) (string_of i) tt)
             | _ => None end);
  codec_rat :=
    checked_codec 3 (λ m, [rat_TaskToken m; bytes_of (rat_Namespace m);
                           bytes_of (rat_ResourceId m)])
      (λ fs, match fs with
             | [t; n; i] => Some (mkRespondActivityTask t (string_of n) (string_of i) tt)
             | _ => None end);
  codec_cancel := exec_codec cancel_Namespace cancel_WorkflowExecution (λ n e, mkCancel n e tt);
  codec_signal := exec_codec signal_Namespace signal_WorkflowExecution (λ n e, mkSignal n e tt);
  codec_query := exec_codec query_Namespace query_Execution (λ n e, mkQuery n e tt);
  codec_rqt :=
    checked_codec 2 (λ m, [rqt_TaskToken m; bytes_of (rqt_Namespace m)])
      (λ fs, match fs with
             | [t; n] => Some (mkRespondQuery t (string_of n) tt) | _ => None end);
  codec_history := exec_codec history_Namespace history_Execution (λ n e, mkHistory n e tt);
  codec_pw :=
    checked_codec 1 (λ m, [bytes_of (pw_Namespace m)])
      (λ fs, match fs with [n] => Some (mkPollWorkflow (string_of n) tt) | _ => None end);
  codec_pa :=
    checked_codec 1 (λ m, [bytes_of (pa_Namespace m)])
      (λ fs, match fs with [n] => Some (mkPollActivity (string_of n) tt) | _ => None end);
  codec_pwr :=
    polled_codec pwr_TaskToken pwr_WorkflowExecution (λ t e, mkPolledWorkflow t e tt);
  codec_par :=
    polled_codec par_TaskToken par_WorkflowExecution (λ t e, mkPolledActivity t e tt)
|}.

(** A framed message, or nothing when it does not marshal. *)
Definition framed {M} {MM : Message M} (m : M) : list byte :=
  match proto_Marshal m with inr b => grpc_frame b | inl _ => [] end.

(** A request as a client sends it to the proxy. *)
Definition w_request (path : string) (b : list byte) : Request :=
  mkRequest path "" "" "proxy:7233" {["Content-Length" := ["99"]]} 99 path (BodyBytes b).
