(* ===== verification/Handlers.v ===== *)
(** The request handlers of [proxy.go]: each decodes a request, finds the
    workflow it is about, resolves it to a physical namespace, rewrites the
    request's namespace and target, and re-encodes it. *)

From S2P Require Import Prelude GoStrings GoSort ConsistentHash RingSpec Namespaces Mappings.
From S2P Require Import Resolver Wire TaskToken Http Messages.
From stdpp Require Import options.

Section handlers.
Context {M3 : Murmur3} {GZ : Gzip} {R : Type} `{Redis R} {X : Type} `{!Codecs X}.

(** A handler works on the shared world and mutates the request in place. *)
Definition HState : Type := World R * Request.

Definition on_world {A} (m : GoM (World R) A) : GoM HState A := λ s,
  let r := m s.1 in ((r.1, s.2), r.2).

Definition on_request (f : Request → Request) : GoM HState unit :=
  modify (λ s, (s.1, f s.2)).

(** [if err := proto.Unmarshal(...); err != nil { return nil, fmt.Errorf(...) }]. *)
Definition unmarshal {M} {MM : Message M} (what : string) (b : list byte) : GoM HState M :=
  lift match proto_Unmarshal b with
       | inl e => Err ("failed to unmarshal " +:+ what +:+ ": " +:+ e)
       | inr m => Ok m
       end.

Definition marshal {M} {MM : Message M} (what : string) (m : M) : GoM HState (list byte) :=
  lift match proto_Marshal m with
       | inl e => Err ("failed to marshal updated " +:+ what +:+ ": " +:+ e)
       | inr b => Ok b
       end.

Definition encodeGRPCPayload (finalPayload : list byte) : GoM HState (list byte) :=
  on_request drop_content_length;;
  mret (grpc_frame finalPayload).

(** [physNs, _ := resolver.Resolve(...)], [ns := parsePhysicalNamespace(physNs)]. *)
Definition resolve_ns (workflowID namespace : string) : GoM HState string :=
  r ← on_world (Resolve (mkPayload workflowID namespace));
  mret r.1.

(** [r.URL.Host = ns.cluster.address; r.Host = ns.cluster.address]: the cluster
    of a parsed namespace is never nil. *)
Definition retarget (ns : Namespace) : GoM HState unit :=
  match cluster ns with
  | Some c => on_request (set_target (address c))
  | None => panic "runtime error: invalid memory address or nil pointer dereference"
  end.

(** [workflowID, err := extractWorkflowIDFromTaskToken(token)], replaced by
    [fallback] when it fails or is empty. *)
Definition token_workflow_id (token : list byte) (fallback : string) : GoM HState string :=
  r ← try (lift (extractWorkflowIDFromTaskToken token));
  mret match r with
       | inl _ => fallback
       | inr id => if decide (id = "") then fallback else id
       end.

Definition handleStartWorkflowExecution (bodyBytes : list byte) : GoM HState (list byte) :=
  p ← lift (extractPayload bodyBytes);
  req ← unmarshal "StartWorkflowExecutionRequest" p.1;
  physNs ← resolve_ns (start_WorkflowId req) (start_Namespace req);
  ns ← lift (parsePhysicalNamespace physNs);
  let req := mkStart (name ns) (start_WorkflowId req) (start_other req : X) in
  retarget ns;;
  newPbPayload ← marshal "StartWorkflowExecutionRequest" req;
  encodeGRPCPayload newPbPayload.

(** The loop over the commands: one deletion per completion command. *)
Fixpoint delete_completed (workflowID : string) (commands : list CommandType) : GoM HState unit :=
  match commands with
  | [] => mret tt
  | c :: cs =>
      (if decide (c = COMMAND_TYPE_COMPLETE_WORKFLOW_EXECUTION)
       then on_world (on_cache (Delete workflowID)) else mret tt);;
      delete_completed workflowID cs
  end.

Definition handleRespondWorkflowTaskCompleted (bodyBytes : list byte) : GoM HState (list byte) :=
  p ← lift (extractPayload bodyBytes);
  req ← unmarshal "RespondWorkflowTaskCompletedRequest" p.1;
  workflowID ← token_workflow_id (rwt_TaskToken req) (rwt_ResourceId req);
  physNs ← resolve_ns workflowID (rwt_Namespace req);
  delete_completed workflowID (rwt_Commands req);;
  ns ← lift (parsePhysicalNamespace physNs);
  let req := mkRespondWorkflowTask (rwt_TaskToken req) (rwt_Commands req) (name ns)
               (rwt_ResourceId req) (rwt_other req : X) in
  retarget ns;;
  newPbPayload ← marshal "RespondWorkflowTaskCompletedRequest" req;
  encodeGRPCPayload newPbPayload.

Definition handleRespondActivityTaskCompleted (bodyBytes : list byte) : GoM HState (list byte) :=
  p ← lift (extractPayload bodyBytes);
  req ← unmarshal "RespondActivityTaskCompletedRequest" p.1;
  workflowID ← token_workflow_id (rat_TaskToken req) (rat_ResourceId req);
  physNs ← resolve_ns workflowID (rat_Namespace req);
  ns ← lift (parsePhysicalNamespace physNs);
  let req := mkRespondActivityTask (rat_TaskToken req) (name ns) (rat_ResourceId req)
               (rat_other req : X) in
  retarget ns;;
  newPbPayload ← marshal "RespondActivityTaskCompletedRequest" req;
  encodeGRPCPayload newPbPayload.

(** The error texts of this handler name another request, as in the source. *)
Definition handleCancelWorkflow (bodyBytes : list byte) : GoM HState (list byte) :=
  p ← lift (extractPayload bodyBytes);
  req ← unmarshal "RespondActivityTaskCompletedRequest" p.1;
  let workflowID := GetWorkflowId (cancel_WorkflowExecution req) in
  physNs ← resolve_ns workflowID (cancel_Namespace req);
  ns ← lift (parsePhysicalNamespace physNs);
  let req := mkCancel (name ns) (cancel_WorkflowExecution req) (cancel_other req : X) in
  retarget ns;;
  newPbPayload ← marshal "RespondActivityTaskCompletedRequest" req;
  encodeGRPCPayload newPbPayload.

Definition handleSignalWorkflow (bodyBytes : list byte) : GoM HState (list byte) :=
  p ← lift (extractPayload bodyBytes);
  req ← unmarshal "SignalWorkflowExecutionRequest" p.1;
  let workflowID := GetWorkflowId (signal_WorkflowExecution req) in
  physNs ← resolve_ns workflowID (signal_Namespace req);
  ns ← lift (parsePhysicalNamespace physNs);
  let req := mkSignal (name ns) (signal_WorkflowExecution req) (signal_other req : X) in
  retarget ns;;
  newPbPayload ← marshal "SignalWorkflowExecutionRequest" req;
  encodeGRPCPayload newPbPayload.

Definition handleQueryWorkflow (bodyBytes : list byte) : GoM HState (list byte) :=
  p ← lift (extractPayload bodyBytes);
  req ← unmarshal "QueryWorkflowRequest" p.1;
  let workflowID := GetWorkflowId (query_Execution req) in
  physNs ← resolve_ns workflowID (query_Namespace req);
  ns ← lift (parsePhysicalNamespace physNs);
  let req := mkQuery (name ns) (query_Execution req) (query_other req : X) in
  retarget ns;;
  newPbPayload ← marshal "QueryWorkflowRequest" req;
  encodeGRPCPayload newPbPayload.

(** No fallback here: a token without an id leaves the empty id. *)
Definition handleRespondQueryTaskCompleted (bodyBytes : list byte) : GoM HState (list byte) :=
  p ← lift (extractPayload bodyBytes);
  req ← unmarshal "RespondQueryTaskCompletedRequest" p.1;
  workflowID ← token_workflow_id (rqt_TaskToken req) "";
  physNs ← resolve_ns workflowID (rqt_Namespace req);
  ns ← lift (parsePhysicalNamespace physNs);
  let req := mkRespondQuery (rqt_TaskToken req) (name ns) (rqt_other req : X) in
  retarget ns;;
  newPbPayload ← marshal "RespondQueryTaskCompletedReqeust" req;
  encodeGRPCPayload newPbPayload.

Definition handleGetWorkflowExecutionHistory (bodyBytes : list byte) : GoM HState (list byte) :=
  p ← lift (extractPayload bodyBytes);
  req ← unmarshal "GetWorkflowExecutionHistoryRequest" p.1;
  let workflowID := GetWorkflowId (history_Execution req) in
  physNs ← resolve_ns workflowID (history_Namespace req);
  ns ← lift (parsePhysicalNamespace physNs);
  let req := mkHistory (name ns) (history_Execution req) (history_other req : X) in
  retarget ns;;
  newPbPayload ← marshal "GetWorkflowExecutionHistoryRequest" req;
  encodeGRPCPayload newPbPayload.
End handlers.
