(* ===== verification/HandlerSpec.v ===== *)
(** What the request handlers do: all eight are one pipeline (decode, find the
    workflow, resolve, rewrite the namespace, retarget, re-encode), proved once
    and instantiated for each. *)

From S2P Require Import Prelude GoStrings GoSort ConsistentHash RingSpec Murmur Namespaces.
From S2P Require Import Mappings Resolver Wire TaskToken Http Messages Samples Handlers.
From stdpp Require Import options.

(** The routed calls. *)
Inductive api :=
| ApiStart | ApiRespondWorkflowTask | ApiRespondActivityTask | ApiCancel
| ApiHistory | ApiSignal | ApiQuery | ApiRespondQuery.

(** What the pipeline needs to know of a message type. *)
Record routed (M : Type) := mkRouted {
  rt_codec : Message M;
  rt_what_in : string;                     (* the name in the decode error *)
  rt_what_out : string;                    (* the name in the encode error *)
  rt_ns : M → string;                      (* the requested virtual namespace *)
  rt_commands : M → list CommandType;      (* commands that may complete it *)
  rt_set_ns : string → M → M               (* the rewritten message *)
}.
Arguments mkRouted {_} _ _ _ _ _ _.
Arguments rt_codec {_} _.
Arguments rt_what_in {_} _.
Arguments rt_what_out {_} _.
Arguments rt_ns {_} _ _.
Arguments rt_commands {_} _ _.
Arguments rt_set_ns {_} _ _ _.

Section handler_spec.
Context {M3 : Murmur3} {GZ : Gzip} {R : Type} `{Redis R} {X : Type} `{!Codecs X}.

Definition api_msg (a : api) : Type :=
  match a with
  | ApiStart => StartWorkflowExecutionRequest X
  | ApiRespondWorkflowTask => RespondWorkflowTaskCompletedRequest X
  | ApiRespondActivityTask => RespondActivityTaskCompletedRequest X
  | ApiCancel => RequestCancelWorkflowExecutionRequest X
  | ApiHistory => GetWorkflowExecutionHistoryRequest X
  | ApiSignal => SignalWorkflowExecutionRequest X
  | ApiQuery => QueryWorkflowRequest X
  | ApiRespondQuery => RespondQueryTaskCompletedRequest X
  end.

Definition api_routed (a : api) : routed (api_msg a) :=
  match a return routed (api_msg a) with
  | ApiStart =>
      mkRouted _ "StartWorkflowExecutionRequest" "StartWorkflowExecutionRequest"
        start_Namespace (λ _, [])
        (λ n m, mkStart n (start_WorkflowId m) (start_other m))
  | ApiRespondWorkflowTask =>
      mkRouted _ "RespondWorkflowTaskCompletedRequest" "RespondWorkflowTaskCompletedRequest"
        rwt_Namespace rwt_Commands
        (λ n m, mkRespondWorkflowTask (rwt_TaskToken m) (rwt_Commands m) n
                  (rwt_ResourceId m) (rwt_other m))
  | ApiRespondActivityTask =>
      mkRouted _ "RespondActivityTaskCompletedRequest" "RespondActivityTaskCompletedRequest"
        rat_Namespace (λ _, [])
        (λ n m, mkRespondActivityTask (rat_TaskToken m) n (rat_ResourceId m) (rat_other m))
  | ApiCancel =>
      mkRouted _ "RespondActivityTaskCompletedRequest" "RespondActivityTaskCompletedRequest"
        cancel_Namespace (λ _, [])
        (λ n m, mkCancel n (cancel_WorkflowExecution m) (cancel_other m))
  | ApiHistory =>
      mkRouted _ "GetWorkflowExecutionHistoryRequest" "GetWorkflowExecutionHistoryRequest"
        history_Namespace (λ _, [])
        (λ n m, mkHistory n (history_Execution m) (history_other m))
  | ApiSignal =>
      mkRouted _ "SignalWorkflowExecutionRequest" "SignalWorkflowExecutionRequest"
        signal_Namespace (λ _, [])
        (λ n m, mkSignal n (signal_WorkflowExecution m) (signal_other m))
  | ApiQuery =>
      mkRouted _ "QueryWorkflowRequest" "QueryWorkflowRequest"
        query_Namespace (λ _, [])
        (λ n m, mkQuery n (query_Execution m) (query_other m))
  | ApiRespondQuery =>
      mkRouted _ "RespondQueryTaskCompletedRequest" "RespondQueryTaskCompletedReqeust"
        rqt_Namespace (λ _, [])
        (λ n m, mkRespondQuery (rqt_TaskToken m) n (rqt_other m))
  end.

(** How each call finds the workflow it is about. *)
Definition api_workflow_id (a : api) : api_msg a → GoM (@HState R) string :=
  match a return api_msg a → GoM (@HState R) string with
  | ApiStart => λ m, mret (start_WorkflowId m)
  | ApiRespondWorkflowTask => λ m, token_workflow_id (rwt_TaskToken m) (rwt_ResourceId m)
  | ApiRespondActivityTask => λ m, token_workflow_id (rat_TaskToken m) (rat_ResourceId m)
  | ApiCancel => λ m, mret (GetWorkflowId (cancel_WorkflowExecution m))
  | ApiHistory => λ m, mret (GetWorkflowId (history_Execution m))
  | ApiSignal => λ m, mret (GetWorkflowId (signal_WorkflowExecution m))
  | ApiQuery => λ m, mret (GetWorkflowId (query_Execution m))
  | ApiRespondQuery => λ m, token_workflow_id (rqt_TaskToken m) ""
  end.

(** The handler of each call. *)
Definition handle (a : api) : list byte → GoM (@HState R) (list byte) :=
  match a with
  | ApiStart => handleStartWorkflowExecution
  | ApiRespondWorkflowTask => handleRespondWorkflowTaskCompleted
  | ApiRespondActivityTask => handleRespondActivityTaskCompleted
  | ApiCancel => handleCancelWorkflow
  | ApiHistory => handleGetWorkflowExecutionHistory
  | ApiSignal => handleSignalWorkflow
  | ApiQuery => handleQueryWorkflow
  | ApiRespondQuery => handleRespondQueryTaskCompleted
  end.

(** The pipeline. *)
Definition route_request {M} (rt : routed M) (rt_id : M → GoM (@HState R) string) (bodyBytes : list byte)
    : GoM (@HState R) (list byte) :=
  p ← lift (extractPayload bodyBytes);
  req ← unmarshal (MM := rt_codec rt) (rt_what_in rt) p.1;
  workflowID ← rt_id req;
  physNs ← resolve_ns workflowID (rt_ns rt req);
  delete_completed workflowID (rt_commands rt req);;
  ns ← lift (parsePhysicalNamespace physNs);
  retarget ns;;
  newPbPayload ← marshal (MM := rt_codec rt) (rt_what_out rt) (rt_set_ns rt (name ns) req);
  encodeGRPCPayload newPbPayload.

Lemma handle_pipeline a bodyBytes s :
  handle a bodyBytes s = route_request (api_routed a) (api_workflow_id a) bodyBytes s.
Proof. by destruct a. Qed.

(** * The pipeline, step by step *)

(** The workflow id of a message is a pure function of it. *)
Definition token_id (token : list byte) (fallback : string) : res string :=
  match extractWorkflowIDFromTaskToken token with
  | Ok id => Ok (if decide (id = "") then fallback else id)
  | Err _ => Ok fallback
  | Panic p => Panic p
  | Diverge => Diverge
  end.

Definition api_id (a : api) : api_msg a → res string :=
  match a return api_msg a → res string with
  | ApiStart => λ m, Ok (start_WorkflowId m)
  | ApiRespondWorkflowTask => λ m, token_id (rwt_TaskToken m) (rwt_ResourceId m)
  | ApiRespondActivityTask => λ m, token_id (rat_TaskToken m) (rat_ResourceId m)
  | ApiCancel => λ m, Ok (GetWorkflowId (cancel_WorkflowExecution m))
  | ApiHistory => λ m, Ok (GetWorkflowId (history_Execution m))
  | ApiSignal => λ m, Ok (GetWorkflowId (signal_WorkflowExecution m))
  | ApiQuery => λ m, Ok (GetWorkflowId (query_Execution m))
  | ApiRespondQuery => λ m, token_id (rqt_TaskToken m) ""
  end.

Lemma api_workflow_id_pure a (m : api_msg a) s : api_workflow_id a m s = (s, api_id a m).
Proof.
  destruct a; try done; simpl; unfold token_workflow_id, token_id; go_simpl;
    by destruct (extractWorkflowIDFromTaskToken _).
Qed.

Lemma resolve_ns_Ok id ns w r phys hit :
  (Resolve (mkPayload id ns) w).2 = Ok (phys, hit) →
  resolve_ns id ns (w, r) = (((Resolve (mkPayload id ns) w).1, r), Ok phys).
Proof. intros Hr. unfold resolve_ns, on_world. go_simpl. simpl. by rewrite Hr. Qed.

(** The deletions touch only the cache. *)
Lemma delete_completed_Ok id cs w r :
  ∃ w', delete_completed id cs (w, r) = ((w', r), Ok tt) ∧ registry w' = registry w.
Proof.
  revert w. induction cs as [|c cs IH]; intros w; simpl; [by eexists|].
  go_simpl. case_decide; [|apply IH].
  destruct (IH (on_cache (Delete id) w).1) as (w' & Hw' & Hreg). exists w'. by split.
Qed.

(** Up to the parse of the resolved namespace. *)
Lemma handle_resolved a bodyBytes w r pb c (req : api_msg a) id phys hit :
  extractPayload bodyBytes = Ok (pb, c) →
  proto_Unmarshal (Message := rt_codec (api_routed a)) pb = inr req →
  api_id a req = Ok id →
  (Resolve (mkPayload id (rt_ns (api_routed a) req)) w).2 = Ok (phys, hit) →
  let w1 := (Resolve (mkPayload id (rt_ns (api_routed a) req)) w).1 in
  handle a bodyBytes (w, r) =
    (delete_completed id (rt_commands (api_routed a) req);;
     ns ← lift (parsePhysicalNamespace phys);
     retarget ns;;
     newPbPayload ← marshal (MM := rt_codec (api_routed a)) (rt_what_out (api_routed a))
                      (rt_set_ns (api_routed a) (name ns) req);
     encodeGRPCPayload newPbPayload) (w1, r).
Proof.
  intros Hex Hun Hid Hres w1. rewrite handle_pipeline. unfold route_request.
  unfold mbind at 1, go_bind at 1, lift at 1. rewrite Hex.
  unfold mbind at 1, go_bind at 1, unmarshal at 1, lift at 1. simpl fst. rewrite Hun.
  unfold mbind at 1, go_bind at 1. rewrite api_workflow_id_pure, Hid.
  unfold mbind at 1, go_bind at 1. by rewrite (resolve_ns_Ok _ _ _ _ _ _ Hres).
Qed.

(** A namespace that does not parse: the handler panics with the request intact. *)
Lemma handle_unparsable a bodyBytes w r pb c (req : api_msg a) id phys hit :
  extractPayload bodyBytes = Ok (pb, c) →
  proto_Unmarshal (Message := rt_codec (api_routed a)) pb = inr req →
  api_id a req = Ok id →
  (Resolve (mkPayload id (rt_ns (api_routed a) req)) w).2 = Ok (phys, hit) →
  Contains phys delim = false →
  is_panic (handle a bodyBytes (w, r)).2 = true ∧ (handle a bodyBytes (w, r)).1.2 = r.
Proof.
  intros Hex Hun Hid Hres Hc. rewrite (handle_resolved a bodyBytes w r pb c req id phys hit) by done.
  pose proof (parse_panics_iff phys) as Hp. rewrite Hc in Hp.
  destruct (delete_completed_Ok id (rt_commands (api_routed a) req)
    (Resolve (mkPayload id (rt_ns (api_routed a) req)) w).1 r) as (w' & Hw' & _).
  unfold mbind, go_bind. rewrite Hw'. unfold lift. by destruct (parsePhysicalNamespace phys).
Qed.

(** A namespace that parses: the request is retargeted and re-encoded. *)
Lemma handle_parsable a bodyBytes w r pb c (req : api_msg a) id phys hit addr n b :
  extractPayload bodyBytes = Ok (pb, c) →
  proto_Unmarshal (Message := rt_codec (api_routed a)) pb = inr req →
  api_id a req = Ok id →
  (Resolve (mkPayload id (rt_ns (api_routed a) req)) w).2 = Ok (phys, hit) →
  parsePhysicalNamespace phys = Ok (mkNamespace (Some (mkCluster addr)) n) →
  proto_Marshal (Message := rt_codec (api_routed a)) (rt_set_ns (api_routed a) n req) = inr b →
  ∃ w', delete_completed id (rt_commands (api_routed a) req)
          ((Resolve (mkPayload id (rt_ns (api_routed a) req)) w).1, r) = ((w', r), Ok tt) ∧
        registry w' = registry w ∧
        handle a bodyBytes (w, r) =
          ((w', drop_content_length (set_target addr r)), Ok (grpc_frame b)).
Proof.
  intros Hex Hun Hid Hres Hp Hm.
  rewrite (handle_resolved a bodyBytes w r pb c req id phys hit) by done.
  destruct (delete_completed_Ok id (rt_commands (api_routed a) req)
    (Resolve (mkPayload id (rt_ns (api_routed a) req)) w).1 r) as (w' & Hw' & Hreg).
  exists w'. split; [done|]. split; [by rewrite Hreg, Resolve_registry|].
  unfold mbind at 1, go_bind at 1. rewrite Hw'.
  unfold mbind at 1, go_bind at 1, lift at 1. rewrite Hp.
  unfold retarget, marshal, encodeGRPCPayload, on_request. simpl cluster. go_simpl. simpl name.
  by rewrite Hm.
Qed.

(** A body that does not decode: an error, and nothing is touched. *)
Lemma handle_undecodable a bodyBytes s :
  (∀ pb c, extractPayload bodyBytes = Ok (pb, c) →
     ∃ e, proto_Unmarshal (Message := rt_codec (api_routed a)) pb = inl e) →
  ∃ e, handle a bodyBytes s = (s, Err e).
Proof.
  intros Hbad. rewrite handle_pipeline. unfold route_request, unmarshal. go_simpl.
  destruct (extractPayload bodyBytes) as [[pb c]|e|p|] eqn:E; [|by eexists|..].
  - destruct (Hbad pb c eq_refl) as [e He]. simpl. rewrite He. by eexists.
  - exfalso. unfold extractPayload in E. by repeat case_match.
  - exfalso. unfold extractPayload in E. by repeat case_match.
Qed.

(** Rewriting the namespace is a lens: it sets that field and nothing else. *)
Lemma rt_set_get a n (m : api_msg a) : rt_ns (api_routed a) (rt_set_ns (api_routed a) n m) = n.
Proof. by destruct a. Qed.

Lemma rt_set_back a n (m : api_msg a) :
  rt_set_ns (api_routed a) (rt_ns (api_routed a) m) (rt_set_ns (api_routed a) n m) = m.
Proof. by destruct a, m. Qed.

Context `{!RedisLaws R}.

(** A message as it arrives: framed, decodable, about workflow [id]. *)
Definition arrives (a : api) (bodyBytes : list byte) (req : api_msg a) (id : string) : Prop :=
  ∃ pb compressed,
    extractPayload bodyBytes = Ok (pb, compressed) ∧
    proto_Unmarshal (Message := rt_codec (api_routed a)) pb = inr req ∧
    api_id a req = Ok id.

(** The deletions, on the routing table. *)
Lemma delete_completed_cached id cs w r :
  w_reachable w →
  let w' := (delete_completed id cs (w, r)).1.1 in
  w_reachable w' ∧
  w_cached w' = if decide (COMMAND_TYPE_COMPLETE_WORKFLOW_EXECUTION ∈ cs)
                then delete id (w_cached w) else w_cached w.
Proof.
  revert w. induction cs as [|c cs IH]; intros w Hon; simpl; [done|].
  go_simpl. destruct (decide (c = COMMAND_TYPE_COMPLETE_WORKFLOW_EXECUTION)) as [->|Hc];
    cbn [fst snd on_world on_cache].
  - destruct (Delete_online id (Cache w) Hon) as [Hon' Hd].
    destruct (IH (on_cache (Delete id) w).1 Hon') as [IH1 IH2].
    split; [exact IH1|]. etrans; [exact IH2|].
    rewrite (decide_True (P := _ ∈ _ :: _)) by set_solver.
    unfold w_cached in *. cbn [on_cache fst Cache]. rewrite Hd.
    case_decide; [|done]. apply delete_delete_eq.
  - destruct (IH w Hon) as [IH1 IH2]. split; [exact IH1|]. etrans; [exact IH2|].
    case_decide as H1; case_decide as H2; try done; set_solver.
Qed.

(** With a resolved namespace that parses, the request is sent to its cluster
    whether or not the message can be re-encoded. *)
Lemma handle_retargets a bodyBytes w r (req : api_msg a) id phys hit addr n :
  arrives a bodyBytes req id →
  (Resolve (mkPayload id (rt_ns (api_routed a) req)) w).2 = Ok (phys, hit) →
  parsePhysicalNamespace phys = Ok (mkNamespace (Some (mkCluster addr)) n) →
  let h := handle a bodyBytes (w, r) in
  h.1.1 = (delete_completed id (rt_commands (api_routed a) req)
            ((Resolve (mkPayload id (rt_ns (api_routed a) req)) w).1, r)).1.1 ∧
  URLHost h.1.2 = addr ∧ Host h.1.2 = addr ∧ returns h.2 = true.
Proof.
  intros (pb & c & Hex & Hun & Hid) Hres Hp h.
  assert (h = handle a bodyBytes (w, r)) as Hh by done. clearbody h.
  rewrite (handle_resolved a bodyBytes w r pb c req id phys hit) in Hh by done.
  destruct (delete_completed_Ok id (rt_commands (api_routed a) req)
    (Resolve (mkPayload id (rt_ns (api_routed a) req)) w).1 r) as (w' & Hw' & _).
  unfold mbind at 1, go_bind at 1 in Hh. rewrite Hw' in Hh |- *.
  unfold mbind at 1, go_bind at 1, lift at 1 in Hh. rewrite Hp in Hh.
  unfold retarget, marshal, encodeGRPCPayload, on_request in Hh.
  simpl cluster in Hh. go_simpl. simpl name in Hh.
  destruct (proto_Marshal _) in Hh; by subst h.
Qed.

(** Conversely, a handler that returns had such a namespace. *)
Lemma handle_returned a bodyBytes w r (req : api_msg a) id phys hit :
  arrives a bodyBytes req id →
  (Resolve (mkPayload id (rt_ns (api_routed a) req)) w).2 = Ok (phys, hit) →
  is_panic (handle a bodyBytes (w, r)).2 = false →
  ∃ addr n, parsePhysicalNamespace phys = Ok (mkNamespace (Some (mkCluster addr)) n).
Proof.
  intros (pb & c & Hex & Hun & Hid) Hres Hnp. apply parse_delim.
  destruct (Contains phys delim) eqn:E; [done|].
  destruct (handle_unparsable a bodyBytes w r pb c req id phys hit) as [Hp _]; try done. congruence.
Qed.

(** After a handler that does not complete the workflow returned, the cache
    holds the workflow's namespace, and the request went to its cluster. *)
Lemma handle_records a bodyBytes w r (req : api_msg a) id :
  w_reachable w → arrives a bodyBytes req id →
  COMMAND_TYPE_COMPLETE_WORKFLOW_EXECUTION ∉ rt_commands (api_routed a) req →
  let h := handle a bodyBytes (w, r) in
  is_panic h.2 = false →
  w_reachable h.1.1 ∧
  ∃ phys addr n, w_cached h.1.1 !! id = Some phys ∧ phys ≠ "" ∧
    parsePhysicalNamespace phys = Ok (mkNamespace (Some (mkCluster addr)) n) ∧
    URLHost h.1.2 = addr ∧ Host h.1.2 = addr.
Proof.
  intros Hon Harr Hc h Hnp.
  destruct (Resolve_returns (mkPayload id (rt_ns (api_routed a) req)) w) as (w1 & [phys hit] & Hr).
  assert ((Resolve (mkPayload id (rt_ns (api_routed a) req)) w).2 = Ok (phys, hit)) as Hres
    by (by rewrite Hr).
  destruct (handle_returned a bodyBytes w r req id phys hit Harr Hres Hnp) as (addr & n & Hp).
  assert (phys ≠ "") as Hne by (intros ->; discriminate Hp).
  destruct (handle_retargets a bodyBytes w r req id phys hit addr n Harr Hres Hp) as (Hw & H1 & H2 & _).
  destruct (Resolve_refines (mkPayload id (rt_ns (api_routed a) req)) w Hon) as (Hon1 & _).
  destruct (delete_completed_cached id (rt_commands (api_routed a) req) _ r Hon1) as [Hon2 Hca].
  fold h in Hw, H1, H2. rewrite Hw. split; [done|]. exists phys, addr, n.
  rewrite Hca, decide_False by done.
  split; [by eapply (Resolve_caches (mkPayload id _))|]. done.
Qed.

(** And a later request of the workflow follows that record. *)
Lemma handle_follows a bodyBytes w r (req : api_msg a) id phys addr n :
  w_reachable w → arrives a bodyBytes req id →
  w_cached w !! id = Some phys →
  parsePhysicalNamespace phys = Ok (mkNamespace (Some (mkCluster addr)) n) →
  let h := handle a bodyBytes (w, r) in
  URLHost h.1.2 = addr ∧ Host h.1.2 = addr ∧
  w_cached h.1.1 = (if decide (COMMAND_TYPE_COMPLETE_WORKFLOW_EXECUTION ∈ rt_commands (api_routed a) req)
                    then delete id (w_cached w) else w_cached w) ∧
  returns h.2 = true.
Proof.
  intros Hon Harr Hc Hp h.
  assert (phys ≠ "") as Hne by (intros ->; discriminate Hp).
  destruct (Resolve_hit (mkPayload id (rt_ns (api_routed a) req)) w phys Hon Hc Hne) as [Hres Hk].
  destruct (handle_retargets a bodyBytes w r req id phys true addr n Harr Hres Hp) as (Hw & ? & ? & ?).
  destruct (Resolve_refines (mkPayload id (rt_ns (api_routed a) req)) w Hon) as (Hon1 & _).
  destruct (delete_completed_cached id (rt_commands (api_routed a) req) _ r Hon1) as [Hon2 Hca].
  fold h in Hw. rewrite Hw, Hca, Hk. done.
Qed.
End handler_spec.

(** * Properties of the handlers *)

Section handler_theorems.
Context {M3 : Murmur3} {GZ : Gzip} {R : Type} `{Redis R} `{!RedisLaws R} {X : Type} `{!Codecs X}.

(** One workflow, one cluster, across all calls.  Over a reachable cache,
    once a request of any routed call about a workflow was handled without
    completing it, every later request of any routed call about the same
    workflow is aimed at the same cluster address, whatever requests and admin
    actions came in between (short of a completion or a poll that re-recorded
    the workflow). *)
Theorem same_cluster_across_calls a a' bodyBytes bodyBytes'
    (req : api_msg a) (req' : api_msg a') id (w : World R) r r' es :
  w_reachable w →
  arrives a bodyBytes req id → arrives a' bodyBytes' req' id →
  COMMAND_TYPE_COMPLETE_WORKFLOW_EXECUTION ∉ rt_commands (api_routed a) req →
  is_panic (handle a bodyBytes (w, r)).2 = false →
  Forall (λ e, ¬ rewrites id e) es →
  let h := handle a bodyBytes (w, r) in
  let h' := handle a' bodyBytes' ((exec_events es h.1.1).1, r') in
  URLHost h'.1.2 = URLHost h.1.2 ∧ Host h'.1.2 = Host h.1.2.
Proof.
  intros Hon Harr Harr' Hc Hnp Hes h h'.
  destruct (handle_records a bodyBytes w r req id Hon Harr Hc Hnp)
    as (Hon1 & phys & addr & n & Hk & Hne & Hp & H1 & H2).
  destruct (exec_events_refines es _ Hon1) as (Hon2 & Habs & _).
  fold h in Hon1, Hk, H1, H2, Habs, Hon2. apply (f_equal snd) in Habs. cbn [w_abs snd] in Habs.
  pose proof (abs_events_keep es (w_abs h.1.1) id phys Hk Hne Hes) as Hk2.
  destruct (handle_follows a' bodyBytes' (exec_events es h.1.1).1 r' req' id phys addr n)
    as (G1 & G2 & _); [done|done| |done|].
  - by rewrite Habs.
  - unfold h'. by rewrite G1, G2, H1, H2.
Qed.

(** C7: what a handler forwards.  When the resolved physical namespace is
    [n::addr], the request is aimed at [addr] with its declared length dropped
    and everything else kept, the registry is untouched, and the new body is a
    frame the cluster decodes to the same message about the same workflow with
    only its namespace replaced by [n]. *)
Theorem handler_rewrites_only_namespace a bodyBytes (req : api_msg a) id (w : World R) r
    phys hit addr n b :
  @MessageLaws (api_msg a) (rt_codec (api_routed a)) →
  arrives a bodyBytes req id →
  (Resolve (mkPayload id (rt_ns (api_routed a) req)) w).2 = Ok (phys, hit) →
  parsePhysicalNamespace phys = Ok (mkNamespace (Some (mkCluster addr)) n) →
  proto_Marshal (Message := rt_codec (api_routed a))
    (rt_set_ns (api_routed a) n req) = inr b →
  b ≠ [] →
  ∃ w' out req',
    handle a bodyBytes (w, r) = ((w', drop_content_length (set_target addr r)), Ok out) ∧
    registry w' = registry w ∧
    arrives a out req' id ∧
    rt_ns (api_routed a) req' = n ∧
    rt_set_ns (api_routed a) (rt_ns (api_routed a) req) req' = req.
Proof.
  intros Hlaws (pb & c & Hex & Hun & Hid) Hres Hp Hm Hb.
  destruct (handle_parsable a bodyBytes w r pb c req id phys hit addr n b)
    as (w' & _ & Hreg & Hh); try done.
  exists w', (grpc_frame b), (rt_set_ns (api_routed a) n req).
  split; [done|]. split; [done|]. split; [|by rewrite rt_set_get, rt_set_back].
  exists b, false. split; [by apply extractPayload_grpc_frame|].
  split; [by apply (@proto_roundtrip _ _ Hlaws)|]. by destruct a.
Qed.

(** C27: requests for an unknown virtual namespace panic.  When the workflow is
    not cached and its virtual namespace is not registered, every handler
    panics instead of returning an error; the request, the registry and the
    cache are as before. *)
Theorem unknown_namespace_panics a bodyBytes (req : api_msg a) id (w : World R) r :
  w_reachable w → arrives a bodyBytes req id →
  w_cached w !! id = None →
  Resolve_ns (registry w) (rt_ns (api_routed a) req) = None →
  let h := handle a bodyBytes (w, r) in
  is_panic h.2 = true ∧ h.1.2 = r ∧ registry h.1.1 = registry w ∧ w_cached h.1.1 = w_cached w.
Proof.
  intros Hon (pb & c & Hex & Hun & Hid) Hk Hreg h.
  set (p := mkPayload id (rt_ns (api_routed a) req)).
  destruct (Resolve_refines p w Hon) as (Hon1 & Hc & Hres).
  unfold abs_Resolve in Hc, Hres. simpl in Hc, Hres.
  unfold Resolve_ns in Hreg. rewrite Hk, Hreg in Hc, Hres. simpl in Hc, Hres.
  assert (h = handle a bodyBytes (w, r)) as Hh by done. clearbody h.
  rewrite (handle_resolved a bodyBytes w r pb c req id "" false) in Hh by done. fold p in Hh.
  destruct (delete_completed_cached id (rt_commands (api_routed a) req) _ r Hon1)
    as [_ Hca].
  destruct (delete_completed_Ok id (rt_commands (api_routed a) req) (Resolve p w).1 r)
    as (w' & Hw' & Hwr).
  rewrite Hw' in Hca. unfold mbind, go_bind in Hh. rewrite Hw' in Hh. cbn in Hh. subst h. simpl.
  split; [done|]. split; [done|]. split; [by rewrite Hwr, Resolve_registry|].
  simpl in Hca. rewrite Hca, Hc. case_decide; [|done]. by apply delete_id.
Qed.

(** C16: completion evicts.  A workflow-task response that carries a completion
    command is still sent to the cluster the workflow was cached at, and after
    it the cache has no entry for the workflow and all the others as before;
    without such a command the cache is unchanged.  The handler returns. *)
Theorem completion_evicts bodyBytes (req : api_msg ApiRespondWorkflowTask) id (w : World R) r
    phys addr n :
  w_reachable w → arrives ApiRespondWorkflowTask bodyBytes req id →
  w_cached w !! id = Some phys →
  parsePhysicalNamespace phys = Ok (mkNamespace (Some (mkCluster addr)) n) →
  let h := handleRespondWorkflowTaskCompleted (R := R) (X := X) bodyBytes (w, r) in
  URLHost h.1.2 = addr ∧ Host h.1.2 = addr ∧
  w_cached h.1.1 = (if decide (COMMAND_TYPE_COMPLETE_WORKFLOW_EXECUTION ∈ rwt_Commands req)
                    then delete id (w_cached w) else w_cached w) ∧
  returns h.2 = true.
Proof. apply (handle_follows ApiRespondWorkflowTask). Qed.
End handler_theorems.

(** * The properties at concrete requests *)

Definition w_start : StartWorkflowExecutionRequest unit := mkStart "v" "wf-1" tt.
Definition w_start_body : list byte := framed w_start.
Definition w_signal : SignalWorkflowExecutionRequest unit :=
  mkSignal "v" (Some (mkExecution "wf-1" "run")) tt.
Definition w_signal_body : list byte := framed w_signal.
Definition w_complete : RespondWorkflowTaskCompletedRequest unit :=
  mkRespondWorkflowTask [] [COMMAND_TYPE_COMPLETE_WORKFLOW_EXECUTION] "v" "wf-1" tt.
Definition w_complete_body : list byte := framed w_complete.

Lemma w_start_arrives : arrives (GZ := CopyGzip) ApiStart w_start_body w_start "wf-1".
Proof. eexists _, false. by repeat split; vm_compute. Qed.

Lemma w_signal_arrives : arrives (GZ := CopyGzip) ApiSignal w_signal_body w_signal "wf-1".
Proof. eexists _, false. by repeat split; vm_compute. Qed.

Lemma w_complete_arrives :
  arrives (GZ := CopyGzip) ApiRespondWorkflowTask w_complete_body w_complete "wf-1".
Proof. eexists _, false. by repeat split; vm_compute. Qed.

(** The handlers at these instances. *)
Definition w_handle (a : api) : list byte → GoM (@HState MemRedis) (list byte) :=
  handle (M3 := Murmur3_ref) (GZ := CopyGzip) (X := unit) a.

Lemma same_cluster_across_calls_witness :
  let h := w_handle ApiStart w_start_body (w_world true ∅, w_request "/start" w_start_body) in
  let h' := w_handle ApiSignal w_signal_body
              ((exec_events (M3 := Murmur3_ref) [w_cordon] h.1.1).1,
               w_request "/signal" w_signal_body) in
  URLHost h'.1.2 = URLHost h.1.2 ∧ Host h'.1.2 = Host h.1.2.
Proof.
  apply (same_cluster_across_calls (M3 := Murmur3_ref) (GZ := CopyGzip)
    ApiStart ApiSignal w_start_body w_signal_body w_start w_signal "wf-1").
  - reflexivity.
  - exact w_start_arrives.
  - exact w_signal_arrives.
  - apply not_elem_of_nil.
  - vm_compute. reflexivity.
  - repeat constructor. vm_compute. tauto.
Defined.

Lemma handler_rewrites_only_namespace_witness :
  ∃ w' out req',
    w_handle ApiStart w_start_body
      (w_world true {["wf-1" := "ns1::c1:7233"]}, w_request "/start" w_start_body) =
    ((w', drop_content_length (set_target "c1:7233" (w_request "/start" w_start_body))), Ok out) ∧
    registry w' = registry (w_world true {["wf-1" := "ns1::c1:7233"]}) ∧
    arrives (GZ := CopyGzip) ApiStart out req' "wf-1" ∧
    start_Namespace req' = "ns1" ∧ mkStart "v" (start_WorkflowId req') (start_other req') = w_start.
Proof.
  eapply (handler_rewrites_only_namespace (M3 := Murmur3_ref) (GZ := CopyGzip)
    ApiStart w_start_body w_start "wf-1" (w_world true {["wf-1" := "ns1::c1:7233"]})
    (w_request "/start" w_start_body) "ns1::c1:7233" true "c1:7233" "ns1").
  - apply checked_codec_laws.
  - exact w_start_arrives.
  - vm_compute. reflexivity.
  - vm_compute. reflexivity.
  - vm_compute. reflexivity.
  - discriminate.
Defined.

Lemma unknown_namespace_panics_witness :
  is_panic (w_handle ApiStart (framed (mkStart "nobody" "wf-1" tt))
    (w_world true ∅, w_request "/start" [])).2 = true.
Proof.
  apply (unknown_namespace_panics (M3 := Murmur3_ref) (GZ := CopyGzip) ApiStart
    (framed (mkStart "nobody" "wf-1" tt)) (mkStart "nobody" "wf-1" tt) "wf-1"
    (w_world true ∅) (w_request "/start" [])).
  - reflexivity.
  - eexists _, false. by repeat split; vm_compute.
  - reflexivity.
  - vm_compute. reflexivity.
Defined.

Lemma completion_evicts_witness :
  w_cached (handleRespondWorkflowTaskCompleted (M3 := Murmur3_ref) (GZ := CopyGzip) (X := unit)
    w_complete_body (w_world true {["wf-1" := "ns1::c1:7233"]}, w_request "/complete" [])).1.1
  !! "wf-1" = None.
Proof.
  destruct (completion_evicts (M3 := Murmur3_ref) (GZ := CopyGzip) w_complete_body w_complete
    "wf-1" (w_world true {["wf-1" := "ns1::c1:7233"]}) (w_request "/complete" [])
    "ns1::c1:7233" "c1:7233" "ns1") as (_ & _ & Hc & _).
  - reflexivity.
  - exact w_complete_arrives.
  - reflexivity.
  - vm_compute. reflexivity.
  - rewrite Hc. vm_compute. reflexivity.
Defined.
