(* ===== verification/ConnPark.v ===== *)
(** Connection parking ([connpark.go]): a poll fans out to every physical
    namespace of the virtual namespace, and the first response that carries a
    task is written back.  The two pollers of the source differ only in their
    message types; they are the two instances of one definition. *)

From S2P Require Import Prelude GoStrings GoSort ConsistentHash RingSpec Murmur Namespaces.
From S2P Require Import Mappings Resolver Wire Http Messages Samples Handlers HandlerSpec.
From stdpp Require Import options.

(** The message types of a poll, with the fields the pollers use. *)
Record poll_kind (Req Resp : Type) := mkPollKind {
  pk_req : Message Req;
  pk_resp : Message Resp;
  pk_what : string;                              (* the name in the decode error *)
  pk_ns : Req → string;
  pk_set_ns : string → Req → Req;
  pk_token : Resp → list byte;
  pk_exec : Resp → option WorkflowExecution
}.
Arguments mkPollKind {_ _} _ _ _ _ _ _ _.
Arguments pk_req {_ _} _.
Arguments pk_resp {_ _} _.
Arguments pk_what {_ _} _.
Arguments pk_ns {_ _} _ _.
Arguments pk_set_ns {_ _} _ _ _.
Arguments pk_token {_ _} _ _.
Arguments pk_exec {_ _} _ _.

(** [cp.transport.RoundTrip]: the HTTP/2 transport and the clusters behind it. *)
Class Transport := RoundTrip : Request → string + Response.

(** The order in which the goroutines deliver their results. *)
Class Arrival := arrive : list string → list string.

Section connpark.
Context {M3 : Murmur3} {GZ : Gzip} {R : Type} `{Redis R} {T : Transport} {AR : Arrival}.
Context {Req Resp : Type} (pk : poll_kind Req Resp).

(** The request a poller sends to one cluster. *)
Definition poll_request (originalReq : Request) (addr : string) (newPbPayload : list byte)
    : Request :=
  mkRequest (URLPath originalReq) "http" addr addr
    (delete "Content-Length" (Header originalReq)) (-1) ""
    (BodyBytes (grpc_frame newPbPayload)).

(** [pollSingleCluster]: a panic here kills the process, since no one recovers
    it in the goroutine. *)
Definition poll_single (originalReq : Request) (reqStruct : Req) (physNs : string)
    : res (string + Response) :=
  match parsePhysicalNamespace physNs with
  | Ok (mkNamespace (Some c) n) =>
      match proto_Marshal (Message := pk_req pk) (pk_set_ns pk n reqStruct) with
      | inl e => Ok (inl e)
      | inr newPbPayload => Ok (RoundTrip (poll_request originalReq (address c) newPbPayload))
      end
  | Ok (mkNamespace None _) =>
      Panic "runtime error: invalid memory address or nil pointer dereference"
  | Err e => Err e
  | Panic p => Panic p
  | Diverge => Diverge
  end.

(** The goroutines' results, in the order they arrive. *)
Fixpoint poll_all (originalReq : Request) (reqStruct : Req) (slots : list string)
    : res (list (string * (string + Response))) :=
  match slots with
  | [] => Ok []
  | s :: slots =>
      match poll_single originalReq reqStruct s, poll_all originalReq reqStruct slots with
      | Ok r, Ok rs => Ok ((s, r) :: rs)
      | Ok _, other => other
      | Err e, _ => Err e
      | Panic p, _ => Panic p
      | Diverge, _ => Diverge
      end
  end.

(** The task of a response, if it carries one: status 200, more than a frame
    header, decodable, a non-empty task token.  Failures to decompress are
    ignored, as in the source. *)
Definition polled_task (resp : Response) (respBodyBytes : list byte) : option Resp :=
  if decide (5 < len respBodyBytes ∧ StatusCode resp = 200)%Z then
    let respPbPayload := drop 5 respBodyBytes in
    let respPbPayload :=
      if decide (nth 0 respBodyBytes x00 = x01) then
        match gzip_NewReader_err respPbPayload with
        | None => (gzip_ReadAll respPbPayload).1
        | Some _ => respPbPayload
        end
      else respPbPayload in
    match proto_Unmarshal (Message := pk_resp pk) respPbPayload with
    | inr pollResp => if decide (0 < len (pk_token pk pollResp))%Z then Some pollResp else None
    | inl _ => None
    end
  else None.

Definition with_resp_body (b : list byte) (resp : Response) : Response :=
  mkResponse (StatusCode resp) (RespHeader resp) (Trailer resp) (BodyBytes b).

(** The loop over the result channel. *)
Fixpoint collect (results : list (string * (string + Response)))
    (lastEmptyResp : option Response) (lastErr : option string) : GoM (World R) Response :=
  match results with
  | [] =>
      match lastEmptyResp with
      | Some resp => mret resp
      | None => fail ("all polling attempts failed, last error: " +:+ default "<nil>" lastErr)
      end
  | (_, inl e) :: results => collect results lastEmptyResp (Some e)
  | (physNs, inr resp) :: results =>
      match ReadAll (RespBody resp) with
      | inl e => collect results lastEmptyResp (Some e)
      | inr respBodyBytes =>
          match polled_task resp respBodyBytes with
          | Some pollResp =>
              match pk_exec pk pollResp with
              | Some e => if decide (WorkflowId e ≠ "")
                          then on_cache (Put (WorkflowId e) physNs) else mret tt
              | None => mret tt
              end;;
              mret (with_resp_body respBodyBytes resp)
          | None => collect results (Some (with_resp_body respBodyBytes resp)) lastErr
          end
      end
  end.

Definition execute_poll (originalReq : Request) (bodyBytes : list byte)
    : GoM (World R) Response :=
  p ← lift match extractPayload bodyBytes with
           | Err e => Err ("failed to extract payload: " +:+ e)
           | r => r
           end;
  reqStruct ← lift match proto_Unmarshal (Message := pk_req pk) p.1 with
                   | inl e => Err ("failed to unmarshal " +:+ pk_what pk +:+ ": " +:+ e)
                   | inr m => Ok m
                   end;
  let virtualNamespaceStr := pk_ns pk reqStruct in
  reg ← gets registry;
  match Resolve_ns reg virtualNamespaceStr with
  | None => fail ("virtual namespace not found: " +:+ virtualNamespaceStr)
  | Some virtualNs =>
      let slots := GetAllNamespaces virtualNs in
      if decide (length slots = 0) then
        fail ("no physical namespaces found for virtual namespace: " +:+ virtualNamespaceStr)
      else
        results ← lift (poll_all originalReq reqStruct (arrive slots));
        collect results None None
  end.
End connpark.

Section pollers.
Context {M3 : Murmur3} {GZ : Gzip} {R : Type} `{Redis R} {T : Transport} {AR : Arrival}.
Context {X : Type} `{!Codecs X}.

Definition poll_workflow : poll_kind (PollWorkflowTaskQueueRequest X)
                             (PollWorkflowTaskQueueResponse X) :=
  mkPollKind _ _ "PollWorkflowTaskQueueRequest" pw_Namespace
    (λ n m, mkPollWorkflow n (pw_other m)) pwr_TaskToken pwr_WorkflowExecution.

Definition poll_activity : poll_kind (PollActivityTaskQueueRequest X)
                             (PollActivityTaskQueueResponse X) :=
  mkPollKind _ _ "PollActivityTaskQueueRequest" pa_Namespace
    (λ n m, mkPollActivity n (pa_other m)) par_TaskToken par_WorkflowExecution.

Definition pollSingleCluster := poll_single poll_workflow.
Definition pollSingleActivityCluster := poll_single poll_activity.

Definition ExecutePoll : Request → list byte → GoM (World R) Response :=
  execute_poll poll_workflow.
Definition ExecutePollActivity : Request → list byte → GoM (World R) Response :=
  execute_poll poll_activity.
End pollers.

(** * What a poll does *)

Section poll_facts.
Context {M3 : Murmur3} {GZ : Gzip} {R : Type} `{Redis R} {T : Transport} {AR : Arrival}.
Context {Req Resp : Type} (pk : poll_kind Req Resp).

(** What a cluster's answer amounts to: a task with the body that carries it,
    an answer without a task, or a failure. *)
Inductive outcome :=
| Task (task : Resp) (resp : Response)
| Empty (resp : Response)
| Failure (e : string).

Definition outcome_of (r : string + Response) : outcome :=
  match r with
  | inl e => Failure e
  | inr resp =>
      match ReadAll (RespBody resp) with
      | inl e => Failure e
      | inr b =>
          match polled_task pk resp b with
          | Some task => Task task (with_resp_body b resp)
          | None => Empty (with_resp_body b resp)
          end
      end
  end.

(** The routing entry a task leaves. *)
Definition record_task (task : Resp) (physNs : string) : GoM (World R) unit :=
  match pk_exec pk task with
  | Some e => if decide (WorkflowId e ≠ "") then on_cache (Put (WorkflowId e) physNs) else mret tt
  | None => mret tt
  end.

Lemma record_task_Ok task physNs w : (record_task task physNs w).2 = Ok tt.
Proof. unfold record_task. by repeat case_match. Qed.

(** The loop, on outcomes. *)
Fixpoint settle (rs : list (string * outcome)) (lastEmptyResp : option Response)
    (lastErr : option string) : GoM (World R) Response :=
  match rs with
  | [] =>
      match lastEmptyResp with
      | Some resp => mret resp
      | None => fail ("all polling attempts failed, last error: " +:+ default "<nil>" lastErr)
      end
  | (_, Failure e) :: rs => settle rs lastEmptyResp (Some e)
  | (_, Empty resp) :: rs => settle rs (Some resp) lastErr
  | (physNs, Task task resp) :: _ => record_task task physNs;; mret resp
  end.

Lemma collect_settle rs le lerr w :
  collect pk rs le lerr w = settle (prod_map id outcome_of <$> rs) le lerr w.
Proof.
  revert le lerr. induction rs as [|[s [e|resp]] rs IH]; intros le lerr; simpl; [done|apply IH|].
  destruct (ReadAll (RespBody resp)) as [e|b]; [apply IH|].
  destruct (polled_task pk resp b); [done|apply IH].
Qed.

Definition no_task (r : string * outcome) : Prop :=
  match r.2 with Task _ _ => False | _ => True end.

(** The first task is what the loop returns. *)
Lemma settle_task pre s task resp post le lerr w :
  Forall no_task pre →
  settle (pre ++ (s, Task task resp) :: post) le lerr w =
    ((record_task task s w).1, Ok resp).
Proof.
  intros Hpre. revert le lerr. induction Hpre as [|[t o] pre Ho Hpre IH]; intros le lerr; simpl.
  - unfold mbind, go_bind. pose proof (record_task_Ok task s w) as Hr.
    destruct (record_task task s w) as [w' r]. simpl in *. by subst r.
  - destruct o; [done|apply IH..].
Qed.

(** The answers without a task, and the failures, in order of arrival. *)
Definition empties (rs : list (string * outcome)) : list Response :=
  omap (λ r, match r.2 with Empty resp => Some resp | _ => None end) rs.
Definition failures (rs : list (string * outcome)) : list string :=
  omap (λ r, match r.2 with Failure e => Some e | _ => None end) rs.

(** Without a task nothing is recorded, and the last answer is returned. *)
Lemma settle_no_task rs le lerr w :
  Forall no_task rs →
  settle rs le lerr w =
    (w, match last (option_list le ++ empties rs) with
        | Some resp => Ok resp
        | None =>
            Err ("all polling attempts failed, last error: " +:+
                 default "<nil>" (last (option_list lerr ++ failures rs)))
        end).
Proof.
  intros Hrs. revert le lerr. induction Hrs as [|[s o] rs Ho Hrs IH]; intros le lerr; simpl.
  - rewrite !app_nil_r. by destruct le, lerr.
  - destruct o as [task resp|resp|e]; [done|..]; rewrite IH; simpl.
    + by destruct le; simpl; rewrite ?last_cons_cons.
    + by destruct lerr; simpl; rewrite ?last_cons_cons.
Qed.

(** Where the tasks are, the first of them is found. *)
Lemma first_task (rs : list (string * outcome)) :
  (∃ pre s task resp post, rs = pre ++ (s, Task task resp) :: post ∧
     Forall no_task pre) ∨
  Forall no_task rs.
Proof.
  induction rs as [|[s o] rs [(pre & t & task & resp & post & -> & Hpre)|Hrs]].
  - by right.
  - destruct o as [task' resp'| |].
    + left. by exists [], s, task', resp', (pre ++ (t, Task task resp) :: post).
    + left. exists ((s, Empty resp0) :: pre), t, task, resp, post. by split; [|constructor].
    + left. exists ((s, Failure e) :: pre), t, task, resp, post. by split; [|constructor].
  - destruct o as [task' resp'| |]; [|by right; constructor..].
    left. by exists [], s, task', resp', rs.
Qed.

(** The answer of the cluster behind a physical namespace, for those that parse:
    for the others there is none, as their poller panics. *)
Definition answer (originalReq : Request) (m : Req) (physNs : string) : string + Response :=
  match poll_single pk originalReq m physNs with Ok r => r | _ => inl "" end.

Lemma poll_single_delim originalReq m s :
  Contains s delim = true → poll_single pk originalReq m s = Ok (answer originalReq m s).
Proof.
  intros (addr & n & Hp)%parse_delim. unfold answer, poll_single. rewrite Hp.
  by destruct (proto_Marshal _).
Qed.

Lemma poll_all_delim originalReq m slots :
  Forall (λ s, Contains s delim = true) slots →
  poll_all pk originalReq m slots = Ok ((λ s, (s, answer originalReq m s)) <$> slots).
Proof.
  induction 1 as [|s slots Hs Hslots IH]; simpl; [done|]. by rewrite poll_single_delim, IH.
Qed.

(** A poll as it arrives, and the virtual namespace it names. *)
Definition poll_arrives (bodyBytes : list byte) (m : Req) (w : World R)
    (v : VirtualNamespace) : Prop :=
  (∃ pb c, extractPayload bodyBytes = Ok (pb, c) ∧
           proto_Unmarshal (Message := pk_req pk) pb = inr m) ∧
  Resolve_ns (registry w) (pk_ns pk m) = Some v ∧
  Forall (λ s, Contains s delim = true) (GetAllNamespaces v) ∧
  arrive (GetAllNamespaces v) ≡ₚ GetAllNamespaces v.

Lemma execute_poll_settles originalReq bodyBytes m w v :
  poll_arrives bodyBytes m w v → GetAllNamespaces v ≠ [] →
  execute_poll pk originalReq bodyBytes w =
    settle ((λ s, (s, outcome_of (answer originalReq m s))) <$> arrive (GetAllNamespaces v))
      None None w.
Proof.
  intros ((pb & c & Hex & Hun) & Hv & Hdelim & Harr) Hne.
  unfold execute_poll. rewrite Hex. go_simpl. cbn [fst snd]. rewrite Hun. cbn [fst snd].
  rewrite Hv. rewrite decide_False by (by destruct (GetAllNamespaces v)).
  rewrite poll_all_delim by (by rewrite Harr). rewrite collect_settle, <-list_fmap_compose. done.
Qed.
End poll_facts.

(** * Properties of the pollers *)

Section poll_theorems.
Context {M3 : Murmur3} {GZ : Gzip} {R : Type} `{Redis R} {T : Transport} {AR : Arrival}.
Context {Req Resp : Type} (pk : poll_kind Req Resp).

Lemma execute_poll_task originalReq bodyBytes m (w : World R) v :
  poll_arrives pk bodyBytes m w v →
  (∃ s, s ∈ GetAllNamespaces v ∧ ¬ no_task (s, outcome_of pk (answer pk originalReq m s))) →
  ∃ s task resp,
    s ∈ GetAllNamespaces v ∧
    outcome_of pk (answer pk originalReq m s) = Task task resp ∧
    execute_poll pk originalReq bodyBytes w = ((record_task pk task s w).1, Ok resp).
Proof.
  intros Hp (s & Hs & Ht).
  assert (GetAllNamespaces v ≠ []) as Hne by (by intros E; rewrite E in Hs; set_solver).
  rewrite (execute_poll_settles pk originalReq bodyBytes m w v Hp Hne).
  destruct Hp as (_ & _ & _ & Harr).
  destruct (first_task ((λ s, (s, outcome_of pk (answer pk originalReq m s)))
                          <$> arrive (GetAllNamespaces v)))
    as [(pre & t & task & resp & post & E & Hpre)|Hall].
  - rewrite E, settle_task by done. exists t, task, resp.
    assert ((t, Task task resp) ∈ (λ s, (s, outcome_of pk (answer pk originalReq m s)))
              <$> arrive (GetAllNamespaces v)) as Hin by (rewrite E; set_solver).
    apply list_elem_of_fmap in Hin as (t' & [= -> ->] & Hin). rewrite Harr in Hin. done.
  - destruct Ht. rewrite Forall_fmap, Forall_forall in Hall. apply (Hall s). by rewrite Harr.
Qed.

(** C4: a poll returns a task when there is one.  Whatever the order in which
    the clusters answer, if one of the physical namespaces of the virtual
    namespace (cordoned ones included) answers with a task, the poll returns
    an answer that carries a task, with its body restored, and records exactly
    that task's workflow at the namespace that handed it out. *)
Theorem poll_delivers_task originalReq bodyBytes m (w : World R) v :
  poll_arrives pk bodyBytes m w v →
  (∃ s task resp, s ∈ GetAllNamespaces v ∧
     outcome_of pk (answer pk originalReq m s) = Task task resp) →
  ∃ s task resp,
    s ∈ GetAllNamespaces v ∧
    outcome_of pk (answer pk originalReq m s) = Task task resp ∧
    execute_poll pk originalReq bodyBytes w = ((record_task pk task s w).1, Ok resp).
Proof.
  intros Hp (s & task & resp & Hs & Ho). apply execute_poll_task; [done|].
  exists s. split; [done|]. by rewrite Ho; intros [].
Qed.

(** A poll without a task.  When no cluster has a task the poll changes
    nothing: it returns an answer of one of the clusters if any cluster
    answered, and an error if all failed. *)
Theorem poll_without_task originalReq bodyBytes m (w : World R) v :
  poll_arrives pk bodyBytes m w v → GetAllNamespaces v ≠ [] →
  (∀ s, s ∈ GetAllNamespaces v → no_task (s, outcome_of pk (answer pk originalReq m s))) →
  let h := execute_poll pk originalReq bodyBytes w in
  h.1 = w ∧
  ((∃ s resp, s ∈ GetAllNamespaces v ∧
      outcome_of pk (answer pk originalReq m s) = Empty resp ∧ h.2 = Ok resp) ∨
   ((∀ s, s ∈ GetAllNamespaces v → ∃ e, outcome_of pk (answer pk originalReq m s) = Failure e) ∧
    ∃ e, h.2 = Err e)).
Proof.
  intros Hp Hne Hno h. unfold h.
  rewrite (execute_poll_settles pk originalReq bodyBytes m w v Hp Hne).
  destruct Hp as (_ & _ & _ & Harr).
  set (o := λ s, (s, outcome_of pk (answer pk originalReq m s))).
  rewrite settle_no_task by (apply Forall_fmap, Forall_forall; intros s; rewrite Harr; apply Hno).
  simpl. split; [done|].
  destruct (last (empties (o <$> arrive (GetAllNamespaces v)))) as [resp|] eqn:E.
  - left. apply last_Some_elem_of, list_elem_of_omap in E as ([s out] & Hin & Hout).
    apply list_elem_of_fmap in Hin as (s' & [= -> ->] & Hin). rewrite Harr in Hin.
    exists s', resp. split; [done|]. simpl in Hout. by destruct (outcome_of pk _); simplify_eq.
  - right. split; [|by eexists]. intros s Hs.
    specialize (Hno s Hs). unfold no_task in Hno. simpl in Hno.
    destruct (outcome_of pk (answer pk originalReq m s)) as [|resp|e] eqn:Eo; [done| |by eexists].
    apply last_None in E. exfalso.
    assert (resp ∈ empties (o <$> arrive (GetAllNamespaces v))) as Hin; [|by rewrite E in Hin; set_solver].
    apply list_elem_of_omap. exists (o s). split; [|by unfold o; rewrite Eo].
    apply list_elem_of_fmap. exists s. by rewrite Harr.
Qed.

(** What each cluster is asked.  For a physical namespace [n::addr] the
    poller sends to [addr] the client's request with its path and its headers
    (without a declared length), and with a body the cluster decodes to the
    same poll with only its namespace replaced by [n]; it hands back the
    transport's answer. *)
Theorem poll_request_rewritten originalReq m physNs addr n b :
  @MessageLaws Req (pk_req pk) →
  parsePhysicalNamespace physNs = Ok (mkNamespace (Some (mkCluster addr)) n) →
  proto_Marshal (Message := pk_req pk) (pk_set_ns pk n m) = inr b → b ≠ [] →
  ∃ rq out,
    poll_single pk originalReq m physNs = Ok (RoundTrip rq) ∧
    URLScheme rq = "http" ∧ URLHost rq = addr ∧ Host rq = addr ∧
    URLPath rq = URLPath originalReq ∧
    (∀ k, Header rq !! k = if decide (k = "Content-Length") then None else Header originalReq !! k) ∧
    ReadAll (Body rq) = inr out ∧ extractPayload out = Ok (b, false) ∧
    proto_Unmarshal (Message := pk_req pk) b = inr (pk_set_ns pk n m).
Proof.
  intros Hlaws Hp Hm Hb. exists (poll_request originalReq addr b), (grpc_frame b).
  unfold poll_single. rewrite Hp, Hm. repeat split; try done.
  - intros k. simpl. case_decide as Hk; [subst; apply lookup_delete_eq|by rewrite lookup_delete_ne].
  - by apply extractPayload_grpc_frame.
  - by apply (@proto_roundtrip _ _ Hlaws).
Qed.

(** Polls that cannot be served.  A poll that does not decode, that names
    an unknown virtual namespace or one without physical namespaces, returns
    an error and changes nothing. *)
Theorem poll_rejected originalReq bodyBytes (w : World R) :
  (∀ pb c m, extractPayload bodyBytes = Ok (pb, c) →
     proto_Unmarshal (Message := pk_req pk) pb = inr m →
     match Resolve_ns (registry w) (pk_ns pk m) with
     | None => True
     | Some v => GetAllNamespaces v = []
     end) →
  ∃ e, execute_poll pk originalReq bodyBytes w = (w, Err e).
Proof.
  intros Hbad. unfold execute_poll. go_simpl.
  destruct (extractPayload bodyBytes) as [[pb c]|e|p|] eqn:Ex; [|by eexists|..];
    [|exfalso; unfold extractPayload in Ex; by repeat case_match..].
  cbn [fst snd]. destruct (proto_Unmarshal pb) as [e|m] eqn:Eu; [by eexists|].
  specialize (Hbad pb c m eq_refl Eu). cbn [fst snd].
  destruct (Resolve_ns (registry w) (pk_ns pk m)) as [v|]; [|by eexists].
  rewrite Hbad. by eexists.
Qed.

(** C13: a task's reply goes back to the cluster that handed it out.  After a
    poll returned a task of a workflow, every routed request about that
    workflow (the task's completion among them) is aimed at the cluster the
    task came from, even if the ring or an older cache entry says otherwise. *)
Theorem reply_returns_to_polled_cluster {X : Type} `{!Codecs X} `{!RedisLaws R}
    originalReq bodyBytes m (w : World R) v :
  w_reachable w → poll_arrives pk bodyBytes m w v →
  (∃ s, s ∈ GetAllNamespaces v ∧ ¬ no_task (s, outcome_of pk (answer pk originalReq m s))) →
  let w' := (execute_poll pk originalReq bodyBytes w).1 in
  ∃ s task resp addr n,
    s ∈ GetAllNamespaces v ∧
    outcome_of pk (answer pk originalReq m s) = Task task resp ∧
    parsePhysicalNamespace s = Ok (mkNamespace (Some (mkCluster addr)) n) ∧
    ∀ e a body' (req' : api_msg a) r,
      pk_exec pk task = Some e → WorkflowId e ≠ "" → arrives a body' req' (WorkflowId e) →
      let h := handle (R := R) a body' (w', r) in
      URLHost h.1.2 = addr ∧ Host h.1.2 = addr.
Proof.
  intros Hon Hp Ht w'.
  destruct (execute_poll_task originalReq bodyBytes m w v Hp Ht) as (s & task & resp & Hs & Ho & E).
  destruct Hp as (_ & _ & Hdelim & _). rewrite Forall_forall in Hdelim.
  destruct (parse_delim s (Hdelim s Hs)) as (addr & n & Hparse).
  exists s, task, resp, addr, n. do 3 (split; [done|]). intros e a body' req' r He Hid Harr h.
  destruct (Put_online (WorkflowId e) s (Cache w) Hon) as [Hon' Hput].
  assert (w' = (on_cache (Put (WorkflowId e) s) w).1) as Hw'.
  { unfold w'. rewrite E. unfold record_task. by rewrite He, decide_True. }
  destruct (handle_follows a body' w' r req' (WorkflowId e) s addr n) as (H1 & H2 & _); try done.
  - by rewrite Hw'.
  - rewrite Hw'. unfold w_cached, on_cache. cbn [fst Cache]. by rewrite Hput, lookup_insert_eq.
Qed.
End poll_theorems.

(** * The properties at a concrete fan-out

    Two clusters: the first is down, the second has a task of workflow
    ["wf-9"]; the answers arrive in the reverse order of the map. *)

Definition w_task : PollWorkflowTaskQueueResponse unit :=
  mkPolledWorkflow [x0a] (Some (mkExecution "wf-9" "run")) tt.

Definition w_answer (b : list byte) : Response := mkResponse 200 ∅ ∅ (BodyBytes b).

Definition TaskTransport : Transport := λ rq,
  if decide (Host rq = "c2:7233") then inr (w_answer (framed w_task)) else inl "refused".

Definition QuietTransport : Transport := λ rq,
  if decide (Host rq = "c2:7233") then inr (w_answer []) else inl "refused".

Definition ReverseArrival : Arrival := reverse.

Definition w_poll : PollWorkflowTaskQueueRequest unit := mkPollWorkflow "v" tt.
Definition w_poll_body : list byte := framed w_poll.
Definition w_poll_request : Request := w_request "/poll" w_poll_body.

Lemma w_poll_arrives m :
  poll_arrives (GZ := CopyGzip) (AR := ReverseArrival) (poll_workflow (X := unit))
    w_poll_body w_poll (w_world true m) w_vns.
Proof.
  split; [|split; [|split]].
  - eexists _, false. by split; vm_compute.
  - by vm_compute.
  - apply (bool_decide_unpack _). by vm_compute.
  - apply reverse_Permutation.
Qed.

Lemma w_vns_namespaces : GetAllNamespaces w_vns = ["ns1::c1:7233"; "ns2::c2:7233"].
Proof. by vm_compute. Qed.

Lemma w_has_task :
  "ns2::c2:7233" ∈ GetAllNamespaces w_vns ∧
  outcome_of (GZ := CopyGzip) (poll_workflow (X := unit))
    (answer (T := TaskTransport) poll_workflow w_poll_request w_poll "ns2::c2:7233") =
    Task w_task (w_answer (framed w_task)).
Proof. split; [apply (bool_decide_unpack _); by vm_compute|by vm_compute]. Qed.

Lemma poll_delivers_task_witness :
  ∃ s task resp,
    s ∈ GetAllNamespaces w_vns ∧
    outcome_of (GZ := CopyGzip) poll_workflow
      (answer (T := TaskTransport) poll_workflow w_poll_request w_poll s) = Task task resp ∧
    ExecutePoll (GZ := CopyGzip) (T := TaskTransport) (AR := ReverseArrival) (X := unit)
      w_poll_request w_poll_body (w_world true ∅) =
      ((record_task poll_workflow task s (w_world true ∅)).1, Ok resp).
Proof.
  apply (poll_delivers_task (GZ := CopyGzip) (T := TaskTransport) (AR := ReverseArrival)
    poll_workflow w_poll_request w_poll_body w_poll (w_world true ∅) w_vns).
  - exact (w_poll_arrives ∅).
  - exists "ns2::c2:7233", w_task, (w_answer (framed w_task)). exact w_has_task.
Defined.

Lemma poll_without_task_witness :
  (ExecutePoll (GZ := CopyGzip) (T := QuietTransport) (AR := ReverseArrival) (X := unit)
    w_poll_request w_poll_body (w_world true ∅)).1 = w_world true ∅.
Proof.
  apply (poll_without_task (GZ := CopyGzip) (T := QuietTransport) (AR := ReverseArrival)
    poll_workflow w_poll_request w_poll_body w_poll (w_world true ∅) w_vns).
  - exact (w_poll_arrives ∅).
  - vm_compute. discriminate.
  - intros s Hs. rewrite w_vns_namespaces in Hs.
    apply elem_of_cons in Hs as [->|[->|[]%elem_of_nil]%elem_of_cons]; vm_compute; exact I.
Defined.

Lemma poll_request_rewritten_witness :
  ∃ rq out b,
    pollSingleCluster (T := QuietTransport) (X := unit) w_poll_request w_poll "ns2::c2:7233" =
      Ok (RoundTrip (Transport := QuietTransport) rq) ∧
    Host rq = "c2:7233" ∧ ReadAll (Body rq) = inr out ∧
    extractPayload (GZ := CopyGzip) out = Ok (b, false) ∧
    proto_Unmarshal b = inr (mkPollWorkflow (X := unit) "ns2" tt).
Proof.
  destruct (poll_request_rewritten (GZ := CopyGzip) (T := QuietTransport)
    (poll_workflow (X := unit)) w_poll_request w_poll "ns2::c2:7233" "c2:7233" "ns2"
    (enc_fields [bytes_of "ns2"])) as (rq & out & E1 & _ & _ & E2 & _ & _ & E3 & E4 & E5).
  - apply checked_codec_laws.
  - vm_compute. reflexivity.
  - vm_compute. reflexivity.
  - discriminate.
  - exists rq, out, (enc_fields [bytes_of "ns2"]). exact (conj E1 (conj E2 (conj E3 (conj E4 E5)))).
Defined.

Lemma poll_rejected_witness :
  ∃ e, ExecutePoll (GZ := CopyGzip) (T := TaskTransport) (AR := ReverseArrival) (X := unit)
         w_poll_request (framed (mkPollWorkflow (X := unit) "nobody" tt)) (w_world true ∅) =
       (w_world true ∅, Err e).
Proof.
  apply (poll_rejected (GZ := CopyGzip) (T := TaskTransport) (AR := ReverseArrival)
    (poll_workflow (X := unit))).
  intros pb c m. vm_compute. intros [= <- <-] [= <-]. exact I.
Defined.

(** The workflow was cached elsewhere before. *)
Lemma reply_returns_to_polled_cluster_witness :
  ∃ s task resp addr n,
    s ∈ GetAllNamespaces w_vns ∧
    outcome_of (GZ := CopyGzip) (poll_workflow (X := unit))
      (answer (T := TaskTransport) poll_workflow w_poll_request w_poll s) = Task task resp ∧
    parsePhysicalNamespace s = Ok (mkNamespace (Some (mkCluster addr)) n) ∧
    ∀ e a body' (req' : api_msg (X := unit) a) r,
      pwr_WorkflowExecution task = Some e → WorkflowId e ≠ "" →
      arrives (GZ := CopyGzip) a body' req' (WorkflowId e) →
      let w' := (ExecutePoll (GZ := CopyGzip) (T := TaskTransport) (AR := ReverseArrival)
                   (X := unit) w_poll_request w_poll_body
                   (w_world true {["wf-9" := "ns1::c1:7233"]})).1 in
      let h := handle (M3 := Murmur3_ref) (GZ := CopyGzip) (R := MemRedis) a body' (w', r) in
      URLHost h.1.2 = addr ∧ Host h.1.2 = addr.
Proof.
  apply (reply_returns_to_polled_cluster (M3 := Murmur3_ref) (GZ := CopyGzip)
    (T := TaskTransport) (AR := ReverseArrival) poll_workflow w_poll_request w_poll_body w_poll
    (w_world true {["wf-9" := "ns1::c1:7233"]}) w_vns).
  - reflexivity.
  - exact (w_poll_arrives _).
  - exists "ns2::c2:7233". destruct w_has_task as [Hin Ho]. split; [exact Hin|].
    unfold no_task. cbn [snd]. rewrite Ho. tauto.
Defined.
