(* ===== verification/Proxy.v ===== *)
(** The proxy's HTTP handler ([NewStickyProxy] of [proxy.go]): the choice of a
    handler by the request's path, the poll endpoints, and the reverse proxy's
    director. *)

From S2P Require Import Prelude GoStrings GoSort ConsistentHash RingSpec Murmur Namespaces.
From S2P Require Import Mappings Resolver Wire TaskToken Http Messages Samples Handlers.
From S2P Require Import HandlerSpec ConnPark.
From stdpp Require Import options.

(** * Dispatch *)

Inductive route := RApi (a : api) | RPollWorkflow | RPollActivity | RDefault.

(** The chain of [strings.Contains] tests, in the order of the source. *)
Definition dispatch (path : string) : route :=
  if Contains path "StartWorkflowExecution" then RApi ApiStart
  else if Contains path "PollWorkflowTaskQueue" then RPollWorkflow
  else if Contains path "PollActivityTaskQueue" then RPollActivity
  else if Contains path "RespondWorkflowTaskCompleted" then RApi ApiRespondWorkflowTask
  else if Contains path "RespondActivityTaskCompleted" then RApi ApiRespondActivityTask
  else if Contains path "CancelWorkflowExecution" then RApi ApiCancel
  else if Contains path "GetWorkflowExecutionHistory" then RApi ApiHistory
  else if Contains path "SignalWorkflowExecution" then RApi ApiSignal
  else if Contains path "QueryWorkflow" then RApi ApiQuery
  else if Contains path "RespondQueryTaskCompleted" then RApi ApiRespondQuery
  else RDefault.

(** What the handler did with a request: handed it to the transport of the
    reverse proxy, or answered it. *)
Inductive served :=
| Forwarded (r : Request)
| Answered (w : ResponseWriter).

Definition set_scheme (s : string) (r : Request) : Request :=
  mkRequest (URLPath r) s (URLHost r) (Host r) (Header r) (ContentLength r) (RequestURI r) (Body r).

(** The director: requests no handler aimed go to the default target. *)
Definition Director (defaultHost : string) (req : Request) : Request :=
  let req := set_scheme "http" req in
  if decide (URLHost req = "") then set_target defaultHost req else req.

Section proxy.
Context {M3 : Murmur3} {GZ : Gzip} {R : Type} `{Redis R} {T : Transport} {AR : Arrival}.
Context {X : Type} `{!Codecs X}.

(** The branch of a routed call.  An error of the handler is logged and the
    body is forwarded as it came; a body that cannot be read is forwarded as
    what is left of it. *)
Definition serve_api (h : list byte → GoM (@HState R) (list byte)) : GoM (@HState R) unit :=
  r ← gets snd;
  match ReadAll (Body r) with
  | inl _ => on_request (λ r, set_body (drained (Body r)) r)
  | inr bodyBytes =>
      newBody ← try (h bodyBytes);
      on_request (set_body (BodyBytes match newBody with
                                      | inr newBodyBytes => newBodyBytes
                                      | inl _ => bodyBytes
                                      end))
  end.

(** [servePollWorkflowTaskQueue] and [servePollActivityTaskQueue], over the
    poller they call. *)
Definition serve_poll (execute : Request → list byte → GoM (World R) Response)
    (w : ResponseWriter) : GoM (@HState R) ResponseWriter :=
  r ← gets snd;
  match ReadAll (Body r) with
  | inl _ => mret (http_Error "Error reading request body" 500 w)
  | inr bodyBytes =>
      on_request (λ r, set_body (drained (Body r)) r);;
      resp ← try (on_world (execute r bodyBytes));
      mret match resp with
           | inl e => http_Error e 500 w
           | inr resp => writeProxyResponse resp w
           end
  end.

Definition servePollWorkflowTaskQueue : ResponseWriter → GoM (@HState R) ResponseWriter :=
  serve_poll (ExecutePoll (X := X)).
Definition servePollActivityTaskQueue : ResponseWriter → GoM (@HState R) ResponseWriter :=
  serve_poll (ExecutePollActivity (X := X)).

(** The handler.  [proxy.ServeHTTP] hands the director's request to the
    transport. *)
Definition serveHTTP (defaultHost : string) (w : ResponseWriter) : GoM (@HState R) served :=
  r ← gets snd;
  match dispatch (URLPath r) with
  | RApi a =>
      serve_api (handle a);;
      r ← gets snd;
      mret (Forwarded (Director defaultHost r))
  | RPollWorkflow => w ← servePollWorkflowTaskQueue w; mret (Answered w)
  | RPollActivity => w ← servePollActivityTaskQueue w; mret (Answered w)
  | RDefault => mret (Forwarded (Director defaultHost r))
  end.

(** [NewStickyProxy]: the proxy's shared state and its default target.
    [url_Parse] is the host of a URL, or the parse error. *)
Definition NewStickyProxy (dial : string → R) (url_Parse : string → string + string)
    (redisAddr defaultTargetURLStr : string) (registry : VirtualNamespaceRegistry)
    : string + (World R * string) :=
  match url_Parse defaultTargetURLStr with
  | inl e => inl ("failed to parse default target URL: " +:+ e)
  | inr host => inr (mkWorld (NewMappings dial redisAddr) registry ∅, host)
  end.

(** * Facts *)

Lemma Director_target d r : URLHost r ≠ "" → URLHost (Director d r) = URLHost r ∧ Host (Director d r) = Host r.
Proof. intros Hr. unfold Director. by rewrite decide_False. Qed.

Lemma serve_api_spec h w r b :
  Body r = BodyBytes b →
  serve_api h (w, r) =
    match h b (w, r) with
    | ((w', r'), Ok out) => ((w', set_body (BodyBytes out) r'), Ok tt)
    | ((w', r'), Err _) => ((w', set_body (BodyBytes b) r'), Ok tt)
    | (s', Panic p) => (s', Panic p)
    | (s', Diverge) => (s', Diverge)
    end.
Proof.
  intros Hb. unfold serve_api, on_request. go_simpl. cbn [snd]. rewrite Hb. simpl.
  by destruct (h b (w, r)) as [[w' r'] [out|e|p|]].
Qed.

Lemma serveHTTP_api a d rw w r b :
  dispatch (URLPath r) = RApi a → Body r = BodyBytes b →
  serveHTTP d rw (w, r) =
    match handle a b (w, r) with
    | ((w', r'), Ok out) =>
        let r' := set_body (BodyBytes out) r' in ((w', r'), Ok (Forwarded (Director d r')))
    | ((w', r'), Err _) =>
        let r' := set_body (BodyBytes b) r' in ((w', r'), Ok (Forwarded (Director d r')))
    | (s', Panic p) => (s', Panic p)
    | (s', Diverge) => (s', Diverge)
    end.
Proof.
  intros Hd Hb. unfold serveHTTP. unfold mbind at 1, go_bind at 1, gets at 1. cbn [snd].
  rewrite Hd. unfold mbind at 1, go_bind at 1. rewrite (serve_api_spec _ _ _ _ Hb).
  by destruct (handle a b (w, r)) as [[w' r'] [out|e|p|]].
Qed.
End proxy.

(** * Properties of the proxy *)

Section proxy_theorems.
Context {M3 : Murmur3} {GZ : Gzip} {R : Type} `{Redis R} `{!RedisLaws R}
  {T : Transport} {AR : Arrival} {X : Type} `{!Codecs X}.

(** End-to-end stickiness.  Two HTTP requests about the same workflow, on
    the paths of any two routed calls: if the first was forwarded and did not
    complete the workflow, the second is forwarded too, to the same cluster,
    whatever other requests and admin actions (short of a completion or poll
    of that workflow) the proxy served in between. *)
Theorem proxy_sticky a a' b b' (req : api_msg a) (req' : api_msg a') id (w : World R)
    d rw rw' r r' es s1 f :
  w_reachable w →
  dispatch (URLPath r) = RApi a → Body r = BodyBytes b → arrives a b req id →
  dispatch (URLPath r') = RApi a' → Body r' = BodyBytes b' → arrives a' b' req' id →
  COMMAND_TYPE_COMPLETE_WORKFLOW_EXECUTION ∉ rt_commands (api_routed a) req →
  Forall (λ e, ¬ rewrites id e) es →
  serveHTTP d rw (w, r) = (s1, Ok (Forwarded f)) →
  ∃ s2 f', serveHTTP d rw' ((exec_events es s1.1).1, r') = (s2, Ok (Forwarded f')) ∧
           URLHost f' = URLHost f ∧ Host f' = Host f.
Proof.
  intros Hon Hd Hb Harr Hd' Hb' Harr' Hc Hes Hs.
  rewrite (serveHTTP_api a d rw w r b Hd Hb) in Hs.
  assert (is_panic (handle a b (w, r)).2 = false) as Hnp
    by (by destruct (handle a b (w, r)) as [[] []]).
  destruct (handle_records a b w r req id Hon Harr Hc Hnp)
    as (Hon1 & phys & addr & n & Hk & Hne & Hp & H1 & H2).
  assert (s1.1 = (handle a b (w, r)).1.1 ∧ URLHost f = URLHost (Director d (set_target addr r)) ∧
          Host f = Host (Director d (set_target addr r))) as (Hs1 & Hf1 & Hf2).
  { destruct (handle a b (w, r)) as [[w1 r1] [out|e|p|]]; simplify_eq/=;
      unfold Director; simpl; by repeat case_decide. }
  rewrite Hs1. destruct (exec_events_refines es _ Hon1) as (Hon2 & Habs & _).
  apply (f_equal snd) in Habs. cbn [w_abs snd] in Habs.
  pose proof (abs_events_keep es (w_abs (handle a b (w, r)).1.1) id phys Hk Hne Hes) as Hk2.
  rewrite (serveHTTP_api a' d rw' _ r' b' Hd' Hb').
  destruct (handle_follows a' b' (exec_events es (handle a b (w, r)).1.1).1 r' req' id phys addr n)
    as (G1 & G2 & _ & G3); [done|done|by rewrite Habs|done|].
  destruct (handle a' b' _) as [[w2 r2] [out|e|p|]]; simplify_eq/=;
    eexists _, _; (split; [reflexivity|]); rewrite Hf1, Hf2; unfold Director; simpl;
    rewrite G1; case_decide; simpl; by rewrite ?G1, ?G2.
Qed.

(** A request the handler cannot decode is forwarded as it came.  Its body
    is untouched, it goes to the default target, and the cache and the
    registry are unchanged. *)
Theorem undecodable_forwarded_to_default a b (w : World R) d rw r :
  dispatch (URLPath r) = RApi a → Body r = BodyBytes b → URLHost r = "" →
  (∀ pb c, extractPayload b = Ok (pb, c) →
     ∃ e, proto_Unmarshal (Message := rt_codec (api_routed a)) pb = inl e) →
  serveHTTP d rw (w, r) = ((w, r), Ok (Forwarded (set_scheme "http" (set_target d r)))).
Proof.
  intros Hd Hb Hh Hbad. rewrite (serveHTTP_api a d rw w r b Hd Hb).
  destruct (handle_undecodable a b (w, r) Hbad) as [e He]. rewrite He.
  assert (set_body (BodyBytes b) r = r) as -> by (destruct r; simpl in *; by subst).
  unfold Director. simpl. by rewrite decide_True.
Qed.

(** Calls the proxy does not know pass through.  A request on any other
    path is forwarded unread, to the default target when nothing aimed it,
    with the cache and the registry untouched. *)
Theorem unrouted_passes_through (w : World R) d rw r :
  dispatch (URLPath r) = RDefault →
  ∃ f, serveHTTP d rw (w, r) = ((w, r), Ok (Forwarded f)) ∧
       URLHost f = (if decide (URLHost r = "") then d else URLHost r) ∧
       Body f = Body r ∧ Header f = Header r ∧ URLPath f = URLPath r ∧ ContentLength f = ContentLength r.
Proof.
  intros Hd. unfold serveHTTP. go_simpl. cbn [snd]. rewrite Hd.
  eexists. split; [reflexivity|]. unfold Director. simpl. by case_decide.
Qed.
End proxy_theorems.

(** * The dispatch table *)

Definition rpc (method : string) : string :=
  "/temporal.api.workflowservice.v1.WorkflowService/" +:+ method.

(** The dispatch table.  The paths of the ten calls the proxy handles reach
    their own handlers; [SignalWithStartWorkflowExecution] is decoded as a
    start, [RespondActivityTaskCompletedById] as a completion by token and
    [GetWorkflowExecutionHistoryReverse] as a history request; updates,
    terminations and descriptions of a workflow and heartbeats of an activity
    are not routed at all. *)
Theorem dispatch_table :
  (dispatch ∘ rpc) <$>
    ["StartWorkflowExecution"; "PollWorkflowTaskQueue"; "PollActivityTaskQueue";
     "RespondWorkflowTaskCompleted"; "RespondActivityTaskCompleted";
     "RequestCancelWorkflowExecution"; "GetWorkflowExecutionHistory";
     "SignalWorkflowExecution"; "QueryWorkflow"; "RespondQueryTaskCompleted"] =
  [RApi ApiStart; RPollWorkflow; RPollActivity; RApi ApiRespondWorkflowTask;
   RApi ApiRespondActivityTask; RApi ApiCancel; RApi ApiHistory; RApi ApiSignal;
   RApi ApiQuery; RApi ApiRespondQuery] ∧
  (dispatch ∘ rpc) <$>
    ["SignalWithStartWorkflowExecution"; "RespondActivityTaskCompletedById";
     "GetWorkflowExecutionHistoryReverse"] =
  [RApi ApiStart; RApi ApiRespondActivityTask; RApi ApiHistory] ∧
  (dispatch ∘ rpc) <$>
    ["UpdateWorkflowExecution"; "TerminateWorkflowExecution"; "DescribeWorkflowExecution";
     "RecordActivityTaskHeartbeat"; "RespondActivityTaskFailed"; "RespondWorkflowTaskFailed"] =
  replicate 6 RDefault.
Proof. split; [|split]; vm_compute; reflexivity. Qed.

(** * The properties at concrete requests *)

Definition w_start_rq : Request := w_request (rpc "StartWorkflowExecution") w_start_body.
Definition w_signal_rq : Request := w_request (rpc "SignalWorkflowExecution") w_signal_body.
Definition w_serve : @HState MemRedis → @HState MemRedis * res served :=
  serveHTTP (M3 := Murmur3_ref) (GZ := CopyGzip) (T := TaskTransport) (AR := ReverseArrival)
    (X := unit) "default:7233" new_writer.

Lemma proxy_sticky_witness :
  ∃ s1 f s2 f',
    w_serve (w_world true ∅, w_start_rq) = (s1, Ok (Forwarded f)) ∧
    w_serve ((exec_events (M3 := Murmur3_ref) [w_cordon] s1.1).1, w_signal_rq) =
      (s2, Ok (Forwarded f')) ∧
    URLHost f' = URLHost f ∧ Host f' = Host f.
Proof.
  destruct (w_serve (w_world true ∅, w_start_rq)) as [s1 o] eqn:E.
  assert (∃ f, o = Ok (Forwarded f)) as [f ->].
  { apply (f_equal snd) in E. vm_compute in E. eexists. symmetry. exact E. }
  exists s1, f.
  destruct (proxy_sticky (M3 := Murmur3_ref) (GZ := CopyGzip) (T := TaskTransport)
    (AR := ReverseArrival) ApiStart ApiSignal w_start_body w_signal_body w_start w_signal "wf-1"
    (w_world true ∅) "default:7233" new_writer new_writer w_start_rq w_signal_rq [w_cordon] s1 f)
    as (s2 & f' & E2 & Hf).
  - reflexivity.
  - vm_compute. reflexivity.
  - reflexivity.
  - exact w_start_arrives.
  - vm_compute. reflexivity.
  - reflexivity.
  - exact w_signal_arrives.
  - apply not_elem_of_nil.
  - repeat constructor. vm_compute. tauto.
  - exact E.
  - exists s2, f'. split; [reflexivity|]. split; [exact E2|exact Hf].
Defined.

Lemma undecodable_forwarded_to_default_witness :
  (w_serve (w_world true ∅, w_request (rpc "QueryWorkflow") (grpc_frame [x09]))).1.1 =
    w_world true ∅.
Proof.
  unfold w_serve.
  rewrite (undecodable_forwarded_to_default (M3 := Murmur3_ref) (GZ := CopyGzip)
    (T := TaskTransport) (AR := ReverseArrival) ApiQuery (grpc_frame [x09])).
  - reflexivity.
  - vm_compute. reflexivity.
  - reflexivity.
  - reflexivity.
  - intros pb c. vm_compute. intros [= <- <-]. eexists. reflexivity.
Defined.

Lemma unrouted_passes_through_witness :
  ∃ f, w_serve (w_world true ∅, w_request (rpc "ListNamespaces") [x01]) =
         ((w_world true ∅, w_request (rpc "ListNamespaces") [x01]), Ok (Forwarded f)) ∧
       URLHost f = "default:7233" ∧ Body f = BodyBytes [x01].
Proof.
  destruct (unrouted_passes_through (M3 := Murmur3_ref) (GZ := CopyGzip) (T := TaskTransport)
    (AR := ReverseArrival) (X := unit) (w_world true ∅) "default:7233" new_writer
    (w_request (rpc "ListNamespaces") [x01])) as (f & E & Hh & Hb & _).
  - vm_compute. reflexivity.
  - exists f. exact (conj E (conj Hh Hb)).
Defined.
