(* ===== verification/FanOut.v ===== *)
(** The goroutines of a poll ([ExecutePoll] and [ExecutePollActivity] of
    [connpark.go]): one poller per physical namespace, a buffered channel, the
    wait group, the goroutine that closes the channel, and the collecting loop,
    as a step relation.  [ConnPark.collect] reads the results in a fixed order;
    here every interleaving is shown to be one of those orders.  The client of
    the poll stays connected; when it goes, its context cancels every round trip. *)

From S2P Require Import Prelude GoStrings ConsistentHash Murmur Namespaces Mappings Resolver.
From S2P Require Import Wire Http Messages Samples ConnPark.
From stdpp Require Import options.

(** What becomes of a poller's round trip: it returns, it does not as long as it
    is not cancelled, or the poller panics before it, which kills the process, as
    nobody recovers in a goroutine. *)
Inductive reply (A : Type) := Answers (a : A) | Hangs | Dies.
Arguments Answers {_} _.
Arguments Hangs {_}.
Arguments Dies {_}.

(** A poller: waiting for its cluster, about to send its result, about to run
    the deferred [wg.Done()], finished. *)
Inductive poller (A : Type) :=
| Polling (s : string)
| Sending (s : string) (a : A)
| Sent (s : string)
| Finished (s : string).
Arguments Polling {_} _.
Arguments Sending {_} _ _.
Arguments Sent {_} _.
Arguments Finished {_} _.

(** The calling goroutine: still starting pollers, ranging over the channel
    with the results received so far, or returned. *)
Inductive caller (A : Type) :=
| Spawning (todo : list string)
| Ranging (received : list (string * A))
| Returned (received : list (string * A)).
Arguments Spawning {_} _.
Arguments Ranging {_} _.
Arguments Returned {_} _.

Inductive closer := NotStarted | Waiting | Closed.

Record fan (A : Type) := mkFan {
  f_caller : caller A;
  f_pollers : list (poller A);
  f_chan : list (string * A);
  f_wg : nat;
  f_closer : closer
}.
Arguments mkFan {_} _ _ _ _ _.
Arguments f_caller {_} _.
Arguments f_pollers {_} _.
Arguments f_chan {_} _.
Arguments f_wg {_} _.
Arguments f_closer {_} _.

Section fan_out.
Context {A : Type} (ans : string → reply A) (canceled : A) (is_task : A → bool) (slots : list string).

(** The channel's buffer: [make(chan pollResult, len(slots))]. *)
Definition chan_cap : nat := length slots.

Definition fan_start : fan A := mkFan (Spawning slots) [] [] 0 NotStarted.

Inductive fan_step : fan A → fan A → Prop :=
| fan_spawn s todo ps ch wg cl :
    (* wg.Add(1); go func(...) *)
    fan_step (mkFan (Spawning (s :: todo)) ps ch wg cl)
             (mkFan (Spawning todo) (ps ++ [Polling s]) ch (S wg) cl)
| fan_start_closer ps ch wg cl :
    fan_step (mkFan (Spawning []) ps ch wg cl) (mkFan (Ranging []) ps ch wg Waiting)
| fan_answer m ps ch wg cl i s a :
    (* the round trip returns *)
    ps !! i = Some (Polling s) → ans s = Answers a →
    fan_step (mkFan m ps ch wg cl) (mkFan m (<[i := Sending s a]> ps) ch wg cl)
| fan_cancel acc ps ch wg cl i s :
    (* ... or is cancelled, once the caller returned *)
    ps !! i = Some (Polling s) → ans s ≠ Dies →
    fan_step (mkFan (Returned acc) ps ch wg cl)
             (mkFan (Returned acc) (<[i := Sending s canceled]> ps) ch wg cl)
| fan_send m ps ch wg cl i s a :
    (* a send blocks while the buffer is full *)
    ps !! i = Some (Sending s a) → length ch < chan_cap → cl ≠ Closed →
    fan_step (mkFan m ps ch wg cl) (mkFan m (<[i := Sent s]> ps) (ch ++ [(s, a)]) wg cl)
| fan_done m ps ch wg cl i s :
    ps !! i = Some (Sent s) →
    fan_step (mkFan m ps ch (S wg) cl) (mkFan m (<[i := Finished s]> ps) ch wg cl)
| fan_close m ps ch :
    (* wg.Wait() returns at zero; close(resultCh) *)
    fan_step (mkFan m ps ch 0 Waiting) (mkFan m ps ch 0 Closed)
| fan_receive acc ps s a ch wg cl :
    is_task a = false →
    fan_step (mkFan (Ranging acc) ps ((s, a) :: ch) wg cl)
             (mkFan (Ranging (acc ++ [(s, a)])) ps ch wg cl)
| fan_receive_task acc ps s a ch wg cl :
    is_task a = true →
    fan_step (mkFan (Ranging acc) ps ((s, a) :: ch) wg cl)
             (mkFan (Returned (acc ++ [(s, a)])) ps ch wg cl)
| fan_range_ends acc ps wg :
    fan_step (mkFan (Ranging acc) ps [] wg Closed) (mkFan (Returned acc) ps [] wg Closed).



(** A send on a closed channel, or a [Done] below zero, would panic. *)
Definition fan_panics (c : fan A) : Prop :=
  (f_closer c = Closed ∧ ∃ i s a, f_pollers c !! i = Some (Sending s a)) ∨
  (f_wg c = 0 ∧ ∃ i s, f_pollers c !! i = Some (Sent s)).

(** A send that has to wait for the caller, who may have stopped receiving. *)
Definition fan_blocks (c : fan A) : Prop :=
  chan_cap ≤ length (f_chan c) ∧ ∃ i s a, f_pollers c !! i = Some (Sending s a).

Definition is_finished (p : poller A) : bool :=
  match p with Finished _ => true | _ => false end.
Definition has_sent (p : poller A) : bool :=
  match p with Sent _ | Finished _ => true | _ => false end.
Definition poller_name (p : poller A) : string :=
  match p with Polling s | Sending s _ | Sent s | Finished s => s end.

(** Everything is over: the caller returned, no goroutine is left. *)
Definition fan_final (c : fan A) : Prop :=
  (∃ acc, f_caller c = Returned acc) ∧ f_closer c = Closed ∧
  Forall (λ p, is_finished p = true) (f_pollers c).

Definition todo (m : caller A) : list string :=
  match m with Spawning t => t | _ => [] end.
Definition received (m : caller A) : list (string * A) :=
  match m with Spawning _ => [] | Ranging acc | Returned acc => acc end.

(** * The invariant *)

Definition unfinished (ps : list (poller A)) : list (poller A) :=
  filter (λ p, is_finished p = false) ps.
Definition senders (ps : list (poller A)) : list (poller A) :=
  filter (λ p, has_sent p = true) ps.

Record fan_inv (c : fan A) : Prop := {
  inv_names : (poller_name <$> f_pollers c) ++ todo (f_caller c) = slots;
  inv_wg : f_wg c = length (unfinished (f_pollers c));
  inv_flow : (received (f_caller c) ++ f_chan c).*1 ≡ₚ poller_name <$> senders (f_pollers c);
  inv_closed : f_closer c = Closed → f_wg c = 0;
  inv_started : f_closer c = NotStarted ↔ ∃ t, f_caller c = Spawning t;
  inv_answers : Forall (λ r, ans r.1 = Answers r.2) (received (f_caller c));
  inv_pending : (∀ acc, f_caller c ≠ Returned acc) →
    Forall (λ r, ans r.1 = Answers r.2) (f_chan c) ∧
    ∀ i s a, f_pollers c !! i = Some (Sending s a) → ans s = Answers a;
  inv_result : match f_caller c with
               | Spawning _ => True
               | Ranging acc => Forall (λ r, is_task r.2 = false) acc
               | Returned acc => Forall (λ r, is_task r.2 = false) acc → acc.*1 ≡ₚ slots
               end
}.

Lemma split_at {B} (l : list B) i x :
  l !! i = Some x → ∃ l1 l2, l = l1 ++ x :: l2 ∧ length l1 = i ∧ ∀ y, <[i := y]> l = l1 ++ y :: l2.
Proof.
  intros Hi. exists (take i l), (drop (S i) l). split; [symmetry; by apply take_drop_middle|].
  pose proof (lookup_lt_Some _ _ _ Hi) as Hlt. split; [rewrite length_take; lia|].
  intros y. by rewrite insert_take_drop by done.
Qed.

Lemma length_unfinished_app l1 p l2 :
  length (unfinished (l1 ++ p :: l2)) =
    (if is_finished p then 0 else 1) + length (unfinished (l1 ++ l2)).
Proof.
  unfold unfinished. rewrite !filter_app, filter_cons, !length_app.
  destruct (is_finished p); simpl; lia.
Qed.

Lemma senders_app l1 p l2 :
  poller_name <$> senders (l1 ++ p :: l2) ≡ₚ
    (if has_sent p then [poller_name p] else []) ++ (poller_name <$> senders (l1 ++ l2)).
Proof.
  unfold senders. rewrite !filter_app, filter_cons.
  destruct (has_sent p); simpl; [|done].
  rewrite !fmap_app. simpl. by rewrite Permutation_middle.
Qed.

(** Replacing a poller by its next state. *)
Lemma poller_update ps i p q :
  ps !! i = Some p → poller_name q = poller_name p →
  poller_name <$> <[i := q]> ps = poller_name <$> ps ∧
  length (unfinished (<[i := q]> ps)) + (if is_finished p then 0 else 1) =
    length (unfinished ps) + (if is_finished q then 0 else 1) ∧
  ((if has_sent p then [poller_name p] else []) ++ (poller_name <$> senders (<[i := q]> ps)) ≡ₚ
   (if has_sent q then [poller_name q] else []) ++ (poller_name <$> senders ps)).
Proof.
  intros (l1 & l2 & -> & _ & Hins)%split_at Hn. rewrite Hins, !length_unfinished_app.
  rewrite !senders_app, !fmap_app. simpl. rewrite Hn. split; [done|]. split; [lia|].
  by rewrite !(assoc_L (++)), (comm (++) (if has_sent p then _ else _)).
Qed.

Lemma update_lookup_sending (ps : list (poller A)) (i j : nat) p q s a :
  ps !! i = Some p → <[i := q]> ps !! j = Some (Sending s a) →
  q = Sending s a ∨ ps !! j = Some (Sending s a).
Proof. intros _ Hj. apply list_lookup_insert_Some in Hj as [(_ & ? & _)|[_ ?]]; auto. Qed.

Lemma fan_inv_start : fan_inv fan_start.
Proof.
  split; simpl; try done. split; [|done]. intros _. by eexists.
Qed.

(** A poller that moves without finishing or sending. *)
Lemma fan_inv_answer m ps ch wg cl i s a :
  ps !! i = Some (Polling s) → ((∀ acc, m ≠ Returned acc) → ans s = Answers a) →
  fan_inv (mkFan m ps ch wg cl) → fan_inv (mkFan m (<[i := Sending s a]> ps) ch wg cl).
Proof.
  intros Hi Ha [Hn Hw Hf Hc Hs Hans Hp Hr]. simpl in *.
  destruct (poller_update ps i (Polling s) (Sending s a) Hi eq_refl) as (U1 & U2 & U3).
  simpl in U2, U3. split; simpl; try done.
  - by rewrite U1.
  - lia.
  - by rewrite U3.
  - intros Hm. destruct (Hp Hm) as [Hp1 Hp2]. split; [done|]. intros j t b Hj.
    destruct (update_lookup_sending ps i j _ _ t b Hi Hj) as [[= <- <-]|Hj']; eauto.
Qed.

Lemma fan_inv_send m ps ch wg cl i s a :
  ps !! i = Some (Sending s a) →
  fan_inv (mkFan m ps ch wg cl) →
  fan_inv (mkFan m (<[i := Sent s]> ps) (ch ++ [(s, a)]) wg cl).
Proof.
  intros Hi [Hn Hw Hf Hc Hs Hans Hp Hr]. simpl in *.
  destruct (poller_update ps i (Sending s a) (Sent s) Hi eq_refl) as (U1 & U2 & U3).
  simpl in U2, U3. split; simpl; try done.
  - by rewrite U1.
  - lia.
  - rewrite U3, <-Hf, (assoc_L (++)), (fmap_app _ _ [_]). simpl. by rewrite (comm (++)).
  - intros Hm. destruct (Hp Hm) as [Hp1 Hp2]. split.
    + apply Forall_app. split; [done|]. constructor; [|done]. simpl. by apply (Hp2 i).
    + intros j t b Hj. destruct (update_lookup_sending ps i j _ _ t b Hi Hj); [done|eauto].
Qed.

Lemma fan_inv_done m ps ch wg cl i s :
  ps !! i = Some (Sent s) →
  fan_inv (mkFan m ps ch (S wg) cl) → fan_inv (mkFan m (<[i := Finished s]> ps) ch wg cl).
Proof.
  intros Hi [Hn Hw Hf Hc Hs Hans Hp Hr]. simpl in *.
  destruct (poller_update ps i (Sent s) (Finished s) Hi eq_refl) as (U1 & U2 & U3).
  simpl in U2, U3. apply Permutation.Permutation_cons_inv in U3. split; simpl; try done.
  - by rewrite U1.
  - lia.
  - by rewrite U3.
  - intros Hcl. specialize (Hc Hcl). lia.
  - intros Hm. destruct (Hp Hm) as [Hp1 Hp2]. split; [done|].
    intros j t b Hj. destruct (update_lookup_sending ps i j _ _ t b Hi Hj); [done|eauto].
Qed.

Lemma fan_inv_spawn s t ps ch wg cl :
  fan_inv (mkFan (Spawning (s :: t)) ps ch wg cl) →
  fan_inv (mkFan (Spawning t) (ps ++ [Polling s]) ch (S wg) cl).
Proof.
  intros [Hn Hw Hf Hc Hs Hans Hp Hr]. simpl in *.
  assert (cl = NotStarted) as -> by (apply Hs; by eexists).
  split; simpl; try done.
  - rewrite fmap_app, <-(assoc_L (++)). done.
  - rewrite length_unfinished_app, app_nil_r. simpl. lia.
  - rewrite senders_app, app_nil_r. done.
  - split; [|done]. intros _. by eexists.
  - intros _. destruct (Hp ltac:(done)) as [Hp1 Hp2]. split; [done|].
    intros i t' a [Hi|[_ Hi]]%lookup_app_Some; [eauto|].
    by apply list_lookup_singleton_Some in Hi as [_ [=]].
Qed.

Lemma fan_inv_start_closer ps ch wg cl :
  fan_inv (mkFan (Spawning []) ps ch wg cl) → fan_inv (mkFan (Ranging []) ps ch wg Waiting).
Proof.
  intros [Hn Hw Hf Hc Hs Hans Hp Hr]. simpl in *. split; simpl; try done.
  - split; [done|]. by intros [? [=]].
  - intros _. by apply Hp.
Qed.

Lemma fan_inv_receive acc ps r ch wg cl (m' : caller A) :
  m' = (if is_task r.2 then Returned (acc ++ [r]) else Ranging (acc ++ [r])) →
  fan_inv (mkFan (Ranging acc) ps (r :: ch) wg cl) → fan_inv (mkFan m' ps ch wg cl).
Proof.
  intros Hm' [Hn Hw Hf Hc Hs Hans Hp Hr]. simpl in *.
  destruct (Hp ltac:(done)) as [Hp1 Hp2]. apply Forall_cons in Hp1 as [Hr1 Hp1].
  assert (received m' = acc ++ [r] ∧ todo m' = [] ∧ ∀ t, m' ≠ Spawning t) as (Hrec & Ht & Hsp)
    by (by rewrite Hm'; destruct (is_task r.2)).
  split; simpl; try done.
  - by rewrite Ht.
  - by rewrite Hrec, <-(assoc_L (++)).
  - rewrite Hs. split; [by intros [? [=]]|intros [t ?]; by destruct (Hsp t)].
  - rewrite Hrec. apply Forall_app. auto.
  - rewrite Hm'. destruct (is_task r.2) eqn:E.
    + intros Hall. apply Forall_app in Hall as [_ Hall%Forall_cons]. naive_solver congruence.
    + apply Forall_app. auto.
Qed.

(** A poller that is not finished keeps the counter positive. *)
Lemma unfinished_positive ps i p :
  ps !! i = Some p → is_finished p = false → 0 < length (unfinished ps).
Proof. intros (l1 & l2 & -> & _)%split_at Hp. rewrite length_unfinished_app, Hp. lia. Qed.

Lemma senders_all ps :
  length (unfinished ps) = 0 → poller_name <$> senders ps = poller_name <$> ps.
Proof.
  intros H0. assert (senders ps = ps) as ->; [|done].
  apply list_filter_all. intros p [i Hi]%list_elem_of_lookup.
  destruct (is_finished p) eqn:E; [by destruct p|].
  pose proof (unfinished_positive ps i p Hi E). lia.
Qed.

Lemma fan_inv_range_ends acc ps wg :
  fan_inv (mkFan (Ranging acc) ps [] wg Closed) → fan_inv (mkFan (Returned acc) ps [] wg Closed).
Proof.
  intros [Hn Hw Hf Hc Hs Hans Hp Hr]. simpl in *. split; simpl; try done.
  - split; [done|]. by intros [? [=]].
  - intros Hm. by destruct (Hm acc).
  - intros _. rewrite app_nil_r in Hf. rewrite Hf, senders_all by (rewrite <-Hw; by apply Hc).
    by rewrite app_nil_r in Hn; rewrite Hn.
Qed.

Lemma fan_inv_step c c' : fan_step c c' → fan_inv c → fan_inv c'.
Proof.
  intros Hstep Hinv. destruct Hstep.
  - by apply fan_inv_spawn.
  - by eapply fan_inv_start_closer.
  - by apply fan_inv_answer.
  - apply fan_inv_answer; [done| |done]. intros Hm. by destruct (Hm acc).
  - by apply fan_inv_send.
  - by apply fan_inv_done.
  - destruct Hinv as [Hn Hw Hf Hc Hs Hans Hp Hr]. simpl in *. split; simpl; try done.
    rewrite <-Hs. done.
  - eapply fan_inv_receive; [|done]. simpl. by case_match.
  - eapply fan_inv_receive; [|done]. simpl. by case_match.
  - by apply fan_inv_range_ends.
Qed.

Lemma fan_inv_reachable c : rtc fan_step fan_start c → fan_inv c.
Proof.
  intros Hrun. pose proof fan_inv_start as H0.
  induction Hrun as [|c0 c1 c2 Hstep Hrun IH]; [done|]. apply IH. by eapply fan_inv_step.
Qed.

(** A poller that has not sent leaves room in the buffer. *)
Lemma room_for_sender c i p :
  fan_inv c → f_pollers c !! i = Some p → has_sent p = false → length (f_chan c) < chan_cap.
Proof.
  intros Hinv Hi Hp. unfold chan_cap. pose proof (inv_names _ Hinv) as Hn.
  apply (f_equal length) in Hn. rewrite length_app, length_fmap in Hn.
  pose proof (Permutation_length (inv_flow _ Hinv)) as Hf.
  rewrite !length_fmap, length_app in Hf.
  apply split_at in Hi as (l1 & l2 & E & _). rewrite E in *.
  assert (length (senders (l1 ++ p :: l2)) ≤ length (l1 ++ l2)).
  { unfold senders. rewrite filter_app, filter_cons, Hp, length_app, length_app. simpl.
    pose proof (length_filter (λ p, has_sent p = true) l1).
    pose proof (length_filter (λ p, has_sent p = true) l2). lia. }
  rewrite length_app in *. simpl in *. lia.
Qed.

(** * Termination *)

Definition poller_weight (p : poller A) : nat :=
  match p with Polling _ => 4 | Sending _ _ => 3 | Sent _ => 1 | Finished _ => 0 end.
Definition caller_weight (m : caller A) : nat :=
  match m with Spawning t => 2 + 5 * length t | Ranging _ => 1 | Returned _ => 0 end.
Definition closer_weight (cl : closer) : nat :=
  match cl with NotStarted => 2 | Waiting => 1 | Closed => 0 end.

(** The steps that remain, at most. *)
Definition fan_measure (c : fan A) : nat :=
  caller_weight (f_caller c) + sum_list_with poller_weight (f_pollers c) +
  length (f_chan c) + closer_weight (f_closer c).

Lemma sum_update ps i p q :
  ps !! i = Some p →
  sum_list_with poller_weight (<[i := q]> ps) + poller_weight p =
    sum_list_with poller_weight ps + poller_weight q.
Proof.
  intros (l1 & l2 & -> & _ & Hins)%split_at. rewrite Hins, !sum_list_with_app. simpl. lia.
Qed.

(** Each step leaves fewer of them. *)
Lemma fan_step_measure c c' :
  fan_inv c → fan_step c c' → fan_measure c' < fan_measure c.
Proof.
  intros Hinv Hstep. unfold fan_measure. destruct Hstep; simpl;
    repeat match goal with
    | Hi : ?ps !! ?i = Some ?p |- context [<[?i := ?q]> ?ps] =>
        pose proof (sum_update ps i p q Hi); clear Hi
    end;
    rewrite ?sum_list_with_app, ?length_app; simpl in *; try lia.
  assert (cl = NotStarted) as -> by (apply (inv_started _ Hinv); by eexists). simpl. lia.
Qed.

(** An unfinished poller can move, if its round trip returns or the caller has
    cancelled it; *)
Lemma fan_progress_poller c i p :
  fan_inv c → f_pollers c !! i = Some p → is_finished p = false →
  (∀ s, p = Polling s → (∃ a, ans s = Answers a) ∨ (ans s ≠ Dies ∧ ∃ acc, f_caller c = Returned acc)) →
  ∃ c', fan_step c c'.
Proof.
  intros Hinv Hi Hp Hmove. destruct c as [m ps ch wg cl]. simpl in Hi.
  pose proof (unfinished_positive ps i p Hi Hp) as Hpos.
  pose proof (inv_wg _ Hinv) as Hw. simpl in Hw. destruct p as [s|s a|s|s]; try done.
  - destruct (Hmove s eq_refl) as [[a Ha]|[Hd [acc Hm]]].
    + eexists. by eapply fan_answer.
    + simpl in Hm. subst m. eexists. by eapply fan_cancel.
  - eexists. eapply fan_send; [done|by eapply (room_for_sender _ i _ Hinv)|].
    intros ->. pose proof (inv_closed _ Hinv eq_refl) as Hz. simpl in Hz. lia.
  - destruct wg as [|wg]; [lia|]. eexists. by eapply fan_done.
Qed.

(** and when all are finished the closer and the caller can. *)
Lemma fan_progress_finished c :
  fan_inv c → Forall (λ p, is_finished p = true) (f_pollers c) → fan_final c ∨ ∃ c', fan_step c c'.
Proof.
  intros Hinv Hfin.
  assert (f_wg c = 0) as Hw.
  { rewrite (inv_wg _ Hinv). unfold unfinished. rewrite list_filter_none; [done|].
    intros p Hp. rewrite Forall_forall in Hfin. by rewrite (Hfin p Hp). }
  pose proof (inv_started _ Hinv) as Hst. destruct c as [m ps ch wg cl]. simpl in *. subst wg.
  destruct m as [[|s t]|acc|acc];
    [right; eexists; apply fan_start_closer|right; eexists; apply fan_spawn|..];
    (destruct cl; [destruct Hst as [Hst _]; by destruct (Hst eq_refl)
                  |right; eexists; apply fan_close|]).
  - right. destruct ch as [|[s a] ch]; [eexists; apply fan_range_ends|].
    destruct (is_task a) eqn:E; eexists; [by apply fan_receive_task|by apply fan_receive].
  - left. split; [by eexists|]. done.
Qed.

(** A round trip that returns with a task, and what it takes for a poll to end:
    nobody panics, and some cluster has a task or all of them answer. *)
Definition delivers (s : string) : Prop := ∃ a, ans s = Answers a ∧ is_task a = true.

Definition lively : Prop :=
  (∀ s, s ∈ slots → ans s ≠ Dies) ∧
  ((∃ s, s ∈ slots ∧ delivers s) ∨ ∀ s, s ∈ slots → ans s ≠ Hangs).

Lemma poller_in_slots c i p : fan_inv c → f_pollers c !! i = Some p → poller_name p ∈ slots.
Proof.
  intros Hinv Hi. rewrite <-(inv_names _ Hinv). apply elem_of_app. left.
  apply list_elem_of_fmap. exists p. split; [done|]. by eapply list_elem_of_lookup_2.
Qed.

(** A poller that has sent an answer which the caller has read. *)
Lemma task_not_read c i s :
  fan_inv c → (∃ acc, f_caller c = Ranging acc) → f_chan c = [] → delivers s →
  ∀ p, f_pollers c !! i = Some p → poller_name p = s → has_sent p = false.
Proof.
  intros Hinv [acc Hm] Hch (a & Ha & Ht) p Hi Hp. destruct (has_sent p) eqn:Es; [|done]. exfalso.
  pose proof (inv_flow _ Hinv) as Hf. pose proof (inv_result _ Hinv) as Hr.
  pose proof (inv_answers _ Hinv) as Hans. rewrite Hm, Hch in *. cbn [received] in *.
  rewrite app_nil_r in Hf.
  assert (s ∈ acc.*1) as ([s' a'] & -> & Hin)%list_elem_of_fmap.
  { rewrite Hf. apply list_elem_of_fmap. exists p. split; [done|].
    apply list_elem_of_filter. split; [done|]. by eapply list_elem_of_lookup_2. }
  rewrite Forall_forall in Hans, Hr. specialize (Hans _ Hin). specialize (Hr _ Hin).
  cbn in *. congruence.
Qed.

(** Ranging over an empty channel the caller waits for a poller that moves. *)
Lemma fan_progress_ranging c i p acc :
  lively → fan_inv c → f_caller c = Ranging acc → f_pollers c !! i = Some p → is_finished p = false →
  ∃ c', fan_step c c'.
Proof.
  intros [Hd Hl] Hinv Hm Hi Hp.
  destruct (f_chan c) as [|[s a] ch] eqn:Hch.
  2:{ destruct c as [m ps ch' wg cl]; simpl in Hm, Hch; subst m ch'.
      destruct (is_task a) eqn:E; eexists; [by apply fan_receive_task|by apply fan_receive]. }
  destruct Hl as [(s & Hs & Hdel)|Hans].
  - pose proof (inv_names _ Hinv) as Hn. rewrite Hm in Hn. cbn [todo] in Hn. rewrite app_nil_r in Hn.
    rewrite <-Hn in Hs. apply list_elem_of_fmap in Hs as (q & -> & [j Hj]%list_elem_of_lookup).
    pose proof (task_not_read c j _ Hinv (ex_intro _ acc Hm) Hch Hdel q Hj eq_refl) as Hq.
    apply (fan_progress_poller c j q); [done..| |].
    + by destruct q.
    + intros s ->. left. destruct Hdel as (a & Ha & _). by exists a.
  - apply (fan_progress_poller c i p); [done..|]. intros s ->. left.
    pose proof (poller_in_slots c i (Polling s) Hinv Hi) as Hs. cbn in Hs.
    specialize (Hd s Hs). specialize (Hans s Hs). destruct (ans s) as [a| |]; [by exists a|done..].
Qed.

Lemma fan_progress c : lively → fan_inv c → fan_final c ∨ ∃ c', fan_step c c'.
Proof.
  intros Hl Hinv. pose proof Hl as [Hd _].
  destruct (decide (Exists (λ p, is_finished p = false) (f_pollers c))) as [Hex|Hall].
  2:{ apply fan_progress_finished; [done|]. apply Forall_forall. intros p Hp.
      destruct (is_finished p) eqn:E; [done|]. destruct Hall. apply Exists_exists. eauto. }
  apply Exists_exists in Hex as (p & [i Hi]%list_elem_of_lookup & Hp). right.
  destruct (f_caller c) as [[|s t]|acc|acc] eqn:Hm.
  - destruct c as [m ps ch wg cl]; simpl in Hm; subst m. eexists. apply fan_start_closer.
  - destruct c as [m ps ch wg cl]; simpl in Hm; subst m. eexists. apply fan_spawn.
  - by apply (fan_progress_ranging c i p acc).
  - apply (fan_progress_poller c i p); [done..|]. intros s ->. right.
    split; [|by eexists]. apply Hd. by apply (poller_in_slots c i (Polling s)).
Qed.

End fan_out.

(** * Properties of the fan-out *)

Section fan_theorems.
Context {A : Type} (ans : string → reply A) (canceled : A) (is_task : A → bool) (slots : list string).

Notation step := (fan_step ans canceled is_task slots).
Notation start := (fan_start (A := A) slots).

(** C12: the fan-out is free of panics and of blocked sends.  In every reachable
    state no poller is about to send on the closed channel, none is about to
    take the wait group below zero, and no send has to wait for the caller:
    the buffer has room even after the caller returned early. *)
Theorem fan_out_safe c : rtc step start c → ¬ fan_panics c ∧ ¬ fan_blocks slots c.
Proof.
  intros Hinv%fan_inv_reachable. pose proof (inv_wg _ _ _ _ Hinv) as Hw. split.
  - intros [(Hcl & i & s & a & Hi)|(Hz & i & s & Hi)];
      pose proof (unfinished_positive _ _ _ Hi eq_refl); [|lia].
    pose proof (inv_closed _ _ _ _ Hinv Hcl). lia.
  - intros (Hfull & i & s & a & Hi).
    pose proof (room_for_sender _ _ _ _ i _ Hinv Hi eq_refl). lia.
Qed.

(** The fan-out terminates without leaking a goroutine.  No interleaving runs
    forever: it stops after at most five steps per physical namespace and four
    more; and if some cluster has a task or all of them answer, it stops only when
    the caller has returned, all pollers are finished and the channel is closed. *)
Theorem fan_out_terminates :
  (∀ n c, nsteps step n start c → n ≤ 5 * length slots + 4) ∧
  (lively ans is_task slots → ∀ c, rtc step start c → nf step c → fan_final c).
Proof.
  split.
  - assert (∀ n c c', fan_inv ans is_task slots c → nsteps step n c c' → n + fan_measure c' ≤ fan_measure c)
      as Hm.
    { intros n c c' Hinv Hn. revert Hinv. induction Hn as [|n c c1 c' Hstep Hn IH]; intros Hinv; [lia|].
      pose proof (fan_step_measure ans canceled is_task slots c c1 Hinv Hstep).
      specialize (IH (fan_inv_step ans canceled is_task slots c c1 Hstep Hinv)). lia. }
    intros n c Hn. specialize (Hm n _ c (fan_inv_start ans is_task slots) Hn).
    unfold fan_measure in Hm. simpl in Hm. lia.
  - intros Hl c Hinv%fan_inv_reachable Hnf.
    destruct (fan_progress ans canceled is_task slots c Hl Hinv) as [?|[c' Hc']]; [done|].
    destruct Hnf. by exists c'.
Qed.
End fan_theorems.

Section fan_collects.
Context {M3 : Murmur3} {GZ : Gzip} {R : Type} `{Redis R} {T : Transport}.
Context {Req Resp : Type} (pk : poll_kind Req Resp) (originalReq : Request) (m : Req).

Definition carries_task (r : string + Response) : bool :=
  match outcome_of pk r with Task _ _ => true | _ => false end.

(** The clusters that do not answer a request. *)
Context (hangs : Request → bool).

Definition poll_reply (physNs : string) : reply (string + Response) :=
  match parsePhysicalNamespace physNs with
  | Ok (mkNamespace (Some c) n) =>
      match proto_Marshal (Message := pk_req pk) (pk_set_ns pk n m) with
      | inl e => Answers (inl e)
      | inr newPbPayload =>
          let req := poll_request originalReq (address c) newPbPayload in
          if hangs req then Hangs else Answers (RoundTrip req)
      end
  | _ => Dies
  end.

(** It is what the sequential poller gets of the cluster, in particular
    [ConnPark.answer]. *)
Lemma poll_reply_Answers s r : poll_reply s = Answers r → poll_single pk originalReq m s = Ok r.
Proof.
  unfold poll_reply, poll_single. destruct (parsePhysicalNamespace s) as [[[c|] n]| | |]; try done.
  destruct (proto_Marshal _) as [e|b]; [by intros [= <-]|]. destruct (hangs _); [done|]. by intros [= <-].
Qed.

Lemma poll_reply_answer s r : poll_reply s = Answers r → r = answer pk originalReq m s.
Proof. unfold answer. by intros ->%poll_reply_Answers. Qed.


Definition poll_step (slots : list string) :=
  fan_step poll_reply (inl "context canceled") carries_task slots.

(** Reading on after a task does not change the result. *)
Lemma collect_stops acc more (w : World R) :
  ¬ Forall (λ r, carries_task r.2 = false) acc →
  collect pk (acc ++ more) None None w = collect pk acc None None w.
Proof.
  intros Hex. rewrite !collect_settle, fmap_app.
  destruct (first_task (prod_map id (outcome_of pk) <$> acc))
    as [(pre & s & task & resp & post & E & Hpre)|Hno].
  - rewrite E, <-(assoc_L (++)). simpl. by rewrite !settle_task.
  - destruct Hex. rewrite Forall_fmap in Hno. eapply Forall_impl; [exact Hno|].
    intros [s r] Hr. unfold carries_task. unfold no_task in Hr. simpl in *.
    by destruct (outcome_of pk r).
Qed.

Lemma names_split (ps : list (poller (string + Response))) :
  poller_name <$> ps ≡ₚ
    (poller_name <$> senders ps) ++ (poller_name <$> filter (λ p, has_sent p = false) ps).
Proof.
  induction ps as [|p ps IH]; [done|]. unfold senders in *. rewrite !filter_cons.
  destruct (has_sent p); simpl; rewrite IH; [done|]. by rewrite Permutation_middle.
Qed.

(** C5: every interleaving is an arrival order.  Whatever the scheduling of the
    pollers, the results the caller received before it returned give the same
    outcome and the same cache update as collecting the answers of all
    physical namespaces in some order: the order of arrival of
    [ConnPark.execute_poll]. *)
Theorem fan_out_is_an_arrival_order slots c acc (w : World R) :
  rtc (poll_step slots) (fan_start slots) c → f_caller c = Returned acc →
  ∃ order, order ≡ₚ slots ∧
    collect pk acc None None w =
      collect pk ((λ s, (s, answer pk originalReq m s)) <$> order) None None w.
Proof.
  intros Hinv%fan_inv_reachable Hret. destruct c as [cl ps ch wg clo]. simpl in Hret. subst cl.
  pose proof (inv_answers _ _ _ _ Hinv) as Hans. simpl in Hans.
  assert ((λ s, (s, answer pk originalReq m s)) <$> acc.*1 = acc) as Hacc.
  { clear - Hans. induction Hans as [|[s a] acc Ha Hans IH]; [done|].
    csimpl in *. by rewrite IH, <-(poll_reply_answer _ _ Ha). }
  destruct (decide (Forall (λ r, carries_task r.2 = false) acc)) as [Hno|Hex].
  - exists acc.*1. rewrite Hacc. split; [|done]. by apply (inv_result _ _ _ _ Hinv).
  - exists (acc.*1 ++ ch.*1 ++ (poller_name <$> filter (λ p, has_sent p = false) ps)).
    split; [|by rewrite fmap_app, Hacc, collect_stops].
    pose proof (inv_flow _ _ _ _ Hinv) as Hf. simpl in Hf. rewrite fmap_app in Hf.
    pose proof (inv_names _ _ _ _ Hinv) as Hn. simpl in Hn. rewrite app_nil_r in Hn.
    by rewrite (assoc_L (++)), Hf, <-names_split, Hn.
Qed.




End fan_collects.

(** * The properties at a concrete run

    The second cluster answers first, with a task; the caller returns, and the
    first poller is cancelled and still sends. *)

Definition w_fan_slots : list string := ["ns1::c1:7233"; "ns2::c2:7233"].

Definition w_step := poll_step (GZ := CopyGzip) (T := TaskTransport)
  (poll_workflow (X := unit)) w_poll_request w_poll (λ _, false) w_fan_slots.

Definition w_tasked : string * (string + Response) :=
  ("ns2::c2:7233", inr (w_answer (framed w_task))).

Definition w_fan : fan (string + Response) :=
  mkFan (Returned [w_tasked]) [Sent "ns1::c1:7233"; Finished "ns2::c2:7233"]
    [("ns1::c1:7233", inl "context canceled")] 1 Waiting.

Lemma w_fan_runs : rtc w_step (fan_start w_fan_slots) w_fan.
Proof.
  eapply rtc_l; [apply fan_spawn|]. eapply rtc_l; [apply fan_spawn|].
  eapply rtc_l; [apply fan_start_closer|].
  eapply rtc_l; [by apply (fan_answer _ _ _ _ _ _ _ _ _ 1)|].
  eapply rtc_l; [eapply (fan_send _ _ _ _ _ _ _ _ _ 1); [done|by apply Nat.lt_0_succ|done]|].
  eapply rtc_l; [by apply (fan_done _ _ _ _ _ _ _ _ _ 1)|].
  eapply rtc_l; [by apply fan_receive_task; vm_compute|].
  eapply rtc_l; [by apply (fan_cancel _ _ _ _ _ _ _ _ _ 0)|].
  eapply rtc_l; [eapply (fan_send _ _ _ _ _ _ _ _ _ 0); [done|by apply Nat.lt_0_succ|done]|].
  apply rtc_refl.
Qed.

Lemma fan_out_safe_witness : ¬ fan_panics w_fan ∧ ¬ fan_blocks w_fan_slots w_fan.
Proof. eapply (fan_out_safe _ _ _ w_fan_slots w_fan). exact w_fan_runs. Defined.

Lemma fan_out_is_an_arrival_order_witness :
  ∃ order, order ≡ₚ w_fan_slots ∧
    collect (GZ := CopyGzip) (poll_workflow (X := unit)) [w_tasked] None None (w_world true ∅) =
    collect (GZ := CopyGzip) poll_workflow
      ((λ s, (s, answer (T := TaskTransport) (poll_workflow (X := unit)) w_poll_request w_poll s))
         <$> order) None None (w_world true ∅).
Proof.
  apply (fan_out_is_an_arrival_order (GZ := CopyGzip) (T := TaskTransport)
    (poll_workflow (X := unit)) w_poll_request w_poll (λ _, false) w_fan_slots w_fan [w_tasked]).
  - exact w_fan_runs.
  - reflexivity.
Defined.


