(* ===== verification/Json.v ===== *)
(** The part of [encoding/json] the repository uses: reading a JSON value,
    decoding it into string fields or maps of strings, and writing strings and
    maps of strings.  The admin API ([apis.go]) and the registry's checkpoint
    ([virtualnamespace.go]) are its clients. *)

From S2P Require Import Prelude.
From stdpp Require Import options.
From Stdlib Require Strings.String.

Local Open Scope Z_scope.

(** * UTF-8 *)

Definition in_range (b : byte) (lo hi : Z) : bool :=
  bool_decide (lo ≤ byteZ b ∧ byteZ b ≤ hi).

(** The width of the rune at the head of a sequence, 0 when it is not one. *)
Definition utf8_width (l : list byte) : nat :=
  match l with
  | [] => 0
  | b0 :: l =>
      if in_range b0 0 127 then 1
      else if in_range b0 194 223 then
        match l with
        | b1 :: _ => if in_range b1 128 191 then 2 else 0
        | _ => 0
        end
      else if in_range b0 224 239 then
        match l with
        | b1 :: b2 :: _ =>
            let lo := (if decide (b0 = xe0) then 160 else 128)%Z in
            let hi := (if decide (b0 = xed) then 159 else 191)%Z in
            if in_range b1 lo hi && in_range b2 128 191 then 3 else 0
        | _ => 0
        end
      else if in_range b0 240 244 then
        match l with
        | b1 :: b2 :: b3 :: _ =>
            let lo := (if decide (b0 = xf0) then 144 else 128)%Z in
            let hi := (if decide (b0 = xf4) then 143 else 191)%Z in
            if in_range b1 lo hi && in_range b2 128 191 && in_range b3 128 191 then 4 else 0
        | _ => 0
        end
      else 0
  end%nat.

(** [utf8.EncodeRune]. *)
Definition encode_rune (r : Z) : list byte :=
  let r := if decide ((55296 ≤ r ∧ r < 57344) ∨ r < 0 ∨ 1114111 < r) then 65533 else r in
  if decide (r < 128) then [byte_of_Z r]
  else if decide (r < 2048) then [byte_of_Z (192 + r / 64); byte_of_Z (128 + r mod 64)]
  else if decide (r < 65536) then
    [byte_of_Z (224 + r / 4096); byte_of_Z (128 + r / 64 mod 64); byte_of_Z (128 + r mod 64)]
  else [byte_of_Z (240 + r / 262144); byte_of_Z (128 + r / 4096 mod 64);
        byte_of_Z (128 + r / 64 mod 64); byte_of_Z (128 + r mod 64)].

(** * String literals *)

Definition hex_val (b : byte) : option Z :=
  if in_range b 48 57 then Some (byteZ b - 48)
  else if in_range b 97 102 then Some (byteZ b - 87)
  else if in_range b 65 70 then Some (byteZ b - 55)
  else None.

(** What follows a prefix, if it is there. *)
Definition expect (p l : list byte) : option (list byte) :=
  if decide (take (length p) l = p) then Some (drop (length p) l) else None.

(** Four hexadecimal digits. *)
Definition get_hex4 (l : list byte) : option (Z * list byte) :=
  match l with
  | a :: b :: c :: d :: l =>
      a ← hex_val a; b ← hex_val b; c ← hex_val c; d ← hex_val d;
      Some (((a * 16 + b) * 16 + c) * 16 + d, l)
  | _ => None
  end.

(** The second half of a surrogate pair, which must be written as an escape. *)
Definition low_surrogate (l : list byte) : option (Z * list byte) :=
  l ← expect [x5c; x75] l;
  r ← get_hex4 l;
  if decide (56320 ≤ r.1 ∧ r.1 < 57344) then Some r else None.

Definition escape_char (b : byte) : option byte :=
  match b with
  | x22 => Some x22 | x5c => Some x5c | x2f => Some x2f | x62 => Some x08
  | x66 => Some x0c | x6e => Some x0a | x72 => Some x0d | x74 => Some x09
  | _ => None
  end.

(** One step through a string literal: its end, some decoded bytes, or an
    error. *)
Inductive str_next := SEnd (rest : list byte) | SEmit (out rest : list byte) | SBad.

Definition str_escape (l : list byte) : str_next :=
  match l with
  | [] => SBad
  | e :: l =>
      match escape_char e with
      | Some c => SEmit [c] l
      | None =>
          if decide (e = x75) then
            match get_hex4 l with
            | None => SBad
            | Some (rr, l) =>
                if decide (55296 ≤ rr ∧ rr < 56320) then
                  match low_surrogate l with
                  | Some (lo, l) => SEmit (encode_rune (65536 + (rr - 55296) * 1024 + (lo - 56320))) l
                  | None => SEmit (encode_rune 65533) l
                  end
                else SEmit (encode_rune rr) l
            end
          else SBad
      end
  end.

Definition str_step (l : list byte) : str_next :=
  match l with
  | [] => SBad
  | b :: l' =>
      if decide (b = x22) then SEnd l'
      else if decide (b = x5c) then str_escape l'
      else if decide (byteZ b < 32) then SBad
      else match utf8_width l with
           | O => SEmit (encode_rune 65533) l'
           | n => SEmit (take n l) (drop n l)
           end
  end.

(** The rest of a literal, after its opening quote. *)
Fixpoint parse_string (fuel : nat) (l : list byte) : option (list byte * list byte) :=
  match fuel with
  | O => None
  | S fuel =>
      match str_step l with
      | SEnd rest => Some ([], rest)
      | SBad => None
      | SEmit out rest => r ← parse_string fuel rest; Some (out ++ r.1, r.2)
      end
  end.

(** * Values *)

Inductive json :=
| JNull
| JBool (b : bool)
| JNumber (lit : list byte)
| JString (s : list byte)
| JArray (vs : list json)
| JObject (ms : list (list byte * json)).

Definition is_ws (b : byte) : bool :=
  match b with x20 | x09 | x0a | x0d => true | _ => false end.

Fixpoint skip_ws (l : list byte) : list byte :=
  match l with
  | b :: l' => if is_ws b then skip_ws l' else l
  | [] => []
  end.

Fixpoint digits (l : list byte) : list byte * list byte :=
  match l with
  | b :: l' => if in_range b 48 57 then let r := digits l' in (b :: r.1, r.2) else ([], l)
  | [] => ([], [])
  end.

(** At least one digit. *)
Definition digits1 (l : list byte) : option (list byte * list byte) :=
  let r := digits l in match r.1 with [] => None | _ => Some r end.

(** The first of some prefixes that is there. *)
Fixpoint one_of (ps : list (list byte)) (l : list byte) : option (list byte * list byte) :=
  match ps with
  | [] => None
  | p :: ps => match expect p l with Some l' => Some (p, l') | None => one_of ps l end
  end.

Definition parse_number (l : list byte) : option (list byte * list byte) :=
  let sign := default ([], l) (one_of [[x2d]] l) in
  int ← match one_of [[x30]] sign.2 with Some r => Some r | None => digits1 sign.2 end;
  frac ← match one_of [[x2e]] int.2 with
         | Some dot => r ← digits1 dot.2; Some (dot.1 ++ r.1, r.2)
         | None => Some ([], int.2)
         end;
  exp ← match one_of [[x65]; [x45]] frac.2 with
        | Some e =>
            let s := default ([], e.2) (one_of [[x2b]; [x2d]] e.2) in
            r ← digits1 s.2; Some (e.1 ++ s.1 ++ r.1, r.2)
        | None => Some ([], frac.2)
        end;
  Some (sign.1 ++ int.1 ++ frac.1 ++ exp.1, exp.2).

(** [null], [true], [false]. *)
Definition parse_literal (l : list byte) : option (json * list byte) :=
  match one_of [bytes_of "null"; bytes_of "true"; bytes_of "false"] l with
  | Some (p, l) =>
      Some (if decide (p = bytes_of "null") then JNull
            else JBool (bool_decide (p = bytes_of "true")), l)
  | None => None
  end.

(** [maxNestingDepth]. *)
Definition max_depth : Z := 10000.

Fixpoint parse_value (fuel : nat) (depth : Z) (l : list byte) : option (json * list byte) :=
  match fuel with
  | O => None
  | S fuel =>
      match skip_ws l with
      | [] => None
      | b :: l' =>
          if decide (b = x22) then
            r ← parse_string (S (length l')) l'; Some (JString r.1, r.2)
          else if decide (b = x7b) then
            if decide (max_depth ≤ depth) then None
            else match expect [x7d] (skip_ws l') with
                 | Some rest => Some (JObject [], rest)
                 | None => r ← parse_members fuel (depth + 1) l'; Some (JObject r.1, r.2)
                 end
          else if decide (b = x5b) then
            if decide (max_depth ≤ depth) then None
            else match expect [x5d] (skip_ws l') with
                 | Some rest => Some (JArray [], rest)
                 | None => r ← parse_elements fuel (depth + 1) l'; Some (JArray r.1, r.2)
                 end
          else match parse_literal (b :: l') with
               | Some r => Some r
               | None => r ← parse_number (b :: l'); Some (JNumber r.1, r.2)
               end
      end
  end
with parse_members (fuel : nat) (depth : Z) (l : list byte)
    : option (list (list byte * json) * list byte) :=
  match fuel with
  | O => None
  | S fuel =>
      l ← expect [x22] (skip_ws l);
      k ← parse_string (S (length l)) l;
      l ← expect [x3a] (skip_ws k.2);
      v ← parse_value fuel depth l;
      match expect [x2c] (skip_ws v.2) with
      | Some l => r ← parse_members fuel depth l; Some ((k.1, v.1) :: r.1, r.2)
      | None => l ← expect [x7d] (skip_ws v.2); Some ([(k.1, v.1)], l)
      end
  end
with parse_elements (fuel : nat) (depth : Z) (l : list byte) : option (list json * list byte) :=
  match fuel with
  | O => None
  | S fuel =>
      v ← parse_value fuel depth l;
      match expect [x2c] (skip_ws v.2) with
      | Some l => r ← parse_elements fuel depth l; Some (v.1 :: r.1, r.2)
      | None => l ← expect [x5d] (skip_ws v.2); Some ([v.1], l)
      end
  end.

(** The next value of a stream ([Decoder.Decode]): what follows it is not read.
    The fuel is enough for every input ([parse_fuel] below). *)
Definition read_value (l : list byte) : option (json * list byte) :=
  parse_value (S (2 * length l)) 0 l.

(** The value of a whole document ([json.Unmarshal]). *)
Definition read_document (l : list byte) : option json :=
  match read_value l with
  | Some (v, rest) => match skip_ws rest with [] => Some v | _ => None end
  | None => None
  end.

(** * Decoding into Go values *)

(** Field names match exactly, or after folding case; two runes outside ASCII
    fold to ASCII letters. *)
Definition fold_byte (b : byte) : byte :=
  if in_range b 97 122 then byte_of_Z (byteZ b - 32) else b.

Fixpoint fold_name (fuel : nat) (l : list byte) : list byte :=
  match fuel, l with
  | O, _ | _, [] => []
  | S fuel, b :: l' =>
      match expect [xc5; xbf] l, expect [xe2; x84; xaa] l with
      | Some r, _ => x53 :: fold_name fuel r
      | None, Some r => x4b :: fold_name fuel r
      | None, None => fold_byte b :: fold_name fuel l'
      end
  end.

Definition same_folded (x y : list byte) : bool :=
  bool_decide (fold_name (length x) x = fold_name (length y) y).

(** The field of a struct a key sets, if any: [names] in the order of the
    declaration. *)
Definition field_of (names : list string) (key : list byte) : option string :=
  match find (λ n, bool_decide (bytes_of n = key)) names with
  | Some n => Some n
  | None => find (λ n, same_folded (bytes_of n) key) names
  end.

(** Decoding an object into a struct of strings: unknown keys and nulls are
    ignored, later keys win, and a value of another type makes the whole call
    fail.  The struct is the map of its fields that were set. *)
Fixpoint decode_fields (names : list string) (ms : list (list byte * json))
    (st : gmap string string) : option (gmap string string) :=
  match ms with
  | [] => Some st
  | (k, v) :: ms =>
      match field_of names k, v with
      | None, _ | Some _, JNull => decode_fields names ms st
      | Some n, JString s => decode_fields names ms (<[n := string_of s]> st)
      | Some _, _ => None
      end
  end.

Definition decode_struct (names : list string) (v : json) : option (gmap string string) :=
  match v with
  | JNull => Some ∅
  | JObject ms => decode_fields names ms ∅
  | _ => None
  end.

(** Decoding into a [map[string]A]. *)
Fixpoint decode_map {A} (elem : json → option A) (ms : list (list byte * json))
    (m : gmap string A) : option (gmap string A) :=
  match ms with
  | [] => Some m
  | (k, v) :: ms => a ← elem v; decode_map elem ms (<[string_of k := a]> m)
  end.

Definition decode_string (v : json) : option string :=
  match v with JNull => Some "" | JString s => Some (string_of s) | _ => None end.

Definition decode_object {A} (elem : json → option A) (v : json) : option (gmap string A) :=
  match v with JNull => Some ∅ | JObject ms => decode_map elem ms ∅ | _ => None end.

(** * Encoding *)

Definition hex_digit (z : Z) : byte := byte_of_Z (if decide (z < 10) then 48 + z else 87 + z).

(** [\u00XY]. *)
Definition escape_u00 (b : byte) : list byte :=
  [x5c; x75; x30; x30; hex_digit (byteZ b / 16); hex_digit (byteZ b mod 16)].

Definition quote_ascii (b : byte) : list byte :=
  match b with
  | x22 => [x5c; x22]
  | x5c => [x5c; x5c]
  | x08 => [x5c; x62]
  | x0c => [x5c; x66]
  | x0a => [x5c; x6e]
  | x0d => [x5c; x72]
  | x09 => [x5c; x74]
  | x3c | x3e | x26 => escape_u00 b          (* the HTML-unsafe ones *)
  | _ => if decide (byteZ b < 32) then escape_u00 b else [b]
  end.

(** What one rune is written as, and what follows it. *)
Definition quote_step (l : list byte) : list byte * list byte :=
  match l with
  | [] => ([], [])
  | b :: l' =>
      if in_range b 0 127 then (quote_ascii b, l')
      else match utf8_width l with
           | O => ([x5c; x75; x66; x66; x66; x64], l')
           | n =>
               (if decide (take 3 l = [xe2; x80; xa8]) then [x5c; x75; x32; x30; x32; x38]
                else if decide (take 3 l = [xe2; x80; xa9]) then [x5c; x75; x32; x30; x32; x39]
                else take n l, drop n l)
           end
  end.

Fixpoint quote_body (fuel : nat) (l : list byte) : list byte :=
  match fuel, l with
  | O, _ | _, [] => []
  | S fuel, _ => let r := quote_step l in r.1 ++ quote_body fuel r.2
  end.

Definition quote (s : string) : list byte :=
  x22 :: quote_body (length (bytes_of s)) (bytes_of s) ++ [x22].

Definition pair_le {A} (x y : string * A) : Prop := String.leb x.1 y.1 = true.
#[global] Instance pair_le_dec {A} : RelDecision (@pair_le A).
Proof. intros x y. unfold pair_le. apply _. Defined.

Fixpoint encode_members (ms : list (list byte * list byte)) : list byte :=
  match ms with
  | [] => []
  | [(k, v)] => k ++ x3a :: v
  | (k, v) :: ms => k ++ x3a :: v ++ x2c :: encode_members ms
  end.

(** A map is written with its keys sorted. *)
Definition sorted_pairs {A} (m : gmap string A) : list (string * A) :=
  merge_sort pair_le (map_to_list m).

Definition encode_map {A} (elem : A → list byte) (m : gmap string A) : list byte :=
  x7b :: encode_members ((λ kv, (quote kv.1, elem kv.2)) <$> sorted_pairs m) ++ [x7d].

(** * Fuel *)

Lemma expect_Some p l r : expect p l = Some r ↔ l = p ++ r.
Proof.
  unfold expect. case_decide as Hd; split; intros H0.
  - simplify_eq. rewrite <-Hd at 1. by rewrite take_drop.
  - subst l. by rewrite drop_app_length.
  - done.
  - subst l. by rewrite take_app_length in Hd.
Qed.

Lemma expect_length p l r : expect p l = Some r → (length l = length p + length r)%nat.
Proof. intros ->%expect_Some. apply length_app. Qed.

Lemma get_hex4_length l r l' : get_hex4 l = Some (r, l') → (length l' < length l)%nat.
Proof.
  unfold get_hex4. intros Hl. do 4 (destruct l as [|? l]; [done|]).
  repeat (apply bind_Some in Hl as (? & _ & Hl)). simplify_eq/=. lia.
Qed.

Lemma low_surrogate_length l r l' : low_surrogate l = Some (r, l') → (length l' < length l)%nat.
Proof.
  unfold low_surrogate. intros (l1 & H1%expect_length & Hl)%bind_Some.
  apply bind_Some in Hl as ([z l2] & Hg%get_hex4_length & Hl).
  case_decide; simplify_eq. simpl in H1. lia.
Qed.

Lemma str_escape_length l o r : str_escape l = SEmit o r → (length r < length l)%nat.
Proof.
  unfold str_escape. intros Hl. destruct l as [|e l]; [done|].
  destruct (escape_char e); [simplify_eq/=; lia|]. case_decide; [|done].
  destruct (get_hex4 l) as [[rr l1]|] eqn:Eg; [|done]. apply get_hex4_length in Eg.
  case_decide; [|simplify_eq/=; lia].
  destruct (low_surrogate l1) as [[lo l2]|] eqn:Es; simplify_eq/=; [|lia].
  apply low_surrogate_length in Es. lia.
Qed.

Lemma str_step_length l o r : str_step l = SEmit o r → (length r < length l)%nat.
Proof.
  unfold str_step. intros Hl. destruct l as [|b l]; [done|].
  do 3 (case_decide; [try done; try (apply str_escape_length in Hl; simpl; lia)|]).
  destruct (utf8_width (b :: l)) as [|n]; simplify_eq; simpl; [lia|]. rewrite length_drop. lia.
Qed.

(** More fuel than bytes changes nothing. *)
Lemma parse_string_fuel l n m :
  (length l < n)%nat → (length l < m)%nat → parse_string n l = parse_string m l.
Proof.
  revert l m. induction n as [|n IH]; intros l m Hn Hm; [lia|].
  destruct m as [|m]; [lia|]. simpl. destruct (str_step l) as [r|o r|] eqn:E; [done| |done].
  apply str_step_length in E. by rewrite (IH r m) by lia.
Qed.

Lemma parse_string_length n l s r : parse_string n l = Some (s, r) → (length r < length l)%nat.
Proof.
  revert l s r. induction n as [|n IH]; intros l s r Hp; [done|]. simpl in Hp.
  destruct (str_step l) as [r'|o r'|] eqn:E; [| |done].
  - simplify_eq. unfold str_step in E. destruct l as [|b l]; [done|].
    case_decide; [simplify_eq/=; lia|]. case_decide; [|by repeat case_match].
    unfold str_escape in E. by repeat case_match.
  - apply bind_Some in Hp as ([s1 r1] & Hp & ?). simplify_eq/=.
    apply str_step_length in E. apply IH in Hp. lia.
Qed.

Lemma skip_ws_length l : (length (skip_ws l) ≤ length l)%nat.
Proof. induction l as [|b l IH]; simpl; [done|]. destruct (is_ws b); simpl; lia. Qed.

Lemma one_of_length ps l p r :
  one_of ps l = Some (p, r) → (length l = length p + length r)%nat ∧ p ∈ ps.
Proof.
  induction ps as [|q ps IH]; simpl; [done|]. destruct (expect q l) as [l'|] eqn:E.
  - intros. simplify_eq. apply expect_length in E. set_solver.
  - intros H0%IH. set_solver.
Qed.

Lemma digits_length l : (length (digits l).1 + length (digits l).2 = length l)%nat.
Proof. induction l as [|b l IH]; simpl; [done|]. destruct (in_range b 48 57); simpl; lia. Qed.

Lemma digits1_length l d r : digits1 l = Some (d, r) → (length r < length l)%nat.
Proof.
  unfold digits1. pose proof (digits_length l) as Hl. destruct (digits l) as [[|b ds] r'] eqn:E;
    intros; simplify_eq/=. lia.
Qed.

Lemma default_one_of_length ps l : (length (default ([], l) (one_of ps l)).2 ≤ length l)%nat.
Proof.
  destruct (one_of ps l) as [[p r]|] eqn:E; simpl; [|done].
  apply one_of_length in E as [? _]. lia.
Qed.

Lemma parse_number_length l n r : parse_number l = Some (n, r) → (length r < length l)%nat.
Proof.
  unfold parse_number. intros Hp. pose proof (default_one_of_length [[x2d]] l) as Hs.
  destruct (default ([], l) (one_of [[x2d]] l)) as [sg l0]. cbn [fst snd] in Hs, Hp.
  apply bind_Some in Hp as ([i l1] & H1 & Hp). apply bind_Some in Hp as ([f l2] & H2 & Hp).
  apply bind_Some in Hp as ([e l3] & H3 & [= <- <-]). cbn [fst snd] in *.
  assert (length l1 < length l0)%nat.
  { destruct (one_of [[x30]] l0) as [[p l']|] eqn:E; simplify_eq; [|by eapply digits1_length].
    apply one_of_length in E as [E ->%list_elem_of_singleton]. simpl in E. lia. }
  assert (length l2 ≤ length l1)%nat.
  { destruct (one_of [[x2e]] l1) as [[p l']|] eqn:E; [|by simplify_eq].
    apply one_of_length in E as [E _].
    apply bind_Some in H2 as ([d r'] & Hd%digits1_length & [= <- <-]). cbn [snd] in *. lia. }
  assert (length l3 ≤ length l2)%nat; [|lia].
  destruct (one_of [[x65]; [x45]] l2) as [[p l']|] eqn:E; [|by simplify_eq].
  apply one_of_length in E as [E _]. cbn [fst snd] in *.
  apply bind_Some in H3 as ([d r'] & Hd%digits1_length & [= <- <-]).
  pose proof (default_one_of_length [[x2b]; [x2d]] l') as Hs'. cbn [snd] in *. lia.
Qed.

Lemma parse_literal_length l v r : parse_literal l = Some (v, r) → (length r < length l)%nat.
Proof.
  unfold parse_literal. intros Hp. destruct (one_of _ l) as [[p l']|] eqn:E; [|done].
  apply one_of_length in E as [E Hin]. simplify_eq.
  assert (length p ≠ 0)%nat; [|lia]. by repeat (apply elem_of_cons in Hin as [->|Hin]); try inversion Hin.
Qed.

(** Parsing consumes input, *)
Lemma parse_length n :
  (∀ d l v r, parse_value n d l = Some (v, r) → (length r < length l)%nat) ∧
  (∀ d l v r, parse_members n d l = Some (v, r) → (length r < length l)%nat) ∧
  (∀ d l v r, parse_elements n d l = Some (v, r) → (length r < length l)%nat).
Proof.
  induction n as [|n (IHv & IHm & IHe)]; [done|]. split; [|split]; intros d l v r Hp;
    cbn [parse_value parse_members parse_elements] in Hp.
  - pose proof (skip_ws_length l) as Hl. destruct (skip_ws l) as [|b l'] eqn:E; [done|]. simpl in Hl.
    pose proof (skip_ws_length l') as Hl'. case_decide; [|case_decide; [|case_decide]].
    + apply bind_Some in Hp as ([s r'] & Hs%parse_string_length & ?). simplify_eq/=. lia.
    + case_decide; [done|]. destruct (expect _ _) eqn:Ex.
      * apply expect_length in Ex. simplify_eq/=. lia.
      * apply bind_Some in Hp as ([ms r'] & Hm%IHm & ?). simplify_eq/=. lia.
    + case_decide; [done|]. destruct (expect _ _) eqn:Ex.
      * apply expect_length in Ex. simplify_eq/=. lia.
      * apply bind_Some in Hp as ([ms r'] & Hm%IHe & ?). simplify_eq/=. lia.
    + destruct (parse_literal _) as [[w r']|] eqn:El.
      * apply parse_literal_length in El. simplify_eq/=. lia.
      * apply bind_Some in Hp as ([w r'] & Hn%parse_number_length & ?). simplify_eq/=. lia.
  - apply bind_Some in Hp as (l1 & H1%expect_length & Hp).
    apply bind_Some in Hp as ([k l2] & H2%parse_string_length & Hp).
    apply bind_Some in Hp as (l3 & H3%expect_length & Hp).
    apply bind_Some in Hp as ([w l4] & H4%IHv & Hp).
    pose proof (skip_ws_length l). pose proof (skip_ws_length l2). pose proof (skip_ws_length l4).
    simpl in *. destruct (expect [x2c] _) as [l5|] eqn:E5.
    + apply expect_length in E5. apply bind_Some in Hp as ([ms r'] & Hx%IHm & ?). simplify_eq/=. lia.
    + apply bind_Some in Hp as (l5 & Hx%expect_length & ?). simplify_eq/=. lia.
  - apply bind_Some in Hp as ([w l4] & H4%IHv & Hp). pose proof (skip_ws_length l4).
    simpl in *. destruct (expect [x2c] _) as [l5|] eqn:E5.
    + apply expect_length in E5. apply bind_Some in Hp as ([ms r'] & Hx%IHe & ?). simplify_eq/=. lia.
    + apply bind_Some in Hp as (l5 & Hx%expect_length & ?). simplify_eq/=. lia.
Qed.

(** so more fuel than twice the bytes changes nothing. *)
Lemma parse_fuel n :
  (∀ d l m, (2 * length l < n)%nat → (2 * length l < m)%nat →
     parse_value n d l = parse_value m d l) ∧
  (∀ d l m, (2 * length l < n)%nat → (2 * length l < m)%nat →
     parse_members n d l = parse_members m d l) ∧
  (∀ d l m, (2 * length l + 1 < n)%nat → (2 * length l + 1 < m)%nat →
     parse_elements n d l = parse_elements m d l).
Proof.
  induction n as [|n (IHv & IHm & IHe)]; [split; [|split]; intros; lia|].
  split; [|split]; intros d l [|m] Hn Hm; try lia;
    cbn [parse_value parse_members parse_elements].
  - pose proof (skip_ws_length l) as Hl. destruct (skip_ws l) as [|b l']; [done|]. simpl in Hl.
    by rewrite (IHm _ l' m), (IHe _ l' m) by lia.
  - pose proof (skip_ws_length l) as Hl. destruct (expect [x22] (skip_ws l)) as [l1|] eqn:E1; [|done].
    apply expect_length in E1. cbn [mbind option_bind]. destruct (parse_string _ l1) as [[k l2]|] eqn:E2; [|done].
    apply parse_string_length in E2. simpl. pose proof (skip_ws_length l2) as Hl2.
    destruct (expect [x3a] (skip_ws l2)) as [l3|] eqn:E3; [|done]. apply expect_length in E3. simpl in *.
    rewrite (IHv _ l3 m) by lia. destruct (parse_value m d l3) as [[v l4]|] eqn:E4; [|done].
    apply parse_length in E4. simpl. pose proof (skip_ws_length l4) as Hl4.
    destruct (expect [x2c] (skip_ws l4)) as [l5|] eqn:E5; [|done]. apply expect_length in E5.
    simpl in *. by rewrite (IHm _ l5 m) by lia.
  - rewrite (IHv _ l m) by lia. destruct (parse_value m d l) as [[v l4]|] eqn:E4; [|done].
    apply parse_length in E4. simpl. pose proof (skip_ws_length l4) as Hl4.
    destruct (expect [x2c] (skip_ws l4)) as [l5|] eqn:E5; [|done]. apply expect_length in E5.
    simpl in *. by rewrite (IHe _ l5 m) by lia.
Qed.

(** * Round trips *)

(** Valid UTF-8: a sequence of runes. *)
Inductive utf8 : list byte → Prop :=
| utf8_nil : utf8 []
| utf8_rune l n : utf8_width l = S n → utf8 (drop (S n) l) → utf8 l.

Lemma utf8_width_length l : (utf8_width l ≤ length l)%nat.
Proof. unfold utf8_width. repeat case_match; simpl; lia. Qed.

(** The width of a rune depends on its bytes only. *)
Lemma utf8_width_take l n rest :
  utf8_width l = S n → utf8_width (take (S n) l ++ rest) = S n.
Proof.
  intros Hw. unfold utf8_width in *. destruct l as [|b0 l]; [done|].
  rewrite firstn_cons. cbn [app]. destruct (in_range b0 0 127); [done|].
  destruct (in_range b0 194 223).
  { destruct l as [|b1 l]; [done|]. destruct (in_range b1 128 191) eqn:E1; simplify_eq.
    simpl. by rewrite E1. }
  destruct (in_range b0 224 239).
  { destruct l as [|b1 [|b2 l]]; [done..|].
    destruct (in_range b1 _ _ && in_range b2 128 191) eqn:E1; simplify_eq.
    simpl. by rewrite E1. }
  destruct (in_range b0 240 244); [|done].
  destruct l as [|b1 [|b2 [|b3 l]]]; [done..|].
  destruct (in_range b1 _ _ && in_range b2 128 191 && in_range b3 128 191) eqn:E1; simplify_eq.
  simpl. by rewrite E1.
Qed.

Lemma str_step_ascii b rest :
  in_range b 0 127 = true → str_step (quote_ascii b ++ rest) = SEmit [b] rest.
Proof. by destruct b. Qed.

Lemma in_range_ascii_width b l :
  in_range b 0 127 = true → utf8_width (b :: l) = 1%nat.
Proof. intros Hb. simpl. by rewrite Hb. Qed.

(** A byte outside ASCII is neither a quote, a backslash nor a control. *)
Lemma str_step_wide b l n :
  in_range b 0 127 = false → utf8_width (b :: l) = S n →
  str_step (b :: l) = SEmit (take (S n) (b :: l)) (drop (S n) (b :: l)).
Proof.
  intros Hb Hw. unfold str_step. rewrite Hw. rewrite !decide_False; [done|..].
  - intros Hlt. unfold in_range in Hb. apply bool_decide_eq_false in Hb.
    destruct Hb. pose proof (byteZ_range b). lia.
  - by intros ->.
  - by intros ->.
Qed.

(** A written rune is read back. *)
Lemma quote_step_rune l n rest :
  utf8_width l = S n →
  (quote_step l).2 = drop (S n) l ∧
  str_step ((quote_step l).1 ++ rest) = SEmit (take (S n) l) rest.
Proof.
  intros Hw. destruct l as [|b l]; [done|]. unfold quote_step.
  destruct (in_range b 0 127) eqn:Hb.
  { rewrite in_range_ascii_width in Hw by done. simplify_eq. split; [done|].
    by apply str_step_ascii. }
  rewrite Hw. split; [done|]. cbn [fst]. case_decide as H1; [|case_decide as H2].
  - assert (n = 2%nat) as ->; [|by rewrite H1].
    destruct l as [|b1 [|b2 l]]; [done..|]. simplify_eq/=. done.
  - assert (n = 2%nat) as ->; [|by rewrite H2].
    destruct l as [|b1 [|b2 l]]; [done..|]. simplify_eq/=. done.
  - pose proof (utf8_width_take (b :: l) n rest Hw) as Hw'. simpl take in Hw' |- *.
    simpl app in Hw' |- *. rewrite (str_step_wide b _ n Hb Hw').
    pose proof (utf8_width_length (b :: l)) as Hlen. rewrite Hw in Hlen. simpl in Hlen.
    cbn [take drop]. assert (n = length (take n l)) as E by (rewrite length_take; lia).
    by rewrite (take_app_length' (take n l)), (drop_app_length' (take n l)).
Qed.

Lemma parse_string_quote l rest n k :
  utf8 l → (length l ≤ k)%nat → (length l < n)%nat →
  parse_string n (quote_body k l ++ x22 :: rest) = Some (l, rest).
Proof.
  intros Hl. revert n k. induction Hl as [|l w Hw Hl IH]; intros n k Hk Hn.
  - destruct n as [|n]; [lia|]. by destruct k.
  - pose proof (utf8_width_length l) as Hlen. rewrite Hw in Hlen.
    destruct l as [|b l]; [done|]. destruct k as [|k]; [simpl in Hk; lia|].
    destruct n as [|n]; [lia|]. cbn [quote_body parse_string]. rewrite <-(assoc_L (++)).
    destruct (quote_step_rune (b :: l) w (quote_body k (quote_step (b :: l)).2 ++ x22 :: rest) Hw)
      as [E1 E2].
    rewrite E2, E1. rewrite IH; [|rewrite length_drop; simpl in *; lia..].
    simpl. by rewrite take_drop.
Qed.

(** A quoted string is read back, with what follows it. *)
Lemma parse_value_quote s rest n d :
  utf8 (bytes_of s) → parse_value (S n) d (quote s ++ rest) = Some (JString (bytes_of s), rest).
Proof.
  intros Hs. unfold quote. cbn [parse_value skip_ws is_ws app].
  rewrite decide_True by done. rewrite <-(assoc_L (++)). cbn [app].
  set (l := quote_body _ _ ++ _).
  assert (parse_string (S (length l)) l = Some (bytes_of s, rest)) as ->; [|done].
  etrans; [apply (parse_string_fuel l _ (S (length l) + length (bytes_of s))); lia|].
  apply parse_string_quote; [done|done|lia].
Qed.

(** A text that reads as a value whatever follows it, with enough fuel. *)
Definition reads_as (d : Z) (text : list byte) (v : json) : Prop :=
  ∃ n0, ∀ n rest, (n0 ≤ n)%nat → parse_value n d (text ++ rest) = Some (v, rest).

Lemma reads_as_quote d s : utf8 (bytes_of s) → reads_as d (quote s) (JString (bytes_of s)).
Proof.
  intros Hs. exists 1%nat. intros [|n] rest Hn; [lia|]. by apply parse_value_quote.
Qed.

Section map_round_trip.
Context {A : Type} (enc : A → list byte) (val : A → json) (dec : json → option A).

Definition member (kv : string * A) : list byte * list byte := (quote kv.1, enc kv.2).
Definition member_val (kv : string * A) : list byte * json := (bytes_of kv.1, val kv.2).

Lemma parse_member n d k l :
  utf8 (bytes_of k) →
  parse_members (S n) d (quote k ++ x3a :: l) =
    (v ← parse_value n d l;
     match expect [x2c] (skip_ws v.2) with
     | Some l => r ← parse_members n d l; Some ((bytes_of k, v.1) :: r.1, r.2)
     | None => l ← expect [x7d] (skip_ws v.2); Some ([(bytes_of k, v.1)], l)
     end).
Proof.
  intros Hk. cbn [parse_members]. unfold quote. cbn [app skip_ws is_ws].
  rewrite <-(assoc_L (++)). cbn [app]. set (body := quote_body _ _ ++ _).
  assert (expect [x22] (x22 :: body) = Some body) as -> by (by apply expect_Some).
  cbn [mbind option_bind].
  assert (parse_string (S (length body)) body = Some (bytes_of k, x3a :: l)) as ->.
  { etrans; [apply (parse_string_fuel body _ (S (length body) + length (bytes_of k))); lia|].
    apply parse_string_quote; [done|done|lia]. }
  cbn [mbind option_bind fst snd skip_ws is_ws].
  by assert (expect [x3a] (x3a :: l) = Some l) as -> by (by apply expect_Some).
Qed.

Lemma parse_members_encoded d kvs :
  kvs ≠ [] → Forall (λ kv, utf8 (bytes_of kv.1) ∧ reads_as d (enc kv.2) (val kv.2)) kvs →
  ∃ n0, ∀ n rest, (n0 ≤ n)%nat →
    parse_members n d (encode_members (member <$> kvs) ++ x7d :: rest) =
      Some (member_val <$> kvs, rest).
Proof.
  intros Hne Hall. induction Hall as [|[k a] kvs [Hk [n1 Hv]] Hall IH]; [done|].
  destruct kvs as [|kv kvs].
  - exists (S n1). intros [|n] rest Hn; [lia|].
    change (encode_members (member <$> [(k, a)])) with (quote k ++ x3a :: enc a).
    rewrite <-(assoc_L (++)). cbn [app]. rewrite parse_member by done.
    rewrite Hv by lia. cbn [mbind option_bind fst snd skip_ws is_ws].
    assert (expect [x2c] (x7d :: rest) = None) as -> by done.
    by assert (expect [x7d] (x7d :: rest) = Some rest) as -> by (by apply expect_Some).
  - destruct IH as [n2 IH]; [done|]. exists (S (n1 + n2)). intros [|n] rest Hn; [lia|].
    rewrite fmap_cons. change (encode_members (member (k, a) :: (member <$> kv :: kvs)))
      with (quote k ++ x3a :: enc a ++ x2c :: encode_members (member <$> kv :: kvs)).
    rewrite <-(assoc_L (++)). cbn [app]. rewrite <-(assoc_L (++)). cbn [app].
    rewrite parse_member by done. rewrite Hv by lia.
    cbn [mbind option_bind fst snd skip_ws is_ws].
    set (l := encode_members _ ++ _).
    assert (expect [x2c] (x2c :: l) = Some l) as -> by (by apply expect_Some).
    unfold l. by rewrite IH by lia.
Qed.

(** The text of an object reads as the object of its members. *)
Lemma reads_as_object d kvs :
  d < max_depth →
  Forall (λ kv, utf8 (bytes_of kv.1) ∧ reads_as (d + 1) (enc kv.2) (val kv.2)) kvs →
  reads_as d (x7b :: encode_members (member <$> kvs) ++ [x7d]) (JObject (member_val <$> kvs)).
Proof.
  intros Hd Hall. destruct kvs as [|kv kvs].
  - exists 1%nat. intros [|n] rest Hn; [lia|].
    cbn [encode_members fmap list_fmap app parse_value skip_ws is_ws].
    rewrite decide_False, decide_True, decide_False by (done || lia).
    by assert (expect [x7d] (x7d :: rest) = Some rest) as -> by (by apply expect_Some).
  - destruct (parse_members_encoded (d + 1) (kv :: kvs)) as [n0 Hp]; [done..|].
    exists (S n0). intros [|n] rest Hn; [lia|].
    rewrite <-app_comm_cons, <-(assoc_L (++)). cbn [parse_value skip_ws is_ws app].
    rewrite decide_False, decide_True, decide_False by (done || lia).
    assert (∃ l, encode_members (member <$> kv :: kvs) ++ x7d :: rest = x22 :: l) as [l Hl].
    { destruct kvs; simpl; eauto. }
    specialize (Hp n rest ltac:(lia)). rewrite Hl in Hp |- *.
    cbn [skip_ws is_ws]. assert (expect [x7d] (x22 :: l) = None) as -> by done.
    by rewrite Hp.
Qed.

(** The text of a map reads as its members, in sorted order. *)
Lemma reads_as_map d (m : gmap string A) :
  d < max_depth →
  map_Forall (λ k a, utf8 (bytes_of k) ∧ reads_as (d + 1) (enc a) (val a)) m →
  reads_as d (encode_map enc m) (JObject (member_val <$> sorted_pairs m)).
Proof.
  intros Hd Hm. apply (reads_as_object d (sorted_pairs m)); [done|].
  apply Forall_forall. intros [k a] Hin. unfold sorted_pairs in Hin.
  rewrite merge_sort_Permutation in Hin. apply elem_of_map_to_list in Hin. by apply (Hm k a).
Qed.

Lemma decode_map_members (kvs : list (string * A)) m0 :
  Forall (λ kv, dec (val kv.2) = Some kv.2) kvs → NoDup kvs.*1 →
  decode_map dec (member_val <$> kvs) m0 = Some (list_to_map kvs ∪ m0).
Proof.
  intros Hall. revert m0. induction Hall as [|[k a] kvs Ha Hall IH]; intros m0 Hnd; simpl.
  - by rewrite (left_id_L ∅ (∪)).
  - apply NoDup_cons in Hnd as [Hk Hnd]. simpl in Ha. rewrite Ha. simpl.
    rewrite IH by done. rewrite string_of_bytes_of.
    rewrite <-insert_union_r by (by apply not_elem_of_list_to_map_1). by rewrite insert_union_l.
Qed.

Lemma decode_object_members (m : gmap string A) :
  (∀ k a, m !! k = Some a → dec (val a) = Some a) →
  decode_object dec (JObject (member_val <$> sorted_pairs m)) = Some m.
Proof.
  intros Hdec. simpl.
  assert (sorted_pairs m ≡ₚ map_to_list m) as Hp by apply merge_sort_Permutation.
  assert (NoDup (sorted_pairs m).*1) as Hnd by (rewrite Hp; apply NoDup_fst_map_to_list).
  rewrite decode_map_members; [|apply Forall_forall|done].
  - rewrite (right_id_L ∅ (∪)). f_equal. etrans; [|apply list_to_map_to_list].
    by apply list_to_map_proper.
  - intros [k a] Hin. rewrite Hp in Hin. apply elem_of_map_to_list in Hin. by apply (Hdec k).
Qed.
End map_round_trip.

(** A document that is one text, with white space after it, reads as its value. *)
Lemma read_document_reads_as text v rest :
  reads_as 0 text v → skip_ws rest = [] → read_document (text ++ rest) = Some v.
Proof.
  intros [n0 Hr] Hws. unfold read_document, read_value. set (l := text ++ rest).
  rewrite (proj1 (parse_fuel _) 0 l (S (2 * length l + n0))) by lia.
  unfold l at 2. rewrite Hr by lia. by rewrite Hws.
Qed.

(** Valid UTF-8 is decidable: on a concrete string, by computation. *)
Fixpoint utf8_check (fuel : nat) (l : list byte) : bool :=
  match fuel, l with
  | _, [] => true
  | O, _ => false
  | S fuel, _ => match utf8_width l with O => false | n => utf8_check fuel (drop n l) end
  end.

Lemma utf8_check_sound n l : utf8_check n l = true → utf8 l.
Proof.
  revert l. induction n as [|n IH]; intros [|b l] Hc; try done; [constructor..|].
  cbn [utf8_check] in Hc. destruct (utf8_width (b :: l)) as [|w] eqn:Ew; [done|].
  eapply utf8_rune; [done|]. by apply IH.
Qed.

Ltac solve_utf8 := apply (utf8_check_sound 100); vm_compute; reflexivity.

(** * Texts put together by hand

    A string of printable ASCII without quotes and backslashes stands for itself
    between quotes. *)

Definition plain_byte (b : byte) : bool :=
  in_range b 32 126 && bool_decide (b ≠ x22) && bool_decide (b ≠ x5c).
Definition plain (l : list byte) : Prop := Forall (λ b, plain_byte b = true) l.

Lemma str_step_plain b rest : plain_byte b = true → str_step (b :: rest) = SEmit [b] rest.
Proof. by destruct b. Qed.

Lemma parse_string_plain n l rest :
  plain l → (length l < n)%nat → parse_string n (l ++ x22 :: rest) = Some (l, rest).
Proof.
  intros Hl. revert n. induction Hl as [|b l Hb Hl IH]; intros [|n] Hn; simpl in Hn; try lia; [done|].
  cbn [app parse_string]. rewrite str_step_plain by done. by rewrite IH by lia.
Qed.

Lemma parse_value_plain n d l rest :
  plain l → parse_value (S n) d (x22 :: l ++ x22 :: rest) = Some (JString l, rest).
Proof.
  intros Hl. cbn [parse_value skip_ws is_ws]. rewrite decide_True by done.
  rewrite parse_string_plain; [done|done|]. rewrite length_app. lia.
Qed.

(** One member of an object, white space before it. *)
Definition text_member (k v : list byte) : list byte :=
  x22 :: k ++ x22 :: x3a :: x22 :: v ++ [x22].

Lemma parse_text_member n d ws k v rest :
  skip_ws (ws ++ text_member k v ++ rest) = text_member k v ++ rest → plain k → plain v →
  parse_members (S (S n)) d (ws ++ text_member k v ++ rest) =
    match expect [x2c] (skip_ws rest) with
    | Some l => r ← parse_members (S n) d l; Some ((k, JString v) :: r.1, r.2)
    | None => l ← expect [x7d] (skip_ws rest); Some ([(k, JString v)], l)
    end.
Proof.
  intros Hws Hk Hv. remember (S n) as m eqn:Hm. cbn [parse_members]. rewrite Hws.
  unfold text_member. cbn [app]. rewrite <-(assoc_L (++)). cbn [app].
  rewrite <-(assoc_L (++)). cbn [app].
  set (l0 := k ++ _). assert (expect [x22] (x22 :: l0) = Some l0) as -> by (by apply expect_Some).
  cbn [mbind option_bind]. unfold l0 at 2. rewrite parse_string_plain; [|done|].
  2: { unfold l0. rewrite length_app. lia. }
  cbn [mbind option_bind fst snd skip_ws is_ws]. set (l1 := x22 :: v ++ x22 :: rest).
  assert (expect [x3a] (x3a :: l1) = Some l1) as -> by (by apply expect_Some).
  cbn [mbind option_bind]. unfold l1. by rewrite Hm, parse_value_plain.
Qed.

(** A document that opens an object. *)
Lemma read_value_object l :
  expect [x7d] (skip_ws l) = None →
  ∀ n, read_value (x7b :: l) =
    (r ← parse_members (n + S (2 * length (x7b :: l))) 1 l; Some (JObject r.1, r.2)).
Proof.
  intros Hl n. unfold read_value.
  rewrite (proj1 (parse_fuel _) 0 (x7b :: l) (S (n + S (2 * length (x7b :: l))))) by lia.
  cbn [parse_value skip_ws is_ws]. rewrite decide_False, decide_True, decide_False by (done || (unfold max_depth; lia)).
  by rewrite Hl.
Qed.
