(* ===== verification/Checkpoint.v ===== *)
(** The registry's persistence ([NewVirtualNamespaceRegistry] of
    [virtualnamespace.go]): what a start reads from Redis, and what the
    checkpointing routine writes at every tick. *)

From S2P Require Import Prelude GoStrings GoSort ConsistentHash RingSpec Murmur Namespaces.
From S2P Require Import Mappings Resolver Json.
From stdpp Require Import options.

(** The persisted form: physical namespaces and their status, by virtual
    namespace. *)
Notation schema := (gmap string (gmap string NamespaceStatus)).

Definition registry_key : string := "virtual_namespace_registry".

(** The order of a [range] over a map is unspecified: any enumeration. *)
Class MapRange := range_map : ∀ {A : Type}, gmap string A → list (string * A).
Class MapRangeLaws {MR : MapRange} :=
  range_map_perm : ∀ {A : Type} (m : gmap string A), range_map m ≡ₚ map_to_list m.

Definition json_Marshal (s : schema) : list byte := encode_map (encode_map quote) s.

Definition json_Unmarshal (b : list byte) : option schema :=
  read_document b ≫= decode_object (decode_object decode_string).

Section checkpoint.
Context {M3 : Murmur3} {MR : MapRange} {R : Type} `{Redis R}.

Definition set_status (slot : string) (status : NamespaceStatus) (v : VirtualNamespace)
    : VirtualNamespace :=
  mkVirtualNamespace (Name v) (Ring v) (<[slot := status]> (Namespaces v)).

Definition load_slot (v : VirtualNamespace) (kv : string * NamespaceStatus) : VirtualNamespace :=
  if decide (kv.2 = NamespaceActive) then Add (mkNamespace None kv.1) v
  else set_status kv.1 kv.2 v.

Definition load_namespace (virtualName : string) (slotsMap : gmap string NamespaceStatus)
    : VirtualNamespace :=
  foldl load_slot (NewVirtualNamespace virtualName) (range_map slotsMap).

Definition load_schema (newSchema : schema) : VirtualNamespaceRegistry :=
  mkRegistry (foldl (λ m kv, <[kv.1 := load_namespace kv.1 kv.2]> m) ∅ (range_map newSchema)).

(** A start: the registry a server holds, or an empty one when there is none or
    it does not decode. *)
Definition NewVirtualNamespaceRegistry (dial : string → R) (redisAddr : string)
    : R * VirtualNamespaceRegistry :=
  let redisAddr := if decide (redisAddr = "") then "localhost:6379" else redisAddr in
  let client := (redis_Ping (dial redisAddr)).1 in
  let r := redis_Get registry_key client in
  let namespaceData :=
    match r.2 with RVal redisData => bytes_of redisData | RNil | RErr _ => [] end in
  (r.1, match namespaceData with
        | [] => mkRegistry ∅
        | _ => match json_Unmarshal namespaceData with
               | Some newSchema => load_schema newSchema
               | None => mkRegistry ∅
               end
        end).

(** What the registry is written as. *)
Definition schema_of (vr : VirtualNamespaceRegistry) : schema :=
  GetAllNamespacesWithStatus <$> namespaces vr.

(** One tick of the routine; encoding maps of strings cannot fail, and the
    reply of the server is only logged. *)
Definition checkpoint (vr : VirtualNamespaceRegistry) (db : R) : R :=
  (redis_Set registry_key (string_of (json_Marshal (schema_of vr))) db).1.

(** * Encoding *)

Definition utf8_string (s : string) : Prop := utf8 (bytes_of s).

(** Every name the schema holds is valid UTF-8. *)
Definition schema_utf8 (s : schema) : Prop :=
  map_Forall (λ name slots, utf8_string name ∧
    map_Forall (λ slot status, utf8_string slot ∧ utf8_string status) slots) s.

Lemma json_roundtrip s : schema_utf8 s → json_Unmarshal (json_Marshal s) = Some s.
Proof.
  intros Hs. unfold json_Unmarshal, json_Marshal.
  set (inner (slots : gmap string NamespaceStatus) :=
    JObject (member_val (λ st, JString (bytes_of st)) <$> sorted_pairs slots)).
  rewrite <-(app_nil_r (encode_map _ _)).
  rewrite (read_document_reads_as _ (JObject (member_val inner <$> sorted_pairs s))); [| |done].
  - simpl mbind. apply decode_object_members. intros name slots _.
    apply decode_object_members. intros slot st _. simpl. by rewrite string_of_bytes_of.
  - apply reads_as_map; [done|]. intros name slots Hname. destruct (Hs name slots Hname) as [Hn Hsl].
    split; [done|]. apply reads_as_map; [done|]. intros slot st Hst.
    destruct (Hsl slot st Hst). split; [done|]. by apply reads_as_quote.
Qed.

Lemma json_Marshal_nonempty s : json_Marshal s ≠ [].
Proof. done. Qed.

(** * Loading *)

Context {MRL : MapRangeLaws}.

Lemma load_slot_statuses kvs v :
  Namespaces (foldl load_slot v kvs) = foldl (λ m kv, <[kv.1 := kv.2]> m) (Namespaces v) kvs.
Proof.
  revert v. induction kvs as [|[k st] kvs IH]; intros v; [done|]. cbn [foldl]. rewrite IH. f_equal.
  unfold load_slot. cbn [fst snd]. case_decide as Hst; [by rewrite Hst|done].
Qed.

Lemma load_slot_Name kvs v : Name (foldl load_slot v kvs) = Name v.
Proof.
  revert v. induction kvs as [|kv kvs IH]; intros v; [done|]. cbn [foldl]. rewrite IH.
  unfold load_slot. by case_decide.
Qed.

(** Inserting an enumeration of a map, in any order, rebuilds it. *)
Lemma foldl_insert_range {A B} (f : string → A → B) (m : gmap string A) :
  foldl (λ m' kv, <[kv.1 := f kv.1 kv.2]> m') ∅ (range_map m) = map_imap (λ k a, Some (f k a)) m.
Proof using MRL.
  assert (∀ kvs (m0 : gmap string B), NoDup kvs.*1 →
    foldl (λ m' kv, <[kv.1 := f kv.1 kv.2]> m') m0 kvs =
      list_to_map ((λ kv, (kv.1, f kv.1 kv.2)) <$> kvs) ∪ m0) as Hfold.
  { induction kvs as [|[k a] kvs IH]; intros m0 Hnd; simpl; [by rewrite (left_id_L ∅ (∪))|].
    apply NoDup_cons in Hnd as [Hk Hnd]. rewrite IH by done.
    rewrite <-insert_union_l, insert_union_r; [done|].
    apply not_elem_of_list_to_map_1. rewrite <-list_fmap_compose. simpl. exact Hk. }
  rewrite Hfold by (rewrite (range_map_perm m); apply NoDup_fst_map_to_list).
  rewrite (right_id_L ∅ (∪)). apply map_eq. intros k. rewrite map_lookup_imap.
  destruct (m !! k) as [a|] eqn:E; simpl.
  - apply elem_of_list_to_map_1.
    + rewrite <-list_fmap_compose. simpl. rewrite (range_map_perm m). apply NoDup_fst_map_to_list.
    + apply list_elem_of_fmap. exists (k, a). split; [done|].
      by rewrite (range_map_perm m), elem_of_map_to_list.
  - apply not_elem_of_list_to_map_1. rewrite <-list_fmap_compose. simpl.
    intros Hin. rewrite (range_map_perm m) in Hin. apply list_elem_of_fmap in Hin as ([k' a] & -> & Hin).
    apply elem_of_map_to_list in Hin. simpl in E. congruence.
Qed.

Lemma load_namespace_statuses name slots : Namespaces (load_namespace name slots) = slots.
Proof using MRL.
  unfold load_namespace. rewrite load_slot_statuses. simpl.
  rewrite (foldl_insert_range (λ _ st, st)). apply map_eq. intros k. rewrite map_lookup_imap.
  by destruct (slots !! k).
Qed.

Lemma Resolve_load_schema s name :
  Resolve_ns (load_schema s) name = load_namespace name <$> s !! name.
Proof using MRL.
  unfold Resolve_ns, load_schema. simpl. rewrite foldl_insert_range, map_lookup_imap.
  by destruct (s !! name).
Qed.

(** The loaded ring holds the active namespaces. *)
Lemma load_slot_repr U kvs v L :
  collision_free 50 U → (∀ kv, kv ∈ kvs → kv.1 ∈ U) → NoDup kvs.*1 →
  (∀ kv, kv ∈ kvs → Namespaces v !! kv.1 = None) →
  (∀ t, t ∈ L → t ∈ U) → ns_repr v L →
  ∃ L', (∀ t, t ∈ L' → t ∈ U) ∧ ns_repr (foldl load_slot v kvs) L'.
Proof.
  clear MRL MR. intros Hcf. revert v L.
  induction kvs as [|[k st] kvs IH]; intros v L HU Hnd Hnew HL Hrep.
  { by exists L. }
  apply NoDup_cons in Hnd as [Hk Hnd]. cbn [foldl].
  assert (∀ kv, kv ∈ kvs → Namespaces (load_slot v (k, st)) !! kv.1 = None) as Hnew'.
  { intros [k' st'] Hin. unfold load_slot. cbn [fst snd].
    assert (k ≠ k') by (intros ->; apply Hk, list_elem_of_fmap; by exists (k', st')).
    case_decide; cbn [Add set_status Namespaces name]; rewrite lookup_insert_ne by done;
      apply (Hnew (k', st')); set_solver. }
  assert (∃ L1, (∀ t, t ∈ L1 → t ∈ U) ∧ ns_repr (load_slot v (k, st)) L1) as (L1 & HL1 & Hrep1).
  { unfold load_slot. cbn [fst snd]. case_decide as Hst.
    - destruct (ns_repr_op U (NsAdd k) v L Hcf (HU (k, st) ltac:(set_solver)) HL Hrep) as [_ Hr].
      exists (L ++ [k]). split; [|exact Hr]. intros t [Ht| ->%list_elem_of_singleton]%elem_of_app; [eauto|].
      apply (HU (k, st)). set_solver.
    - exists L. split; [done|]. destruct Hrep as [Hr Ha]. split; [done|]. intros s.
      cbn [set_status Namespaces]. rewrite Ha. destruct (decide (k = s)) as [<-|].
      + rewrite lookup_insert_eq. pose proof (Hnew (k, st) ltac:(set_solver)) as Hkn.
        simpl in Hkn. rewrite Hkn. naive_solver.
      + by rewrite lookup_insert_ne. }
  apply (IH _ L1); [|done..]. intros kv Hin. apply HU. set_solver.
Qed.

Lemma load_namespace_repr U name slots :
  collision_free 50 U → (∀ k, is_Some (slots !! k) → k ∈ U) →
  ∃ L, (∀ t, t ∈ L → t ∈ U) ∧ ns_repr (load_namespace name slots) L.
Proof using MRL.
  intros Hcf HU. apply (load_slot_repr U _ _ []); [done| |..].
  - intros [k st] Hin. rewrite (range_map_perm slots) in Hin.
    apply elem_of_map_to_list in Hin. apply HU. simpl. eauto.
  - rewrite (range_map_perm slots). apply NoDup_fst_map_to_list.
  - done.
  - set_solver.
  - apply ns_repr_new.
Qed.

(** Two virtual namespaces with the same statuses route alike. *)
Lemma same_statuses_same_routing U v1 v2 L1 L2 key :
  collision_free 50 U → (∀ t, t ∈ L2 → t ∈ U) →
  ns_repr v1 L1 → ns_repr v2 L2 → Namespaces v1 = Namespaces v2 →
  GetSlot (Ring v1) key = GetSlot (Ring v2) key.
Proof.
  intros Hcf HU [R1 A1] [R2 A2] Hns. eapply ring_repr_same_lookup; [|done|done|done|done|]; [lia|].
  intros s. by rewrite A1, A2, Hns.
Qed.
End checkpoint.

(** * Properties of the checkpoint *)

Section checkpoint_theorems.
Context {M3 : Murmur3} {MR : MapRange} {MRL : MapRangeLaws} {R : Type} `{Redis R} `{!RedisLaws R}.

(** What a start reads from a reachable server. *)
Lemma load_online (dial : string → R) redisAddr r text :
  (∀ addr, dial addr = r) → online r → store r !! registry_key = Some text →
  (NewVirtualNamespaceRegistry dial redisAddr).2 =
    match json_Unmarshal (bytes_of text) with
    | Some newSchema => load_schema newSchema
    | None => mkRegistry ∅
    end.
Proof.
  intros Hd Hon Ht. unfold NewVirtualNamespaceRegistry. rewrite Hd.
  destruct (redis_Ping_online r Hon) as [Hon1 Hst1].
  destruct (redis_Get_online registry_key _ Hon1) as (_ & _ & Hg).
  rewrite Hst1, Ht in Hg. cbn [snd]. rewrite Hg. by destruct (bytes_of text).
Qed.

(** A registry as the admin API builds it: every virtual namespace is filed
    under its name, and its ring represents its active namespaces. *)
Definition registry_ok (U : gset string) (vr : VirtualNamespaceRegistry) : Prop :=
  ∀ name v, Resolve_ns vr name = Some v →
    Name v = name ∧ (∀ s, is_Some (Namespaces v !! s) → s ∈ U) ∧ ∃ L, ns_repr v L.

(** Two registries with the same virtual namespaces, statuses and routing at a
    name. *)
Definition same_at (name : string) (vr vr' : VirtualNamespaceRegistry) : Prop :=
  match Resolve_ns vr name, Resolve_ns vr' name with
  | Some v, Some v' =>
      Name v' = Name v ∧ Namespaces v' = Namespaces v ∧
      ∀ key, GetSlot (Ring v') key = GetSlot (Ring v) key
  | None, None => True
  | _, _ => False
  end.

Lemma load_checkpoint vr (db : R) (dial : string → R) redisAddr :
  online db → schema_utf8 (schema_of vr) → (∀ addr, dial addr = checkpoint vr db) →
  (NewVirtualNamespaceRegistry dial redisAddr).2 = load_schema (schema_of vr).
Proof.
  intros Hon Hutf Hd.
  destruct (redis_Set_online registry_key (string_of (json_Marshal (schema_of vr))) db Hon)
    as (Hon1 & Hst & _).
  erewrite load_online; [|exact Hd|exact Hon1|].
  2: { unfold checkpoint. by rewrite Hst, lookup_insert_eq. }
  by rewrite bytes_of_string_of, json_roundtrip.
Qed.

Lemma load_schema_same U vr name :
  collision_free 50 U → registry_ok U vr → same_at name vr (load_schema (schema_of vr)).
Proof using MRL.
  intros Hcf Hok. unfold same_at.
  rewrite Resolve_load_schema. unfold schema_of. rewrite lookup_fmap.
  specialize (Hok name). unfold Resolve_ns in *.
  destruct (namespaces vr !! name) as [v|]; simpl; [|done].
  destruct (Hok v eq_refl) as (Hname & HU & L & HL). rewrite GetAllNamespacesWithStatus_eq.
  split; [unfold load_namespace; by rewrite load_slot_Name|].
  split; [apply load_namespace_statuses|]. intros key.
  destruct (load_namespace_repr U name (Namespaces v) Hcf HU) as (L' & _ & HL').
  eapply same_statuses_same_routing; [done| |done|done|apply load_namespace_statuses].
  intros t Ht. apply HU. apply (ns_repr_active _ _ HL) in Ht. eauto.
Qed.

(** C8: a restart preserves the registry and the routing.  A registry that was
    checkpointed to a reachable server is loaded, whatever the iteration order
    of Go's maps, with the same virtual namespaces, the same statuses (the
    cordoned ones included), and rings that route every workflow id to the
    same physical namespace, when the names are valid UTF-8 and virtual nodes
    do not collide. *)
Theorem restart_preserves_routing U vr (db : R) (dial : string → R) redisAddr name :
  online db → schema_utf8 (schema_of vr) → collision_free 50 U → registry_ok U vr →
  (∀ addr, dial addr = checkpoint vr db) →
  let vr' := (NewVirtualNamespaceRegistry dial redisAddr).2 in
  match Resolve_ns vr name, Resolve_ns vr' name with
  | Some v, Some v' =>
      Name v' = Name v ∧ Namespaces v' = Namespaces v ∧
      ∀ key, GetSlot (Ring v') key = GetSlot (Ring v) key
  | None, None => True
  | _, _ => False
  end.
Proof using MRL.
  intros Hon Hutf Hcf Hok Hd vr'. unfold vr'. rewrite (load_checkpoint vr db) by done.
  by apply (load_schema_same U).
Qed.

(** The checkpoint shares its key space with the workflow ids.  After a
    checkpoint, a request about the workflow whose id is the checkpoint's key
    is routed to the registry's own text; and once a task of that workflow was
    polled, the next start finds no registry at all. *)
Theorem checkpoint_key_is_a_workflow_id vr (w : World R) ns physNs (dial : string → R) :
  w_reachable w → json_Unmarshal (bytes_of physNs) = None →
  let m := mkMappings (checkpoint vr (client (Cache w))) 0 0 in
  let w1 := mkWorld m (registry w) (totalWorkflowAllocated w) in
  (∀ addr, dial addr = client (Put registry_key physNs m).1) →
  (Resolve (mkPayload registry_key ns) w1).2 = Ok (string_of (json_Marshal (schema_of vr)), true) ∧
  (NewVirtualNamespaceRegistry dial "").2 = mkRegistry ∅.
Proof.
  intros Hon Hbad m w1 Hd.
  destruct (redis_Set_online registry_key (string_of (json_Marshal (schema_of vr)))
    (client (Cache w)) Hon) as (Hon1 & Hst & _).
  split.
  - apply Resolve_hit; [done|by unfold w_cached, cached; simpl; unfold checkpoint; rewrite Hst, lookup_insert_eq|].
    unfold string_of. done.
  - destruct (Put_online registry_key physNs m Hon1) as [Hon2 Hc].
    erewrite load_online; [by rewrite Hbad|exact Hd|exact Hon2|].
    unfold cached in Hc. by rewrite Hc, lookup_insert_eq.
Qed.
End checkpoint_theorems.

(** * The properties at a concrete registry *)

Definition ListRange : MapRange := λ A m, reverse (map_to_list m).
Definition ListRange_laws : MapRangeLaws (MR := ListRange).
Proof. intros A m. apply reverse_Permutation. Defined.

Definition w_registry : VirtualNamespaceRegistry := registry (w_world true ∅).
Definition w_db : MemRedis := mkMemRedis true ∅.
Definition w_U : gset string := list_to_set ["ns1::c1:7233"; "ns2::c2:7233"].

Lemma w_registry_ok : registry_ok (M3 := Murmur3_ref) w_U w_registry.
Proof.
  intros name v Hv. unfold Resolve_ns, w_registry in Hv. simpl in Hv.
  apply lookup_insert_Some in Hv as [[<- <-]|[_ Hv]]; [|by rewrite lookup_empty in Hv].
  split; [done|]. split.
  - intros s [x Hx]. apply elem_of_map_to_list in Hx.
    assert (Forall (λ kv, kv.1 ∈ w_U) (map_to_list (Namespaces w_vns))) as Hall
      by (apply (bool_decide_unpack _); vm_compute; exact I).
    rewrite Forall_forall in Hall. apply (Hall _ Hx).
  - eexists. apply (ns_repr_ops (M3 := Murmur3_ref) w_U _ _ [] w_ns_collision_free);
      [|set_solver|apply ns_repr_new].
    repeat constructor; apply (bool_decide_unpack _); vm_compute; exact I.
Qed.

Lemma w_registry_utf8 : schema_utf8 (schema_of w_registry).
Proof.
  apply map_Forall_to_list.
  assert (map_to_list (schema_of w_registry) = [("v", Namespaces w_vns)]) as -> by (by vm_compute).
  apply Forall_singleton. split; [unfold utf8_string; solve_utf8|].
  assert (Namespaces w_vns = {["ns1::c1:7233" := "active"; "ns2::c2:7233" := "active"]}) as ->
    by (by vm_compute).
  apply map_Forall_insert_2; [split; unfold utf8_string; solve_utf8|]. apply map_Forall_singleton. split; unfold utf8_string; solve_utf8.
Qed.

Lemma restart_preserves_routing_witness :
  match Resolve_ns w_registry "v",
        Resolve_ns (NewVirtualNamespaceRegistry (M3 := Murmur3_ref) (MR := ListRange)
          (λ _, checkpoint w_registry w_db) "").2 "v" with
  | Some v, Some v' =>
      Name v' = Name v ∧ Namespaces v' = Namespaces v ∧
      ∀ key, GetSlot (M3 := Murmur3_ref) (Ring v') key = GetSlot (M3 := Murmur3_ref) (Ring v) key
  | None, None => True
  | _, _ => False
  end.
Proof.
  apply (restart_preserves_routing (M3 := Murmur3_ref) (MR := ListRange) (MRL := ListRange_laws)
    w_U w_registry w_db (λ _, checkpoint w_registry w_db) "" "v").
  - reflexivity.
  - exact w_registry_utf8.
  - exact w_ns_collision_free.
  - exact w_registry_ok.
  - reflexivity.
Defined.

Lemma checkpoint_key_is_a_workflow_id_witness :
  (NewVirtualNamespaceRegistry (M3 := Murmur3_ref) (MR := ListRange)
     (λ _, client (Put registry_key "ns1::c1:7233"
                     (mkMappings (checkpoint w_registry w_db) 0 0)).1) "").2 = mkRegistry ∅.
Proof.
  apply (checkpoint_key_is_a_workflow_id (M3 := Murmur3_ref) (MR := ListRange)
    w_registry (w_world true ∅) "v" "ns1::c1:7233").
  - reflexivity.
  - vm_compute. reflexivity.
  - reflexivity.
Defined.
