(* ===== verification/Admin.v ===== *)
(** The admin API ([apis.go]): the endpoints that create virtual namespaces,
    add and remove physical namespaces, and show a virtual namespace. *)

From S2P Require Import Prelude GoStrings GoSort ConsistentHash RingSpec Murmur Namespaces.
From S2P Require Import Wire Http Json.
From stdpp Require Import options.

(** What the endpoints read of a request; [QueryName] is the query parameter
    [name]. *)
Record AdminRequest := mkAdminRequest {
  Method : string;
  AdminPath : string;
  QueryName : string;
  AdminBody : body
}.

(** The bodies' struct types, with the names of their JSON fields. *)
Record CreateVirtualNamespaceRequest := mkCreate { create_Name : string }.

Record ManagePhysicalNamespaceRequest := mkManage {
  manage_VirtualNamespace : string;
  manage_PhysicalNamespace : string;
  manage_ClusterAddress : string
}.

Definition field (n : string) (st : gmap string string) : string := default "" (st !! n).

Section admin.
Context {M3 : Murmur3}.

(** The text of the decoder's error, which only goes into the response. *)
Context (json_err : list byte → string).

(** [json.NewDecoder(r.Body).Decode(&req)]. *)
Definition decode_body (names : list string) (b : body) : string + gmap string string :=
  match ReadAll b with
  | inl e => inl e
  | inr bytes =>
      match read_value bytes with
      | None => inl (json_err bytes)
      | Some (v, _) =>
          match decode_struct names v with
          | Some st => inr st
          | None => inl (json_err bytes)
          end
      end
  end.

Definition decode_create (b : body) : string + CreateVirtualNamespaceRequest :=
  match decode_body ["name"] b with
  | inl e => inl e
  | inr st => inr (mkCreate (field "name" st))
  end.

Definition decode_manage (b : body) : string + ManagePhysicalNamespaceRequest :=
  match decode_body ["virtual_namespace"; "physical_namespace"; "cluster_address"] b with
  | inl e => inl e
  | inr st => inr (mkManage (field "virtual_namespace" st) (field "physical_namespace" st)
                     (field "cluster_address" st))
  end.

Definition text (s : string) : list byte := bytes_of (s +:+ newline).

Definition handle_create (r : AdminRequest) (w : ResponseWriter)
    : GoM VirtualNamespaceRegistry ResponseWriter :=
  if decide (Method r ≠ "POST") then mret (http_Error "Method not allowed" 405 w)
  else match decode_create (AdminBody r) with
  | inl e => mret (http_Error e 400 w)
  | inr req =>
      if decide (create_Name req = "") then mret (http_Error "name is required" 400 w)
      else
        registry ← gets id;
        match Resolve_ns registry (create_Name req) with
        | Some _ => mret (http_Error "virtual namespace already exists" 409 w)
        | None =>
            modify (Register (NewVirtualNamespace (create_Name req)));;
            mret (Write (text ("Virtual namespace '" +:+ create_Name req +:+
                               "' created successfully")) (WriteHeader 201 w))
        end
  end.

(** The guards shared by the two endpoints that manage physical namespaces. *)
Definition manage_guard (r : AdminRequest) (registry : VirtualNamespaceRegistry)
    : (string * Z) + (ManagePhysicalNamespaceRequest * VirtualNamespace) :=
  if decide (Method r ≠ "POST") then inl ("Method not allowed", 405%Z)
  else match decode_manage (AdminBody r) with
  | inl e => inl (e, 400%Z)
  | inr req =>
      if decide (manage_VirtualNamespace req = "" ∨ manage_PhysicalNamespace req = "" ∨
                 manage_ClusterAddress req = "")
      then inl ("virtual_namespace, physical_namespace, and cluster_address are required", 400%Z)
      else match Resolve_ns registry (manage_VirtualNamespace req) with
           | None => inl ("virtual namespace not found", 404%Z)
           | Some vNs => inr (req, vNs)
           end
  end.

Definition handle_add (r : AdminRequest) (w : ResponseWriter)
    : GoM VirtualNamespaceRegistry ResponseWriter :=
  registry ← gets id;
  match manage_guard r registry with
  | inl (e, code) => mret (http_Error e code w)
  | inr (req, vNs) =>
      let formattedName :=
        buildPhysicalNamespace (manage_PhysicalNamespace req) (manage_ClusterAddress req) in
      modify (update_ns (manage_VirtualNamespace req) (Add (mkNamespace None formattedName) vNs));;
      mret (Write (text ("Physical namespace '" +:+ manage_PhysicalNamespace req +:+
                         "' added to virtual namespace '" +:+ manage_VirtualNamespace req +:+ "'"))
              (WriteHeader 200 w))
  end.

(** What [Remove] wrote before a panic stays written. *)
Definition handle_remove (r : AdminRequest) (w : ResponseWriter)
    : GoM VirtualNamespaceRegistry ResponseWriter :=
  registry ← gets id;
  match manage_guard r registry with
  | inl (e, code) => mret (http_Error e code w)
  | inr (req, vNs) =>
      let formattedName :=
        buildPhysicalNamespace (manage_PhysicalNamespace req) (manage_ClusterAddress req) in
      let removed := Remove (mkNamespace None formattedName) vNs in
      modify (update_ns (manage_VirtualNamespace req) removed.1);;
      lift removed.2;;
      mret (Write (text ("Physical namespace '" +:+ manage_PhysicalNamespace req +:+
                         "' removed from virtual namespace '" +:+ manage_VirtualNamespace req +:+ "'"))
              (WriteHeader 200 w))
  end.

(** The response of [/namespace/virtual/get]: the encoder sorts the keys and
    ends with a newline. *)
Definition get_response (name : string) (statuses : gmap string NamespaceStatus) : list byte :=
  x7b :: encode_members [(quote "name", quote name);
                         (quote "physical_namespaces", encode_map quote statuses)]
      ++ [x7d; x0a].

Definition handle_get (r : AdminRequest) (w : ResponseWriter)
    : GoM VirtualNamespaceRegistry ResponseWriter :=
  if decide (Method r ≠ "GET") then mret (http_Error "Method not allowed" 405 w)
  else if decide (QueryName r = "") then mret (http_Error "name query parameter is required" 400 w)
  else
    registry ← gets id;
    match Resolve_ns registry (QueryName r) with
    | None => mret (http_Error "virtual namespace not found" 404 w)
    | Some vNs =>
        mret (Write (get_response (QueryName r) (GetAllNamespacesWithStatus vNs))
                (set_header "Content-Type" ["application/json"] w))
    end.

(** The multiplexer, on clean paths; the metrics endpoint is Prometheus's. *)
Inductive endpoint := EpCreate | EpAdd | EpRemove | EpGet | EpMetrics | EpNotFound.

Definition admin_route (path : string) : endpoint :=
  if decide (path = "/namespace/virtual/create") then EpCreate
  else if decide (path = "/namespace/physical/add") then EpAdd
  else if decide (path = "/namespace/physical/remove") then EpRemove
  else if decide (path = "/namespace/virtual/get") then EpGet
  else if decide (path = "/metrics") then EpMetrics
  else EpNotFound.

Definition serve_admin (metrics : ResponseWriter → ResponseWriter) (r : AdminRequest)
    : GoM VirtualNamespaceRegistry ResponseWriter :=
  match admin_route (AdminPath r) with
  | EpCreate => handle_create r new_writer
  | EpAdd => handle_add r new_writer
  | EpRemove => handle_remove r new_writer
  | EpGet => handle_get r new_writer
  | EpMetrics => mret (metrics new_writer)
  | EpNotFound => mret (http_Error "404 page not found" 404 new_writer)
  end.
End admin.

(** * Histories of the admin API *)

Section admin_facts.
Context {M3 : Murmur3} (json_err : list byte → string) (metrics : ResponseWriter → ResponseWriter).

(** A history goes on after a panic: the HTTP server recovers it. *)
Fixpoint run_admin (rs : list AdminRequest) (vr : VirtualNamespaceRegistry)
    : VirtualNamespaceRegistry * list (res ResponseWriter) :=
  match rs with
  | [] => (vr, [])
  | r :: rs =>
      let o := serve_admin json_err metrics r vr in
      let rest := run_admin rs o.1 in
      (rest.1, o.2 :: rest.2)
  end.

(** What every virtual namespace in the registry satisfies. *)
Record vns_ok (name : string) (v : VirtualNamespace) : Prop := {
  vns_name : Name v = name;
  vns_safe : ns_safe v;
  vns_delim : ∀ s, is_Some (Namespaces v !! s) → Contains s delim = true;
  vns_status : ∀ s st, Namespaces v !! s = Some st → st = NamespaceActive ∨ st = NamespaceCordoned
}.

Definition admin_ok (vr : VirtualNamespaceRegistry) : Prop :=
  ∀ name v, Resolve_ns vr name = Some v → vns_ok name v.

Lemma Contains_build n a : Contains (buildPhysicalNamespace n a) delim = true.
Proof.
  unfold Contains. apply bool_decide_eq_true. rewrite build_unfold.
  induction n as [|c n IH]; [by exists 0|].
  rewrite !str_cons_app. simpl Index. destruct (HasPrefix _ _); [by eexists|].
  destruct IH as [k Hk]. rewrite Hk. by eexists.
Qed.

Lemma vns_ok_new name : vns_ok name (NewVirtualNamespace name).
Proof.
  split; [done|apply ns_safe_new| |]; simpl.
  - intros s [x Hx]. by rewrite lookup_empty in Hx.
  - intros s st Hx. by rewrite lookup_empty in Hx.
Qed.

(** Adding or removing a physical namespace preserves it, even when the removal
    panics. *)
Lemma vns_ok_op vn v op :
  Contains (ns_op_name op) delim = true → vns_ok vn v → vns_ok vn (run_ns_op op v).1.
Proof.
  intros Hd [Hn Hs Hdel Hst].
  assert (ns_safe (run_ns_op op v).1) as Hs' by (by apply ns_safe_op).
  destruct op as [s|s]; cbn [ns_op_name] in Hd.
  - split; [done|done| |]; cbn [run_ns_op modify fst Add Namespaces name];
      intros t; [intros Ht|intros st Ht]; (destruct (decide (s = t)) as [<-|Hne];
      [rewrite lookup_insert_eq in Ht|rewrite lookup_insert_ne in Ht by done]); eauto.
    left. congruence.
  - split; [done|done| |]; intros t.
    + cbn [run_ns_op]. rewrite Remove_Namespaces. case_decide; [by subst|apply Hdel].
    + cbn [run_ns_op]. intros st. rewrite Remove_Namespaces. case_decide; [|apply Hst].
      intros (? & _ & ->)%fmap_Some. by right.
Qed.

Lemma admin_ok_update name v vr : vns_ok name v → admin_ok vr → admin_ok (update_ns name v vr).
Proof.
  intros Hv Hvr n u. unfold Resolve_ns. simpl. destruct (decide (name = n)) as [<-|].
  - rewrite lookup_insert_eq. by intros [= <-].
  - rewrite lookup_insert_ne by done. apply Hvr.
Qed.

Lemma manage_guard_inr r vr req v :
  manage_guard json_err r vr = inr (req, v) → Resolve_ns vr (manage_VirtualNamespace req) = Some v.
Proof. unfold manage_guard. intros. by repeat (case_match || case_decide); simplify_eq. Qed.

Lemma admin_ok_serve r vr : admin_ok vr → admin_ok (serve_admin json_err metrics r vr).1.
Proof.
  intros Hvr. unfold serve_admin. destruct (admin_route (AdminPath r)); try done.
  - unfold handle_create. case_decide; [done|]. destruct (decode_create _ _) as [|req]; [done|].
    case_decide; [done|]. go_simpl. cbn [id]. destruct (Resolve_ns _ _); [done|].
    apply (admin_ok_update (create_Name req)); [apply vns_ok_new|done].
  - unfold handle_add. go_simpl. cbn [id].
    destruct (manage_guard json_err r vr) as [[e code]|[req v]] eqn:E; [done|].
    apply manage_guard_inr in E. apply admin_ok_update; [|done].
    apply (vns_ok_op _ v (NsAdd _)); [apply Contains_build|by apply Hvr].
  - unfold handle_remove. go_simpl. cbn [id].
    destruct (manage_guard json_err r vr) as [[e code]|[req v]] eqn:E; [done|].
    apply manage_guard_inr in E.
    set (rm := Remove _ v). assert (admin_ok (update_ns (manage_VirtualNamespace req) rm.1 vr)) as Hok.
    { apply admin_ok_update; [|done].
      apply (vns_ok_op _ v (NsRemove _)); [apply Contains_build|by apply Hvr]. }
    by destruct rm.2.
  - unfold handle_get. case_decide; [done|]. case_decide; [done|]. go_simpl. cbn [id].
    by destruct (Resolve_ns _ _).
Qed.

(** * The answer of [/namespace/virtual/get] *)

Lemma get_response_reads vn statuses :
  utf8 (bytes_of vn) →
  map_Forall (λ k st, utf8 (bytes_of k) ∧ utf8 (bytes_of st)) statuses →
  ∃ m, read_document (get_response vn statuses) =
         Some (JObject [(bytes_of "name", JString (bytes_of vn));
                        (bytes_of "physical_namespaces", m)]) ∧
       decode_object decode_string m = Some statuses.
Proof.
  intros Hn Hst.
  set (m := JObject (member_val (λ st, JString (bytes_of st)) <$> sorted_pairs statuses)).
  exists m. split.
  - set (kvs := [("name", (quote vn, JString (bytes_of vn)));
                 ("physical_namespaces", (encode_map quote statuses, m))]).
    assert (get_response vn statuses =
      (x7b :: encode_members (member fst <$> kvs) ++ [x7d]) ++ [x0a]) as ->.
    { unfold get_response. by rewrite <-app_comm_cons, <-(assoc_L (++)). }
    apply read_document_reads_as; [|done]. apply (reads_as_object fst snd 0 kvs); [done|].
    repeat (apply Forall_cons; split); [..|done]; (split; [solve_utf8|]).
    + by apply reads_as_quote.
    + apply reads_as_map; [done|]. intros k st Hk. destruct (Hst k st Hk).
      split; [done|]. by apply reads_as_quote.
  - apply decode_object_members. intros k st _. simpl. by rewrite string_of_bytes_of.
Qed.
End admin_facts.

(** * Properties of the admin API *)

Section admin_theorems.
Context {M3 : Murmur3} (json_err : list byte → string) (metrics : ResponseWriter → ResponseWriter).

Lemma http_Error_status msg code : status (http_Error msg code new_writer) = code.
Proof. done. Qed.

(** C17: the admin API keeps the registry well-formed.  After any history of
    admin requests, the ones that panic included, every virtual namespace is
    filed under its own name, every physical namespace in it has a delimiter
    (so that no poll and no resolution of it panics) and is active or cordoned,
    and its ring allocates only active ones. *)
Theorem admin_keeps_registry_ok rs name v key :
  Resolve_ns (run_admin json_err metrics rs (mkRegistry ∅)).1 name = Some v →
  vns_ok name v ∧
  (GetSlot (Ring v) key = "" ∨ Namespaces v !! GetSlot (Ring v) key = Some NamespaceActive) ∧
  ∀ s, s ∈ GetAllNamespaces v → ∃ ns, parsePhysicalNamespace s = Ok ns.
Proof.
  assert (∀ vr, admin_ok vr → admin_ok (run_admin json_err metrics rs vr).1) as Hrun.
  { induction rs as [|r rs IH]; intros vr Hvr; [done|]. by apply IH, admin_ok_serve. }
  intros Hv. assert (vns_ok name v) as Hok by (by apply (Hrun (mkRegistry ∅))).
  split; [done|]. split; [apply ns_safe_GetSlot, (vns_safe _ _ Hok)|].
  intros s Hs%elem_of_GetAllNamespaces. apply (vns_delim _ _ Hok) in Hs.
  apply parse_delim in Hs as (addr & n & ->). eauto.
Qed.

(** A request refused with a code, the registry being left as it was. *)
Definition refused (code : Z) (o : VirtualNamespaceRegistry * res ResponseWriter)
    (vr : VirtualNamespaceRegistry) : Prop :=
  o.1 = vr ∧ ∃ w, o.2 = Ok w ∧ status w = code.

(** Virtual namespace [vn] is [v'] now, the others are as they were. *)
Definition replaced (vn : string) (v' : VirtualNamespace) (vr vr' : VirtualNamespaceRegistry) : Prop :=
  Resolve_ns vr' vn = Some v' ∧ ∀ n, n ≠ vn → Resolve_ns vr' n = Resolve_ns vr n.

Lemma replaced_update vn v' vr : replaced vn v' vr (update_ns vn v' vr).
Proof.
  unfold replaced, Resolve_ns, update_ns. cbn [namespaces]. rewrite lookup_insert_eq.
  split; [done|]. intros n Hn. by rewrite lookup_insert_ne.
Qed.

(** What an addition makes of a virtual namespace. *)
Definition added (slot : string) (v v' : VirtualNamespace) : Prop :=
  Namespaces v' = <[slot := NamespaceActive]> (Namespaces v) ∧
  (∀ h, vnodeToSlot (Ring v') !! h =
          if decide (h ∈ vhashes (virtualNodes (Ring v)) slot) then Some slot
          else vnodeToSlot (Ring v) !! h) ∧
  (ring_wf (Ring v) → ring_wf (Ring v') ∧
     (ring (Ring v) ≠ [] → ∀ key, GetSlot (Ring v') key = GetSlot (Ring v) key ∨
                                  GetSlot (Ring v') key = slot)).

(** What a removal makes of one: the status is set and the owners are dropped
    whether or not it goes on to panic. *)
Definition removed (slot : string) (v v' : VirtualNamespace) : Prop :=
  (∀ s, Namespaces v' !! s =
          if decide (s = slot) then (λ _, NamespaceCordoned) <$> Namespaces v !! s
          else Namespaces v !! s) ∧
  (∀ h, vnodeToSlot (Ring v') !! h =
          if decide (h ∈ vhashes (virtualNodes (Ring v)) slot) then None
          else vnodeToSlot (Ring v) !! h).

Lemma Add_added slot v : added slot v (Add (mkNamespace None slot) v).
Proof.
  split; [done|]. split; [intros h; apply AddSlot_map|]. intros Hwf.
  split; [by apply ring_wf_AddSlot|]. intros Hne key. by apply AddSlot_stays_or_new.
Qed.

Lemma Remove_removed slot v : removed slot v (Remove (mkNamespace None slot) v).1.
Proof.
  split; [|intros h; rewrite Remove_Ring; apply RemoveSlot_map].
  intros s. rewrite Remove_Namespaces. by case_decide; subst.
Qed.

Lemma serve_add method q b :
  serve_admin json_err metrics (mkAdminRequest method "/namespace/physical/add" q b) =
    handle_add json_err (mkAdminRequest method "/namespace/physical/add" q b) new_writer.
Proof. reflexivity. Qed.

Lemma serve_remove method q b :
  serve_admin json_err metrics (mkAdminRequest method "/namespace/physical/remove" q b) =
    handle_remove json_err (mkAdminRequest method "/namespace/physical/remove" q b) new_writer.
Proof. reflexivity. Qed.

(** The two endpoints share their guards. *)
Lemma manage_refused path method q b vr e code :
  path = "/namespace/physical/add" ∨ path = "/namespace/physical/remove" →
  manage_guard json_err (mkAdminRequest method path q b) vr = inl (e, code) →
  refused code (serve_admin json_err metrics (mkAdminRequest method path q b) vr) vr.
Proof.
  intros [-> | ->] Hg; rewrite ?serve_add, ?serve_remove; unfold handle_add, handle_remove; go_simpl;
    cbn [id]; rewrite Hg; (split; [done|by eexists]).
Qed.

(** C18: what a request to manage a physical namespace is answered and changes.
    Another method than POST is answered 405, a body that does not decode and an
    empty field 400, an unknown virtual namespace 404, and nothing changes.
    Otherwise only that virtual namespace changes: an addition is answered 200, makes
    the physical namespace active and the owner of its virtual nodes, so that keys
    stay where they were or move to it; a removal cordons it if it was known and
    takes its virtual nodes off the ring, so that no key is allocated to it any
    more, answered 200, or panics when the ring is shorter than the virtual
    nodes to take, with the status already changed. *)
Theorem manage_effect method q b vr :
  let serve path := serve_admin json_err metrics (mkAdminRequest method path q b) vr in
  let add := serve "/namespace/physical/add" in
  let remove := serve "/namespace/physical/remove" in
  let both_refused code := refused code add vr ∧ refused code remove vr in
  (method ≠ "POST" → both_refused 405%Z) ∧
  (method = "POST" →
   match decode_manage json_err b with
   | inl _ => both_refused 400%Z
   | inr (mkManage vn ns addr) =>
       (vn = "" ∨ ns = "" ∨ addr = "" → both_refused 400%Z) ∧
       (vn ≠ "" → ns ≠ "" → addr ≠ "" →
        match Resolve_ns vr vn with
        | None => both_refused 404%Z
        | Some v =>
            let slot := buildPhysicalNamespace ns addr in
            (∃ v' w, add.2 = Ok w ∧ status w = 200%Z ∧ replaced vn v' vr add.1 ∧ added slot v v') ∧
            (∃ v', replaced vn v' vr remove.1 ∧ removed slot v v' ∧
               if decide (virtualNodes (Ring v) ≤ length (ring (Ring v)))
               then (∃ w, remove.2 = Ok w ∧ status w = 200%Z) ∧
                    (ring_wf (Ring v) → ∀ key, GetSlot (Ring v') key ≠ slot)
               else is_panic remove.2 = true)
        end)
   end).
Proof.
  intros serve add remove both_refused.
  assert (∀ e code, (∀ path, manage_guard json_err (mkAdminRequest method path q b) vr = inl (e, code)) →
    both_refused code) as Href.
  { intros e code Hg. split; (eapply manage_refused; [auto|apply Hg]). }
  split; [intros Hm; eapply Href; intros path; unfold manage_guard; by rewrite decide_True|].
  intros ->. destruct (decode_manage json_err b) as [e|[vn ns addr]] eqn:Ed.
  { eapply Href. intros path. unfold manage_guard. cbn [Method AdminBody].
    rewrite decide_False by tauto. by rewrite Ed. }
  split.
  { intros He. eapply Href. intros path. unfold manage_guard. cbn [Method AdminBody].
    rewrite decide_False by tauto. rewrite Ed. cbn. by rewrite decide_True. }
  intros Hvn Hns Haddr.
  assert (∀ path, manage_guard json_err (mkAdminRequest "POST" path q b) vr =
    match Resolve_ns vr vn with
    | None => inl ("virtual namespace not found", 404%Z)
    | Some v => inr (mkManage vn ns addr, v)
    end) as Hg.
  { intros path. unfold manage_guard. cbn [Method AdminBody]. rewrite decide_False by tauto.
    rewrite Ed. cbn. by rewrite decide_False by tauto. }
  destruct (Resolve_ns vr vn) as [v|] eqn:Hv; [|by eapply Href].
  set (slot := buildPhysicalNamespace ns addr). split.
  - exists (Add (mkNamespace None slot) v). subst add serve. cbn beta.
    rewrite serve_add. unfold handle_add. go_simpl. cbn [id]. rewrite Hg. eexists.
    split; [done|]. split; [done|]. split; [apply replaced_update|apply Add_added].
  - exists (Remove (mkNamespace None slot) v).1. subst remove serve. cbn beta.
    rewrite serve_remove. unfold handle_remove. go_simpl. cbn [id]. rewrite Hg. fold slot.
    cbn [manage_PhysicalNamespace manage_ClusterAddress manage_VirtualNamespace]. fold slot.
    pose proof (RemoveSlot_ok_iff slot (Ring v)) as Hok.
    assert ((Remove (mkNamespace None slot) v).2 = (RemoveSlot slot (Ring v)).2) as Hrm by done.
    case_decide as Hlen.
    + rewrite Hrm, (proj2 Hok Hlen). split; [apply replaced_update|]. split; [apply Remove_removed|].
      split; [by eexists|]. intros Hwf key. rewrite Remove_Ring.
      apply RemoveSlot_gone; [done|done|]. unfold slot. rewrite build_unfold. by destruct ns.
    + destruct (RemoveSlot_short slot (Ring v)) as [Hp _]; [lia|].
      rewrite Hrm, Hp. split; [apply replaced_update|]. split; [apply Remove_removed|done].
Qed.

(** What [/namespace/virtual/get] answers.  For a registered virtual
    namespace the answer is 200 with a JSON document that reads back as its
    name and exactly its physical namespaces with their statuses. *)
Theorem get_reports_statuses r vr v :
  Method r = "GET" → QueryName r ≠ "" → Resolve_ns vr (QueryName r) = Some v →
  utf8 (bytes_of (QueryName r)) →
  map_Forall (λ k st, utf8 (bytes_of k) ∧ utf8 (bytes_of st)) (Namespaces v) →
  ∃ w m, handle_get r new_writer vr = (vr, Ok w) ∧ status w = 200%Z ∧
    read_document (wBody w) =
      Some (JObject [(bytes_of "name", JString (bytes_of (QueryName r)));
                     (bytes_of "physical_namespaces", m)]) ∧
    decode_object decode_string m = Some (Namespaces v).
Proof.
  intros Hm Hn Hv Hu Hst.
  destruct (get_response_reads (QueryName r) (Namespaces v) Hu Hst) as (m & Hr & Hd).
  unfold handle_get. rewrite decide_False by (rewrite Hm; tauto). rewrite decide_False by done.
  go_simpl. cbn [id]. rewrite Hv, GetAllNamespacesWithStatus_eq. eexists _, m.
  split; [reflexivity|]. split; [done|]. by split.
Qed.
End admin_theorems.

(** * The properties at concrete requests *)

Definition w_json (s : string) : body :=
  (* quotes are written as apostrophes *)
  BodyBytes ((λ b, if decide (b = x27) then x22 else b) <$> bytes_of s).

Definition w_post (path s : string) : AdminRequest := mkAdminRequest "POST" path "" (w_json s).

Definition w_admin_history : list AdminRequest :=
  [w_post "/namespace/virtual/create" "{ 'name' : 'v' }";
   w_post "/namespace/physical/add"
     "{'virtual_namespace':'v', 'Physical_Namespace':'ns1', 'cluster_address':'c1:7233'}";
   w_post "/namespace/physical/remove"
     "{'virtual_namespace':'v', 'physical_namespace':'ns9', 'cluster_address':'c9:7233'}"].

Definition w_admin (rs : list AdminRequest) : VirtualNamespaceRegistry :=
  (run_admin (M3 := Murmur3_ref) (λ _, "invalid") id rs (mkRegistry ∅)).1.

Definition w_admin_vns : VirtualNamespace :=
  default (NewVirtualNamespace "") (Resolve_ns (w_admin w_admin_history) "v").

Lemma w_admin_resolves : Resolve_ns (w_admin w_admin_history) "v" = Some w_admin_vns.
Proof.
  assert (is_Some (Resolve_ns (w_admin w_admin_history) "v")) as [v Hv].
  { apply (bool_decide_unpack _). vm_compute. exact I. }
  unfold w_admin_vns. by rewrite Hv.
Qed.

Lemma admin_keeps_registry_ok_witness :
  vns_ok (M3 := Murmur3_ref) "v" w_admin_vns ∧
  (GetSlot (M3 := Murmur3_ref) (Ring w_admin_vns) "wf-1" = "" ∨
   Namespaces w_admin_vns !! GetSlot (M3 := Murmur3_ref) (Ring w_admin_vns) "wf-1"
     = Some NamespaceActive) ∧
  ∀ s, s ∈ GetAllNamespaces w_admin_vns → ∃ ns, parsePhysicalNamespace s = Ok ns.
Proof.
  apply (admin_keeps_registry_ok (M3 := Murmur3_ref) (λ _, "invalid") id w_admin_history).
  exact w_admin_resolves.
Defined.

Definition w_manage_body : body :=
  w_json "{'virtual_namespace':'v', 'physical_namespace':'ns2', 'cluster_address':'c2:7233'}".

Lemma w_manage_decodes : decode_manage (λ _, "invalid") w_manage_body = inr (mkManage "v" "ns2" "c2:7233").
Proof. vm_compute. reflexivity. Qed.

(** Whether the ring of "v" is long enough for a removal. *)
Definition w_enough (vr : VirtualNamespaceRegistry) : option bool :=
  (λ v, bool_decide (virtualNodes (Ring v) ≤ length (ring (Ring v)))) <$> Resolve_ns vr "v".

(** An addition, and the removals that go well and that panic: of an unknown
    namespace from a ring of one slot, and from the empty ring of a virtual
    namespace just created. *)
Lemma manage_effect_witness :
  let serve path vr := serve_admin (M3 := Murmur3_ref) (λ _, "invalid") id
                         (mkAdminRequest "POST" path "" w_manage_body) vr in
  let vr := w_admin (take 2 w_admin_history) in
  (∃ w, (serve "/namespace/physical/add" vr).2 = Ok w ∧ status w = 200%Z) ∧
  (∃ w, (serve "/namespace/physical/remove" vr).2 = Ok w ∧ status w = 200%Z) ∧
  is_panic (serve "/namespace/physical/remove" (w_admin (take 1 w_admin_history))).2 = true.
Proof.
  assert (w_enough (w_admin (take 2 w_admin_history)) = Some true) as H2 by (vm_compute; reflexivity).
  assert (w_enough (w_admin (take 1 w_admin_history)) = Some false) as H1 by (vm_compute; reflexivity).
  destruct (manage_effect (M3 := Murmur3_ref) (λ _, "invalid") id "POST" "" w_manage_body
    (w_admin (take 2 w_admin_history))) as [_ E2].
  destruct (manage_effect (M3 := Murmur3_ref) (λ _, "invalid") id "POST" "" w_manage_body
    (w_admin (take 1 w_admin_history))) as [_ E1].
  specialize (E1 eq_refl). specialize (E2 eq_refl). rewrite w_manage_decodes in E1, E2.
  destruct E1 as [_ E1], E2 as [_ E2].
  specialize (E1 ltac:(discriminate) ltac:(discriminate) ltac:(discriminate)).
  specialize (E2 ltac:(discriminate) ltac:(discriminate) ltac:(discriminate)).
  unfold w_enough in H1, H2.
  destruct (Resolve_ns (w_admin (take 1 w_admin_history)) "v") as [v1|]; [|discriminate H1].
  destruct (Resolve_ns (w_admin (take 2 w_admin_history)) "v") as [v2|]; [|discriminate H2].
  injection H1 as H1%bool_decide_eq_false. injection H2 as H2%bool_decide_eq_true.
  destruct E2 as [(va & w & Hw & Hs & _) (vb & _ & _ & E2)].
  rewrite decide_True in E2 by exact H2. destruct E1 as [_ (vc & _ & _ & E1)].
  rewrite decide_False in E1 by exact H1. split; [exists w; exact (conj Hw Hs)|]. split; [exact (proj1 E2)|exact E1].
Defined.

Lemma get_reports_statuses_witness :
  ∃ w m, handle_get (mkAdminRequest "GET" "/namespace/virtual/get" "v" (BodyBytes [])) new_writer
           (w_admin w_admin_history) = (w_admin w_admin_history, Ok w) ∧
    status w = 200%Z ∧
    read_document (wBody w) =
      Some (JObject [(bytes_of "name", JString (bytes_of "v"));
                     (bytes_of "physical_namespaces", m)]) ∧
    decode_object decode_string m = Some (Namespaces w_admin_vns).
Proof.
  apply (get_reports_statuses (mkAdminRequest "GET" "/namespace/virtual/get" "v" (BodyBytes []))
    (w_admin w_admin_history) w_admin_vns).
  - reflexivity.
  - discriminate.
  - exact w_admin_resolves.
  - simpl. solve_utf8.
  - assert (Namespaces w_admin_vns = {["ns1::c1:7233" := "active"]}) as ->
      by (vm_compute; reflexivity).
    apply map_Forall_singleton. split; solve_utf8.
Defined.
