(* ===== verification/ResolveRace.v ===== *)
(** Concurrent resolutions.  [Resolver.Resolve] is not one atomic action: it
    reads the cache, then looks the virtual namespace up and consults its ring
    under its read lock, then writes the cache.  This file interleaves these
    actions, and requests to the admin API, as a step relation. *)

From S2P Require Import Prelude GoStrings GoSort ConsistentHash RingSpec Murmur Namespaces.
From S2P Require Import Mappings Resolver Wire Http Json Admin.
From stdpp Require Import relations.
From stdpp Require Import options.

(** Where a call of [Resolve] for a workflow id stands. *)
Inductive thread :=
| TStart (key : string)                  (* before [r.Cache.Get(key)] *)
| TMiss (key : string)                   (* the cache missed *)
| TChosen (key physNs : string)          (* the ring answered, [Put] pending *)
| TDone (key physNs : string).           (* returned *)

Definition thread_key (t : thread) : string :=
  match t with TStart k | TMiss k | TChosen k _ | TDone k _ => k end.

Record conc := mkConc {
  c_store : gmap string string;      (* the shared cache *)
  c_registry : VirtualNamespaceRegistry;
  c_threads : list thread
}.

Section races.
Context {M3 : Murmur3} (json_err : list byte → string) (metrics : ResponseWriter → ResponseWriter).

(** The virtual namespace that the calls name. *)
Context (vn : string).

(** What a call allocates: the registry's entries are pointers, so the ring
    consulted is the current one; an unknown virtual namespace has none. *)
Definition allocation (reg : VirtualNamespaceRegistry) (key : string) : option string :=
  (λ v, GetSlot (Ring v) key) <$> Resolve_ns reg vn.

(** One atomic action of thread [i]. *)
Inductive thread_step : conc → conc → Prop :=
| step_hit T r ts i k s :
    ts !! i = Some (TStart k) → T !! k = Some s → s ≠ "" →
    thread_step (mkConc T r ts) (mkConc T r (<[i := TDone k s]> ts))
| step_miss T r ts i k :
    ts !! i = Some (TStart k) → default "" (T !! k) = "" →
    thread_step (mkConc T r ts) (mkConc T r (<[i := TMiss k]> ts))
| step_choose T r ts i k s :
    ts !! i = Some (TMiss k) → allocation r k = Some s →
    thread_step (mkConc T r ts) (mkConc T r (<[i := TChosen k s]> ts))
| step_unknown T r ts i k :
    ts !! i = Some (TMiss k) → allocation r k = None →
    thread_step (mkConc T r ts) (mkConc T r (<[i := TDone k ""]> ts))
| step_put T r ts i k s :
    ts !! i = Some (TChosen k s) →
    thread_step (mkConc T r ts) (mkConc (<[k := s]> T) r (<[i := TDone k s]> ts)).

(** The admin API serves a request between two actions. *)
Inductive conc_step : conc → conc → Prop :=
| conc_thread c c' : thread_step c c' → conc_step c c'
| conc_admin T reg req ts :
    conc_step (mkConc T reg ts) (mkConc T (serve_admin json_err metrics req reg).1 ts).

(** A call that runs without interference does what [Resolve] does. *)
Lemma thread_alone T reg key :
  let r := abs_Resolve (mkPayload key vn) reg T in
  rtc thread_step (mkConc T reg [TStart key]) (mkConc r.1 reg [TDone key r.2.1]).
Proof.
  unfold abs_Resolve. cbn [WorkflowID PayloadNamespace].
  assert (default "" (T !! key) = "" →
    rtc thread_step (mkConc T reg [TStart key])
      match namespaces reg !! vn with
      | Some v => mkConc (<[key := GetSlot (Ring v) key]> T) reg [TDone key (GetSlot (Ring v) key)]
      | None => mkConc T reg [TDone key ""]
      end) as Hmiss.
  { intros Hd. eapply rtc_l; [by eapply (step_miss _ _ _ 0)|].
    destruct (namespaces reg !! vn) as [v|] eqn:Hv.
    - eapply rtc_l; [eapply (step_choose _ _ _ 0); [done|unfold allocation, Resolve_ns; by rewrite Hv]|].
      eapply rtc_l; [by eapply (step_put _ _ _ 0)|]. apply rtc_refl.
    - eapply rtc_l; [eapply (step_unknown _ _ _ 0); [done|unfold allocation, Resolve_ns; by rewrite Hv]|].
      apply rtc_refl. }
  destruct (T !! key) as [s|] eqn:E; [case_decide as Hs|]; simpl in *.
  - eapply rtc_l; [by eapply (step_hit _ _ _ 0)|]. apply rtc_refl.
  - destruct (decide (s = "")) as [He|]; [|tauto]. specialize (Hmiss He). by destruct (namespaces reg !! vn).
  - specialize (Hmiss eq_refl). by destruct (namespaces reg !! vn).
Qed.

(** All calls agree with the ring on the keys that were not cached at first. *)
Definition thread_ok (T0 : gmap string string) (reg : VirtualNamespaceRegistry) (t : thread) : Prop :=
  T0 !! thread_key t = None →
  match t with
  | TChosen k s => allocation reg k = Some s
  | TDone k s => s = default "" (allocation reg k)
  | _ => True
  end.

Definition agrees (T0 : gmap string string) (c : conc) : Prop :=
  (∀ k s, T0 !! k = None → c_store c !! k = Some s → allocation (c_registry c) k = Some s) ∧
  (∀ t, t ∈ c_threads c → thread_ok T0 (c_registry c) t).

Lemma agrees_insert T0 r (ts : list thread) i t :
  (∀ u, u ∈ ts → thread_ok T0 r u) → thread_ok T0 r t →
  ∀ u, u ∈ <[i := t]> ts → thread_ok T0 r u.
Proof.
  intros Hts Ht u Hu. apply list_elem_of_lookup in Hu as [j Hj].
  apply list_lookup_insert_Some in Hj as [(-> & <- & _)|[_ Hj]]; [done|].
  apply Hts, list_elem_of_lookup. eauto.
Qed.

Lemma agrees_step T0 c c' : thread_step c c' → agrees T0 c → agrees T0 c'.
Proof.
  intros Hstep [HT Hts]. destruct Hstep as [T r ts i k s Hi Hk Hs|T r ts i k Hi Hk
    |T r ts i k s Hi Ha|T r ts i k Hi Ha|T r ts i k s Hi]; simpl in *.
  - split; simpl; [done|]. apply agrees_insert; [done|]. intros Hk0. cbn in *.
    by rewrite (HT k s Hk0 Hk).
  - split; simpl; [done|]. by apply agrees_insert.
  - split; simpl; [done|]. apply agrees_insert; [done|]. intros _. exact Ha.
  - split; simpl; [done|]. apply agrees_insert; [done|]. intros _. by rewrite Ha.
  - assert (thread_ok T0 r (TChosen k s)) as Hc by (apply Hts, list_elem_of_lookup; eauto).
    split; simpl; [|apply agrees_insert; [done|intros Hk; cbn; by rewrite (Hc Hk)]].
    intros k' s' Hk'. destruct (decide (k = k')) as [<-|].
    + rewrite lookup_insert_eq. intros [= <-]. by apply Hc.
    + rewrite lookup_insert_ne by done. by apply HT.
Qed.

(** Concurrent resolutions agree while the registry is unchanged.  In every
    interleaving of any number of [Resolve] calls without an admin action, all
    calls that finish for a workflow id that was not cached return the same
    physical namespace, the ring's choice, and that is what stays cached. *)
Theorem concurrent_resolves_agree T0 reg keys c :
  rtc thread_step (mkConc T0 reg (TStart <$> keys)) c →
  (∀ k s, TDone k s ∈ c_threads c → T0 !! k = None → s = default "" (allocation reg k)) ∧
  (∀ k s, T0 !! k = None → c_store c !! k = Some s → allocation reg k = Some s).
Proof.
  intros Hrun.
  assert (agrees T0 (mkConc T0 reg (TStart <$> keys))) as H0.
  { split; simpl; [naive_solver|]. intros t (k & -> & _)%list_elem_of_fmap. done. }
  assert (c_registry c = reg ∧ agrees T0 c) as [Hr [HT Hts]].
  { remember (mkConc T0 reg (TStart <$> keys)) as c0 eqn:E.
    assert (c_registry c0 = reg) as Hr0 by (by subst). clear E.
    induction Hrun as [c0|c0 c1 c2 Hstep Hrun IH]; [done|].
    apply IH; [by eapply agrees_step|by destruct Hstep]. }
  rewrite Hr in *. split; [|done]. intros k s Hin Hk. by apply (Hts _ Hin).
Qed.

(** Any history of admin requests is a run. *)
Lemma admin_run T reg reqs ts :
  rtc conc_step (mkConc T reg ts) (mkConc T (run_admin json_err metrics reqs reg).1 ts).
Proof.
  revert reg. induction reqs as [|req reqs IH]; intros reg; [done|].
  eapply rtc_l; [apply (conc_admin _ _ req)|]. apply IH.
Qed.

(** Two calls for a workflow that is not cached, on both sides of an admin
    request that moves it. *)
Lemma race_run T reg req k s s' :
  T !! k = None → allocation reg k = Some s →
  allocation (serve_admin json_err metrics req reg).1 k = Some s' →
  rtc conc_step (mkConc T reg [TStart k; TStart k])
    (mkConc (<[k := s]> (<[k := s']> T)) (serve_admin json_err metrics req reg).1
       [TDone k s; TDone k s']).
Proof.
  intros HT Hs Hs'. assert (default "" (T !! k) = "") as Hd by (by rewrite HT).
  eapply rtc_l; [apply conc_thread; by eapply (step_miss _ _ _ 0)|].
  eapply rtc_l; [apply conc_thread; by eapply (step_choose _ _ _ 0)|].
  eapply rtc_l; [apply (conc_admin _ _ req)|].
  eapply rtc_l; [apply conc_thread; by eapply (step_miss _ _ _ 1)|].
  eapply rtc_l; [apply conc_thread; by eapply (step_choose _ _ _ 1)|].
  eapply rtc_l; [apply conc_thread; by eapply (step_put _ _ _ 1)|].
  eapply rtc_l; [apply conc_thread; by eapply (step_put _ _ _ 0)|].
  apply rtc_refl.
Qed.
End races.

(** * The race

    The admin API creates a virtual namespace and registers a first physical
    namespace; two calls for the same new workflow id straddle the registration
    of a second one. *)

Notation race_step := (conc_step (M3 := Murmur3_ref) (λ _, "invalid") id "v").

Definition race_key : string := "wf-2".
Definition race_add : AdminRequest := mkAdminRequest "POST" "/namespace/physical/add" "" w_manage_body.
Definition race_registry : VirtualNamespaceRegistry := w_admin (take 2 w_admin_history).

(** C23: a resolution that straddles a registration breaks stickiness.  From an
    empty proxy, by requests to the admin API and two calls of [Resolve] for one
    workflow id whose actions interleave with the last of these requests, a state
    is reached in which the two calls have returned different physical
    namespaces, each of them the choice of the ring it saw, and the cache keeps
    only the one written last, that of the older ring. *)
Theorem resolve_race_splits_workflow :
  ∃ c, rtc race_step (mkConc ∅ (mkRegistry ∅) [TStart race_key; TStart race_key]) c ∧
       c_registry c = (serve_admin (M3 := Murmur3_ref) (λ _, "invalid") id race_add race_registry).1 ∧
       allocation (M3 := Murmur3_ref) "v" race_registry race_key = Some "ns1::c1:7233" ∧
       allocation (M3 := Murmur3_ref) "v" (c_registry c) race_key = Some "ns2::c2:7233" ∧
       c_threads c = [TDone race_key "ns1::c1:7233"; TDone race_key "ns2::c2:7233"] ∧
       c_store c !! race_key = Some "ns1::c1:7233".
Proof.
  assert (allocation (M3 := Murmur3_ref) "v" race_registry race_key = Some "ns1::c1:7233") as E1
    by (vm_compute; reflexivity).
  assert (allocation (M3 := Murmur3_ref) "v"
    (serve_admin (M3 := Murmur3_ref) (λ _, "invalid") id race_add race_registry).1 race_key =
    Some "ns2::c2:7233") as E2 by (vm_compute; reflexivity).
  eexists. split; [|split; [|split; [exact E1|split; [|split]]]].
  - etrans; [exact (admin_run (M3 := Murmur3_ref) (λ _, "invalid") id "v" ∅ (mkRegistry ∅)
      (take 2 w_admin_history) _)|].
    exact (race_run _ _ _ _ _ race_add _ _ _ (lookup_empty _) E1 E2).
  - reflexivity.
  - exact E2.
  - reflexivity.
  - apply lookup_insert_eq.
Qed.

(** Two calls that both miss before either writes. *)
Lemma concurrent_resolves_agree_witness :
  let s := "ns1::c1:7233" in
  let c := mkConc (<[race_key := s]> (<[race_key := s]> ∅)) race_registry
             [TDone race_key s; TDone race_key s] in
  rtc (thread_step (M3 := Murmur3_ref) "v")
    (mkConc ∅ race_registry (TStart <$> [race_key; race_key])) c ∧
  (∀ s', c_store c !! race_key = Some s' →
     allocation (M3 := Murmur3_ref) "v" race_registry race_key = Some s').
Proof.
  intros s c.
  assert (allocation (M3 := Murmur3_ref) "v" race_registry race_key = Some s) as E1
    by (vm_compute; reflexivity).
  assert (rtc (thread_step (M3 := Murmur3_ref) "v")
    (mkConc ∅ race_registry (TStart <$> [race_key; race_key])) c) as Hrun.
  { eapply rtc_l; [by eapply (step_miss _ _ _ _ 0)|].
    eapply rtc_l; [by eapply (step_miss _ _ _ _ 1)|].
    eapply rtc_l; [eapply (step_choose _ _ _ _ 0); [reflexivity|exact E1]|].
    eapply rtc_l; [eapply (step_choose _ _ _ _ 1); [reflexivity|exact E1]|].
    eapply rtc_l; [by eapply (step_put _ _ _ _ 1)|].
    eapply rtc_l; [by eapply (step_put _ _ _ _ 0)|].
    apply rtc_refl. }
  split; [exact Hrun|].
  destruct (concurrent_resolves_agree (M3 := Murmur3_ref) "v" ∅ race_registry [race_key; race_key] c Hrun)
    as [_ Hstore].
  intros s'. apply Hstore. apply lookup_empty.
Defined.
