(* ===== verification/Fleet.v ===== *)
(** Running processes ([main.go], and the composition of everything it starts):
    a fleet of proxies that share one Redis server.  Each process keeps its own
    registry and counters; the routing cache and the checkpoint are shared: every
    process of the fleet dials the same server ([-redis-addr]). *)

From S2P Require Import Prelude GoStrings GoSort ConsistentHash RingSpec Murmur Namespaces.
From S2P Require Import Mappings Resolver Wire TaskToken Http Messages Samples Handlers.
From S2P Require Import HandlerSpec ConnPark Proxy Json Checkpoint Admin.
From stdpp Require Import options.

(** The command line. *)
Record flags := mkFlags {
  redis_addr : string;
  listen_addr : string;
  admin_port : Z;
  default_target : string
}.

Definition default_flags : flags :=
  mkFlags "localhost:6379" "localhost:8088" 8089 "http://localhost:7233".

(** What a process keeps to itself: the cache's statistics, the registry, the
    allocation counter, and the default target's host. *)
Record process := mkProcess {
  p_hits : Z;
  p_misses : Z;
  p_registry : VirtualNamespaceRegistry;
  p_allocated : gmap string Z;
  p_default : string
}.

Section fleet.
Context {M3 : Murmur3} {GZ : Gzip} {MR : MapRange} {R : Type} `{Redis R}
  {T : Transport} {AR : Arrival} {X : Type} `{!Codecs X}.
Context (url_Parse : string → string + string) (json_err : list byte → string)
  (metrics : ResponseWriter → ResponseWriter).

(** [main], up to the listeners: the registry is loaded, then the proxy is
    built over it; a default target that is no URL is fatal. *)
Definition main (fl : flags) (server : R) : R * option process :=
  let reg := NewVirtualNamespaceRegistry (λ _, server) (redis_addr fl) in
  match NewStickyProxy (λ _, reg.1) url_Parse (redis_addr fl) (default_target fl) reg.2 with
  | inl _ => (reg.1, None)
  | inr (w, host) =>
      (client (Cache w),
       Some (mkProcess (cacheHitCount (Cache w)) (cacheMissCount (Cache w)) (registry w)
               (totalWorkflowAllocated w) host))
  end.

(** The world a request of a process sees, and what it leaves of it. *)
Definition world_of (server : R) (p : process) : World R :=
  mkWorld (mkMappings server (p_hits p) (p_misses p)) (p_registry p) (p_allocated p).

Definition process_of (w : World R) (p : process) : process :=
  mkProcess (cacheHitCount (Cache w)) (cacheMissCount (Cache w)) (registry w)
    (totalWorkflowAllocated w) (p_default p).

Record fleet := mkFleet { f_redis : R; f_procs : list (option process) }.

(** What can happen: a request reaches a process, an admin request does, its
    ticker fires, or it is (re)started. *)
Inductive fleet_op :=
| OpServe (i : nat) (r : Request)
| OpAdmin (i : nat) (r : AdminRequest)
| OpCheckpoint (i : nat)
| OpStart (i : nat) (fl : flags).

Inductive fleet_answer :=
| AServed (o : res served)
| AAdmin (o : res ResponseWriter)
| ANone.

(** A panic in a handler is recovered by the HTTP server; one in a poller's
    goroutine ends the process. *)
Definition survives (r : Request) (o : res served) : bool :=
  match o, dispatch (URLPath r) with
  | Panic _, RPollWorkflow | Panic _, RPollActivity => false
  | _, _ => true
  end.

(** Requests to a process that is not running get no answer. *)
Definition exec_op (op : fleet_op) (f : fleet) : fleet * fleet_answer :=
  match op with
  | OpServe i r =>
      match f_procs f !! i with
      | Some (Some p) =>
          let o := serveHTTP (X := X) (p_default p) new_writer (world_of (f_redis f) p, r) in
          (mkFleet (client (Cache o.1.1))
             (<[i := if survives r o.2 then Some (process_of o.1.1 p) else None]> (f_procs f)),
           AServed o.2)
      | _ => (f, ANone)
      end
  | OpAdmin i r =>
      match f_procs f !! i with
      | Some (Some p) =>
          let o := serve_admin json_err metrics r (p_registry p) in
          (mkFleet (f_redis f)
             (<[i := Some (mkProcess (p_hits p) (p_misses p) o.1 (p_allocated p) (p_default p))]>
                (f_procs f)), AAdmin o.2)
      | _ => (f, ANone)
      end
  | OpCheckpoint i =>
      match f_procs f !! i with
      | Some (Some p) => (mkFleet (checkpoint (p_registry p) (f_redis f)) (f_procs f), ANone)
      | _ => (f, ANone)
      end
  | OpStart i fl =>
      let o := main fl (f_redis f) in (mkFleet o.1 (<[i := o.2]> (f_procs f)), ANone)
  end.

Definition run_fleet (ops : list fleet_op) (f : fleet) : fleet :=
  foldl (λ f op, (exec_op op f).1) f ops.

End fleet.
Arguments mkFleet {_} _ _.
Arguments f_redis {_} _.
Arguments f_procs {_} _.

(** * What an operation does to the routing table *)

Section effects.
Context {M3 : Murmur3} {GZ : Gzip} {R : Type} `{Redis R} `{!RedisLaws R}
  {T : Transport} {AR : Arrival} {X : Type} `{!Codecs X}.

Definition table (f : fleet (R := R)) : gmap string string := store (f_redis f).
Definition f_online (f : fleet (R := R)) : Prop := online (f_redis f).

(** A task response that completes workflow [id]. *)
Definition completes (id : string) (r : Request) : Prop :=
  ∃ b (req : api_msg (X := X) ApiRespondWorkflowTask),
    ReadAll (Body r) = inr b ∧ arrives ApiRespondWorkflowTask b req id ∧
    COMMAND_TYPE_COMPLETE_WORKFLOW_EXECUTION ∈ rt_commands (api_routed ApiRespondWorkflowTask) req.

(** A poll some cluster answers with a task of workflow [id]. *)
Definition hands_out {Req Resp} (pk : poll_kind Req Resp) (id : string) (r : Request) : Prop :=
  ∃ (m : Req) physNs task resp e,
    outcome_of pk (answer pk r m physNs) = Task task resp ∧
    pk_exec pk task = Some e ∧ WorkflowId e = id.

(** The operations that may change where [id] is routed. *)
Definition rebinds (id : string) (op : fleet_op) : Prop :=
  match op with
  | OpServe _ r =>
      match dispatch (URLPath r) with
      | RApi ApiRespondWorkflowTask => completes id r
      | RPollWorkflow => hands_out (poll_workflow (X := X)) id r
      | RPollActivity => hands_out (poll_activity (X := X)) id r
      | _ => False
      end
  | OpCheckpoint _ => id = registry_key
  | OpAdmin _ _ | OpStart _ _ => False
  end.

(** An entry that is there stays. *)
Definition keeps (id : string) (t t' : gmap string string) : Prop :=
  ∀ s, t !! id = Some s → s ≠ "" → t' !! id = Some s.

#[global] Instance keeps_preorder id : PreOrder (keeps id).
Proof. split; [by intros t s|]. intros t1 t2 t3 H1 H2 s Hs Hne. apply (H2 s); [by apply H1|done]. Qed.

Lemma Resolve_keeps p (w : World R) id : w_reachable w → keeps id (w_cached w) (w_cached (Resolve p w).1).
Proof.
  intros Hon s Hs Hne. destruct (decide (id = WorkflowID p)) as [->|Hne'].
  - destruct (Resolve_hit p w s Hon Hs Hne) as [_ ->]. done.
  - by rewrite Resolve_other.
Qed.

(** A handler, on any body: a resolution, then the deletions. *)
Lemma handle_world a b (w : World R) r :
  (handle (X := X) a b (w, r)).1.1 = w ∨
  ∃ req id, arrives a b req id ∧
    (handle a b (w, r)).1.1 =
      (delete_completed id (rt_commands (api_routed a) req)
         ((Resolve (mkPayload id (rt_ns (api_routed a) req)) w).1, r)).1.1.
Proof.
  destruct (extractPayload b) as [[pb c]|e|p|] eqn:Ex.
  2-4: left; destruct (handle_undecodable (X := X) a b (w, r)) as [e' ->]; [by intros ??; rewrite Ex|done].
  destruct (proto_Unmarshal (Message := rt_codec (api_routed (X := X) a)) pb) as [e|req] eqn:Eu.
  { left. destruct (handle_undecodable (X := X) a b (w, r)) as [e' ->]; [|done].
    intros pb' c'. rewrite Ex. intros [= <- <-]. by exists e. }
  destruct (api_id a req) as [id|e|p|] eqn:Ei.
  2-4: left; rewrite handle_pipeline; unfold route_request;
    unfold mbind at 1, go_bind at 1, lift at 1; rewrite Ex;
    unfold mbind at 1, go_bind at 1, unmarshal at 1, lift at 1; simpl fst; rewrite Eu;
    unfold mbind at 1, go_bind at 1; by rewrite api_workflow_id_pure, Ei.
  right. exists req, id. split; [by exists pb, c|].
  destruct (Resolve_returns (mkPayload id (rt_ns (api_routed a) req)) w) as (w1 & [phys hit] & Hr).
  rewrite (handle_resolved a b w r pb c req id phys hit) by (done || by rewrite Hr).
  destruct (delete_completed_Ok id (rt_commands (api_routed a) req)
    (Resolve (mkPayload id (rt_ns (api_routed a) req)) w).1 r) as (w' & Hw' & _).
  unfold mbind at 1, go_bind at 1. rewrite Hw'.
  unfold mbind at 1, go_bind at 1, lift at 1.
  destruct (parsePhysicalNamespace phys) as [[[cl|] n]|e|p|]; try done.
  unfold retarget, marshal, encodeGRPCPayload, on_request. simpl cluster. go_simpl. simpl name.
  by destruct (proto_Marshal _).
Qed.

Lemma handle_keeps a b (w : World R) r id :
  w_reachable w →
  (∀ req, arrives (X := X) a b req id →
     COMMAND_TYPE_COMPLETE_WORKFLOW_EXECUTION ∉ rt_commands (api_routed a) req) →
  w_reachable (handle (X := X) a b (w, r)).1.1 ∧
  keeps id (w_cached w) (w_cached (handle (X := X) a b (w, r)).1.1).
Proof.
  intros Hon Hc. destruct (handle_world a b w r) as [->|(req & id' & Harr & ->)]; [done|].
  destruct (Resolve_refines (mkPayload id' (rt_ns (api_routed a) req)) w Hon) as (Hon1 & _ & _).
  destruct (delete_completed_cached id' (rt_commands (api_routed a) req) _ r Hon1) as [Hon2 Hd].
  split; [done|]. rewrite Hd. etrans; [by apply Resolve_keeps|].
  case_decide as Hin; [|done]. intros s Hs Hne. rewrite lookup_delete_ne; [done|].
  intros ->. by apply (Hc req).
Qed.

(** A poll, on any body: nothing, or the record of a task some cluster
    handed out. *)
Lemma execute_poll_world {Req Resp} (pk : poll_kind Req Resp) r b (w : World R) :
  (execute_poll pk r b w).1 = w ∨
  ∃ m s task resp, outcome_of pk (answer pk r m s) = Task task resp ∧
    (execute_poll pk r b w).1 = (record_task pk task s w).1.
Proof.
  unfold execute_poll. go_simpl.
  destruct (extractPayload b) as [[pb c]|e|p|]; [|by left..].
  cbn [fst snd]. destruct (proto_Unmarshal pb) as [e|m]; [by left|]. cbn [fst snd].
  destruct (Resolve_ns (registry w) (pk_ns pk m)) as [v|]; [|by left].
  case_decide; [by left|].
  destruct (poll_all pk r m (arrive (GetAllNamespaces v))) as [rs|e|p|] eqn:Ep; [|by left..].
  assert (Forall (λ x, x.2 = answer pk r m x.1) rs) as Hrs.
  { clear - Ep. revert rs Ep. induction (arrive (GetAllNamespaces v)) as [|s l IH]; intros rs; simpl.
    - by intros [= <-].
    - destruct (poll_single pk r m s) as [x| | |] eqn:Es; [|done..].
      destruct (poll_all pk r m l) as [rs'| | |]; [|done..]. intros [= <-].
      constructor; [|by apply IH]. simpl. unfold answer. by rewrite Es. }
  rewrite collect_settle.
  destruct (first_task (prod_map id (outcome_of pk) <$> rs))
    as [(pre & s & task & resp & post & E & Hpre)|Hno].
  - right. exists m, s, task, resp. rewrite E, settle_task by done. split; [|done].
    assert ((s, Task task resp) ∈ prod_map id (outcome_of pk) <$> rs) as Hel by (rewrite E; set_solver).
    apply list_elem_of_fmap in Hel as ([s' a] & [= <- Ho] & Hel).
    rewrite Forall_forall in Hrs. specialize (Hrs _ Hel). simpl in Hrs. by rewrite <-Hrs.
  - left. by rewrite settle_no_task.
Qed.

Lemma execute_poll_keeps {Req Resp} (pk : poll_kind Req Resp) r b (w : World R) id :
  w_reachable w → ¬ hands_out pk id r →
  w_reachable (execute_poll pk r b w).1 ∧ keeps id (w_cached w) (w_cached (execute_poll pk r b w).1).
Proof.
  intros Hon Hno. destruct (execute_poll_world pk r b w) as [->|(m & s & task & resp & Ho & ->)]; [done|].
  unfold record_task. destruct (pk_exec pk task) as [e|] eqn:Ee; [|done]. case_decide; [|done].
  destruct (Put_online (WorkflowId e) s (Cache w) Hon) as [Hon' Hc].
  unfold on_cache, w_reachable, w_cached. cbn [fst Cache]. split; [done|]. rewrite Hc.
  intros x Hx Hne. rewrite lookup_insert_ne; [done|]. intros He. apply Hno.
  by exists m, s, task, resp, e.
Qed.

Lemma serve_poll_keeps (ex : Request → list byte → GoM (World R) Response) rw (w : World R) r id :
  w_reachable w →
  (∀ b, w_reachable (ex r b w).1 ∧ keeps id (w_cached w) (w_cached (ex r b w).1)) →
  w_reachable (serve_poll ex rw (w, r)).1.1 ∧
  keeps id (w_cached w) (w_cached (serve_poll ex rw (w, r)).1.1).
Proof.
  intros Hon Hex. unfold serve_poll, on_request, on_world. go_simpl. cbn [fst snd].
  destruct (ReadAll (Body r)) as [e|b]; [done|]. cbn [fst snd].
  specialize (Hex b). by destruct (ex r b w) as [w' []].
Qed.

(** What a request leaves of the world, by its route. *)
Lemma serveHTTP_world d rw (w : World R) r :
  (serveHTTP (X := X) d rw (w, r)).1.1 =
    match dispatch (URLPath r) with
    | RApi a => match ReadAll (Body r) with
                | inl _ => w
                | inr b => (handle (X := X) a b (w, r)).1.1
                end
    | RPollWorkflow => (serve_poll (ExecutePoll (X := X)) rw (w, r)).1.1
    | RPollActivity => (serve_poll (ExecutePollActivity (X := X)) rw (w, r)).1.1
    | RDefault => w
    end.
Proof.
  unfold serveHTTP, serve_api, on_request, servePollWorkflowTaskQueue, servePollActivityTaskQueue.
  go_simpl. cbn [snd]. destruct (dispatch (URLPath r)) as [a| | |]; [..|done].
  - cbn [snd fst]. destruct (ReadAll (Body r)) as [e|b]; [reflexivity|].
    by destruct (handle a b (w, r)) as [[w' r'] []].
  - by destruct (serve_poll _ _ _) as [[w' r'] []].
  - by destruct (serve_poll _ _ _) as [[w' r'] []].
Qed.

(** A request changes no entry it may not change. *)
Lemma serveHTTP_keeps d rw (w : World R) r id i :
  w_reachable w → ¬ rebinds id (OpServe i r) →
  w_reachable (serveHTTP (X := X) d rw (w, r)).1.1 ∧
  keeps id (w_cached w) (w_cached (serveHTTP (X := X) d rw (w, r)).1.1).
Proof.
  intros Hon Hno. rewrite serveHTTP_world. simpl in Hno.
  destruct (dispatch (URLPath r)) as [a| | |]; [..|done].
  - destruct (ReadAll (Body r)) as [e|b] eqn:Eb; [done|]. apply handle_keeps; [done|].
    intros req Harr Hin. destruct a; try (by apply not_elem_of_nil in Hin).
    apply Hno. by exists b, req.
  - apply serve_poll_keeps; [done|]. intros b. by apply execute_poll_keeps.
  - apply serve_poll_keeps; [done|]. intros b. by apply execute_poll_keeps.
Qed.
End effects.

Section fleet_facts.
Context {M3 : Murmur3} {GZ : Gzip} {MR : MapRange} {R : Type} `{Redis R} `{!RedisLaws R}
  {T : Transport} {AR : Arrival} {X : Type} `{!Codecs X}.
Context (url_Parse : string → string + string) (json_err : list byte → string)
  (metrics : ResponseWriter → ResponseWriter).
Notation main := (main (R := R) url_Parse).
Notation exec_op := (exec_op (R := R) (X := X) url_Parse json_err metrics).
Notation run_fleet := (run_fleet (R := R) (X := X) url_Parse json_err metrics).
Notation rebinds := (rebinds (X := X)).

(** A start reads. *)
Lemma main_online fl server :
  online server → online (main fl server).1 ∧ store (main fl server).1 = store server.
Proof.
  intros Hon. unfold main, NewStickyProxy, NewMappings.
  assert (online (NewVirtualNamespaceRegistry (λ _, server) (redis_addr fl)).1 ∧
          store (NewVirtualNamespaceRegistry (λ _, server) (redis_addr fl)).1 = store server)
    as [Hon1 Hst1].
  { unfold NewVirtualNamespaceRegistry. cbn [fst].
    destruct (redis_Ping_online server Hon) as [H1 H2].
    destruct (redis_Get_online registry_key _ H1) as (H3 & H4 & _). split; [done|]. by rewrite H4. }
  destruct (url_Parse _) as [e|host]; cbn [fst Cache client]; [done|].
  destruct (redis_Ping_online _ Hon1) as [H1 H2]. by rewrite H2.
Qed.

Lemma exec_op_keeps op f id :
  f_online f → ¬ rebinds id op →
  f_online (exec_op op f).1 ∧ keeps id (table f) (table (exec_op op f).1).
Proof.
  intros Hon Hno. destruct op as [i r|i r|i|i fl]; cbn [exec_op].
  - destruct (f_procs f !! i) as [[p|]|]; [|(split; [exact Hon|reflexivity])..].
    destruct (serveHTTP_keeps (p_default p) new_writer (world_of (f_redis f) p) r id i Hon Hno)
      as [H1 H2]. done.
  - destruct (f_procs f !! i) as [[p|]|]; (split; [exact Hon|reflexivity]).
  - destruct (f_procs f !! i) as [[p|]|]; [|(split; [exact Hon|reflexivity])..].
    destruct (redis_Set_online registry_key (string_of (json_Marshal (schema_of (p_registry p))))
      (f_redis f) Hon) as (H1 & H2 & _).
    unfold f_online, table. cbn [fst f_redis]. unfold checkpoint. split; [done|].
    rewrite H2. intros s Hs Hne. rewrite lookup_insert_ne; [done|]. simpl in Hno. congruence.
  - unfold f_online, table in *. cbn [fst f_redis].
    destruct (main_online fl (f_redis f) Hon) as [H1 H2]. split; [done|]. by rewrite H2.
Qed.

Lemma run_fleet_keeps ops f id :
  f_online f → Forall (λ op, ¬ rebinds id op) ops →
  f_online (run_fleet ops f) ∧ keeps id (table f) (table (run_fleet ops f)).
Proof.
  intros Hon Hops. revert f Hon. unfold run_fleet.
  induction Hops as [|op ops Hop Hops IH]; intros f Hon; simpl; [done|].
  destruct (exec_op_keeps op f id Hon Hop) as [H1 H2].
  destruct (IH _ H1) as [H3 H4]. split; [done|]. by etrans.
Qed.
(** C1: stickiness across processes.  In a fleet of proxies over one Redis
    server, once a request about a workflow was forwarded by one process, a
    later request of any routed call about the same workflow, through any
    process that runs with the same default target, is forwarded to the same
    cluster: whatever requests, polls, admin requests, checkpoints, crashes and
    restarts came in between, short of the workflow's completion and of a
    cluster handing out a task of it. *)
Theorem fleet_sticky f i j p q a a' b b' (req : api_msg (X := X) a) (req' : api_msg (X := X) a') id
    r r' ops f1 fw :
  f_online f → f_procs f !! i = Some (Some p) →
  dispatch (URLPath r) = RApi a → Body r = BodyBytes b → arrives a b req id →
  COMMAND_TYPE_COMPLETE_WORKFLOW_EXECUTION ∉ rt_commands (api_routed a) req →
  exec_op (OpServe i r) f = (f1, AServed (Ok (Forwarded fw))) →
  Forall (λ op, ¬ rebinds id op) ops →
  f_procs (run_fleet ops f1) !! j = Some (Some q) → p_default q = p_default p →
  dispatch (URLPath r') = RApi a' → Body r' = BodyBytes b' → arrives a' b' req' id →
  ∃ f2 fw', exec_op (OpServe j r') (run_fleet ops f1) = (f2, AServed (Ok (Forwarded fw'))) ∧
            URLHost fw' = URLHost fw ∧ Host fw' = Host fw.
Proof.
  intros Hon Hi Hd Hb Harr Hc Hs Hops Hj Hdef Hd' Hb' Harr'.
  cbn [Fleet.exec_op] in Hs. rewrite Hi in Hs.
  rewrite (serveHTTP_api a _ _ _ r b Hd Hb) in Hs.
  set (w := world_of (f_redis f) p) in *.
  assert (is_panic (handle a b (w, r)).2 = false) as Hnp
    by (by destruct (handle a b (w, r)) as [[] []]).
  destruct (handle_records a b w r req id Hon Harr Hc Hnp)
    as (Hon1 & phys & addr & n & Hk & Hne & Hp & H1 & H2).
  assert (f_redis f1 = client (Cache (handle a b (w, r)).1.1) ∧
          URLHost fw = URLHost (Director (p_default p) (set_target addr r)) ∧
          Host fw = Host (Director (p_default p) (set_target addr r))) as (Hs1 & Hf1 & Hf2).
  { destruct (handle a b (w, r)) as [[w1 r1] [out|e|x|]]; simplify_eq/=;
      unfold Director; simpl; by repeat case_decide. }
  assert (f_online f1 ∧ table f1 !! id = Some phys) as [Hof1 Ht1].
  { unfold f_online, table. rewrite Hs1. done. }
  destruct (run_fleet_keeps ops f1 id Hof1 Hops) as [Hof2 Hk2].
  specialize (Hk2 phys Ht1 Hne). set (f2 := run_fleet ops f1) in *.
  destruct (handle_follows a' b' (world_of (f_redis f2) q) r' req' id phys addr n Hof2 Harr' Hk2 Hp)
    as (G1 & G2 & _ & G3).
  cbn [Fleet.exec_op]. rewrite Hj, (serveHTTP_api a' _ _ _ r' b' Hd' Hb').
  destruct (handle a' b' _) as [[w2 r2] [out|e|x|]]; simplify_eq/=;
    eexists _, _; (split; [reflexivity|]); rewrite Hf1, Hf2, Hdef; unfold Director; simpl;
    rewrite G1; case_decide; simpl; by rewrite ?G1, ?G2.
Qed.

(** C40: the last checkpoint wins.  When two processes run over one server and each
    checkpoints, the first one's next start gives it the registry of the second:
    its virtual namespaces, statuses (the cordoned ones included) and routing of
    every workflow id, when that registry is as the admin API builds it, its names
    are valid UTF-8 and virtual nodes do not collide.  In particular a virtual
    namespace that only the first knew, although checkpointed, is gone. *)
Theorem last_checkpoint_wins {MRL : MapRangeLaws} f i j p q fl host U :
  f_online f → i ≠ j → f_procs f !! i = Some (Some p) → f_procs f !! j = Some (Some q) →
  url_Parse (default_target fl) = inr host →
  schema_utf8 (schema_of (p_registry q)) → collision_free 50 U → registry_ok U (p_registry q) →
  ∃ p', f_procs (run_fleet [OpCheckpoint i; OpCheckpoint j; OpStart i fl] f) !! i = Some (Some p') ∧
    (∀ name,
       match Resolve_ns (p_registry q) name, Resolve_ns (p_registry p') name with
       | Some v, Some v' =>
           Name v' = Name v ∧ Namespaces v' = Namespaces v ∧
           ∀ key, GetSlot (Ring v') key = GetSlot (Ring v) key
       | None, None => True
       | _, _ => False
       end) ∧
    (∀ name v, Resolve_ns (p_registry p) name = Some v → Resolve_ns (p_registry q) name = None →
       Resolve_ns (p_registry p') name = None).
Proof.
  intros Hon Hij Hi Hj Hurl Hutf Hcf Hok. unfold Fleet.run_fleet. cbn [foldl].
  cbn [Fleet.exec_op]. rewrite Hi. cbn [fst f_procs f_redis]. rewrite Hj. cbn [fst f_procs f_redis].
  rewrite list_lookup_insert_eq by (by eapply lookup_lt_Some).
  set (db := checkpoint (p_registry p) (f_redis f)).
  assert (online db) as Hdb by apply (redis_Set_online _ _ _ Hon).
  unfold Fleet.main, NewStickyProxy. rewrite Hurl. eexists. split; [reflexivity|].
  cbn [p_registry registry]. rewrite (load_checkpoint (p_registry q) db) by done.
  split; [intros name; by apply (load_schema_same U)|].
  intros name v _ Hno. pose proof (load_schema_same U (p_registry q) name Hcf Hok) as Hs.
  unfold same_at in Hs. rewrite Hno in Hs. by destruct (Resolve_ns (load_schema _) name).
Qed.
End fleet_facts.

(** * The properties at a concrete fleet *)

Definition w_process : process := mkProcess 0 0 w_registry ∅ "default:7233".
Definition w_fleet : fleet (R := MemRedis) :=
  mkFleet w_db [Some w_process; Some (mkProcess 0 0 (mkRegistry ∅) ∅ "default:7233")].

Definition w_url (s : string) : string + string := inr "default:7233".

Definition w_exec : fleet_op → fleet (R := MemRedis) → fleet (R := MemRedis) * fleet_answer :=
  exec_op (M3 := Murmur3_ref) (GZ := CopyGzip) (MR := ListRange) (T := TaskTransport)
    (AR := ReverseArrival) (X := unit) w_url (λ _, "invalid") id.
Definition w_run : list fleet_op → fleet (R := MemRedis) → fleet (R := MemRedis) :=
  run_fleet (M3 := Murmur3_ref) (GZ := CopyGzip) (MR := ListRange) (T := TaskTransport)
    (AR := ReverseArrival) (X := unit) w_url (λ _, "invalid") id.

(** The first process checkpoints and loses a physical namespace, the second is
    restarted and loads the checkpoint. *)
Definition w_ops : list fleet_op :=
  [OpCheckpoint 0;
   OpAdmin 0 (w_post "/namespace/physical/remove"
     "{'virtual_namespace':'v','physical_namespace':'ns1','cluster_address':'c1:7233'}");
   OpStart 1 default_flags].

Lemma fleet_sticky_witness :
  ∃ f1 fw f2 fw',
    w_exec (OpServe 0 w_start_rq) w_fleet = (f1, AServed (Ok (Forwarded fw))) ∧
    w_exec (OpServe 1 w_signal_rq) (w_run w_ops f1) = (f2, AServed (Ok (Forwarded fw'))) ∧
    URLHost fw' = URLHost fw ∧ Host fw' = Host fw.
Proof.
  destruct (w_exec (OpServe 0 w_start_rq) w_fleet) as [f1 o] eqn:E.
  assert (∃ fw, o = AServed (Ok (Forwarded fw))) as [fw ->].
  { apply (f_equal snd) in E. vm_compute in E. eexists. symmetry. exact E. }
  assert (∃ q, f_procs (w_run w_ops f1) !! 1 = Some (Some q) ∧ p_default q = "default:7233")
    as (q & Hq & Hdef).
  { apply (f_equal fst) in E. vm_compute in E. subst f1. eexists. split; vm_compute; reflexivity. }
  exists f1, fw.
  destruct (fleet_sticky (M3 := Murmur3_ref) (GZ := CopyGzip) (MR := ListRange) (T := TaskTransport)
    (AR := ReverseArrival) (X := unit) w_url (λ _, "invalid") id w_fleet 0 1 w_process q
    ApiStart ApiSignal w_start_body w_signal_body w_start w_signal "wf-1" w_start_rq w_signal_rq
    w_ops f1 fw) as (f2 & fw' & E2 & Hf).
  - reflexivity.
  - reflexivity.
  - vm_compute. reflexivity.
  - reflexivity.
  - exact w_start_arrives.
  - apply not_elem_of_nil.
  - exact E.
  - repeat constructor; cbn [rebinds]; [by vm_compute|tauto|tauto].
  - exact Hq.
  - exact Hdef.
  - vm_compute. reflexivity.
  - reflexivity.
  - exact w_signal_arrives.
  - exists f2, fw'. split; [reflexivity|]. split; [exact E2|exact Hf].
Defined.

(** The second process knows another virtual namespace than the first. *)
Definition w_fleet_two : fleet (R := MemRedis) :=
  mkFleet w_db [Some w_process;
                Some (mkProcess 0 0 (mkRegistry {["old" := NewVirtualNamespace "old"]}) ∅ "default:7233")].

Lemma last_checkpoint_wins_witness :
  ∃ p', f_procs (w_run [OpCheckpoint 1; OpCheckpoint 0; OpStart 1 default_flags] w_fleet_two) !! 1 =
          Some (Some p') ∧
        (∃ v', Resolve_ns (p_registry p') "v" = Some v' ∧ Namespaces v' = Namespaces w_vns) ∧
        Resolve_ns (p_registry p') "old" = None.
Proof.
  destruct (last_checkpoint_wins (M3 := Murmur3_ref) (GZ := CopyGzip) (MR := ListRange)
    (MRL := ListRange_laws) (T := TaskTransport) (AR := ReverseArrival) (X := unit) w_url
    (λ _, "invalid") id w_fleet_two 1 0
    (mkProcess 0 0 (mkRegistry {["old" := NewVirtualNamespace "old"]}) ∅ "default:7233")
    w_process default_flags "default:7233" w_U) as (p' & Hp & Hsame & Hlost).
  - reflexivity.
  - done.
  - reflexivity.
  - reflexivity.
  - reflexivity.
  - exact w_registry_utf8.
  - exact w_ns_collision_free.
  - exact w_registry_ok.
  - exists p'. split; [exact Hp|]. split.
    + specialize (Hsame "v").
      assert (Resolve_ns (p_registry w_process) "v" = Some w_vns) as Ev by reflexivity.
      rewrite Ev in Hsame. destruct (Resolve_ns (p_registry p') "v") as [v'|]; [|destruct Hsame].
      exists v'. split; [reflexivity|apply Hsame].
    + apply (Hlost "old" (NewVirtualNamespace "old")); reflexivity.
Defined.
