(* ===== verification/Payloads.v ===== *)
(** Random workload of the routing tests ([payload.go]): payloads with random
    workflow ids for one virtual namespace. *)

From S2P Require Import Prelude GoStrings ConsistentHash Murmur Namespaces Mappings Resolver.
From stdpp Require Import options.

(** [math/rand/v2]: [rand.N n] draws from a generator's state, below [n]. *)
Class Rand (G : Type) := rand_N : Z → G → G * Z.
Class RandLaws (G : Type) `{Rand G} := rand_N_range n g : (0 < n)%Z → (0 ≤ (rand_N n g).2 < n)%Z.

Definition charset : list byte :=
  bytes_of "abcdefghijklmnopqrstuvwxyzABCDEFGHIJKLMNOPQRSTUVWXYZ0123456789".

Section payloads.
Context {G : Type} {RN : Rand G} {RL : RandLaws G}.

(** [b[i] = charset[rand.N(len(charset))]]; an index out of range panics. *)
Definition random_byte : GoM G byte := λ g,
  let d := rand_N (Z.of_nat (length charset)) g in
  match charset !! Z.to_nat d.2 with
  | Some b => (d.1, Ok b)
  | None => (d.1, Panic "index out of range")
  end.

Fixpoint random_bytes (n : nat) : GoM G (list byte) :=
  match n with
  | O => mret []
  | S n => b ← random_byte; l ← random_bytes n; mret (b :: l)
  end.

Definition GenerateRandomString (length : Z) : GoM G string :=
  if decide (length < 0)%Z then panic "makeslice: len out of range"
  else l ← random_bytes (Z.to_nat length); mret (string_of l).

Definition makePayload (vNamespace : string) : GoM G Payload :=
  id ← GenerateRandomString 128; mret (mkPayload id vNamespace).

Fixpoint make_payloads (n : nat) (vNamespace : string) : GoM G (list Payload) :=
  match n with
  | O => mret []
  | S n => p ← makePayload vNamespace; l ← make_payloads n vNamespace; mret (p :: l)
  end.

Definition makePayloads (size : Z) (vNamespace : string) : GoM G (list Payload) :=
  if decide (size < 0)%Z then panic "makeslice: len out of range"
  else make_payloads (Z.to_nat size) vNamespace.

Lemma random_byte_ok g : ∃ g' b, random_byte g = (g', Ok b) ∧ b ∈ charset.
Proof using RL.
  unfold random_byte. pose proof (rand_N_range (Z.of_nat (length charset)) g) as Hr.
  destruct (lookup_lt_is_Some_2 charset (Z.to_nat (rand_N (Z.of_nat (length charset)) g).2)) as [b Hb].
  { assert (0 < Z.of_nat (length charset))%Z by (vm_compute; done). lia. }
  rewrite Hb. eexists _, b. split; [done|]. by eapply list_elem_of_lookup_2.
Qed.

Lemma random_bytes_ok n g :
  ∃ g' l, random_bytes n g = (g', Ok l) ∧ length l = n ∧ Forall (.∈ charset) l.
Proof using RL.
  revert g. induction n as [|n IH]; intros g; [by exists g, []|].
  destruct (random_byte_ok g) as (g1 & b & Hb & Hin).
  destruct (IH g1) as (g2 & l & Hl & Hlen & Hall).
  exists g2, (b :: l). cbn [random_bytes].
  rewrite (go_bind_ok _ _ _ _ _ Hb), (go_bind_ok _ _ _ _ _ Hl).
  split_and!; [done|by cbn; rewrite Hlen|by constructor].
Qed.

(** A payload: a workflow id of 128 characters of the alphabet, in the virtual
    namespace asked for. *)
Definition payload_ok (vNamespace : string) (p : Payload) : Prop :=
  length (bytes_of (WorkflowID p)) = 128 ∧ Forall (.∈ charset) (bytes_of (WorkflowID p)) ∧
  PayloadNamespace p = vNamespace.

Lemma makePayload_ok vNamespace g :
  ∃ g' p, makePayload vNamespace g = (g', Ok p) ∧ payload_ok vNamespace p.
Proof using RL.
  destruct (random_bytes_ok 128 g) as (g' & l & Hl & Hlen & Hall).
  exists g', (mkPayload (string_of l) vNamespace). unfold makePayload, GenerateRandomString.
  rewrite decide_False by lia. change (Z.to_nat 128) with 128.
  unfold mbind, go_bind. rewrite Hl. split; [done|].
  unfold payload_ok. cbn [WorkflowID PayloadNamespace]. by rewrite bytes_of_string_of.
Qed.

(** The workload has the size asked for and only well-formed payloads. *)
Lemma makePayloads_ok size vNamespace g :
  (0 ≤ size)%Z →
  ∃ g' l, makePayloads size vNamespace g = (g', Ok l) ∧ Z.of_nat (length l) = size ∧
          Forall (payload_ok vNamespace) l.
Proof using RL.
  intros Hs. unfold makePayloads. rewrite decide_False by lia.
  cut (∀ n g, ∃ g' l, make_payloads n vNamespace g = (g', Ok l) ∧ length l = n ∧
         Forall (payload_ok vNamespace) l).
  { intros Hn. destruct (Hn (Z.to_nat size) g) as (g' & l & Hl & Hlen & Hall).
    exists g', l. split_and!; [done|lia|done]. }
  clear Hs g. intros n. induction n as [|n IH]; intros g; [by exists g, []|].
  destruct (makePayload_ok vNamespace g) as (g1 & p & Hp & Hok).
  destruct (IH g1) as (g2 & l & Hl & Hlen & Hall).
  exists g2, (p :: l). cbn [make_payloads].
  rewrite (go_bind_ok _ _ _ _ _ Hp), (go_bind_ok _ _ _ _ _ Hl).
  split_and!; [done|by cbn; rewrite Hlen|by constructor].
Qed.
End payloads.
