(* ===== verification/TaskQueueRecorder.v ===== *)
(** The task recorder of the conformance tests
    ([conformance-tests/testcore/task_queue_recorder.go]): an execution manager
    that passes every call to the one it wraps and keeps the history tasks of
    the writes that succeeded. *)

From S2P Require Import Prelude.
From stdpp Require Import options.

(** What the recorder needs of [tasks.Category] and [tasks.Task]. *)
Class TaskTypes (Category Task : Type) := {
  #[global] category_eq_dec :: EqDecision Category;
  #[global] category_countable :: Countable Category;
  GetRunID : Task → string;
  GetType : Task → string
}.

Section types.
Context {Category Task : Type} `{!TaskTypes Category Task}.

Record RecordedTask := mkRecorded {
  Timestamp : Z;
  TaskType : string;
  ShardID : Z;
  RangeID : Z;
  NamespaceID : string;
  RecWorkflowID : string;
  RecRunID : string;
  RecTask : Task
}.

(** The requests that write tasks, with the fields the recorder reads. *)
Record Snapshot := mkSnapshot {
  snap_NamespaceId : string;
  snap_WorkflowId : string;
  snap_Tasks : gmap Category (list Task)
}.

Record AddHistoryTasksRequest := mkAddRequest {
  add_ShardID : Z; add_NamespaceID : string; add_WorkflowID : string;
  add_Tasks : gmap Category (list Task)
}.

Record UpdateRequest := mkUpdateRequest {
  upd_ShardID : Z; upd_RangeID : Z;
  UpdateWorkflowMutation : Snapshot; NewWorkflowSnapshot : option Snapshot
}.

Record CreateRequest := mkCreateRequest {
  crt_ShardID : Z; crt_RangeID : Z; crt_Snapshot : Snapshot
}.
End types.
Arguments RecordedTask Task : clear implicits.
Arguments Snapshot Category Task {_}.
Arguments AddHistoryTasksRequest Category Task {_}.
Arguments UpdateRequest Category Task {_}.
Arguments CreateRequest Category Task {_}.

(** The calls that are only passed on. *)
Inductive passed_call :=
| GetName | Close | GetWorkflowExecution | ConflictResolveWorkflowExecution
| DeleteWorkflowExecution | DeleteCurrentWorkflowExecution | GetCurrentExecution
| SetWorkflowExecution | ListConcreteExecutions | GetHistoryTasks | CompleteHistoryTask
| RangeCompleteHistoryTasks | PutReplicationTaskToDLQ | GetReplicationTasksFromDLQ
| DeleteReplicationTaskFromDLQ | RangeDeleteReplicationTaskFromDLQ | IsReplicationDLQEmpty
| GetHistoryBranchUtil | AppendHistoryNodes | AppendRawHistoryNodes | ReadHistoryBranch
| ReadHistoryBranchByBatch | ReadHistoryBranchReverse | ReadRawHistoryBranch
| ForkHistoryBranch | DeleteHistoryBranch | TrimHistoryBranch | GetAllHistoryTreeBranches.

(** [persistence.ExecutionManager], the wrapped service: its state, and what
    each call does to it.  [Req] and [Resp] are the requests and responses of
    the calls that are passed on, and [em_passed_tasks] the history tasks that such a
    request asks to write: those of [ConflictResolveWorkflowExecution] and
    [SetWorkflowExecution] carry mutations and snapshots with tasks. *)
Class ExecutionManager (D Category Task Req Resp : Type) `{!TaskTypes Category Task} := {
  em_AddHistoryTasks : AddHistoryTasksRequest Category Task → D → D * option string;
  em_UpdateWorkflowExecution : UpdateRequest Category Task → D → D * (string + Resp);
  em_CreateWorkflowExecution : CreateRequest Category Task → D → D * (string + Resp);
  em_call : passed_call → Req → D → D * (string + Resp);
  em_passed_tasks : passed_call → Req → Category → list Task
}.

Section recorder.
Context {D Category Task Req Resp : Type} `{!TaskTypes Category Task}.
Context `{EM : !ExecutionManager D Category Task Req Resp}.

(** The recorder, its delegate, and the clock as the readings still to come. *)
Record TaskQueueRecorder := mkRecorder {
  tasks : gmap Category (list (RecordedTask Task));
  delegate : D;
  clock : nat → Z
}.

Definition NewTaskQueueRecorder (d : D) (clock : nat → Z) : TaskQueueRecorder :=
  mkRecorder ∅ d clock.

Definition wrap (timestamp shardID rangeID : Z) (namespaceID workflowID : string) (task : Task)
    : RecordedTask Task :=
  mkRecorded timestamp (GetType task) shardID rangeID namespaceID workflowID (GetRunID task) task.

(** [r.tasks[category] = append(r.tasks[category], recorded)]. *)
Definition append_task (category : Category) (recorded : RecordedTask Task)
    (m : gmap Category (list (RecordedTask Task))) : gmap Category (list (RecordedTask Task)) :=
  <[category := default [] (m !! category) ++ [recorded]]> m.

(** The categories are ranged over in an unspecified order; each iteration
    touches its own list. *)
Definition recordTasks (shardID rangeID : Z) (namespaceID workflowID : string)
    (tasksMap : gmap Category (list Task)) (r : TaskQueueRecorder) : TaskQueueRecorder :=
  if decide (size tasksMap = 0) then r
  else
    let timestamp := clock r 0 in
    mkRecorder
      (map_fold (λ category taskList m,
         foldl (λ m task, append_task category
                  (wrap timestamp shardID rangeID namespaceID workflowID task) m) m taskList)
         (tasks r) tasksMap)
      (delegate r) (λ n, clock r (S n)).

Definition with_delegate (d : D) (r : TaskQueueRecorder) : TaskQueueRecorder :=
  mkRecorder (tasks r) d (clock r).

(** The delegate is called first; only a write that succeeded is recorded. *)
Definition AddHistoryTasks (request : AddHistoryTasksRequest Category Task)
    (r : TaskQueueRecorder) : TaskQueueRecorder * option string :=
  let o := em_AddHistoryTasks request (delegate r) in
  let r := with_delegate o.1 r in
  match o.2 with
  | None => (recordTasks (add_ShardID request) 0 (add_NamespaceID request)
               (add_WorkflowID request) (add_Tasks request) r, None)
  | Some e => (r, Some e)
  end.

Definition record_snapshot (shardID rangeID : Z) (s : Snapshot Category Task)
    (r : TaskQueueRecorder) : TaskQueueRecorder :=
  recordTasks shardID rangeID (snap_NamespaceId s) (snap_WorkflowId s) (snap_Tasks s) r.

Definition UpdateWorkflowExecution (request : UpdateRequest Category Task)
    (r : TaskQueueRecorder) : TaskQueueRecorder * (string + Resp) :=
  let o := em_UpdateWorkflowExecution request (delegate r) in
  let r := with_delegate o.1 r in
  match o.2 with
  | inr resp =>
      let r := record_snapshot (upd_ShardID request) (upd_RangeID request)
                 (UpdateWorkflowMutation request) r in
      (match NewWorkflowSnapshot request with
       | Some s => record_snapshot (upd_ShardID request) (upd_RangeID request) s r
       | None => r
       end, inr resp)
  | inl e => (r, inl e)
  end.

Definition CreateWorkflowExecution (request : CreateRequest Category Task)
    (r : TaskQueueRecorder) : TaskQueueRecorder * (string + Resp) :=
  let o := em_CreateWorkflowExecution request (delegate r) in
  let r := with_delegate o.1 r in
  match o.2 with
  | inr resp =>
      (record_snapshot (crt_ShardID request) (crt_RangeID request) (crt_Snapshot request) r,
       inr resp)
  | inl e => (r, inl e)
  end.

(** All other methods: the delegate's answer, unchanged. *)
Definition pass_through (c : passed_call) (request : Req) (r : TaskQueueRecorder)
    : TaskQueueRecorder * (string + Resp) :=
  let o := em_call c request (delegate r) in (with_delegate o.1 r, o.2).

(** * Queries *)

Definition GetAllTasks (r : TaskQueueRecorder) : gmap Category (list Task) :=
  map_fold (λ category recordedList result, <[category := RecTask <$> recordedList]> result)
    ∅ (tasks r).

Definition GetAllRecordedTasks (r : TaskQueueRecorder)
    : gmap Category (list (RecordedTask Task)) :=
  map_fold (λ category recordedList result, <[category := recordedList]> result) ∅ (tasks r).

Definition TaskMatcher := RecordedTask Task → bool.

(** The loops that build a list of the recorded tasks that pass their tests. *)
Fixpoint collect_if (keep : RecordedTask Task → bool) (l : list (RecordedTask Task))
    : list (RecordedTask Task) :=
  match l with
  | [] => []
  | t :: l => if keep t then t :: collect_if keep l else collect_if keep l
  end.

Definition MatchTasks (category : Category) (matcher : TaskMatcher) (r : TaskQueueRecorder)
    : list (RecordedTask Task) :=
  match tasks r !! category with
  | None => []
  | Some recordedList => collect_if matcher recordedList
  end.

Definition CountMatchingTasks (category : Category) (matcher : TaskMatcher)
    (r : TaskQueueRecorder) : nat := length (MatchTasks category matcher r).

Record TaskFilter := mkFilter {
  filter_NamespaceID : string; filter_WorkflowID : string; filter_RunID : string
}.

(** [DPanic] panics in development mode and only logs otherwise. *)
Definition GetRecordedTasksByCategoryFiltered (development : bool) (category : Category)
    (filter : TaskFilter) (r : TaskQueueRecorder) : res (list (RecordedTask Task)) :=
  if development && bool_decide (filter_NamespaceID filter = "")
  then Panic "TaskFilter.NamespaceID is required - use GetRecordedTasksByCategoryFiltered to prevent accidentally checking all tasks"
  else match tasks r !! category with
  | None => Ok []
  | Some recordedList =>
      Ok (collect_if (λ recorded,
        if decide (NamespaceID recorded ≠ filter_NamespaceID filter) then false
        else if decide (filter_WorkflowID filter ≠ "" ∧
                        RecWorkflowID recorded ≠ filter_WorkflowID filter) then false
        else if decide (filter_RunID filter ≠ "" ∧ RecRunID recorded ≠ filter_RunID filter)
        then false else true) recordedList)
  end.

Definition MatchTasksForWorkflow (category : Category) (namespaceID workflowID runID : string)
    (matcher : option TaskMatcher) (r : TaskQueueRecorder) : list (RecordedTask Task) :=
  match tasks r !! category with
  | None => []
  | Some recordedList =>
      collect_if (λ recorded,
        if decide (namespaceID ≠ "" ∧ NamespaceID recorded ≠ namespaceID) then false
        else if decide (RecWorkflowID recorded ≠ workflowID) then false
        else if decide (runID ≠ "" ∧ RecRunID recorded ≠ runID) then false
        else match matcher with Some m => m recorded | None => true end) recordedList
  end.

Definition CountTasksForWorkflow (category : Category) (namespaceID workflowID runID : string)
    (matcher : option TaskMatcher) (r : TaskQueueRecorder) : nat :=
  length (MatchTasksForWorkflow category namespaceID workflowID runID matcher r).

Definition MatchTasksForNamespace (category : Category) (namespaceID : string)
    (matcher : option TaskMatcher) (r : TaskQueueRecorder) : list (RecordedTask Task) :=
  match tasks r !! category with
  | None => []
  | Some recordedList =>
      collect_if (λ recorded,
        if decide (NamespaceID recorded ≠ namespaceID) then false
        else match matcher with Some m => m recorded | None => true end) recordedList
  end.

Definition CountTasksForNamespace (category : Category) (namespaceID : string)
    (matcher : option TaskMatcher) (r : TaskQueueRecorder) : nat :=
  length (MatchTasksForNamespace category namespaceID matcher r).
End recorder.
Arguments TaskQueueRecorder D Category Task {_}.
Arguments mkRecorder {_ _ _ _} _ _ _.

(** * Histories of calls *)

Section histories.
Context {D Category Task Req Resp : Type} `{!TaskTypes Category Task}.
Context `{EM : !ExecutionManager D Category Task Req Resp}.

Inductive em_op :=
| EmAdd (request : AddHistoryTasksRequest Category Task)
| EmUpdate (request : UpdateRequest Category Task)
| EmCreate (request : CreateRequest Category Task)
| EmPass (c : passed_call) (request : Req).

(** The answer of a call: an error, or a response (none for a plain write). *)
Definition em_reply : Type := string + option Resp.

Definition reply_of_write (o : option string) : em_reply :=
  match o with Some e => inl e | None => inr None end.
Definition reply_of (o : string + Resp) : em_reply :=
  match o with inl e => inl e | inr x => inr (Some x) end.

(** A call of the wrapped manager itself, and the same call of the recorder. *)
Definition run_alone (op : em_op) (d : D) : D * em_reply :=
  match op with
  | EmAdd q => let o := em_AddHistoryTasks q d in (o.1, reply_of_write o.2)
  | EmUpdate q => let o := em_UpdateWorkflowExecution q d in (o.1, reply_of o.2)
  | EmCreate q => let o := em_CreateWorkflowExecution q d in (o.1, reply_of o.2)
  | EmPass c q => let o := em_call c q d in (o.1, reply_of o.2)
  end.

Definition run_recorded (op : em_op) (r : TaskQueueRecorder D Category Task)
    : TaskQueueRecorder D Category Task * em_reply :=
  match op with
  | EmAdd q => let o := AddHistoryTasks q r in (o.1, reply_of_write o.2)
  | EmUpdate q => let o := UpdateWorkflowExecution q r in (o.1, reply_of o.2)
  | EmCreate q => let o := CreateWorkflowExecution q r in (o.1, reply_of o.2)
  | EmPass c q => let o := pass_through c q r in (o.1, reply_of o.2)
  end.

Fixpoint run_all {St} (run : em_op → St → St * em_reply) (ops : list em_op) (s : St)
    : St * list em_reply :=
  match ops with
  | [] => (s, [])
  | op :: ops =>
      let o := run op s in
      let rest := run_all run ops o.1 in (rest.1, o.2 :: rest.2)
  end.

(** The tasks of a category a call asks to write. *)
Definition op_tasks (op : em_op) (category : Category) : list Task :=
  match op with
  | EmAdd q => default [] (add_Tasks q !! category)
  | EmUpdate q =>
      default [] (snap_Tasks (UpdateWorkflowMutation q) !! category) ++
      match NewWorkflowSnapshot q with
      | Some s => default [] (snap_Tasks s !! category)
      | None => []
      end
  | EmCreate q => default [] (snap_Tasks (crt_Snapshot q) !! category)
  | EmPass c q => em_passed_tasks c q category
  end.

(** The calls whose tasks the recorder looks at. *)
Definition is_recorded (op : em_op) : bool :=
  match op with EmPass _ _ => false | _ => true end.

(** The tasks of the calls in [which] that were answered without an error. *)
Definition accepted (which : em_op → bool) (category : Category) (ops : list em_op)
    (replies : list em_reply) : list Task :=
  '(op, reply) ← zip ops replies;
  match reply with
  | inr _ => if which op then op_tasks op category else []
  | inl _ => []
  end.

Definition recorded (r : TaskQueueRecorder D Category Task) (category : Category)
    : list (RecordedTask Task) := default [] (tasks r !! category).

Lemma append_all m category f (l : list Task) k :
  default [] (foldl (λ m task, append_task category (f task) m) m l !! k) =
    default [] (m !! k) ++ (if decide (k = category) then f <$> l else []).
Proof.
  revert m. induction l as [|t l IH]; intros m; simpl; [by case_decide; rewrite app_nil_r|].
  rewrite IH. unfold append_task. case_decide as Hk.
  - subst k. rewrite lookup_insert_eq. simpl. by rewrite <-(assoc_L (++)).
  - by rewrite lookup_insert_ne.
Qed.

Lemma recordTasks_recorded shard range ns wf tm (r : TaskQueueRecorder D Category Task) category :
  recorded (recordTasks shard range ns wf tm r) category =
    recorded r category ++
    (wrap (clock r 0) shard range ns wf <$> default [] (tm !! category)).
Proof.
  unfold recordTasks, recorded. case_decide as Hsz.
  - apply map_size_empty_inv in Hsz. subst tm. rewrite lookup_empty. simpl. by rewrite app_nil_r.
  - simpl. apply (map_fold_weak_ind (λ m tm, default [] (m !! category) =
      default [] (tasks r !! category) ++
        (wrap (clock r 0) shard range ns wf <$> default [] (tm !! category)))).
    + rewrite lookup_empty. simpl. by rewrite app_nil_r.
    + intros k l tm' m Hk Hm. rewrite append_all, Hm. case_decide as Hc.
      * subst k. rewrite Hk, lookup_insert_eq. simpl. by rewrite app_nil_r.
      * by rewrite lookup_insert_ne, app_nil_r.
Qed.

Lemma recordTasks_delegate shard range ns wf tm (r : TaskQueueRecorder D Category Task) :
  delegate (recordTasks shard range ns wf tm r) = delegate r.
Proof. unfold recordTasks. by case_decide. Qed.

(** One call: the same answer and the same delegate as without the recorder,
    and the tasks of an accepted write at the end of their lists. *)
Lemma run_recorded_spec op r category :
  delegate (run_recorded op r).1 = (run_alone op (delegate r)).1 ∧
  (run_recorded op r).2 = (run_alone op (delegate r)).2 ∧
  RecTask <$> recorded (run_recorded op r).1 category =
    (RecTask <$> recorded r category) ++
    match (run_recorded op r).2 with
    | inr _ => if is_recorded op then op_tasks op category else []
    | inl _ => []
    end.
Proof.
  destruct op as [q|q|q|c q]; simpl.
  - unfold AddHistoryTasks. destruct (em_AddHistoryTasks q (delegate r)) as [d [e|]]; simpl.
    + by rewrite app_nil_r.
    + rewrite recordTasks_delegate, recordTasks_recorded, fmap_app, <-list_fmap_compose.
      simpl. by rewrite list_fmap_id.
  - unfold UpdateWorkflowExecution.
    destruct (em_UpdateWorkflowExecution q (delegate r)) as [d [e|resp]]; simpl.
    + by rewrite app_nil_r.
    + unfold record_snapshot. destruct (NewWorkflowSnapshot q) as [s|];
        rewrite ?recordTasks_delegate, ?recordTasks_recorded, ?fmap_app, <-?list_fmap_compose;
        simpl; by rewrite ?list_fmap_id, ?app_nil_r, <-?(assoc_L (++)).
  - unfold CreateWorkflowExecution.
    destruct (em_CreateWorkflowExecution q (delegate r)) as [d [e|resp]]; simpl.
    + by rewrite app_nil_r.
    + unfold record_snapshot.
      rewrite recordTasks_delegate, recordTasks_recorded, fmap_app, <-list_fmap_compose.
      simpl. by rewrite list_fmap_id.
  - unfold pass_through. destruct (em_call c q (delegate r)) as [d [e|resp]]; simpl;
      by rewrite app_nil_r.
Qed.

Lemma GetAllTasks_lookup (r : TaskQueueRecorder D Category Task) category :
  default [] (GetAllTasks r !! category) = RecTask <$> recorded r category.
Proof.
  unfold GetAllTasks, recorded.
  apply (map_fold_weak_ind (λ res m, default [] (res !! category) =
    RecTask <$> default [] (m !! category))); [by rewrite !lookup_empty|].
  intros k l m res Hk Hres. destruct (decide (k = category)) as [->|].
  - by rewrite !lookup_insert_eq.
  - by rewrite !lookup_insert_ne.
Qed.

Lemma run_all_recorded ops r category :
  let o := run_all run_recorded ops r in
  let a := run_all run_alone ops (delegate r) in
  delegate o.1 = a.1 ∧ o.2 = a.2 ∧
  RecTask <$> recorded o.1 category = (RecTask <$> recorded r category) ++ accepted is_recorded category ops o.2.
Proof.
  revert r. induction ops as [|op ops IH]; intros r; simpl; [by rewrite app_nil_r|].
  destruct (run_recorded_spec op r category) as (H1 & H2 & H3).
  destruct (IH (run_recorded op r).1) as (I1 & I2 & I3).
  rewrite I1, I2, H1, H2. split; [done|]. split; [done|]. rewrite I3, H3, <-(assoc_L (++)).
  unfold accepted. simpl. by rewrite H2, <-H1, I2.
Qed.

Lemma accepted_cons which category op ops reply replies :
  accepted which category (op :: ops) (reply :: replies) =
    match reply with inr _ => if which op then op_tasks op category else [] | inl _ => [] end ++
    accepted which category ops replies.
Proof. done. Qed.

(** The tasks of a history are those of the recorded calls and those of the
    others, interleaved. *)
Lemma length_accepted category ops replies :
  length (accepted (λ _, true) category ops replies) =
    length (accepted is_recorded category ops replies) +
    length (accepted (λ op, negb (is_recorded op)) category ops replies).
Proof.
  revert replies. induction ops as [|op ops IH]; intros [|reply replies]; try done.
  rewrite !accepted_cons, !length_app, IH. destruct reply; [done|].
  destruct (is_recorded op); simpl; lia.
Qed.

Lemma accepted_all category ops replies :
  accepted (λ op, negb (is_recorded op)) category ops replies = [] →
  accepted (λ _, true) category ops replies = accepted is_recorded category ops replies.
Proof.
  revert replies. induction ops as [|op ops IH]; intros [|reply replies]; try done.
  rewrite !accepted_cons. intros [H1 H2]%app_eq_nil. rewrite IH by done. f_equal.
  destruct reply; [done|]. by destruct (is_recorded op).
Qed.

(** C30: the recorder is transparent, and what it records.  In any history of
    calls, the recorder answers every call as the wrapped manager would alone and
    leaves it in the same state.  For every category the tasks it reports are
    exactly those of the AddHistoryTasks, UpdateWorkflowExecution and
    CreateWorkflowExecution calls that succeeded, in the order they were made, a
    new run's after those of the run that started it.  These are all the tasks
    written exactly when none of the other calls that succeeded wrote a task: those
    of ConflictResolveWorkflowExecution and SetWorkflowExecution are missed. *)
Theorem recorder_transparent_and_complete ops (d : D) clk category :
  let o := run_all run_recorded ops (NewTaskQueueRecorder d clk) in
  let reported := default [] (GetAllTasks o.1 !! category) in
  delegate o.1 = (run_all run_alone ops d).1 ∧
  o.2 = (run_all run_alone ops d).2 ∧
  reported = accepted is_recorded category ops o.2 ∧
  (reported = accepted (λ _, true) category ops o.2 ↔
   accepted (λ op, negb (is_recorded op)) category ops o.2 = []).
Proof.
  intros o reported.
  destruct (run_all_recorded ops (NewTaskQueueRecorder d clk) category) as (H1 & H2 & H3).
  assert (reported = accepted is_recorded category ops o.2) as Hrep.
  { unfold reported. rewrite GetAllTasks_lookup. unfold o. rewrite H3. unfold recorded. simpl.
    by rewrite lookup_empty. }
  split; [done|]. split; [done|]. split; [done|]. rewrite Hrep. split.
  - intros E%(f_equal length). rewrite length_accepted in E. apply nil_length_inv. lia.
  - intros E. by rewrite accepted_all.
Qed.

(** * Queries *)

Lemma collect_if_ext (f g : RecordedTask Task → bool) l :
  (∀ t, f t = g t) → collect_if f l = collect_if g l.
Proof. intros Hfg. induction l as [|t l IH]; simpl; [done|]. by rewrite Hfg, IH. Qed.

Lemma collect_if_filter (f : RecordedTask Task → bool) l : collect_if f l = filter (λ t, f t = true) l.
Proof.
  induction l as [|t l IH]; [done|]. rewrite filter_cons. simpl.
  by destruct (f t); simpl; rewrite IH.
Qed.

(** The scoped queries agree.  With a namespace and a workflow, filtering
    by category is matching the workflow's tasks without a matcher; without a
    workflow and a run it is matching the namespace's; matching a workflow in
    a namespace is matching its tasks everywhere and keeping the namespace's;
    and all of them are selections, in order, from what was recorded. *)
Theorem scoped_queries_agree dev (r : TaskQueueRecorder D Category Task) category ns wf run m :
  let byFilter f := GetRecordedTasksByCategoryFiltered dev category f r in
  (ns ≠ "" → wf ≠ "" →
   byFilter (mkFilter ns wf run) = Ok (MatchTasksForWorkflow category ns wf run None r)) ∧
  (ns ≠ "" → byFilter (mkFilter ns "" "") = Ok (MatchTasksForNamespace category ns None r)) ∧
  (ns ≠ "" → MatchTasksForWorkflow category ns wf run (Some m) r =
     filter (λ t, NamespaceID t = ns) (MatchTasksForWorkflow category "" wf run (Some m) r)) ∧
  MatchTasksForWorkflow category ns wf run (Some m) r `sublist_of` recorded r category.
Proof.
  intros byFilter. unfold byFilter, GetRecordedTasksByCategoryFiltered, MatchTasksForWorkflow,
    MatchTasksForNamespace, recorded. cbn [filter_NamespaceID filter_WorkflowID filter_RunID].
  split; [|split; [|split]].
  - intros Hns Hwf. rewrite bool_decide_eq_false_2, andb_false_r by done.
    destruct (tasks r !! category) as [l|]; [|done]. f_equal. apply collect_if_ext. intros t.
    repeat case_decide; naive_solver.
  - intros Hns. rewrite bool_decide_eq_false_2, andb_false_r by done.
    by destruct (tasks r !! category).
  - intros Hns. destruct (tasks r !! category) as [l|]; [|done].
    rewrite !collect_if_filter, list_filter_filter. apply list_filter_iff. intros t.
    rewrite (decide_False (P := "" ≠ "" ∧ _)) by tauto.
    destruct (decide (NamespaceID t = ns)) as [E|E].
    + rewrite (decide_False (P := ns ≠ "" ∧ _)) by tauto. tauto.
    + rewrite (decide_True (P := ns ≠ "" ∧ _)) by tauto. split; [discriminate|tauto].
  - destruct (tasks r !! category) as [l|]; simpl; [|done].
    rewrite collect_if_filter. apply sublist_filter.
Qed.
End histories.

(** * Writing the tasks to a file *)

(** The files, by path. *)
Notation files := (gmap string (list Byte.byte)).

(** [writeFile]: [os.Create] truncates; a write that fails has written some of the
    data. *)
Definition writeFile (create : option string) (write : option (nat * string)) (filePath : string)
    (data : list Byte.byte) (fs : files) : files * option string :=
  match create with
  | Some err => (fs, Some err)
  | None =>
      match write with
      | Some (n, err) => (<[filePath := take n data]> fs, Some err)
      | None => (<[filePath := data]> fs, None)
      end
  end.

Section log.
Context {D Category Task : Type} `{!TaskTypes Category Task}.
(** [json.MarshalIndent] of the recorded tasks. *)
Context (MarshalIndent : gmap Category (list (RecordedTask Task)) → string + list Byte.byte).

Definition recorder_WriteToLog (r : TaskQueueRecorder D Category Task) (filePath : string)
    (create : option string) (write : option (nat * string)) (fs : files) : files * option string :=
  match MarshalIndent (tasks r) with
  | inl err => (fs, Some ("failed to marshal captured tasks: " +:+ err))
  | inr jsonBytes =>
      let o := writeFile create write filePath jsonBytes fs in
      (o.1, (λ err, "failed to write to file " +:+ filePath +:+ ": " +:+ err) <$> o.2)
  end.

(** No other file is touched; without an error the file holds what the tasks were
    encoded as, and with one it holds a beginning of it or what it held before. *)
Theorem log_written r filePath create write fs :
  let o := recorder_WriteToLog r filePath create write fs in
  (∀ path, path ≠ filePath → o.1 !! path = fs !! path) ∧
  match o.2 with
  | None => ∃ data, MarshalIndent (tasks r) = inr data ∧ o.1 !! filePath = Some data
  | Some _ => o.1 !! filePath = fs !! filePath ∨
      ∃ data n, MarshalIndent (tasks r) = inr data ∧ o.1 !! filePath = Some (take n data)
  end.
Proof.
  unfold recorder_WriteToLog, writeFile.
  destruct (MarshalIndent _) as [err|data]; [by split; [|left]|].
  destruct create as [err|]; [by split; [|left]|].
  destruct write as [[n err]|]; cbn; (split; [by intros path Hp; apply lookup_insert_ne|]).
  - right. exists data, n. by rewrite lookup_insert_eq.
  - exists data. by rewrite lookup_insert_eq.
Qed.
End log.
