(* ===== verification/ClusterPool.v ===== *)
(** The pool of test clusters of the conformance tests
    ([conformance-tests/testcore/test_cluster_pool.go]): clusters created
    lazily, handed out round-robin or exclusively, and recreated after a
    number of uses. *)

From S2P Require Import Prelude GoStrings.
From stdpp Require Import options.

(** A cluster is known by the order of its creation. *)
Definition cluster_id := nat.

(** What the pools do to the outside: how many clusters were created, and which
    were torn down. *)
Record clusters_log := mkLog { created : nat; torn_down : list cluster_id }.

(** [createCluster()] and [TearDownCluster()], whose error is only logged. *)
Definition create (l : clusters_log) : clusters_log * cluster_id :=
  (mkLog (S (created l)) (torn_down l), created l).
Definition tear_down (c : cluster_id) (l : clusters_log) : clusters_log :=
  mkLog (created l) (torn_down l ++ [c]).

(** One pool.  [slots] is the channel of free indices of an exclusive pool. *)
Record pool := mkPool {
  clusters : list (option cluster_id);
  inits : list bool;
  counter : Z;
  slots : option (list nat);
  usageCounts : list Z;
  maxUsage : Z
}.

Definition newPool (size : nat) (exclusive : bool) : pool :=
  mkPool (replicate size None) (replicate size false) 0
    (if exclusive then Some (seq 0 size) else None) (replicate size 0%Z) 0.

Definition with_max (m : Z) (p : pool) : pool :=
  mkPool (clusters p) (inits p) (counter p) (slots p) (usageCounts p) m.

(** The index a test gets: a free slot, taken from the channel (none: the call
    blocks), or the next one round-robin. *)
Definition take_index (p : pool) : option (pool * Z) :=
  match slots p with
  | Some [] => None
  | Some (i :: q) =>
      Some (mkPool (clusters p) (inits p) (counter p) (Some q) (usageCounts p) (maxUsage p),
            Z.of_nat i)
  | None =>
      let n := i64 (counter p + 1) in
      Some (mkPool (clusters p) (inits p) n (slots p) (usageCounts p) (maxUsage p),
            Z.rem (i64 (n - 1)) (Z.of_nat (length (clusters p))))
  end.

Definition set_cluster (i : nat) (c : cluster_id) (p : pool) : pool :=
  mkPool (<[i := Some c]> (clusters p)) (inits p) (counter p) (slots p) (usageCounts p) (maxUsage p).
Definition set_usage (i : nat) (u : Z) (p : pool) : pool :=
  mkPool (clusters p) (inits p) (counter p) (slots p) (<[i := u]> (usageCounts p)) (maxUsage p).
Definition set_init (i : nat) (p : pool) : pool :=
  mkPool (clusters p) (<[i := true]> (inits p)) (counter p) (slots p) (usageCounts p) (maxUsage p).

Definition usage_at (p : pool) (i : nat) : Z := default 0%Z (usageCounts p !! i).
Definition cluster_at (p : pool) (i : nat) : option cluster_id := mjoin (clusters p !! i).

(** Counting the use, and replacing a cluster that had its share. *)
Definition count_usage (i : nat) (pl : pool * clusters_log) : pool * clusters_log :=
  let '(p, l) := pl in
  if decide (0 < maxUsage p)%Z then
    let usage := i64 (usage_at p i + 1) in
    let p := set_usage i usage p in
    if decide (maxUsage p < usage)%Z then
      match cluster_at p i with
      | Some c =>
          let '(l, c') := create (tear_down c l) in (set_usage i 1 (set_cluster i c' p), l)
      | None => (p, l)
      end
    else (p, l)
  else (p, l).

(** [p.inits[idx].Do(...)]. *)
Definition init_once (i : nat) (pl : pool * clusters_log) : pool * clusters_log :=
  let '(p, l) := pl in
  match inits p !! i with
  | Some false => let '(l, c) := create l in (set_init i (set_cluster i c p), l)
  | _ => (p, l)
  end.

(** [get]: the index taken and the cluster handed out; [None] when the call
    blocks.  An index out of range panics (the round-robin counter wraps to a
    negative one), and so would a nil cluster in [SetT]. *)
Definition pool_get (pl : pool * clusters_log)
    : option ((pool * clusters_log) * (nat * res cluster_id)) :=
  match take_index pl.1 with
  | None => None
  | Some (p, z) =>
      let i := Z.to_nat z in
      if decide (0 ≤ z < Z.of_nat (length (clusters p)))%Z then
        let pl := init_once i (count_usage i (p, pl.2)) in
        Some (pl, (i, match cluster_at pl.1 i with
                      | Some c => Ok c
                      | None => Panic "runtime error: invalid memory address or nil pointer dereference"
                      end))
      else Some ((p, pl.2), (i, Panic "runtime error: index out of range"))
  end.

(** [t.Cleanup(func() { p.slots <- idx })]. *)
Definition release (i : nat) (p : pool) : pool :=
  mkPool (clusters p) (inits p) (counter p) ((λ q, q ++ [i]) <$> slots p) (usageCounts p) (maxUsage p).

Definition acquireSlot (p : pool) : option (pool * option nat) :=
  match slots p with
  | None => Some (p, None)
  | Some [] => None
  | Some (i :: q) =>
      Some (mkPool (clusters p) (inits p) (counter p) (Some q) (usageCounts p) (maxUsage p), Some i)
  end.

(** * The pools of the test binary *)

(** The size of a pool: the environment's, which must be positive, or a default. *)
Definition pool_size (env dflt : string) (fallback : Z) : res Z :=
  if decide (env = "") then Ok fallback
  else match Atoi env with
       | Some n => if decide (n ≤ 0)%Z then Panic (dflt +:+ " must be a positive integer") else Ok n
       | None => Panic (dflt +:+ " must be a positive integer")
       end.

Record clusterPool := mkClusterPool {
  shared : pool;
  dedicated : pool;
  suiteScoped : gmap string (option cluster_id)
}.

(** [init()], with [GOMAXPROCS] and the environment. *)
Definition init_pools (gomaxprocs : Z) (env_shared env_dedicated env_ci : string) : res clusterPool :=
  match pool_size env_shared "TEMPORAL_TEST_SHARED_CLUSTERS" (Z.max 1 (Z.quot gomaxprocs 2)) with
  | Ok sharedSize =>
      match pool_size env_dedicated "TEMPORAL_TEST_DEDICATED_CLUSTERS" gomaxprocs with
      | Ok dedicatedSize =>
          let max := if decide (env_ci ≠ "") then 50%Z else 0%Z in
          Ok (mkClusterPool (with_max max (newPool (Z.to_nat sharedSize) false))
                (with_max max (newPool (Z.to_nat dedicatedSize) true)) ∅)
      | Err e => Err e | Panic m => Panic m | Diverge => Diverge
      end
  | Err e => Err e | Panic m => Panic m | Diverge => Diverge
  end.

(** What a test has to undo when it ends, the last registered first. *)
Inductive cleanup := ReleaseSlot (i : nat) | TearDown (c : cluster_id) | DropSuite (rootName : string).

Definition rootName (testName : string) : string := (Cut testName "/").1.1.

(** [UseSuiteScopedCluster]: only from a top-level test. *)
Definition UseSuiteScopedCluster (testName : string) (p : clusterPool)
    : string + (clusterPool * list cleanup) :=
  let root := rootName testName in
  if decide (testName ≠ root)
  then inl ("UseSuiteScopedCluster must be called from a top-level test, got " +:+ testName)
  else inr (mkClusterPool (shared p) (dedicated p)
              (match suiteScoped p !! root with
               | Some _ => suiteScoped p
               | None => <[root := None]> (suiteScoped p)
               end), [DropSuite root]).

(** [getSuiteScoped]: [None] when the test's root did not ask for one. *)
Definition getSuiteScoped (testName : string) (p : clusterPool) (l : clusters_log)
    : option ((clusterPool * clusters_log) * cluster_id) :=
  let root := rootName testName in
  match suiteScoped p !! root with
  | None => None
  | Some (Some c) => Some ((p, l), c)
  | Some None =>
      let '(l, c) := create l in
      Some ((mkClusterPool (shared p) (dedicated p) (<[root := Some c]> (suiteScoped p)), l), c)
  end.

(** [getDedicated]: a fresh cluster in an acquired slot for a custom
    configuration, a pooled one otherwise; [None] while no slot is free. *)
Definition getDedicated (custom : bool) (p : clusterPool) (l : clusters_log)
    : option ((clusterPool * clusters_log) * res cluster_id * list cleanup) :=
  if custom then
    match acquireSlot (dedicated p) with
    | None => None
    | Some (d, slot) =>
        let '(l, c) := create l in
        Some ((mkClusterPool (shared p) d (suiteScoped p), l), Ok c,
              TearDown c :: match slot with Some i => [ReleaseSlot i] | None => [] end)
    end
  else
    match pool_get (dedicated p, l) with
    | None => None
    | Some ((d, l), (i, r)) =>
        Some ((mkClusterPool (shared p) d (suiteScoped p), l), r, [ReleaseSlot i])
    end.

(** [clusterPool.get]. *)
Definition get_cluster (testName : string) (isDedicated custom : bool) (p : clusterPool)
    (l : clusters_log) : option ((clusterPool * clusters_log) * res cluster_id * list cleanup) :=
  if isDedicated || custom then getDedicated custom p l
  else match getSuiteScoped testName p l with
       | Some (pl, c) => Some (pl, Ok c, [])
       | None =>
           match pool_get (shared p, l) with
           | None => None
           | Some ((s, l), (_, r)) =>
               Some ((mkClusterPool s (dedicated p) (suiteScoped p), l), r, [])
           end
       end.

(** Running a registered cleanup. *)
Definition run_cleanup (c : cleanup) (pl : clusterPool * clusters_log) : clusterPool * clusters_log :=
  let '(p, l) := pl in
  match c with
  | ReleaseSlot i => (mkClusterPool (shared p) (release i (dedicated p)) (suiteScoped p), l)
  | TearDown c => (p, tear_down c l)
  | DropSuite root =>
      (mkClusterPool (shared p) (dedicated p) (delete root (suiteScoped p)),
       match suiteScoped p !! root with Some (Some c) => tear_down c l | _ => l end)
  end.

(** * Invariants of one pool *)

Record pool_inv (p : pool) (l : clusters_log) : Prop := {
  pool_lengths : length (inits p) = length (clusters p) ∧ length (usageCounts p) = length (clusters p);
  pool_inits : ∀ i, inits p !! i = Some true ↔ is_Some (cluster_at p i);
  pool_alive : ∀ i c, cluster_at p i = Some c → c < created l ∧ c ∉ torn_down l;
  pool_own : ∀ i j c, cluster_at p i = Some c → cluster_at p j = Some c → i = j;
  pool_past : ∀ c, c ∈ torn_down l → c < created l
}.

Lemma cluster_at_set p i c j :
  i < length (clusters p) →
  cluster_at (set_cluster i c p) j = if decide (j = i) then Some c else cluster_at p j.
Proof.
  intros Hi. unfold cluster_at, set_cluster. simpl. case_decide as Hj.
  - subst. by rewrite list_lookup_insert_eq.
  - by rewrite list_lookup_insert_ne.
Qed.

Lemma cluster_at_set_usage p i u j : cluster_at (set_usage i u p) j = cluster_at p j.
Proof. done. Qed.

Lemma pool_inv_new size m exclusive : pool_inv (with_max m (newPool size exclusive)) (mkLog 0 []).
Proof.
  assert (∀ i, cluster_at (with_max m (newPool size exclusive)) i = None) as Hnone.
  { intros i. unfold cluster_at. simpl.
    destruct (replicate size None !! i) eqn:E; [|done]. by apply lookup_replicate in E as [-> _]. }
  split; simpl.
  - by rewrite !length_replicate.
  - intros i. rewrite Hnone. split; [|by intros [? ?]].
    intros [? _]%lookup_replicate. done.
  - intros i c. by rewrite Hnone.
  - intros i j c. by rewrite Hnone.
  - set_solver.
Qed.

(** Putting a new cluster at an index, in place of the one that was torn down. *)
Lemma pool_inv_replace p l i c u :
  pool_inv p l → cluster_at p i = Some c →
  pool_inv (set_usage i u (set_cluster i (created l) p)) (create (tear_down c l)).1.
Proof.
  intros [[L1 L2] Hin Hal Hown Hpast] Hc.
  assert (i < length (clusters p)) as Hi.
  { unfold cluster_at in Hc. destruct (clusters p !! i) eqn:E; [by eapply lookup_lt_Some|done]. }
  split; simpl.
  - by rewrite !length_insert.
  - intros j. rewrite cluster_at_set_usage, cluster_at_set, Hin by done.
    case_decide; [subst; rewrite Hc; split; eauto|done].
  - intros j c'. rewrite cluster_at_set_usage, cluster_at_set by done. case_decide as Hj.
    + intros [= <-]. split; [lia|]. intros [Ht%Hpast|Ht%list_elem_of_singleton]%elem_of_app; [lia|].
      destruct (Hal i c Hc). lia.
    + intros Hc'. destruct (Hal j c' Hc') as [Hlt Hnt]. split; [lia|].
      intros [Ht|Ht%list_elem_of_singleton]%elem_of_app; [done|]. subst c'. by destruct Hj; eapply Hown.
  - intros j k c'. rewrite !cluster_at_set_usage, !cluster_at_set by done.
    repeat case_decide; intros; subst; simplify_eq; try done;
      try (match goal with Hx : cluster_at p _ = Some (created l) |- _ =>
             apply Hal in Hx as [? _]; lia end); eauto.
  - intros c' [Ht%Hpast|Ht%list_elem_of_singleton]%elem_of_app; [lia|]. subst.
    destruct (Hal i c Hc). lia.
Qed.

Lemma pool_inv_first p l i :
  pool_inv p l → inits p !! i = Some false →
  pool_inv (set_init i (set_cluster i (created l) p)) (create l).1.
Proof.
  intros [[L1 L2] Hin Hal Hown Hpast] Hf.
  assert (i < length (clusters p)) as Hi by (rewrite <-L1; by eapply lookup_lt_Some).
  assert (∀ j, cluster_at (set_init i (set_cluster i (created l) p)) j =
    if decide (j = i) then Some (created l) else cluster_at p j) as Hat
    by (intros j; apply (cluster_at_set p i (created l) j Hi)).
  split; simpl.
  - by rewrite !length_insert.
  - intros j. rewrite Hat. case_decide as Hj.
    + subst. rewrite list_lookup_insert_eq by lia. split; eauto.
    + by rewrite list_lookup_insert_ne, Hin.
  - intros j c'. rewrite Hat. case_decide as Hj.
    + intros [= <-]. split; [lia|]. intros Ht%Hpast. lia.
    + intros Hc'. destruct (Hal j c' Hc') as [Hlt Hnt]. split; [lia|done].
  - intros j k c'. rewrite !Hat.
    repeat case_decide; intros; subst; simplify_eq; try done;
      try (match goal with Hx : cluster_at p _ = Some (created l) |- _ =>
             apply Hal in Hx as [? _]; lia end); eauto.
  - intros c' Ht%Hpast. lia.
Qed.

(** What [get] does at its index [i], on any pool: it returns, the other
    clusters stay, and only the cluster at [i] may have been torn down. *)
Lemma use_index_spec p l i :
  pool_inv p l → i < length (clusters p) →
  let pl := init_once i (count_usage i (p, l)) in
  pool_inv pl.1 pl.2 ∧ slots pl.1 = slots p ∧ length (clusters pl.1) = length (clusters p) ∧
  maxUsage pl.1 = maxUsage p ∧
  is_Some (cluster_at pl.1 i) ∧
  (∀ j, j ≠ i → cluster_at pl.1 j = cluster_at p j ∧ usage_at pl.1 j = usage_at p j) ∧
  (∀ c, c ∈ torn_down pl.2 → c ∈ torn_down l ∨ cluster_at p i = Some c).
Proof.
  intros Hinv Hi pl.
  set (q := count_usage i (p, l)) in *.
  assert (pool_inv q.1 q.2 ∧ slots q.1 = slots p ∧ length (clusters q.1) = length (clusters p) ∧
    maxUsage q.1 = maxUsage p ∧
    (∀ j, j ≠ i → cluster_at q.1 j = cluster_at p j ∧ usage_at q.1 j = usage_at p j) ∧
    (∀ c, c ∈ torn_down q.2 → c ∈ torn_down l ∨ cluster_at p i = Some c)) as (Q1 & Q2 & Q3 & Q4 & Q5 & Q6).
  { assert (∀ u j, j ≠ i → usage_at (set_usage i u p) j = usage_at p j) as Hu.
    { intros u j Hj. unfold usage_at. simpl. by rewrite list_lookup_insert_ne. }
    assert (∀ u, pool_inv (set_usage i u p) l) as Hsu.
    { intros u. destruct Hinv as [[L1 L2] ? ? ? ?]. split; try done. simpl. by rewrite length_insert. }
    unfold q, count_usage. case_decide; [|by auto 10].
    case_decide; [|by simpl; auto 10].
    rewrite cluster_at_set_usage. destruct (cluster_at p i) as [c|] eqn:Ec; [|by simpl; auto 10].
    simpl. split.
    - apply (pool_inv_replace (set_usage i _ p) l i c 1 (Hsu _)). done.
    - rewrite !length_insert. do 3 (split; [done|]). split.
      + intros j Hj. split; [|unfold usage_at; simpl; by rewrite !list_lookup_insert_ne].
        change (cluster_at (set_cluster i (created l) p) j = cluster_at p j).
        by rewrite cluster_at_set, decide_False.
      + intros c' [Ht|Ht%list_elem_of_singleton]%elem_of_app; [auto|]. subst. auto. }
  unfold pl, init_once. destruct q as [p' l'] eqn:Eq. simpl in *.
  pose proof (pool_lengths _ _ Q1) as [L1 _].
  destruct (inits p' !! i) as [[]|] eqn:Ei.
  - simpl. split; [done|]. do 3 (split; [done|]). split; [by apply (pool_inits _ _ Q1)|auto].
  - simpl. split; [by apply pool_inv_first|]. rewrite length_insert. do 3 (split; [done|]).
    assert (∀ j, cluster_at (set_init i (set_cluster i (created l') p')) j =
      if decide (j = i) then Some (created l') else cluster_at p' j) as Hat
      by (intros j; apply (cluster_at_set p' i (created l') j); lia).
    split; [rewrite Hat, decide_True by done; by eexists|]. split; [|done].
    intros j Hj. rewrite Hat, decide_False by done. apply (Q5 j Hj).
  - exfalso. apply lookup_ge_None in Ei. lia.
Qed.

(** * Exclusive pools

    The tests that hold a slot: with the pooled cluster they got, or with none
    when they only acquired the slot for a fresh cluster. *)
Record lease_state := mkLease {
  ls_pool : pool; ls_log : clusters_log; ls_held : list (nat * option cluster_id)
}.

Inductive lease_step : lease_state → lease_state → Prop :=
| lease_get p l p' l' i c held :
    pool_get (p, l) = Some ((p', l'), (i, Ok c)) →
    lease_step (mkLease p l held) (mkLease p' l' ((i, Some c) :: held))
| lease_acquire p l p' i held :
    acquireSlot p = Some (p', Some i) →
    lease_step (mkLease p l held) (mkLease p' l ((i, None) :: held))
| lease_fresh p l held :
    (* a fresh cluster is created outside the pool *)
    lease_step (mkLease p l held) (mkLease p (create l).1 held)
| lease_release p l held1 i c held2 :
    lease_step (mkLease p l (held1 ++ (i, c) :: held2)) (mkLease (release i p) l (held1 ++ held2)).

Record lease_inv (size : nat) (s : lease_state) : Prop := {
  lease_pool : pool_inv (ls_pool s) (ls_log s);
  lease_size : length (clusters (ls_pool s)) = size;
  lease_slots : ∃ q, slots (ls_pool s) = Some q ∧ q ++ (ls_held s).*1 ≡ₚ seq 0 size;
  lease_held : ∀ i c, (i, Some c) ∈ ls_held s → cluster_at (ls_pool s) i = Some c
}.

Lemma lease_inv_new size m :
  lease_inv size (mkLease (with_max m (newPool size true)) (mkLog 0 []) []).
Proof.
  split; simpl; [apply pool_inv_new|by rewrite length_replicate| |set_solver].
  exists (seq 0 size). by rewrite app_nil_r.
Qed.

Lemma with_slots_inv p l q :
  pool_inv p l →
  pool_inv (mkPool (clusters p) (inits p) (counter p) q (usageCounts p) (maxUsage p)) l.
Proof. by intros []. Qed.

(** Taking a free slot leads to a cluster. *)
Lemma pool_get_exclusive size p l i q held :
  lease_inv size (mkLease p l held) → slots p = Some (i :: q) →
  ∃ p' l' c, pool_get (p, l) = Some ((p', l'), (i, Ok c)) ∧
    pool_inv p' l' ∧ slots p' = Some q ∧ length (clusters p') = size ∧ cluster_at p' i = Some c ∧
    (∀ j, j ≠ i → cluster_at p' j = cluster_at p j).
Proof.
  intros [Hinv Hsz Hsl _] Hq. simpl in *. destruct Hsl as (q' & Hq' & Hperm).
  rewrite Hq in Hq'. injection Hq' as <-.
  assert (i < size) as Hi.
  { assert (i ∈ seq 0 size) as Hin by (rewrite <-Hperm; set_solver).
    apply elem_of_seq in Hin. lia. }
  set (p1 := mkPool (clusters p) (inits p) (counter p) (Some q) (usageCounts p) (maxUsage p)).
  assert (pool_inv p1 l) as Hinv1 by (by apply with_slots_inv).
  destruct (use_index_spec p1 l i Hinv1) as (U1 & U2 & U3 & _ & [c Hc] & U5 & _); [simpl; lia|].
  exists (init_once i (count_usage i (p1, l))).1, (init_once i (count_usage i (p1, l))).2, c.
  split; [|split; [done|]; split; [done|]; split; [by rewrite U3|]; split; [done|];
    intros j Hj; apply (U5 j Hj)].
  unfold pool_get, take_index. cbn [fst snd]. rewrite Hq. fold p1.
  rewrite decide_True by (simpl; lia). rewrite Nat2Z.id, Hc.
  by destruct (init_once i (count_usage i (p1, l))).
Qed.

Lemma lease_inv_step size s s' : lease_step s s' → lease_inv size s → lease_inv size s'.
Proof.
  intros Hstep Hinv. destruct Hstep as [p l p' l' i c held Hg|p l p' i held Ha|p l held
    |p l held1 i c held2].
  - pose proof Hinv as [_ _ (q & Hq & Hperm) Hheld]. simpl in *.
    destruct q as [|i0 q]; [unfold pool_get, take_index in Hg; simpl in Hg; by rewrite Hq in Hg|].
    destruct (pool_get_exclusive size p l i0 q held Hinv Hq)
      as (p1 & l1 & c1 & E & P1 & P2 & P3 & P4 & P5).
    rewrite E in Hg. simplify_eq. split; simpl; [done|done| |].
    + exists q. split; [done|]. rewrite <-Hperm. symmetry. apply Permutation_middle.
    + intros j c' [[= -> ->]|Hin]%elem_of_cons; [done|]. rewrite P5; [by apply Hheld|].
      intros ->. assert (NoDup ((i :: q) ++ held.*1)) as Hnd by (rewrite Hperm; apply NoDup_seq).
      apply NoDup_app in Hnd as (_ & Hdis & _). apply (Hdis i); [set_solver|].
      apply list_elem_of_fmap. by exists (i, Some c').
  - destruct Hinv as [Hp Hsz (q & Hq & Hperm) Hheld]. simpl in *. unfold acquireSlot in Ha.
    rewrite Hq in Ha. destruct q as [|i0 q]; simplify_eq. split; simpl; [by apply with_slots_inv|done| |].
    + exists q. split; [done|]. rewrite <-Hperm. symmetry. apply Permutation_middle.
    + intros j c' [[=]|Hin]%elem_of_cons. by apply Hheld.
  - destruct Hinv as [[L Hin Hal Hown Hpast] Hsz Hq Hheld]. simpl in *. split; simpl; [|done..].
    split; simpl; [done..| | |]; [|done|].
    + intros i c Hc. destruct (Hal i c Hc). split; [lia|done].
    + intros c Hc%Hpast. lia.
  - destruct Hinv as [Hp Hsz (q & Hq & Hperm) Hheld]. simpl in *.
    split; simpl; [by apply with_slots_inv|done| |].
    + rewrite Hq. exists (q ++ [i]). split; [done|]. rewrite <-Hperm, !fmap_app. simpl.
      rewrite <-(assoc_L (++)). simpl. by rewrite (Permutation_middle (held1.*1)).
    + intros j c' Hin. apply Hheld. set_solver.
Qed.

(** C29: exclusive pools isolate tests.  In every interleaving of tests that get
    and release dedicated clusters, no two tests hold the same slot or the
    same cluster, a cluster a test holds is still in the pool and was not torn
    down (not even by the recreation after [maxUsage] uses), and [get] blocks
    exactly when every slot is held, and hands out a cluster otherwise. *)
Theorem exclusive_pool_isolates size m s :
  rtc lease_step (mkLease (with_max m (newPool size true)) (mkLog 0 []) []) s →
  NoDup (ls_held s).*1 ∧
  (∀ i c, (i, Some c) ∈ ls_held s → cluster_at (ls_pool s) i = Some c ∧ c ∉ torn_down (ls_log s)) ∧
  (∀ i j c, (i, Some c) ∈ ls_held s → (j, Some c) ∈ ls_held s → i = j) ∧
  (length (ls_held s) = size → pool_get (ls_pool s, ls_log s) = None) ∧
  (length (ls_held s) ≠ size →
   ∃ pl i c, pool_get (ls_pool s, ls_log s) = Some (pl, (i, Ok c)) ∧ i ∉ (ls_held s).*1).
Proof.
  intros Hrun. assert (lease_inv size s) as Hinv.
  { pose proof (lease_inv_new size m) as H0.
    induction Hrun as [|s0 s1 s2 Hstep Hrun IH]; [done|]. apply IH. by eapply lease_inv_step. }
  destruct s as [p l held]. pose proof Hinv as [Hp Hsz (q & Hq & Hperm) Hheld]. simpl in *.
  assert (NoDup (q ++ held.*1)) as Hnd by (rewrite Hperm; apply NoDup_seq).
  pose proof (Permutation_length Hperm) as Hlen. rewrite length_app, length_fmap, length_seq in Hlen.
  apply NoDup_app in Hnd as (_ & Hdis & Hnd). split; [done|].
  split; [intros i c Hin; specialize (Hheld i c Hin); by destruct (pool_alive _ _ Hp i c Hheld)|].
  split; [intros i j c Hi Hj; eapply (pool_own _ _ Hp); by apply Hheld|]. split.
  - intros Hall. destruct q as [|i q]; [|simpl in Hlen; lia].
    unfold pool_get, take_index. simpl. by rewrite Hq.
  - intros Hfree. destruct q as [|i q]; [simpl in Hlen; lia|].
    destruct (pool_get_exclusive size p l i q held Hinv Hq) as (p' & l' & c & E & _).
    exists (p', l'), i, c. split; [done|]. apply Hdis. set_solver.
Qed.

(** Shared pools do not wait for the tests that use a cluster.  With a
    shared pool of one cluster that is recreated after two uses, three tests
    that run at the same time get: the first two the same cluster, the third a
    new one, and the cluster of the first two is torn down while they run. *)
Theorem shared_pool_tears_down_in_use :
  (s1 ← pool_get (with_max 2 (newPool 1 false), mkLog 0 []);
   s2 ← pool_get s1.1;
   s3 ← pool_get s2.1;
   Some ([s1.2; s2.2; s3.2], torn_down s3.1.2)) =
  Some ([(0, Ok 0); (0, Ok 0); (0, Ok 1)], [0]).
Proof. vm_compute. reflexivity. Qed.

(** * The properties at a concrete run *)

Definition w_pool : pool := with_max 1 (newPool 2 true).

Definition w_get (s : lease_state) : lease_state :=
  match pool_get (ls_pool s, ls_log s) with
  | Some (pl, (i, Ok c)) => mkLease pl.1 pl.2 ((i, Some c) :: ls_held s)
  | _ => s
  end.

Definition w_lease0 : lease_state := mkLease w_pool (mkLog 0 []) [].

(** One test takes the first cluster, releases it, and two more run. *)
Definition w_lease1 : lease_state := w_get w_lease0.
Definition w_lease2 : lease_state := mkLease (release 0 (ls_pool w_lease1)) (ls_log w_lease1) [].
Definition w_lease4 : lease_state := w_get (w_get w_lease2).

Lemma w_get_step s pl i c :
  pool_get (ls_pool s, ls_log s) = Some (pl, (i, Ok c)) → lease_step s (w_get s).
Proof.
  intros E. unfold w_get. rewrite E. destruct s as [p l held], pl as [p' l']. by apply lease_get.
Qed.

Lemma w_lease_runs : rtc lease_step w_lease0 w_lease4.
Proof.
  eapply rtc_l; [eapply w_get_step; vm_compute; reflexivity|].
  eapply rtc_l; [apply (lease_release (ls_pool w_lease1) (ls_log w_lease1) [] 0 (Some 0) [])|].
  eapply rtc_l; [eapply w_get_step; vm_compute; reflexivity|].
  eapply rtc_l; [eapply w_get_step; vm_compute; reflexivity|].
  apply rtc_refl.
Qed.

Lemma exclusive_pool_isolates_witness : NoDup (ls_held w_lease4).*1.
Proof. apply (exclusive_pool_isolates 2 1 w_lease4). exact w_lease_runs. Defined.
