(* ===== verification/ReplicationRecorder.v ===== *)
(** The replication stream recorder of the conformance tests
    ([conformance-tests/testcore/replication_stream_recorder.go]): gRPC
    interceptors and stream wrappers that keep the messages of the replication
    calls, in both directions, on the client's and on the server's side. *)

From S2P Require Import Prelude.
From stdpp Require Import options.

(** What the recorder needs of [proto.Message]: its name and its JSON form. *)
Class ProtoMessage (Msg : Type) := {
  FullName : Msg → string;
  protojson_Marshal : Msg → string + string
}.

Definition DirectionSend : string := "send".
Definition DirectionRecv : string := "recv".
Definition DirectionServerSend : string := "server_send".
Definition DirectionServerRecv : string := "server_recv".

Definition isReplicationMethod (method : string) : bool :=
  bool_decide (method = "/temporal.server.api.historyservice.v1.HistoryService/StreamWorkflowReplicationMessages") ||
  bool_decide (method = "/temporal.server.api.adminservice.v1.AdminService/StreamWorkflowReplicationMessages").

(** A value of type [any]: a message, or something else. *)
Inductive any (Msg : Type) := AProto (m : Msg) | AOther.
Arguments AProto {_} _.
Arguments AOther {_}.

Record CapturedReplicationMessage (Msg : Type) := mkCaptured {
  cm_Timestamp : string;
  cm_Method : string;
  cm_Direction : string;
  cm_ClusterName : string;
  cm_TargetAddress : string;
  cm_MessageType : string;
  cm_IsStreamCall : bool;
  cm_Request : option Msg;
  cm_Response : option Msg;
  cm_Message : option string
}.
Arguments mkCaptured {_} _ _ _ _ _ _ _ _ _ _.
Arguments cm_Timestamp {_} _.
Arguments cm_Method {_} _.
Arguments cm_Direction {_} _.
Arguments cm_ClusterName {_} _.
Arguments cm_TargetAddress {_} _.
Arguments cm_MessageType {_} _.
Arguments cm_IsStreamCall {_} _.
Arguments cm_Request {_} _.
Arguments cm_Response {_} _.
Arguments cm_Message {_} _.

Section recorder.
Context {Msg : Type} `{ProtoMessage Msg}.

(** The recorder, with the clock's readings still to come. *)
Record ReplicationStreamRecorder := mkStreamRecorder {
  capturedMessages : list (CapturedReplicationMessage Msg);
  outputFilePath : string;
  now : nat → string
}.

Definition NewReplicationStreamRecorder (now : nat → string) : ReplicationStreamRecorder :=
  mkStreamRecorder [] "" now.

Definition SetOutputFile (filePath : string) (r : ReplicationStreamRecorder)
    : ReplicationStreamRecorder := mkStreamRecorder (capturedMessages r) filePath (now r).

Definition Clear_messages (r : ReplicationStreamRecorder) : ReplicationStreamRecorder :=
  mkStreamRecorder [] (outputFilePath r) (now r).

Definition GetMessages (r : ReplicationStreamRecorder) : list (CapturedReplicationMessage Msg) :=
  capturedMessages r.

Definition is_send (direction : string) : bool :=
  bool_decide (direction = DirectionSend) || bool_decide (direction = DirectionServerSend).

(** The message is kept as the request or as the response, by its direction. *)
Definition recordMessage (method : string) (msg : Msg) (direction clusterName targetAddr : string)
    (isStreamCall : bool) (r : ReplicationStreamRecorder) : ReplicationStreamRecorder :=
  let captured :=
    mkCaptured (now r 0) method direction clusterName targetAddr (FullName msg) isStreamCall
      (if is_send direction then Some msg else None)
      (if is_send direction then None else Some msg) None in
  mkStreamRecorder (capturedMessages r ++ [captured]) (outputFilePath r) (λ n, now r (S n)).

(** [if protoX, ok := x.(proto.Message); ok { r.recordMessage(...) }]. *)
Definition record_any (method : string) (x : any Msg) (direction clusterName targetAddr : string)
    (isStreamCall : bool) (r : ReplicationStreamRecorder) : ReplicationStreamRecorder :=
  match x with
  | AProto msg => recordMessage method msg direction clusterName targetAddr isStreamCall r
  | AOther => r
  end.

(** [json_MarshalIndent] is the encoder's output for the struct, or its error. *)
Definition formatCapturedMessage
    (json_MarshalIndent : CapturedReplicationMessage Msg → string + string)
    (captured : CapturedReplicationMessage Msg) : string :=
  let msg := if is_send (cm_Direction captured) then cm_Request captured else cm_Response captured in
  let message :=
    match msg with
    | Some msg => match protojson_Marshal msg with
                  | inr jsonBytes => Some jsonBytes
                  | inl _ => cm_Message captured
                  end
    | None => cm_Message captured
    end in
  let captured :=
    mkCaptured (cm_Timestamp captured) (cm_Method captured) (cm_Direction captured)
      (cm_ClusterName captured) (cm_TargetAddress captured) (cm_MessageType captured)
      (cm_IsStreamCall captured) (cm_Request captured) (cm_Response captured) message in
  match json_MarshalIndent captured with
  | inr jsonOutput => jsonOutput
  | inl e => "{" +:+ String (Ascii.ascii_of_nat 34) "error" +:+ String (Ascii.ascii_of_nat 34) ": " +:+
             String (Ascii.ascii_of_nat 34) "failed to marshal output: " +:+ e +:+
             String (Ascii.ascii_of_nat 34) "}"
  end.

(** The file the log is written to: its creation, each write and the final
    sync may fail. *)
Section write_log.
Context {F : Type} (fs_Create : string → F → F * option string)
  (fs_WriteString : string → F → F * option string) (fs_Sync : F → F * option string)
  (json_MarshalIndent : CapturedReplicationMessage Msg → string + string).

Fixpoint write_messages (ms : list (CapturedReplicationMessage Msg)) (f : F) : F * option string :=
  match ms with
  | [] => (f, None)
  | m :: ms =>
      let o := fs_WriteString (formatCapturedMessage json_MarshalIndent m +:+
                               String (Ascii.ascii_of_nat 10) "") f in
      match o.2 with
      | Some e => (o.1, Some ("failed to write message: " +:+ e))
      | None => write_messages ms o.1
      end
  end.

Definition WriteToLog (r : ReplicationStreamRecorder) (f : F) : F * option string :=
  if decide (outputFilePath r = "") then (f, Some "output file path not set")
  else
    let o := fs_Create (outputFilePath r) f in
    match o.2 with
    | Some e => (o.1, Some ("failed to create output file " +:+ outputFilePath r +:+ ": " +:+ e))
    | None =>
        let o := write_messages (capturedMessages r) o.1 in
        match o.2 with Some e => (o.1, Some e) | None => fs_Sync o.1 end
    end.
End write_log.

(** * Interceptors

    [E] is the state of the world the calls act on. *)
Context {E : Type}.

Definition UnaryInterceptor (clusterName method target : string) (req : any Msg)
    (invoker : E → E * (string + any Msg)) (s : ReplicationStreamRecorder * E)
    : (ReplicationStreamRecorder * E) * (string + any Msg) :=
  let r := if isReplicationMethod method
           then record_any method req DirectionSend clusterName target false s.1 else s.1 in
  let o := invoker s.2 in
  let r := match o.2 with
           | inr reply => if isReplicationMethod method
                          then record_any method reply DirectionRecv clusterName target false r else r
           | inl _ => r
           end in
  ((r, o.1), o.2).

Definition UnaryServerInterceptor (clusterName fullMethod : string) (req : any Msg)
    (handler : E → E * (string + any Msg)) (s : ReplicationStreamRecorder * E)
    : (ReplicationStreamRecorder * E) * (string + any Msg) :=
  let r := if isReplicationMethod fullMethod
           then record_any fullMethod req DirectionServerRecv clusterName "server" false s.1 else s.1 in
  let o := handler s.2 in
  let r := match o.2 with
           | inr resp => if isReplicationMethod fullMethod
                         then record_any fullMethod resp DirectionServerSend clusterName "server" false r
                         else r
           | inl _ => r
           end in
  ((r, o.1), o.2).

(** A stream: what sending and receiving a message do. *)
Record stream := mkStream {
  stream_Send : any Msg → E → E * option string;
  stream_Recv : E → E * (string + any Msg)
}.

(** The wrapped stream's [SendMsg] records first, and [RecvMsg] only what was
    received; the two sides differ in the directions and the address. *)
Record wrapper := mkWrapper {
  wr_send : string; wr_recv : string; wr_method : string; wr_cluster : string; wr_target : string
}.

Definition recordingClientStream (method clusterName targetAddress : string) : wrapper :=
  mkWrapper DirectionSend DirectionRecv method clusterName targetAddress.
Definition recordingServerStream (method clusterName : string) : wrapper :=
  mkWrapper DirectionServerSend DirectionServerRecv method clusterName "server".

Definition SendMsg (w : wrapper) (st : stream) (m : any Msg) (s : ReplicationStreamRecorder * E)
    : (ReplicationStreamRecorder * E) * option string :=
  let r := record_any (wr_method w) m (wr_send w) (wr_cluster w) (wr_target w) true s.1 in
  let o := stream_Send st m s.2 in ((r, o.1), o.2).

Definition RecvMsg (w : wrapper) (st : stream) (s : ReplicationStreamRecorder * E)
    : (ReplicationStreamRecorder * E) * (string + any Msg) :=
  let o := stream_Recv st s.2 in
  let r := match o.2 with
           | inr m => record_any (wr_method w) m (wr_recv w) (wr_cluster w) (wr_target w) true s.1
           | inl _ => s.1
           end in
  ((r, o.1), o.2).

(** [StreamInterceptor] and [StreamServerInterceptor]: the stream of a
    replication call is wrapped, any other is left alone. *)
Definition StreamInterceptor (clusterName method target : string) : option wrapper :=
  if isReplicationMethod method then Some (recordingClientStream method clusterName target) else None.

Definition StreamServerInterceptor (clusterName fullMethod : string) : option wrapper :=
  if isReplicationMethod fullMethod then Some (recordingServerStream fullMethod clusterName) else None.

(** * Histories of a stream *)

Inductive stream_op := OSend (m : any Msg) | ORecv.

(** The result of an operation: the error of a send, or the message received. *)
Definition stream_res : Type := option string + (string + any Msg).

Definition run_plain (st : stream) (op : stream_op) (e : E) : E * stream_res :=
  match op with
  | OSend m => let o := stream_Send st m e in (o.1, inl o.2)
  | ORecv => let o := stream_Recv st e in (o.1, inr o.2)
  end.

(** The same on the stream the interceptor returned. *)
Definition run_intercepted (w : option wrapper) (st : stream) (op : stream_op)
    (s : ReplicationStreamRecorder * E) : (ReplicationStreamRecorder * E) * stream_res :=
  match w with
  | None => let o := run_plain st op s.2 in ((s.1, o.1), o.2)
  | Some w =>
      match op with
      | OSend m => let o := SendMsg w st m s in (o.1, inl o.2)
      | ORecv => let o := RecvMsg w st s in (o.1, inr o.2)
      end
  end.

Fixpoint run_stream {S} (run : stream_op → S → S * stream_res) (ops : list stream_op) (s : S)
    : S * list stream_res :=
  match ops with
  | [] => (s, [])
  | op :: ops =>
      let o := run op s in let rest := run_stream run ops o.1 in (rest.1, o.2 :: rest.2)
  end.

(** What an operation shows the recorder: every message sent, and every message
    received without an error, with its direction. *)
Definition observed (w : wrapper) (op : stream_op) (res : stream_res) : list (string * Msg) :=
  match op, res with
  | OSend (AProto m), _ => [(wr_send w, m)]
  | ORecv, inr (inr (AProto m)) => [(wr_recv w, m)]
  | _, _ => []
  end.

(** A captured message, as what was observed of it. *)
Definition captured_message (c : CapturedReplicationMessage Msg) : option (string * Msg) :=
  pair (cm_Direction c) <$> (if is_send (cm_Direction c) then cm_Request c else cm_Response c).

Lemma record_any_captured method x dir cluster target b r :
  omap captured_message (capturedMessages (record_any method x dir cluster target b r)) =
    omap captured_message (capturedMessages r) ++
    match x with AProto m => [(dir, m)] | AOther => [] end.
Proof.
  destruct x as [m|]; simpl; [|by rewrite app_nil_r].
  rewrite omap_app. simpl. unfold captured_message. simpl. by destruct (is_send dir).
Qed.

Lemma run_intercepted_spec w st op s :
  (run_intercepted (Some w) st op s).1.2 = (run_plain st op s.2).1 ∧
  (run_intercepted (Some w) st op s).2 = (run_plain st op s.2).2 ∧
  omap captured_message (capturedMessages (run_intercepted (Some w) st op s).1.1) =
    omap captured_message (capturedMessages s.1) ++
    observed w op (run_intercepted (Some w) st op s).2.
Proof.
  destruct op as [m|]; simpl.
  - rewrite record_any_captured. by destruct m.
  - destruct (stream_Recv st s.2) as [e [err|m]]; simpl; [by rewrite app_nil_r|].
    rewrite record_any_captured. by destruct m.
Qed.

(** Stream recording is transparent and exact.  Whatever is sent and
    received on a stream, the interceptor's stream gives the same results and
    has the same effect as the bare stream; on a replication call the recorder
    then holds, after what it held, exactly the messages sent and the messages
    received without an error, in order and with their directions; on any
    other call it holds what it held. *)
Theorem stream_recording_exact (side : string → string → option wrapper) target cluster method
    st ops r (e : E) :
  side = (λ cluster method, StreamInterceptor cluster method target) ∨
  side = StreamServerInterceptor →
  let w := side cluster method in
  let o := run_stream (run_intercepted w st) ops (r, e) in
  let a := run_stream (run_plain st) ops e in
  o.1.2 = a.1 ∧ o.2 = a.2 ∧
  omap captured_message (capturedMessages o.1.1) =
    omap captured_message (capturedMessages r) ++
    match w with
    | Some w => '(op, res) ← zip ops a.2; observed w op res
    | None => []
    end ∧
  (is_Some w ↔ isReplicationMethod method = true).
Proof.
  intros Hside w o a.
  assert (is_Some w ↔ isReplicationMethod method = true) as Hw.
  { unfold w. destruct Hside as [->| ->]; unfold StreamInterceptor, StreamServerInterceptor;
      destruct (isReplicationMethod method); split; try done; by intros [? ?]. }
  unfold o, a. clearbody w. clear Hside o a.
  enough (∀ s : ReplicationStreamRecorder * E,
    let o := run_stream (run_intercepted w st) ops s in
    let a := run_stream (run_plain st) ops s.2 in
    o.1.2 = a.1 ∧ o.2 = a.2 ∧
    omap captured_message (capturedMessages o.1.1) =
      omap captured_message (capturedMessages s.1) ++
      match w with
      | Some w => '(op, res) ← zip ops a.2; observed w op res
      | None => []
      end) as Hall by (destruct (Hall (r, e)) as (? & ? & ?); auto).
  induction ops as [|op ops IH]; intros s; simpl.
  { destruct w; by rewrite app_nil_r. }
  destruct (IH (run_intercepted w st op s).1) as (I1 & I2 & I3). destruct w as [w|].
  - destruct (run_intercepted_spec w st op s) as (H1 & H2 & H3).
    rewrite I1, I2, I3, H3, H1, H2, <-(assoc_L (++)). done.
  - simpl in *. rewrite I1, I2, I3. done.
Qed.
End recorder.

(** * The properties at a concrete stream *)

#[local] Instance w_proto : ProtoMessage nat := {|
  FullName _ := "temporal.Message"; protojson_Marshal _ := inl "unsupported"
|}.

(** A stream that echoes: what is sent can be received, in order. *)
Definition w_stream : @stream nat (list (any nat)) := {|
  stream_Send m q := (q ++ [m], None);
  stream_Recv q := match q with [] => ([], inl "EOF") | m :: q => (q, inr m) end
|}.

Definition w_method : string :=
  "/temporal.server.api.adminservice.v1.AdminService/StreamWorkflowReplicationMessages".

Lemma stream_recording_exact_witness :
  let w := recordingServerStream w_method "standby" in
  let o := run_stream (run_intercepted (StreamServerInterceptor "standby" w_method) w_stream)
             [OSend (AProto 1); ORecv; OSend AOther; ORecv; ORecv]
             (NewReplicationStreamRecorder (λ _, "now"), []) in
  omap captured_message (capturedMessages o.1.1) =
    [(DirectionServerSend, 1); (DirectionServerRecv, 1)].
Proof.
  intros w o.
  destruct (stream_recording_exact StreamServerInterceptor "" "standby" w_method w_stream
    [OSend (AProto 1); ORecv; OSend AOther; ORecv; ORecv]
    (NewReplicationStreamRecorder (λ _, "now")) [] (or_intror eq_refl)) as (_ & _ & Hc & _).
  etransitivity; [exact Hc|]. vm_compute. reflexivity.
Defined.
