(* ===== verification/MetricCapture.v ===== *)
(** Metric captures and matching behaviours of the conformance tests
    ([conformance-tests/testcore/metric_capture.go] and
    [matching_behavior.go]). *)

From S2P Require Import Prelude.
From stdpp Require Import options.

(** * Metric captures *)

(** A recording of [metricstest]: its tags and its value. *)
Record CapturedRecording := mkRecording { Tags : gmap string string; Value : Z }.

(** [capture.Snapshot()]: the recordings by metric. *)
Definition CaptureSnapshot := gmap string (list CapturedRecording).

Definition recordings (snap : CaptureSnapshot) (name : string) : list CapturedRecording :=
  default [] ((snap : gmap string (list CapturedRecording)) !! name).

Definition collectMetricNilKeepPanic : string :=
  "CollectMetric keep func must not be nil; use Metric(name) to collect all readings".

(** The global capture: the metrics a test asked for. *)
Record GlobalMetricCapture := mkGlobal { queriedMetrics : gset string }.

Definition newGlobalMetricCapture : GlobalMetricCapture := mkGlobal ∅.

Section captures.
Context (snap : CaptureSnapshot).

(** [keep] is nil for [Metric]. *)
Definition kept (keep : option (CapturedRecording → bool)) (rec : CapturedRecording) : bool :=
  match keep with None => true | Some keep => keep rec end.

Fixpoint global_collect (keep : option (CapturedRecording → bool)) (l : list CapturedRecording)
    : list CapturedRecording :=
  match l with
  | [] => []
  | rec :: l => if kept keep rec then rec :: global_collect keep l else global_collect keep l
  end.

Definition global_collectMetric (name : string) (keep : option (CapturedRecording → bool))
    : GoM GlobalMetricCapture (list CapturedRecording) :=
  modify (λ c, mkGlobal ({[name]} ∪ queriedMetrics c));;
  mret (global_collect keep (recordings snap name)).

Definition global_Metric (name : string) := global_collectMetric name None.

Definition global_CollectMetric (name : string) (keep : option (CapturedRecording → bool))
    : GoM GlobalMetricCapture (list CapturedRecording) :=
  match keep with
  | None => panic collectMetricNilKeepPanic
  | Some _ => global_collectMetric name keep
  end.

(** The two nested loops: every queried metric has recordings, all of them with
    a namespace tag. *)
Definition recording_scoped (rec : CapturedRecording) : bool :=
  bool_decide (is_Some (Tags rec !! "namespace")).

Fixpoint all_scoped (l : list CapturedRecording) : bool :=
  match l with
  | [] => true
  | rec :: l => if recording_scoped rec then all_scoped l else false
  end.

Fixpoint allQueriedMetricsAreNamespaceScoped (names : list string) : bool :=
  match names with
  | [] => true
  | name :: names =>
      if decide (length (recordings snap name) = 0) then false
      else if all_scoped (recordings snap name)
           then allQueriedMetricsAreNamespaceScoped names else false
  end.

Definition queriedMetricNames (c : GlobalMetricCapture) : list string := elements (queriedMetrics c).

Definition checkForNamespaceCaptureMisuse : GoM GlobalMetricCapture unit :=
  c ← gets id;
  if decide (length (queriedMetricNames c) = 0) then mret tt
  else if allQueriedMetricsAreNamespaceScoped (queriedMetricNames c)
  then panic "GlobalMetricCapture was used, but all queried metrics were namespace-scoped; use NamespaceMetricCapture instead"
  else mret tt.

(** The capture of one namespace: it panics at the first recording without a
    namespace. *)
Fixpoint namespace_collect (namespace : string) (keep : option (CapturedRecording → bool))
    (l : list CapturedRecording) : res (list CapturedRecording) :=
  match l with
  | [] => Ok []
  | rec :: l =>
      match Tags rec !! "namespace" with
      | None => Panic "metric is not namespace-scoped; use GlobalMetricCapture instead"
      | Some ns =>
          match namespace_collect namespace keep l with
          | Ok rest => Ok (if bool_decide (ns = namespace) && kept keep rec then rec :: rest else rest)
          | r => r
          end
      end
  end.

Definition namespace_collectMetric (namespace name : string)
    (keep : option (CapturedRecording → bool)) : res (list CapturedRecording) :=
  namespace_collect namespace keep (recordings snap name).

Definition namespace_Metric (namespace name : string) := namespace_collectMetric namespace name None.

Definition namespace_CollectMetric (namespace name : string)
    (keep : option (CapturedRecording → bool)) : res (list CapturedRecording) :=
  match keep with
  | None => Panic collectMetricNilKeepPanic
  | Some _ => namespace_collectMetric namespace name keep
  end.

(** * The misuse check *)

Lemma global_collect_filter keep l : global_collect keep l = filter (λ rec, kept keep rec = true) l.
Proof.
  induction l as [|rec l IH]; [done|]. rewrite filter_cons. simpl. rewrite IH.
  by destruct (kept keep rec).
Qed.

Lemma all_scoped_spec l : all_scoped l = true ↔ ∀ rec, rec ∈ l → recording_scoped rec = true.
Proof.
  induction l as [|rec l IH]; simpl; [set_solver|].
  destruct (recording_scoped rec) eqn:E; [rewrite IH; set_solver|].
  split; [done|]. intros Hall. by rewrite <-E, Hall by set_solver.
Qed.

Lemma namespace_collect_spec ns keep l :
  namespace_collect ns keep l =
    if all_scoped l
    then Ok (filter (λ rec, Tags rec !! "namespace" = Some ns ∧ kept keep rec = true) l)
    else Panic "metric is not namespace-scoped; use GlobalMetricCapture instead".
Proof.
  induction l as [|rec l IH]; [done|]. simpl. unfold recording_scoped.
  destruct (Tags rec !! "namespace") as [n|] eqn:E.
  - rewrite (bool_decide_eq_true_2 (is_Some (Some n))) by (by eexists). rewrite IH. destruct (all_scoped l); [|done].
    rewrite filter_cons, E. case_bool_decide as Hn; simpl.
    + subst. destruct (kept keep rec); case_decide; naive_solver.
    + rewrite decide_False by naive_solver. done.
  - rewrite bool_decide_eq_false_2; [done|by intros [? ?]].
Qed.

Lemma allQueried_spec names :
  allQueriedMetricsAreNamespaceScoped names = true ↔
  ∀ name, name ∈ names → recordings snap name ≠ [] ∧
    ∀ rec, rec ∈ recordings snap name → recording_scoped rec = true.
Proof.
  induction names as [|name names IH]; simpl; [set_solver|]. case_decide as H0.
  - apply length_zero_iff_nil in H0. split; [done|]. intros Hall.
    destruct (Hall name ltac:(set_solver)) as [? _]. done.
  - pose proof (all_scoped_spec (recordings snap name)) as Hsp.
    destruct (all_scoped (recordings snap name)).
    + rewrite IH. split.
      * intros Hall n [->|Hin]%elem_of_cons; [|by apply Hall].
        split; [by intros E; rewrite E in H0|by apply Hsp].
      * intros Hall n Hin. apply Hall. set_solver.
    + split; [done|]. intros Hall. apply Hsp. by destruct (Hall name ltac:(set_solver)).
Qed.

(** The metrics a test asks the global capture for. *)
Fixpoint query_all (qs : list (string * option (CapturedRecording → bool)))
    : GoM GlobalMetricCapture unit :=
  match qs with
  | [] => mret tt
  | (name, keep) :: qs => global_collectMetric name keep;; query_all qs
  end.

Lemma query_all_names qs c :
  ∃ c', query_all qs c = (c', Ok tt) ∧
    ∀ n, n ∈ queriedMetrics c' ↔ n ∈ queriedMetrics c ∨ n ∈ qs.*1.
Proof.
  revert c. induction qs as [|[name keep] qs IH]; intros c; simpl.
  { exists c. split; [done|]. set_solver. }
  destruct (IH (mkGlobal ({[name]} ∪ queriedMetrics c))) as (c' & E & Hn).
  exists c'. split; [exact E|]. intros n. rewrite Hn. simpl. set_solver.
Qed.

(** The misuse check is exact.  After a test queried some metrics of the
    global capture, the check panics if and only if it queried at least one
    and the namespace capture would have served every one of those queries
    with recordings to choose from: each queried metric has recordings and
    the namespace capture, for any namespace, returns without panicking. *)
Theorem misuse_check_exact qs ns :
  let c := (query_all qs newGlobalMetricCapture).1 in
  is_panic (checkForNamespaceCaptureMisuse c).2 = true ↔
  qs ≠ [] ∧ ∀ name keep, (name, keep) ∈ qs →
    recordings snap name ≠ [] ∧ is_panic (namespace_collectMetric ns name keep) = false.
Proof.
  intros c. destruct (query_all_names qs newGlobalMetricCapture) as (c' & E & Hn).
  assert (c = c') as -> by (unfold c; by rewrite E).
  assert (∀ n, n ∈ queriedMetricNames c' ↔ n ∈ qs.*1) as Hq.
  { intros n. unfold queriedMetricNames. rewrite elem_of_elements, Hn. set_solver. }
  unfold checkForNamespaceCaptureMisuse. go_simpl. cbn [id]. case_decide as H0.
  - split; [done|]. intros [Hne _]. destruct qs as [|[n k] qs]; [done|].
    apply length_zero_iff_nil in H0. rewrite H0 in Hq. destruct (Hq n) as [_ Hx].
    simpl in Hx. set_solver.
  - pose proof (allQueried_spec (queriedMetricNames c')) as Hsp.
    transitivity (allQueriedMetricsAreNamespaceScoped (queriedMetricNames c') = true);
      [by destruct (allQueriedMetricsAreNamespaceScoped _)|]. rewrite Hsp. split.
    + intros Hall. split.
      * intros ->. destruct (queriedMetricNames c') as [|n l]; [done|].
        destruct (Hq n) as [Hx _]. set_solver.
      * intros name keep Hin. destruct (Hall name) as [Hrec Hsc].
        { apply Hq, list_elem_of_fmap. by exists (name, keep). }
        split; [done|]. unfold namespace_collectMetric. rewrite namespace_collect_spec.
        apply all_scoped_spec in Hsc. by rewrite Hsc.
    + intros [_ Hall] name Hin%Hq. apply list_elem_of_fmap in Hin as ([n keep] & -> & Hin).
      destruct (Hall n keep Hin) as [Hrec Hp]. split; [done|]. apply all_scoped_spec.
      unfold namespace_collectMetric in Hp. rewrite namespace_collect_spec in Hp.
      cbn [fst]. by destruct (all_scoped (recordings snap n)).
Qed.
End captures.

(** * Matching behaviours *)

Record MatchingBehavior := mkBehavior {
  ForceTaskForward : bool; ForcePollForward : bool; ForceAsync : bool
}.

Definition Behavior_Name (b : MatchingBehavior) : string :=
  (if ForceTaskForward b then "ForceTaskForward" else "NoTaskForward") +:+
  (if ForcePollForward b then "ForcePollForward" else "NoPollForward") +:+
  (if ForceAsync b then "ForceAsync" else "AllowSync").

(** The dynamic configuration and the hooks, by the names of their keys. *)
Definition Behavior_Options (b : MatchingBehavior) : list (string * Z) :=
  [("MatchingForwarderMaxChildrenPerNode", 3%Z)] ++
  (if ForceTaskForward b || ForcePollForward b
   then [("MatchingNumTaskqueueReadPartitions", 13%Z); ("MatchingNumTaskqueueWritePartitions", 13%Z)]
   else [("MatchingNumTaskqueueReadPartitions", 1%Z); ("MatchingNumTaskqueueWritePartitions", 1%Z)]).

Inductive hook_value := HInt (n : Z) | HBool (b : bool).

Definition InjectHooks (b : MatchingBehavior) : list (string * hook_value) :=
  [("MatchingLBForceWritePartition", HInt (if ForceTaskForward b then 11 else 0));
   ("MatchingLBForceReadPartition", HInt (if ForcePollForward b then 5 else 0));
   ("MatchingDisableSyncMatch", HBool (ForceAsync b))].

Definition AllMatchingBehaviors : list MatchingBehavior :=
  forcePollForward ← [false; true];
  forceTaskForward ← [false; true];
  forceAsync ← [false; true];
  [mkBehavior forceTaskForward forcePollForward forceAsync].

(** The value a key has in a list of settings, the last one written. *)
Definition setting {A} (k : string) (l : list (string * A)) : option A :=
  snd <$> last (filter (λ kv, kv.1 = k) l).

(** The matching behaviours cover all cases.  The list holds each of the
    eight combinations once, their names (the subtests' names) are distinct,
    and in each the partition a hook forces tasks or polls to exists under the
    number of partitions the options configure. *)
Theorem matching_behaviors_cover :
  (∀ b, b ∈ AllMatchingBehaviors) ∧ NoDup AllMatchingBehaviors ∧
  NoDup (Behavior_Name <$> AllMatchingBehaviors) ∧
  ∀ b w r n m,
    setting "MatchingLBForceWritePartition" (InjectHooks b) = Some (HInt w) →
    setting "MatchingLBForceReadPartition" (InjectHooks b) = Some (HInt r) →
    setting "MatchingNumTaskqueueWritePartitions" (Behavior_Options b) = Some n →
    setting "MatchingNumTaskqueueReadPartitions" (Behavior_Options b) = Some m →
    (0 ≤ w < n ∧ 0 ≤ r < m)%Z.
Proof.
  split; [|split; [|split]].
  - intros [[] [] []]; vm_compute; repeat constructor.
  - repeat (apply NoDup_cons; split; [vm_compute; intros Hin; repeat (apply elem_of_cons in Hin as [Hin|Hin]; [discriminate Hin|]); by apply elem_of_nil in Hin|]).
    apply NoDup_nil_2.
  - apply (bool_decide_unpack _). vm_compute. exact I.
  - intros [[] [] []] w r n m Hw Hr Hn Hm; vm_compute in Hw, Hr, Hn, Hm; simplify_eq; lia.
Qed.
