(* ===== verification/TaskPoller.v ===== *)
(** The task poller of the conformance tests
    ([conformance-tests/testcore/taskpoller.go]): it polls a task queue, runs
    the test's handlers on the task, and responds to the server. *)

From S2P Require Import Prelude.
From stdpp Require Import options.

(** An [error] value, compared by identity. *)
Definition error := string.

(** A history event: its type as far as the poller reads it, and its attempt. *)
Record HistoryEvent := mkEvent { isWorkflowTaskScheduled : bool; Attempt : Z }.

Record PollWorkflowResponse (Query : Type) := mkPollWorkflowResponse {
  pr_TaskToken : list byte;
  pr_History : option (list HistoryEvent);
  pr_NextPageToken : option (list byte);
  pr_Query : option Query;
  pr_WorkflowExecution : string * string;
  pr_Queries : gmap string Query
}.
Arguments mkPollWorkflowResponse {_} _ _ _ _ _ _.
Arguments pr_TaskToken {_} _.
Arguments pr_History {_} _.
Arguments pr_NextPageToken {_} _.
Arguments pr_Query {_} _.
Arguments pr_WorkflowExecution {_} _.
Arguments pr_Queries {_} _.

Record PollActivityResponse := mkPollActivityResponse {
  ar_TaskToken : list byte;
  ar_ActivityId : string;
  ar_WorkflowExecution : string * string
}.

(** [newApplicationFailure] of an error: the message, the error's type, and
    whether it is retryable.  [GetErrorType] and [AsApplicationError] stand for
    the reflection on the error's dynamic type. *)
Class ErrorTypes := {
  getErrorType : error → string;
  AsApplicationError : error → option bool       (* its NonRetryable() *)
}.

Record Failure := mkFailure {
  fail_Message : string; fail_Source : string; fail_Type : string; fail_NonRetryable : bool
}.

Definition newApplicationFailure {ET : ErrorTypes} (err : error) (nonRetryable : bool) : Failure :=
  let nonRetryable := match AsApplicationError err with Some b => b | None => nonRetryable end in
  mkFailure err "Functional Tests" (getErrorType err) nonRetryable.

Section poller.
Context {ET : ErrorTypes} {Query QueryResult Command PMessage Payloads TaskQueue Resp : Type}.

(** The requests the poller sends, with the fields that vary: the cause of a
    failed workflow task, the details of a cancellation and
    [ReturnNewWorkflowTask] are constants of the code. *)
Inductive call :=
| CPollWorkflow (namespace : string) (taskQueue : TaskQueue) (identity : string)
| CPollActivity (namespace : string) (taskQueue : TaskQueue) (identity : string)
| CGetHistory (namespace : string) (execution : string * string) (nextPageToken : list byte)
| CQueryCompleted (namespace : string) (token : list byte) (answer : string + Payloads)
| CWorkflowFailed (namespace : string) (token : list byte) (f : Failure) (identity : string)
| CWorkflowCompleted (namespace : string) (token : list byte) (identity : string)
    (commands : list Command) (messages : list PMessage) (sticky : option (TaskQueue * Z))
    (forceNew : bool) (queryResults : gmap string (option QueryResult))
| CActivityCanceled (namespace : string) (token : list byte) (identity : string)
| CActivityFailed (namespace : string) (token : list byte) (f : Failure) (identity : string)
| CActivityCompleted (namespace : string) (token : list byte) (identity : string) (result : Payloads)
| CActivityCanceledById (namespace : string) (execution : string * string) (activity identity : string)
| CActivityFailedById (namespace : string) (execution : string * string) (activity : string)
    (f : Failure) (identity : string)
| CActivityCompletedById (namespace : string) (execution : string * string) (activity : string)
    (identity : string) (result : Payloads).

(** The service and the test's handlers, which act on a state [E]; a nil
    response is [None]. *)
Record environment (E : Type) := mkEnv {
  env_PollWorkflow : call → E → E * (error + option (PollWorkflowResponse Query));
  env_PollActivity : call → E → E * (error + option PollActivityResponse);
  env_GetHistory : call → E → E * (error + (option (list HistoryEvent) * option (list byte)));
  env_Respond : call → E → E * (error + Resp);
  env_WorkflowTaskHandler : PollWorkflowResponse Query → E → E * (error + list Command);
  env_ActivityTaskHandler : PollActivityResponse → E → E * (Payloads * bool * option error);
  env_QueryHandler : PollWorkflowResponse Query → E → E * (error + Payloads);
  env_MessageHandler : option (PollWorkflowResponse Query → E → E * (error + list PMessage))
}.
Arguments env_PollWorkflow {_} _ _ _.
Arguments env_PollActivity {_} _ _ _.
Arguments env_GetHistory {_} _ _ _.
Arguments env_Respond {_} _ _ _.
Arguments env_WorkflowTaskHandler {_} _ _ _.
Arguments env_ActivityTaskHandler {_} _ _ _.
Arguments env_QueryHandler {_} _ _ _.
Arguments env_MessageHandler {_} _.

Record TaskPoller := mkPoller {
  Namespace : string; tpTaskQueue : TaskQueue; StickyTaskQueue : TaskQueue;
  StickyScheduleToStartTimeout : Z; Identity : string
}.

Record Options := mkOptions {
  DumpHistory : bool; DumpCommands : bool;
  DropTask : bool; PollSticky : bool; RespondSticky : bool; ExpectedAttemptCount : Z;
  Retries : Z; ForceNewWorkflowTask : bool; OptQueryResult : option QueryResult
}.

Definition defaultOptions : Options :=
  mkOptions false true false false false 1 5 false None.

(** The option functions. *)
Definition WithDumpHistory (o : Options) : Options :=
  mkOptions true (DumpCommands o) (DropTask o) (PollSticky o) (RespondSticky o)
    (ExpectedAttemptCount o) (Retries o) (ForceNewWorkflowTask o) (OptQueryResult o).
Definition WithNoDumpCommands (o : Options) : Options :=
  mkOptions (DumpHistory o) false (DropTask o) (PollSticky o) (RespondSticky o)
    (ExpectedAttemptCount o) (Retries o) (ForceNewWorkflowTask o) (OptQueryResult o).
Definition WithDropTask (o : Options) : Options :=
  mkOptions (DumpHistory o) (DumpCommands o) true (PollSticky o) (RespondSticky o)
    (ExpectedAttemptCount o) (Retries o) (ForceNewWorkflowTask o) (OptQueryResult o).
Definition WithPollSticky (o : Options) : Options :=
  mkOptions (DumpHistory o) (DumpCommands o) (DropTask o) true (RespondSticky o)
    (ExpectedAttemptCount o) (Retries o) (ForceNewWorkflowTask o) (OptQueryResult o).
Definition WithRespondSticky (o : Options) : Options :=
  mkOptions (DumpHistory o) (DumpCommands o) (DropTask o) (PollSticky o) true
    (ExpectedAttemptCount o) (Retries o) (ForceNewWorkflowTask o) (OptQueryResult o).
Definition WithExpectedAttemptCount (c : Z) (o : Options) : Options :=
  mkOptions (DumpHistory o) (DumpCommands o) (DropTask o) (PollSticky o) (RespondSticky o)
    c (Retries o) (ForceNewWorkflowTask o) (OptQueryResult o).
Definition WithRetries (c : Z) (o : Options) : Options :=
  mkOptions (DumpHistory o) (DumpCommands o) (DropTask o) (PollSticky o) (RespondSticky o)
    (ExpectedAttemptCount o) c (ForceNewWorkflowTask o) (OptQueryResult o).
Definition WithoutRetries (o : Options) : Options := WithRetries 1 o.
Definition WithForceNewWorkflowTask (o : Options) : Options :=
  mkOptions (DumpHistory o) (DumpCommands o) (DropTask o) (PollSticky o) (RespondSticky o)
    (ExpectedAttemptCount o) (Retries o) true (OptQueryResult o).

Definition ErrNoTasks : error := "no tasks".

(** [getQueryResults]: the same (possibly nil) result for every query. *)
Definition getQueryResults (queries : gmap string Query) (queryResult : option QueryResult)
    : gmap string (option QueryResult) :=
  map_fold (λ k _ result, <[k := queryResult]> result) ∅ queries.

(** [IsServiceTransientError] and [ErrDuplicate] are the server's. *)
Context (IsServiceTransientError : option error → bool) (ErrDuplicate : error).

(** The test logger's [Fatal] ends the test, or returns. *)
Context (fatal_exits : bool).

Context {E : Type} (env : environment E).

(** The state: the environment's, and the calls made so far. *)
Definition PS : Type := E * list call.

Definition act {A} (f : E → E * A) : GoM PS A := λ s, let o := f s.1 in ((o.1, s.2), Ok o.2).
Definition rpc {A} (f : call → E → E * A) (c : call) : GoM PS A := λ s,
  let o := f c s.1 in ((o.1, s.2 ++ [c]), Ok o.2).

Definition Fatal (msg : string) : GoM PS unit := if fatal_exits then panic msg else mret tt.

Record PollResponse := mkResult { IsQueryTask : bool; NewTask : option Resp }.
Definition no_result : PollResponse := mkResult false None.

(** The error of a call that answers no value the caller reads. *)
Definition error_of {A} (r : error + A) : option error :=
  match r with inl e => Some e | inr _ => None end.
Definition value_of {A} (r : error + A) : option A :=
  match r with inl _ => None | inr a => Some a end.

(** The pages of a history; [fuel] bounds their number. *)
Fixpoint fetch_pages (fuel : nat) (ns : string) (execution : string * string)
    (nextPageToken : option (list byte)) (events : list HistoryEvent)
    : GoM PS (error + list HistoryEvent) :=
  match nextPageToken with
  | None => mret (inr events)
  | Some token =>
      match fuel with
      | O => λ s, (s, Diverge)
      | S fuel =>
          r ← rpc (env_GetHistory env) (CGetHistory ns execution token);
          match r with
          | inl e => mret (inl e)
          | inr (None, _) => panic "nil pointer dereference"
          | inr (Some more, next) => fetch_pages fuel ns execution next (events ++ more)
          end
      end
  end.

(** The events of a task, or the error to return; a sticky query has none. *)
Definition task_events (fuel : nat) (p : TaskPoller) (pollSticky : bool)
    (response : PollWorkflowResponse Query) : GoM PS (error + list HistoryEvent) :=
  if decide (pr_Query response = None ∨ pollSticky = false) then
    match pr_History response with
    | None => Fatal "History is nil";; mret (inl "history is nil")
    | Some [] => Fatal "History Events are empty";; mret (inl "history events are empty")
    | Some events =>
        fetch_pages fuel (Namespace p) (pr_WorkflowExecution response)
          (pr_NextPageToken response) events
    end
  else
    match pr_History response with
    | None => mret (inr [])
    | Some events =>
        (if decide (events = [] ∧ pr_NextPageToken response = None) then mret tt
         else Fatal "History is not empty for sticky query");;
        mret (inr [])
    end.
(** The query branch: the handler's answer or error, reported to the server. *)
Definition answer_query (p : TaskPoller) (response : PollWorkflowResponse Query)
    : GoM PS (PollResponse * option error) :=
  blob ← act (env_QueryHandler env response);
  r ← rpc (env_Respond env) (CQueryCompleted (Namespace p) (pr_TaskToken response) blob);
  mret (mkResult true None, error_of r).

(** [RespondWorkflowTaskFailed] with the failure of a handler. *)
Definition fail_task (p : TaskPoller) (response : PollWorkflowResponse Query) (err : error)
    : GoM PS (option error) :=
  r ← rpc (env_Respond env) (CWorkflowFailed (Namespace p) (pr_TaskToken response)
                               (newApplicationFailure err false) (Identity p));
  mret (error_of r).

Definition run_MessageHandler (response : PollWorkflowResponse Query)
    : GoM PS (error + list PMessage) :=
  match env_MessageHandler env with
  | None => mret (inr [])
  | Some h => act (h response)
  end.

Definition last_scheduled (events : list HistoryEvent) : option HistoryEvent :=
  foldl (λ acc e, if isWorkflowTaskScheduled e then Some e else acc) None events.

(** [require.Equal] on the attempt of the last workflow task scheduled; a
    failed requirement ends the test. *)
Definition check_attempt (opts : Options) (events : list HistoryEvent) : GoM PS unit :=
  match last_scheduled events with
  | Some e =>
      if decide (1 < ExpectedAttemptCount opts ∧ ExpectedAttemptCount opts ≠ Attempt e)%Z
      then panic "Not equal" else mret tt
  | None => mret tt
  end.

(** The completing response; the sticky one leaves [Messages] out. *)
Definition complete_task (p : TaskPoller) (opts : Options) (response : PollWorkflowResponse Query)
    (messages : list PMessage) (commands : list Command) : GoM PS (PollResponse * option error) :=
  let results := getQueryResults (pr_Queries response) (OptQueryResult opts) in
  r ← rpc (env_Respond env)
        (if RespondSticky opts then
           CWorkflowCompleted (Namespace p) (pr_TaskToken response) (Identity p) commands []
             (Some (StickyTaskQueue p, StickyScheduleToStartTimeout p))
             (ForceNewWorkflowTask opts) results
         else
           CWorkflowCompleted (Namespace p) (pr_TaskToken response) (Identity p) commands messages
             None (ForceNewWorkflowTask opts) results);
  mret (mkResult false (value_of r), error_of r).

(** The workflow task handler runs and its commands complete the task. *)
Definition run_task (p : TaskPoller) (opts : Options) (response : PollWorkflowResponse Query)
    (messages : list PMessage) : GoM PS (PollResponse * option error) :=
  cmds ← act (env_WorkflowTaskHandler env response);
  match cmds with
  | inl err => e ← fail_task p response err; mret (no_result, e)
  | inr commands => complete_task p opts response messages commands
  end.

(** A workflow task that is not a query. *)
Definition process_task (p : TaskPoller) (opts : Options) (response : PollWorkflowResponse Query)
    (events : list HistoryEvent) : GoM PS (PollResponse * option error) :=
  msgs ← run_MessageHandler response;
  match msgs with
  | inl err => e ← fail_task p response err; mret (no_result, e)
  | inr messages => check_attempt opts events;; run_task p opts response messages
  end.

(** What is done with a task a poll returned. *)
Definition handle_task (fuel : nat) (p : TaskPoller) (opts : Options)
    (response : PollWorkflowResponse Query) : GoM PS (PollResponse * option error) :=
  evs ← task_events fuel p (PollSticky opts) response;
  match evs with
  | inl e => mret (no_result, Some e)
  | inr events =>
      if DropTask opts then mret (no_result, None) else
      (match pr_History response with
       | None => if DumpHistory opts then panic "nil pointer dereference" else mret tt
       | Some _ => mret tt
       end);;
      match pr_Query response with
      | Some _ => answer_query p response
      | None => process_task p opts response events
      end
  end.

Definition workflow_poll (p : TaskPoller) (opts : Options) : call :=
  CPollWorkflow (Namespace p) (if PollSticky opts then StickyTaskQueue p else tpTaskQueue p)
    (Identity p).

(** One iteration of a polling loop answers the call's result, or [None] to
    poll again; [attempts] iterations are made at most. *)
Fixpoint poll_loop {A} (attempts : nat) (body : GoM PS (option A)) (exhausted : A) : GoM PS A :=
  match attempts with
  | O => mret exhausted
  | S attempts =>
      r ← body;
      match r with
      | Some a => mret a
      | None => poll_loop attempts body exhausted
      end
  end.

Definition workflow_attempt (fuel : nat) (p : TaskPoller) (opts : Options)
    : GoM PS (option (PollResponse * option error)) :=
  r ← rpc (env_PollWorkflow env) (workflow_poll p opts);
  if negb (IsServiceTransientError (error_of r)) then mret (Some (no_result, error_of r)) else
  match r with
  | inl err1 => if decide (err1 = ErrDuplicate) then mret None
                else mret (Some (no_result, Some err1))
  | inr None => mret None
  | inr (Some response) =>
      if decide (pr_TaskToken response = []) then mret None
      else o ← handle_task fuel p opts response; mret (Some o)
  end.

Definition PollAndProcessWorkflowTaskWithOptions (fuel : nat) (p : TaskPoller) (opts : Options)
    : GoM PS (PollResponse * option error) :=
  poll_loop (Z.to_nat (Retries opts)) (workflow_attempt fuel p opts) (no_result, Some ErrNoTasks).

Definition PollAndProcessWorkflowTask (fuel : nat) (p : TaskPoller)
    (funcs : list (Options → Options)) : GoM PS (PollResponse * option error) :=
  PollAndProcessWorkflowTaskWithOptions fuel p (foldl (λ o f, f o) defaultOptions funcs).

Definition HandlePartialWorkflowTask (p : TaskPoller)
    (response : option (PollWorkflowResponse Query)) (forceCreateNewWorkflowTask : bool)
    : GoM PS (option Resp * option error) :=
  match response with
  | None => mret (None, None)
  | Some response =>
      if decide (pr_TaskToken response = []) then mret (None, None) else
      match pr_History response with
      | None => Fatal "History is nil";; mret (None, Some "history is nil")
      | Some [] => Fatal "History Events are empty";; mret (None, Some "history events are empty")
      | Some _ =>
          msgs ← run_MessageHandler response;
          match msgs with
          | inl err => e ← fail_task p response err; mret (None, e)
          | inr messages =>
              cmds ← act (env_WorkflowTaskHandler env response);
              match cmds with
              | inl err => e ← fail_task p response err; mret (None, e)
              | inr commands =>
                  r ← rpc (env_Respond env)
                        (CWorkflowCompleted (Namespace p) (pr_TaskToken response) (Identity p)
                           commands messages
                           (Some (StickyTaskQueue p, StickyScheduleToStartTimeout p))
                           forceCreateNewWorkflowTask ∅);
                  mret (value_of r, error_of r)
              end
          end
      end
  end.

Definition activity_poll (p : TaskPoller) : call :=
  CPollActivity (Namespace p) (tpTaskQueue p) (Identity p).

(** The reply an activity handler's outcome calls for, by token and by id. *)
Definition reply_by_token (p : TaskPoller) (response : PollActivityResponse)
    (o : Payloads * bool * option error) : call :=
  match o with
  | (_, true, _) => CActivityCanceled (Namespace p) (ar_TaskToken response) (Identity p)
  | (_, false, Some err) => CActivityFailed (Namespace p) (ar_TaskToken response)
                              (newApplicationFailure err false) (Identity p)
  | (result, false, None) => CActivityCompleted (Namespace p) (ar_TaskToken response)
                               (Identity p) result
  end.

Definition reply_by_id (p : TaskPoller) (response : PollActivityResponse)
    (o : Payloads * bool * option error) : call :=
  match o with
  | (_, true, _) => CActivityCanceledById (Namespace p) (ar_WorkflowExecution response)
                      (ar_ActivityId response) (Identity p)
  | (_, false, Some err) => CActivityFailedById (Namespace p) (ar_WorkflowExecution response)
                              (ar_ActivityId response) (newApplicationFailure err false) (Identity p)
  | (result, false, None) => CActivityCompletedById (Namespace p) (ar_WorkflowExecution response)
                               (ar_ActivityId response) (Identity p) result
  end.

Definition activity_attempt (p : TaskPoller) (dropTask : bool) : GoM PS (option (option error)) :=
  r ← rpc (env_PollActivity env) (activity_poll p);
  match r with
  | inl err => if decide (err = ErrDuplicate) then mret None else mret (Some (Some err))
  | inr None => mret None
  | inr (Some response) =>
      if decide (ar_TaskToken response = []) then mret None else
      if dropTask then mret (Some None) else
      o ← act (env_ActivityTaskHandler env response);
      a ← rpc (env_Respond env) (reply_by_token p response o);
      mret (Some (error_of a))
  end.

Definition PollAndProcessActivityTask (p : TaskPoller) (dropTask : bool) : GoM PS (option error) :=
  poll_loop 5 (activity_attempt p dropTask) (Some ErrNoTasks).

Definition activity_id_attempt (p : TaskPoller) (dropTask : bool)
    : GoM PS (option (option error)) :=
  r ← rpc (env_PollActivity env) (activity_poll p);
  match r with
  | inl err1 => if decide (err1 = ErrDuplicate) then mret None else mret (Some (Some err1))
  | inr None => mret (Some None)
  | inr (Some response) =>
      if decide (ar_TaskToken response = []) then mret (Some None) else
      if decide (ar_ActivityId response = "") then mret (Some None) else
      if dropTask then mret (Some None) else
      o ← act (env_ActivityTaskHandler env response);
      a ← rpc (env_Respond env) (reply_by_id p response o);
      mret (Some (error_of a))
  end.

Definition PollAndProcessActivityTaskWithID (p : TaskPoller) (dropTask : bool)
    : GoM PS (option error) :=
  poll_loop 5 (activity_id_attempt p dropTask) (Some ErrNoTasks).

(** * What a call sends *)

(** The outcome of running [m] in [s] satisfies [Q]. *)
Definition wp {A} (m : GoM PS A) (s : PS) (Q : PS → res A → Prop) : Prop := Q (m s).1 (m s).2.

Lemma wp_mono {A} (m : GoM PS A) s (Q Q' : PS → res A → Prop) :
  wp m s Q → (∀ s' r, Q s' r → Q' s' r) → wp m s Q'.
Proof. unfold wp. auto. Qed.

Lemma wp_bind {A B} (m : GoM PS A) (f : A → GoM PS B) s (Q : PS → res B → Prop) :
  wp m s (λ s' r, match r with
                  | Ok a => wp (f a) s' Q
                  | Err e => Q s' (Err e)
                  | Panic e => Q s' (Panic e)
                  | Diverge => Q s' Diverge
                  end) →
  wp (m ≫= f) s Q.
Proof. unfold wp, mbind, go_bind. by destruct (m s) as [s' [a|e|e|]]. Qed.

Lemma wp_ret {A} (a : A) s (Q : PS → res A → Prop) : Q s (Ok a) → wp (mret a) s Q.
Proof. done. Qed.

Lemma wp_act {A B} (f : E → E * A) (g : A → GoM PS B) s Q :
  (∀ e a, wp (g a) (e, s.2) Q) → wp (act f ≫= g) s Q.
Proof. intros H. apply H. Qed.

Lemma wp_rpc {A B} (f : call → E → E * A) c (g : A → GoM PS B) s Q :
  (∀ e a, f c s.1 = (e, a) → wp (g a) (e, s.2 ++ [c]) Q) → wp (rpc f c ≫= g) s Q.
Proof. intros H. apply H. by destruct (f c s.1). Qed.

Lemma wp_Fatal {B} msg (g : unit → GoM PS B) s Q :
  Q s (Panic msg) → wp (g tt) s Q → wp (Fatal msg ≫= g) s Q.
Proof. unfold Fatal. by destruct fatal_exits. Qed.

(** The namespace and the task a call responds to. *)
Definition answers_token (ns : string) (token : list byte) (c : call) : Prop :=
  match c with
  | CQueryCompleted n t _ | CWorkflowFailed n t _ _ | CWorkflowCompleted n t _ _ _ _ _ _
  | CActivityCanceled n t _ | CActivityFailed n t _ _ | CActivityCompleted n t _ _ => n = ns ∧ t = token
  | _ => False
  end.

Definition history_page (ns : string) (execution : string * string) (c : call) : Prop :=
  match c with CGetHistory n x _ => n = ns ∧ x = execution | _ => False end.

(** The calls made between two states. *)
Definition sent (s s' : PS) (l : list call) : Prop := s'.2 = s.2 ++ l.

Lemma sent_nil s e : sent s (e, s.2) [].
Proof. unfold sent. by rewrite app_nil_r. Qed.
Lemma sent_one s e c : sent s (e, s.2 ++ [c]) [c].
Proof. done. Qed.
Lemma sent_app s1 s2 s3 l1 l2 : sent s1 s2 l1 → sent s2 s3 l2 → sent s1 s3 (l1 ++ l2).
Proof. unfold sent. intros -> ->. by rewrite app_assoc. Qed.
Hint Resolve sent_nil sent_one : core.

(** The pages fetched for a task, and nothing else. *)
Lemma fetch_pages_sent fuel ns x token events s :
  wp (fetch_pages fuel ns x token events) s
     (λ s' _, ∃ pages, sent s s' pages ∧ Forall (history_page ns x) pages).
Proof.
  revert token events s. induction fuel as [|fuel IH]; intros [token|] events s; simpl;
    try (exists []; split; [unfold sent; by rewrite app_nil_r|done]).
  apply wp_rpc. intros e [err|[[more|] next]] _.
  - exists [CGetHistory ns x token]. split; [done|by repeat constructor].
  - eapply wp_mono; [apply IH|]. intros s' r (pages & Hs & Hp).
    exists (CGetHistory ns x token :: pages). split.
    + change (CGetHistory ns x token :: pages) with ([CGetHistory ns x token] ++ pages).
      eapply sent_app; [apply sent_one|exact Hs].
    + by constructor.
  - exists [CGetHistory ns x token]. split; [done|by repeat constructor].
Qed.

Lemma task_events_sent fuel p sticky response s :
  wp (task_events fuel p sticky response) s
     (λ s' _, ∃ pages, sent s s' pages ∧
        Forall (history_page (Namespace p) (pr_WorkflowExecution response)) pages).
Proof.
  assert (∃ pages, sent s s pages ∧
    Forall (history_page (Namespace p) (pr_WorkflowExecution response)) pages) as Hnil.
  { exists []. unfold sent. by rewrite app_nil_r. }
  unfold task_events. case_decide; destruct (pr_History response) as [[|ev evs]|].
  - apply wp_Fatal; exact Hnil.
  - apply fetch_pages_sent.
  - apply wp_Fatal; exact Hnil.
  - case_decide; [exact Hnil|]. apply wp_Fatal; exact Hnil.
  - case_decide; [exact Hnil|]. apply wp_Fatal; exact Hnil.
  - exact Hnil.
Qed.

(** What is sent in response to a task: at most one call, about that task; a
    nil error is returned only after it. *)
Definition responded {A} (ns : string) (token : list byte) (s s' : PS)
    (r : res (A * option error)) : Prop :=
  ∃ resps, sent s s' resps ∧ length resps ≤ 1 ∧ Forall (answers_token ns token) resps ∧
           (∀ a, r = Ok (a, None) → resps ≠ []).

Lemma responded_none {A} ns token s (r : res (A * option error)) e :
  (∀ a, r ≠ Ok (a, None)) → responded ns token s (e, s.2) r.
Proof.
  intros H. exists []. split_and!; [done|simpl; lia|done|]. intros a ->. by destruct (H a).
Qed.

Lemma responded_one {A} ns token s e c (r : res (A * option error)) :
  answers_token ns token c → responded ns token s (e, s.2 ++ [c]) r.
Proof.
  intros H. exists [c]. split_and!; [done|simpl; lia|by constructor|done].
Qed.

Lemma answer_query_responds p response s :
  wp (answer_query p response) s (responded (Namespace p) (pr_TaskToken response) s).
Proof.
  unfold answer_query. apply wp_act; intros e blob. apply wp_rpc; intros e' a _.
  apply wp_ret. by apply (responded_one _ _ s).
Qed.

Lemma fail_task_responds {A} p response err (a : A) s :
  wp (e ← fail_task p response err; mret (a, e)) s
     (responded (Namespace p) (pr_TaskToken response) s).
Proof.
  unfold fail_task. unfold wp. rewrite go_bind_assoc. apply wp_rpc; intros e' r _.
  by apply (responded_one _ _ s).
Qed.

Lemma run_task_responds p opts response messages s :
  wp (run_task p opts response messages) s
     (responded (Namespace p) (pr_TaskToken response) s).
Proof.
  destruct s as [e0 tr]. apply wp_act; intros e' [err|commands];
    [apply (fail_task_responds p response err no_result (e', tr))|].
  unfold complete_task. apply wp_rpc; intros e'' a _.
  apply (responded_one _ _ (e0, tr)). by destruct (RespondSticky _).
Qed.

Lemma check_attempt_responds p opts response events messages s :
  wp (check_attempt opts events;; run_task p opts response messages) s
     (responded (Namespace p) (pr_TaskToken response) s).
Proof.
  apply wp_bind. unfold check_attempt. destruct s as [e0 tr].
  destruct (last_scheduled events); [case_decide|]; try apply run_task_responds.
  by apply (responded_none _ _ (e0, tr)).
Qed.

Lemma process_task_responds p opts response events s :
  wp (process_task p opts response events) s
     (responded (Namespace p) (pr_TaskToken response) s).
Proof.
  unfold process_task, run_MessageHandler. destruct s as [e0 tr].
  destruct (env_MessageHandler env).
  - apply wp_act; intros e [err|messages].
    + apply (fail_task_responds p response err no_result (e, tr)).
    + apply (check_attempt_responds p opts response events messages (e, tr)).
  - apply check_attempt_responds.
Qed.

(** The calls about one task a poll returned. *)
Definition task_calls (p : TaskPoller) (opts : Options) (response : PollWorkflowResponse Query)
    (l : list call) (r : res (PollResponse * option error)) : Prop :=
  ∃ pages resps, l = pages ++ resps ∧
    Forall (history_page (Namespace p) (pr_WorkflowExecution response)) pages ∧
    length resps ≤ 1 ∧
    Forall (answers_token (Namespace p) (pr_TaskToken response)) resps ∧
    (DropTask opts = true → resps = []) ∧
    (∀ a, DropTask opts = false → r = Ok (a, None) → resps ≠ []).

Lemma handle_task_calls fuel p opts response s :
  wp (handle_task fuel p opts response) s
     (λ s' r, ∃ l, sent s s' l ∧ task_calls p opts response l r).
Proof.
  unfold handle_task. apply wp_bind. eapply wp_mono; [apply task_events_sent|].
  intros s1 evs (pages & Hs & Hp).
  assert (∀ r, (DropTask opts = false → ∀ a, r ≠ Ok (a, None)) →
    ∃ l, sent s s1 l ∧ task_calls p opts response l r) as Hnone.
  { intros r Hr. exists pages. split; [done|]. exists pages, []. rewrite app_nil_r.
    split_and!; [done|done|simpl; lia|done|done|]. intros a Hd ->. by destruct (Hr Hd a). }
  destruct evs as [[e|events]|e|e|]; try (apply Hnone; intros _ a; congruence).
  { apply wp_ret, Hnone. intros _ a. congruence. }
  destruct (DropTask opts) eqn:Hd; [by apply wp_ret, Hnone|].
  assert (∀ (m : GoM PS (PollResponse * option error)),
    wp m s1 (responded (Namespace p) (pr_TaskToken response) s1) →
    wp m s1 (λ s' r, ∃ l, sent s s' l ∧ task_calls p opts response l r)) as Hresp.
  { intros m Hm. eapply wp_mono; [exact Hm|]. intros s2 r (resps & Hs2 & ? & ? & Hr).
    exists (pages ++ resps). split; [by eapply sent_app|]. exists pages, resps.
    split_and!; [done|done|done|done|congruence|]. intros a _. apply Hr. }
  destruct (pr_History response); [|destruct (DumpHistory opts); [by apply Hnone|]];
    destruct (pr_Query response); apply Hresp;
    apply answer_query_responds || apply process_task_responds.
Qed.

(** The shape of a polling loop's calls: the same poll up to [attempts] times,
    then what the last iteration adds. *)
Lemma poll_loop_calls {A} attempts (body : GoM PS (option A)) (exhausted : A) (c : call)
    (P : list call → res A → Prop) s :
  (∀ s, wp body s (λ s' r,
     match r with
     | Ok None => sent s s' [c]
     | Ok (Some a) => ∃ l, sent s s' (c :: l) ∧ P l (Ok a)
     | Err e => ∃ l, sent s s' (c :: l) ∧ P l (Err e)
     | Panic e => ∃ l, sent s s' (c :: l) ∧ P l (Panic e)
     | Diverge => ∃ l, sent s s' (c :: l) ∧ P l Diverge
     end)) →
  wp (poll_loop attempts body exhausted) s (λ s' r,
     (sent s s' (replicate attempts c) ∧ r = Ok exhausted) ∨
     ∃ n l, n < attempts ∧ sent s s' (replicate (S n) c ++ l) ∧ P l r).
Proof.
  intros Hbody. revert s. induction attempts as [|attempts IH]; intros s.
  { left. split; [|done]. unfold sent. by rewrite app_nil_r. }
  apply wp_bind. eapply wp_mono; [apply Hbody|].
  intros s1 [[a|]|e|e|]; simpl;
    try (intros (l & Hs & HP); right; exists 0, l; split_and!; [lia|done|done]).
  intros Hs. eapply wp_mono; [apply IH|]. intros s2 r [[Hs2 ->]|(n & l & Hn & Hs2 & HP)].
  - left. split; [|done]. apply (sent_app _ _ _ [c] (replicate attempts c) Hs Hs2).
  - right. exists (S n), l. split_and!; [lia| |done].
    apply (sent_app _ _ _ [c] (replicate (S n) c ++ l) Hs Hs2).
Qed.

(** The three ways a workflow poll ends: every attempt came back empty; a poll
    failed (or the nil error is not transient); or a poll returned a task. *)
Inductive workflow_outcome (p : TaskPoller) (opts : Options)
    : list call → res (PollResponse * option error) → Prop :=
| workflow_exhausted :
    workflow_outcome p opts (replicate (Z.to_nat (Retries opts)) (workflow_poll p opts))
      (Ok (no_result, Some ErrNoTasks))
| workflow_poll_failed n e e' a :
    n < Z.to_nat (Retries opts) →
    env_PollWorkflow env (workflow_poll p opts) e = (e', a) →
    IsServiceTransientError (error_of a) = false ∨ (∃ err, a = inl err ∧ err ≠ ErrDuplicate) →
    workflow_outcome p opts (replicate (S n) (workflow_poll p opts)) (Ok (no_result, error_of a))
| workflow_task n e e' response l r :
    n < Z.to_nat (Retries opts) →
    env_PollWorkflow env (workflow_poll p opts) e = (e', inr (Some response)) →
    pr_TaskToken response ≠ [] →
    task_calls p opts response l r →
    workflow_outcome p opts (replicate (S n) (workflow_poll p opts) ++ l) r.

(** C28: every call of [PollAndProcessWorkflowTaskWithOptions] ends in one of
    three ways.  All [Retries] polls came back without a task and the answer is
    [ErrNoTasks]; or a poll failed and its error is the answer, with nothing
    sent after it; or at most [Retries] polls were made, the last one returned a
    task, only pages of that task's history are fetched, and at most one
    response is sent, for that task's token in the poller's namespace: none if
    the task is to be dropped, and one whenever the answer is a nil error. *)
Theorem workflow_poll_outcomes fuel p opts s :
  let o := PollAndProcessWorkflowTaskWithOptions fuel p opts s in
  ∃ l, o.1.2 = s.2 ++ l ∧ workflow_outcome p opts l o.2.
Proof.
  cut (wp (PollAndProcessWorkflowTaskWithOptions fuel p opts) s (λ s' r,
    ∃ l, sent s s' l ∧ workflow_outcome p opts l r)); [done|].
  eapply wp_mono; [apply (poll_loop_calls _ _ _ (workflow_poll p opts) (λ l r,
    (∃ e e' a, env_PollWorkflow env (workflow_poll p opts) e = (e', a) ∧
       (IsServiceTransientError (error_of a) = false ∨ ∃ err, a = inl err ∧ err ≠ ErrDuplicate) ∧
       l = [] ∧ r = Ok (no_result, error_of a)) ∨
    ∃ e e' response, env_PollWorkflow env (workflow_poll p opts) e = (e', inr (Some response)) ∧
       pr_TaskToken response ≠ [] ∧ task_calls p opts response l r))|].
  - intros s1. unfold workflow_attempt. apply wp_rpc. intros e a Ha.
    destruct (IsServiceTransientError (error_of a)) eqn:Htr; cbn [negb].
    2:{ apply wp_ret. exists []. split; [done|]. left. by exists s1.1, e, a; auto. }
    destruct a as [err|[response|]]; [..|done].
    + case_decide; [done|]. apply wp_ret. exists []. split; [done|]. left.
      exists s1.1, e, (inl err). split_and!; [done| |done|done]. right. by exists err.
    + case_decide as Htok; [done|]. apply wp_bind.
      eapply wp_mono; [apply handle_task_calls|].
      intros s2 r (l & Hs & Hl).
      assert (sent s1 s2 (workflow_poll p opts :: l)) as Hs'
        by apply (sent_app _ _ _ [_] l (sent_one s1 e _) Hs).
      destruct r; exists l; (split; [done|]); right; by exists s1.1, e, response.
  - intros s' r [[Hs ->]|(n & l & Hn & Hs & [(e & e' & a & Ha & Hc & -> & ->)|(e & e' & resp & Ha & Ht & Hl)])].
    + eexists; split; [exact Hs|]. constructor.
    + rewrite app_nil_r in Hs. eexists; split; [exact Hs|]. by econstructor.
    + eexists; split; [exact Hs|]. by econstructor.
Qed.

(** The ways an activity poll ends; [reply] is the call that answers a task,
    [gives_up] holds of the answers on which the variant stops
    without an error and without a reply. *)
Inductive activity_outcome (p : TaskPoller) (dropTask : bool)
    (reply : PollActivityResponse → Payloads * bool * option error → call)
    (gives_up : option PollActivityResponse → bool)
    : list call → option error → Prop :=
| activity_exhausted :
    activity_outcome p dropTask reply gives_up (replicate 5 (activity_poll p)) (Some ErrNoTasks)
| activity_poll_failed n e e' err :
    n < 5 → env_PollActivity env (activity_poll p) e = (e', inl err) → err ≠ ErrDuplicate →
    activity_outcome p dropTask reply gives_up (replicate (S n) (activity_poll p)) (Some err)
| activity_given_up n e e' a :
    n < 5 → env_PollActivity env (activity_poll p) e = (e', inr a) → gives_up a = true →
    activity_outcome p dropTask reply gives_up (replicate (S n) (activity_poll p)) None
| activity_dropped n e e' response :
    n < 5 → env_PollActivity env (activity_poll p) e = (e', inr (Some response)) →
    ar_TaskToken response ≠ [] → dropTask = true →
    activity_outcome p dropTask reply gives_up (replicate (S n) (activity_poll p)) None
| activity_replied n e e1 e2 e3 response o a :
    n < 5 → env_PollActivity env (activity_poll p) e = (e1, inr (Some response)) →
    ar_TaskToken response ≠ [] → dropTask = false →
    env_ActivityTaskHandler env response e1 = (e2, o) →
    env_Respond env (reply response o) e2 = (e3, a) →
    activity_outcome p dropTask reply gives_up
      (replicate (S n) (activity_poll p) ++ [reply response o]) (error_of a).

(** [PollAndProcessActivityTaskWithID] stops on an empty answer, and on a task
    without an activity id. *)
Definition no_activity_id (a : option PollActivityResponse) : bool :=
  match a with
  | None => true
  | Some response => bool_decide (ar_TaskToken response = [] ∨ ar_ActivityId response = "")
  end.

(** One iteration either polls again, or ends as an [activity_outcome] of one
    poll does. *)
Lemma activity_loop_outcome p dropTask reply gives_up body s :
  (∀ s, wp body s (λ s' r,
     match r with
     | Ok None => sent s s' [activity_poll p]
     | Ok (Some a) => ∃ l, sent s s' (activity_poll p :: l) ∧
         ∀ n, n < 5 → activity_outcome p dropTask reply gives_up (replicate (S n) (activity_poll p) ++ l) a
     | _ => False
     end)) →
  let o := poll_loop 5 body (Some ErrNoTasks) s in
  ∃ l r, o.1.2 = s.2 ++ l ∧ o.2 = Ok r ∧ activity_outcome p dropTask reply gives_up l r.
Proof.
  intros Hbody.
  cut (wp (poll_loop 5 body (Some ErrNoTasks)) s (λ s' r0,
    ∃ l r, sent s s' l ∧ r0 = Ok r ∧ activity_outcome p dropTask reply gives_up l r)); [done|].
  eapply wp_mono; [apply (poll_loop_calls _ _ _ (activity_poll p) (λ l r,
    ∃ a, r = Ok a ∧ ∀ n, n < 5 →
      activity_outcome p dropTask reply gives_up (replicate (S n) (activity_poll p) ++ l) a))|].
  - intros s1. eapply wp_mono; [apply Hbody|]. intros s2 [[a|]|e|e|]; [|done..].
    intros (l & Hs & Hl). exists l. split; [done|]. by exists a.
  - intros s' r [[Hs ->]|(n & l & Hn & Hs & a & -> & Hl)].
    + eexists _, _. split_and!; [exact Hs|done|constructor].
    + eexists _, _. split_and!; [exact Hs|done|by apply Hl].
Qed.

Lemma activity_attempt_outcome p dropTask s :
  wp (activity_attempt p dropTask) s (λ s' r,
     match r with
     | Ok None => sent s s' [activity_poll p]
     | Ok (Some a) => ∃ l, sent s s' (activity_poll p :: l) ∧
         ∀ n, n < 5 → activity_outcome p dropTask (reply_by_token p) (λ _, false)
                        (replicate (S n) (activity_poll p) ++ l) a
     | _ => False
     end).
Proof.
  apply wp_rpc. intros e [err|[response|]] Ha; [..|done].
  - case_decide; [done|]. exists []. split; [done|]. intros n ?. rewrite app_nil_r. by econstructor.
  - case_decide; [done|]. destruct dropTask.
    + exists []. split; [done|]. intros n ?. rewrite app_nil_r. by eapply activity_dropped.
    + unfold wp, act, rpc, mbind, go_bind. cbn.
      destruct (env_ActivityTaskHandler env response e) as [e2 o] eqn:Ho. cbn.
      destruct (env_Respond env (reply_by_token p response o) e2) as [e3 a] eqn:Hr. cbn.
      exists [reply_by_token p response o]. split; [unfold sent; cbn; by rewrite <-app_assoc|].
      intros n ?. by eapply activity_replied.
Qed.

Lemma activity_id_attempt_outcome p dropTask s :
  wp (activity_id_attempt p dropTask) s (λ s' r,
     match r with
     | Ok None => sent s s' [activity_poll p]
     | Ok (Some a) => ∃ l, sent s s' (activity_poll p :: l) ∧
         ∀ n, n < 5 → activity_outcome p dropTask (reply_by_id p) no_activity_id
                        (replicate (S n) (activity_poll p) ++ l) a
     | _ => False
     end).
Proof.
  apply wp_rpc. intros e [err|[response|]] Ha.
  - case_decide; [done|]. exists []. split; [done|]. intros n ?. rewrite app_nil_r. by econstructor.
  - case_decide; [|case_decide; [|destruct dropTask]].
    1,2: exists []; (split; [done|]); intros n ?; rewrite app_nil_r;
      eapply activity_given_up; [done|done|]; apply bool_decide_eq_true; auto.
    + exists []. split; [done|]. intros n ?. rewrite app_nil_r. by eapply activity_dropped.
    + unfold wp, act, rpc, mbind, go_bind. cbn.
      destruct (env_ActivityTaskHandler env response e) as [e2 o] eqn:Ho. cbn.
      destruct (env_Respond env (reply_by_id p response o) e2) as [e3 a] eqn:Hr. cbn.
      exists [reply_by_id p response o]. split; [unfold sent; cbn; by rewrite <-app_assoc|].
      intros n ?. by eapply activity_replied.
  - exists []. split; [done|]. intros n ?. rewrite app_nil_r. by eapply activity_given_up.
Qed.

(** Both activity pollers return, after at most five polls: with
    [ErrNoTasks] when every poll came back without a task, with the error of a
    poll that failed, with nil after dropping a task, or with the outcome of the
    one reply the handler's result calls for, sent for the polled task.  The
    poller that replies by id differs in giving up with a nil error on the first
    empty answer, where the other polls again. *)
Theorem activity_poll_outcomes p dropTask s :
  (let o := PollAndProcessActivityTask p dropTask s in
   ∃ l r, o.1.2 = s.2 ++ l ∧ o.2 = Ok r ∧
          activity_outcome p dropTask (reply_by_token p) (λ _, false) l r) ∧
  (let o := PollAndProcessActivityTaskWithID p dropTask s in
   ∃ l r, o.1.2 = s.2 ++ l ∧ o.2 = Ok r ∧
          activity_outcome p dropTask (reply_by_id p) no_activity_id l r).
Proof.
  split; apply activity_loop_outcome; intros;
    [apply activity_attempt_outcome|apply activity_id_attempt_outcome].
Qed.
End poller.
