(* ===== verification/GoNet.v ===== *)
(** Text the test harness reads: addresses ([net.SplitHostPort]), numerals as
    [fmt]'s [%d] prints and [strconv.Atoi] reads them, and [strings.TrimSpace],
    [TrimPrefix] and [Fields] on ASCII text. *)

From S2P Require Import Prelude GoStrings.
From Stdlib Require Import Ascii.
From stdpp Require Import options.

(** What is before and after the last, or the first, occurrence of a character. *)
Fixpoint split_last (c : Ascii.ascii) (l : list Ascii.ascii)
    : option (list Ascii.ascii * list Ascii.ascii) :=
  match l with
  | [] => None
  | x :: l' =>
      match split_last c l' with
      | Some (a, b) => Some (x :: a, b)
      | None => if decide (x = c) then Some ([], l') else None
      end
  end.

Fixpoint split_first (c : Ascii.ascii) (l : list Ascii.ascii)
    : option (list Ascii.ascii * list Ascii.ascii) :=
  match l with
  | [] => None
  | x :: l' =>
      if decide (x = c) then Some ([], l')
      else match split_first c l' with Some (a, b) => Some (x :: a, b) | None => None end
  end.

Notation str := String.string_of_list_ascii (only parsing).

(** [net.SplitHostPort]; [None] is an error (a missing port, too many colons, a
    bracket out of place). *)
Definition SplitHostPort (hostport : string) : option (string * string) :=
  let l := chars hostport in
  match split_last ":" l with
  | None => None
  | Some (before, port) =>
      match l with
      | "["%char :: l' =>
          match split_first "]" l' with
          | Some (host, ":"%char :: rest) =>
              if decide (":"%char ∈ rest ∨ "["%char ∈ l' ∨ "]"%char ∈ rest) then None
              else Some (str host, str rest)
          | _ => None
          end
      | _ =>
          if decide (":"%char ∈ before ∨ "["%char ∈ l ∨ "]"%char ∈ l) then None
          else Some (str before, str port)
      end
  end.

(** [%d] of an [int]. *)
Definition show_int (z : Z) : string := pretty z.

Definition is_space (c : Ascii.ascii) : bool :=
  let n := Ascii.nat_of_ascii c in bool_decide (n = 32 ∨ 9 ≤ n ≤ 13).

Fixpoint trim_left (l : list Ascii.ascii) : list Ascii.ascii :=
  match l with c :: l' => if is_space c then trim_left l' else l | [] => [] end.

Definition TrimSpace (s : string) : string := str (rev (trim_left (rev (trim_left (chars s))))).

Definition TrimPrefix (s prefix : string) : string :=
  if HasPrefix s prefix then str_drop (String.length prefix) s else s.

(** The words of a text; [word] is the current one, reversed. *)
Fixpoint fields_from (word l : list Ascii.ascii) : list string :=
  match l with
  | [] => if decide (word = []) then [] else [str (rev word)]
  | c :: l' =>
      if is_space c
      then (if decide (word = []) then fields_from [] l' else str (rev word) :: fields_from [] l')
      else fields_from (c :: word) l'
  end.

Definition Fields (s : string) : list string := fields_from [] (chars s).

(** * Facts *)

Lemma split_last_None c l : c ∉ l → split_last c l = None.
Proof.
  induction l as [|x l IH]; intros Hc; simpl; [done|].
  rewrite IH by set_solver. by rewrite decide_False by set_solver.
Qed.

Lemma split_last_app c a b : c ∉ b → split_last c (a ++ c :: b) = Some (a, b).
Proof.
  intros Hb. induction a as [|x a IH]; simpl.
  - rewrite split_last_None by done. by rewrite decide_True.
  - by rewrite IH.
Qed.

(** Characters of a host name, an IPv4 address or a port. *)
Definition host_char (c : Ascii.ascii) : Prop := c ∉ [":"; "["; "]"]%char.

Lemma host_chars c l : Forall host_char l → c ∈ [":"; "["; "]"]%char → c ∉ l.
Proof. rewrite Forall_forall. intros Hl Hc Hin. by destruct (Hl c Hin). Qed.

Lemma SplitHostPort_join host port :
  Forall host_char (chars host) → Forall host_char (chars port) →
  SplitHostPort (host +:+ ":" +:+ port) = Some (host, port).
Proof.
  intros Hh Hp. unfold SplitHostPort. rewrite !chars_app.
  change (chars ":") with [":"%char]. cbn [app].
  rewrite split_last_app by (apply host_chars; set_solver).
  set (l := chars host ++ ":"%char :: chars port).
  assert (¬ (":"%char ∈ chars host ∨ "["%char ∈ l ∨ "]"%char ∈ l)) as Hno.
  { unfold l. rewrite !elem_of_app, !elem_of_cons.
    pose proof (λ c, host_chars c _ Hh) as H1. pose proof (λ c, host_chars c _ Hp) as H2.
    intros [Hin|[[Hin|[?|Hin]]|[Hin|[?|Hin]]]]; try done.
    - by apply (H1 ":"%char); [set_solver|].
    - by apply (H1 "["%char); [set_solver|].
    - by apply (H2 "["%char); [set_solver|].
    - by apply (H1 "]"%char); [set_solver|].
    - by apply (H2 "]"%char); [set_solver|]. }
  assert (∀ l', l ≠ "["%char :: l') as Hne by (intros l' E; rewrite E in Hno; set_solver).
  rewrite decide_False by done. unfold chars at 1 2.
  rewrite !String.string_of_list_ascii_of_string.
  destruct l as [|c l']; [done|]. destruct c as [[] [] [] [] [] [] [] []]; try done.
  by destruct (Hne l').
Qed.

(** * Numerals *)

Lemma digits_val_pretty x s :
  digits_val (pretty_N_go x s) 0 = digits_val s (Z.of_N x).
Proof.
  revert s. induction (N.lt_wf_0 x) as [x _ IH]; intros s.
  destruct (decide (x = 0%N)) as [->|Hx]; [by rewrite pretty_N_go_0|].
  rewrite pretty_N_go_step by lia. rewrite IH by (apply N.div_lt; lia).
  pose proof (N.mod_lt x 10 ltac:(done)) as Hm. pose proof (N.div_mod x 10 ltac:(done)) as Hd.
  assert (digit_val (pretty_N_char (x `mod` 10)) = Some (Z.of_N (x `mod` 10))) as E.
  { clear -Hm. revert Hm. generalize (x `mod` 10)%N as m. intros m Hm.
    assert (m = 0 ∨ m = 1 ∨ m = 2 ∨ m = 3 ∨ m = 4 ∨ m = 5 ∨ m = 6 ∨ m = 7 ∨ m = 8 ∨ m = 9)%N
      as Hcases by lia.
    by destruct_or! Hcases; subst. }
  cbn [digits_val]. rewrite E. cbn [mbind option_bind]. f_equal. lia.
Qed.

Lemma pretty_Z_digits z :
  (0 ≤ z)%Z → Forall is_digit (chars (show_int z)) ∧ show_int z ≠ "" ∧ digits_val (show_int z) 0 = Some z.
Proof.
  intros Hz. unfold show_int. destruct z as [|p|p]; [|unfold pretty, pretty_Z, pretty, pretty_positive, pretty, pretty_N|lia].
  - split; [repeat constructor|]. by split.
  - rewrite decide_False by done. split; [apply pretty_N_go_digits; constructor|].
    rewrite digits_val_pretty. split; [|done].
    intros E. pose proof (digits_val_pretty (N.pos p) "") as Hv. by rewrite E in Hv.
Qed.

(** A printed number is read back. *)
Lemma Atoi_show_int z : (0 ≤ z < 2 ^ 63)%Z → Atoi (show_int z) = Some z.
Proof.
  intros Hz. destruct (pretty_Z_digits z) as (Hd & Hne & Hv); [lia|]. unfold Atoi.
  assert (HasPrefix (show_int z) "-" = false ∧ HasPrefix (show_int z) "+" = false) as [-> ->].
  { destruct (show_int z) as [|c s]; [done|]. apply Forall_cons in Hd as [Hc _].
    unfold is_digit in Hc. split; simpl; set_solver. }
  rewrite decide_False by done. rewrite Hv. cbn [mbind option_bind]. by rewrite decide_True by lia.
Qed.

Lemma show_int_host z : (0 ≤ z)%Z → Forall host_char (chars (show_int z)).
Proof.
  intros (Hd & _)%pretty_Z_digits. eapply Forall_impl; [exact Hd|].
  intros c Hc. unfold host_char. unfold is_digit in Hc. set_solver.
Qed.

(** * Paths *)

(** [filepath.Dir] of a clean path. *)
Definition filepath_Dir (path : string) : string :=
  match split_last "/"%char (chars path) with
  | None => "."
  | Some ([], _) => "/"
  | Some (d, _) => String.string_of_list_ascii d
  end.

Lemma filepath_Dir_join dir file :
  dir ≠ "" → "/"%char ∉ chars file → filepath_Dir (dir +:+ "/" +:+ file) = dir.
Proof.
  intros Hd Hf. unfold filepath_Dir. rewrite !chars_app. change (chars "/" ++ chars file) with ("/"%char :: chars file).
  rewrite split_last_app by done. destruct dir as [|a dir]; [done|].
  apply String.string_of_list_ascii_of_string.
Qed.
