(* ===== verification/ClusterOptions.v ===== *)
(** Options of a test cluster ([functional_test_base.go] and [createCluster] of
    [test_cluster_pool.go], both in [conformance-tests/testcore]): the options a
    test passes, the parameters they amount to, and the cluster's configuration.

    The overrides of the dynamic configuration are a Go map that the options
    share: maps live in a heap, and a parameter holds a reference to one. *)

From S2P Require Import Prelude.
From stdpp Require Import options.

Section cluster_options.
(** Values the options only pass on: dynamic configuration values, fx options,
    redirection policies, fault injection configurations, archiver factories
    and persistence options. *)
Context {Val Fx Policy Fault HistoryFactory VisibilityFactory Persistence : Type}.

Definition loc := nat.
Notation overrides := (gmap string Val).
Notation heap := (gmap loc overrides).

Record TestClusterParams := mkParams {
  ServiceOptions : gmap string (list Fx);
  DCRedirectionPolicy : Policy;
  DynamicConfigOverrides : option loc;
  ArchivalEnabled : bool;
  EnableMTLS : bool;
  EnableWorkerService : bool;
  FaultInjectionConfig : option Fault;
  NumHistoryShards : Z;
  SharedCluster : bool;
  CustomHistoryArchiverFactory : option HistoryFactory;
  CustomVisibilityArchiverFactory : option VisibilityFactory
}.

(** The option constructors of the source. *)
Inductive TestClusterOption :=
| WithFxOptionsForService (serviceName : string) (options : list Fx)
| WithDCRedirectionPolicy (policy : Policy)
| WithDynamicConfigOverrides (overrides : option loc)
| WithArchivalEnabled
| WithMTLS
| withWorkerService (enabled : bool)
| WithFaultInjectionConfig (cfg : option Fault)
| WithNumHistoryShards (n : Z)
| WithSharedCluster
| WithCustomHistoryArchiverFactory (factory : option HistoryFactory)
| WithCustomVisibilityArchiverFactory (factory : option VisibilityFactory).

Definition set_overrides (o : option loc) (p : TestClusterParams) : TestClusterParams :=
  mkParams (ServiceOptions p) (DCRedirectionPolicy p) o (ArchivalEnabled p) (EnableMTLS p)
    (EnableWorkerService p) (FaultInjectionConfig p) (NumHistoryShards p) (SharedCluster p)
    (CustomHistoryArchiverFactory p) (CustomVisibilityArchiverFactory p).

(** The map behind a reference; a nil map reads as empty. *)
Definition deref (o : option loc) (h : heap) : overrides :=
  match o with Some l => default ∅ (h !! l) | None => ∅ end.

(** [maps.Copy(dst, src)]: entries of [src] replace those of [dst], in place. *)
Definition maps_Copy (dst : loc) (src : option loc) (h : heap) : heap :=
  <[dst := deref src h ∪ deref (Some dst) h]> h.

(** What an option does to the parameters. *)
Definition apply_option (opt : TestClusterOption) (s : TestClusterParams * heap)
    : TestClusterParams * heap :=
  let '(p, h) := s in
  match opt with
  | WithFxOptionsForService serviceName options =>
      (mkParams (<[serviceName := default [] (ServiceOptions p !! serviceName) ++ options]>
                   (ServiceOptions p))
         (DCRedirectionPolicy p) (DynamicConfigOverrides p) (ArchivalEnabled p) (EnableMTLS p)
         (EnableWorkerService p) (FaultInjectionConfig p) (NumHistoryShards p) (SharedCluster p)
         (CustomHistoryArchiverFactory p) (CustomVisibilityArchiverFactory p), h)
  | WithDCRedirectionPolicy policy =>
      (mkParams (ServiceOptions p) policy (DynamicConfigOverrides p) (ArchivalEnabled p)
         (EnableMTLS p) (EnableWorkerService p) (FaultInjectionConfig p) (NumHistoryShards p)
         (SharedCluster p) (CustomHistoryArchiverFactory p) (CustomVisibilityArchiverFactory p), h)
  | WithDynamicConfigOverrides overrides =>
      match DynamicConfigOverrides p with
      | None => (set_overrides overrides p, h)
      | Some dst => (p, maps_Copy dst overrides h)
      end
  | WithArchivalEnabled =>
      (mkParams (ServiceOptions p) (DCRedirectionPolicy p) (DynamicConfigOverrides p) true
         (EnableMTLS p) (EnableWorkerService p) (FaultInjectionConfig p) (NumHistoryShards p)
         (SharedCluster p) (CustomHistoryArchiverFactory p) (CustomVisibilityArchiverFactory p), h)
  | WithMTLS =>
      (mkParams (ServiceOptions p) (DCRedirectionPolicy p) (DynamicConfigOverrides p)
         (ArchivalEnabled p) true (EnableWorkerService p) (FaultInjectionConfig p)
         (NumHistoryShards p) (SharedCluster p) (CustomHistoryArchiverFactory p)
         (CustomVisibilityArchiverFactory p), h)
  | withWorkerService enabled =>
      (mkParams (ServiceOptions p) (DCRedirectionPolicy p) (DynamicConfigOverrides p)
         (ArchivalEnabled p) (EnableMTLS p) enabled (FaultInjectionConfig p)
         (NumHistoryShards p) (SharedCluster p) (CustomHistoryArchiverFactory p)
         (CustomVisibilityArchiverFactory p), h)
  | WithFaultInjectionConfig cfg =>
      (mkParams (ServiceOptions p) (DCRedirectionPolicy p) (DynamicConfigOverrides p)
         (ArchivalEnabled p) (EnableMTLS p) (EnableWorkerService p) cfg (NumHistoryShards p)
         (SharedCluster p) (CustomHistoryArchiverFactory p) (CustomVisibilityArchiverFactory p), h)
  | WithNumHistoryShards n =>
      (mkParams (ServiceOptions p) (DCRedirectionPolicy p) (DynamicConfigOverrides p)
         (ArchivalEnabled p) (EnableMTLS p) (EnableWorkerService p) (FaultInjectionConfig p) n
         (SharedCluster p) (CustomHistoryArchiverFactory p) (CustomVisibilityArchiverFactory p), h)
  | WithSharedCluster =>
      (mkParams (ServiceOptions p) (DCRedirectionPolicy p) (DynamicConfigOverrides p)
         (ArchivalEnabled p) (EnableMTLS p) (EnableWorkerService p) (FaultInjectionConfig p)
         (NumHistoryShards p) true (CustomHistoryArchiverFactory p)
         (CustomVisibilityArchiverFactory p), h)
  | WithCustomHistoryArchiverFactory factory =>
      (mkParams (ServiceOptions p) (DCRedirectionPolicy p) (DynamicConfigOverrides p)
         (ArchivalEnabled p) (EnableMTLS p) (EnableWorkerService p) (FaultInjectionConfig p)
         (NumHistoryShards p) (SharedCluster p) factory (CustomVisibilityArchiverFactory p), h)
  | WithCustomVisibilityArchiverFactory factory =>
      (mkParams (ServiceOptions p) (DCRedirectionPolicy p) (DynamicConfigOverrides p)
         (ArchivalEnabled p) (EnableMTLS p) (EnableWorkerService p) (FaultInjectionConfig p)
         (NumHistoryShards p) (SharedCluster p) (CustomHistoryArchiverFactory p) factory, h)
  end.

(** The zero redirection policy. *)
Context (zero_policy : Policy).

Definition initial_params : TestClusterParams :=
  mkParams ∅ zero_policy None false false true None 0 false None None.

Definition ApplyTestClusterOptions (options : list TestClusterOption) (h : heap)
    : TestClusterParams * heap :=
  foldl (λ s opt, apply_option opt s) (initial_params, h) options.

(** The configuration [setupCluster] derives from the parameters. *)
Record TestClusterConfig := mkConfig {
  cfg_FaultInjection : option Fault;
  cfg_NumHistoryShards : Z;
  cfg_DCRedirectionPolicy : Policy;
  cfg_DynamicConfigOverrides : option loc;
  cfg_ServiceFxOptions : gmap string (list Fx);
  cfg_EnableMetricsCapture : bool;
  cfg_EnableArchival : bool;
  cfg_EnableMTLS : bool;
  cfg_CustomHistoryArchiverFactory : option HistoryFactory;
  cfg_CustomVisibilityArchiverFactory : option VisibilityFactory;
  cfg_DisableWorker : bool;
  cfg_Persistence : option Persistence;       (* none: the defaults *)
  cfg_isShared : bool                         (* [FunctionalTestBase.isShared] *)
}.

(** [sqlite_file] is [persistencetests.GetSQLiteFileTestClusterOption()]. *)
Definition setup_config (sqlite_file : Persistence) (params : TestClusterParams) : TestClusterConfig :=
  mkConfig (FaultInjectionConfig params)
    (if decide (NumHistoryShards params ≠ 0) then NumHistoryShards params else 4)%Z
    (DCRedirectionPolicy params) (DynamicConfigOverrides params) (ServiceOptions params) true
    (ArchivalEnabled params) (EnableMTLS params) (CustomHistoryArchiverFactory params)
    (CustomVisibilityArchiverFactory params) (negb (EnableWorkerService params))
    (if SharedCluster params then Some sqlite_file else None) (SharedCluster params).

(** [createCluster]: the options of a pooled cluster; [dynamicConfig] is the
    reference and the length of the map. *)
Definition pool_options (dynamicConfig : option loc * nat) (shared : bool)
    (clusterOpts : list TestClusterOption) : list TestClusterOption :=
  [withWorkerService false] ++ (if shared then [WithSharedCluster] else []) ++
  (if decide (0 < dynamicConfig.2) then [WithDynamicConfigOverrides dynamicConfig.1] else []) ++
  clusterOpts.

Definition createCluster (sqlite_file : Persistence) (dynamicConfig : option loc * nat) (shared : bool)
    (clusterOpts : list TestClusterOption) (h : heap) : TestClusterConfig * heap :=
  let s := ApplyTestClusterOptions (pool_options dynamicConfig shared clusterOpts) h in
  (setup_config sqlite_file s.1, s.2).

(** * Facts *)

Notation option_t := TestClusterOption.

(** The maps the options bring, in order; a nil map brings nothing. *)
Definition override_refs (options : list option_t) : list loc :=
  omap (λ opt, match opt with WithDynamicConfigOverrides o => o | _ => None end) options.

(** Other options leave the overrides and the heap alone. *)
Lemma apply_option_overrides opt p h :
  match opt with
  | WithDynamicConfigOverrides o =>
      apply_option opt (p, h) =
        match DynamicConfigOverrides p with
        | None => (set_overrides o p, h)
        | Some dst => (p, maps_Copy dst o h)
        end
  | _ => DynamicConfigOverrides (apply_option opt (p, h)).1 = DynamicConfigOverrides p ∧
         (apply_option opt (p, h)).2 = h
  end.
Proof. by destruct opt. Qed.

Lemma ApplyTestClusterOptions_snoc options opt h :
  ApplyTestClusterOptions (options ++ [opt]) h =
    apply_option opt (ApplyTestClusterOptions options h).
Proof. unfold ApplyTestClusterOptions. by rewrite foldl_app. Qed.

Lemma deref_maps_Copy dst o h l :
  deref (Some l) (maps_Copy dst o h) =
    if decide (l = dst) then deref o h ∪ deref (Some dst) h else deref (Some l) h.
Proof.
  unfold maps_Copy, deref at 1. case_decide as Hl.
  - subst. by rewrite lookup_insert_eq.
  - by rewrite lookup_insert_ne.
Qed.

(** The overrides of all options are merged, into the caller's first map.
    With options that bring distinct maps, the cluster's overrides are the
    first map, in which every later map's entries were copied, later ones
    winning; no other map changes.  So a map a test passes first is not only
    read: it holds the other options' entries afterwards. *)
Theorem overrides_merged options h :
  NoDup (override_refs options) →
  let s := ApplyTestClusterOptions options h in
  DynamicConfigOverrides s.1 = head (override_refs options) ∧
  deref (head (override_refs options)) s.2 =
    foldl (λ m l, deref (Some l) h ∪ m) ∅ (override_refs options) ∧
  ∀ l, head (override_refs options) ≠ Some l → deref (Some l) s.2 = deref (Some l) h.
Proof.
  induction options as [|opt options IH] using rev_ind; [done|].
  rewrite ApplyTestClusterOptions_snoc. unfold override_refs. rewrite omap_app.
  fold (override_refs options). intros [Hnd [Hdis _]]%NoDup_app. specialize (IH Hnd).
  destruct (ApplyTestClusterOptions options h) as [p h'].
  cbn [fst snd] in IH. destruct IH as (IH1 & IH2 & IH3).
  pose proof (apply_option_overrides opt p h') as Hopt.
  destruct opt as [| |o| | | | | | | |];
    try (destruct Hopt as [-> ->]; simpl; rewrite app_nil_r; done).
  rewrite Hopt, IH1. destruct o as [l|]; simpl omap in *.
  - destruct (override_refs options) as [|l0 ls] eqn:E; cbn [head app] in *.
    + split_and!; [done| |intros l1 _; by apply IH3]. cbn [foldl snd]. by rewrite (right_id_L ∅ (∪)), IH3.
    + assert (l ≠ l0) by (intros ->; apply (Hdis l0); set_solver).
      split_and!; [done| |].
      * simpl fst. simpl snd. rewrite deref_maps_Copy, decide_True by done.
        rewrite IH3 by congruence. rewrite IH2. by rewrite (app_comm_cons ls), foldl_app.
      * intros l1 Hl1. simpl snd. rewrite deref_maps_Copy, decide_False by congruence. auto.
  - rewrite app_nil_r. destruct (override_refs options) as [|l0 ls] eqn:E; cbn [head] in *.
    + done.
    + split_and!; [done| |].
      * simpl snd. rewrite deref_maps_Copy, decide_True by done. simpl deref at 1.
        by rewrite (left_id_L ∅ (∪)).
      * intros l1 Hl1. simpl snd. rewrite deref_maps_Copy, decide_False by congruence. auto.
Qed.

(** A boolean field that only one option sets to [true]. *)
Definition is_shared (opt : option_t) : bool :=
  match opt with WithSharedCluster => true | _ => false end.

Lemma SharedCluster_apply options p h :
  SharedCluster (foldl (λ s opt, apply_option opt s) (p, h) options).1 =
    SharedCluster p || existsb is_shared options.
Proof.
  revert p h. induction options as [|opt options IH]; intros p h; simpl; [by rewrite orb_false_r|].
  destruct (apply_option opt (p, h)) as [p1 h1] eqn:E. simpl in E. rewrite E, IH.
  destruct opt; simpl in E; repeat case_match; simplify_eq/=; try done.
  by rewrite orb_true_r.
Qed.

(** A pooled cluster is shared exactly when it was asked to be. *)
Lemma createCluster_isShared sqlite_file dc shared clusterOpts h :
  existsb is_shared clusterOpts = false →
  cfg_isShared (createCluster sqlite_file dc shared clusterOpts h).1 = shared.
Proof.
  intros Hno. unfold createCluster, ApplyTestClusterOptions. cbn [fst cfg_isShared setup_config].
  rewrite SharedCluster_apply. unfold pool_options.
  rewrite !existsb_app, Hno. by destruct shared; simpl; [|case_decide].
Qed.
End cluster_options.

(** * The property at concrete options *)

Definition w_heap : gmap loc (gmap string Z) :=
  {[0 := {["frontend.rps" := 10%Z]}; 1 := {["frontend.rps" := 20%Z; "history.shards" := 4%Z]}]}.
Definition w_options : list (TestClusterOption (Fx := unit) (Policy := unit) (Fault := unit)
    (HistoryFactory := unit) (VisibilityFactory := unit)) :=
  [WithDynamicConfigOverrides (Some 0); WithMTLS; WithDynamicConfigOverrides (Some 1)].

Lemma overrides_merged_witness :
  let s := ApplyTestClusterOptions tt w_options w_heap in
  DynamicConfigOverrides s.1 = Some 0 ∧
  deref (Some 0) s.2 = {["frontend.rps" := 20%Z; "history.shards" := 4%Z]} ∧
  deref (Some 1) s.2 = deref (Some 1) w_heap.
Proof.
  destruct (overrides_merged tt w_options w_heap) as (H1 & H2 & H3).
  - repeat constructor; set_solver.
  - split; [exact H1|]. split; [|apply H3; discriminate].
    etrans; [exact H2|]. vm_compute. reflexivity.
Defined.
