(* ===== verification/TestEnv.v ===== *)
(** The test environment of the conformance tests
    ([conformance-tests/testcore/test_env.go]): sharding of the tests, the
    options of a test, and what a test may do to the cluster it runs on. *)

From S2P Require Import Prelude GoStrings GoNet ClusterOptions.
From stdpp Require Import options.

(** * Sharding *)

(** The embedded [shard_salt.txt]. *)
Definition shardSalt : string := "-salt-0" +:+ String (Ascii.ascii_of_nat 10) EmptyString.

Inductive shard_check := ShardRun | ShardSkip | ShardFatal (msg : string).

(** [checkTestShard]; [Fingerprint32] is farm's hash, a [uint32]. *)
Definition checkTestShard (Fingerprint32 : list byte → Z) (totalStr indexStr name : string)
    : shard_check :=
  if decide (totalStr = "" ∨ indexStr = "") then ShardRun
  else match Atoi totalStr with
  | Some total =>
      if decide (total < 1)%Z then ShardFatal "Couldn't convert TEST_TOTAL_SHARDS"
      else match Atoi indexStr with
      | Some index =>
          if decide (index < 0 ∨ total ≤ index)%Z then ShardFatal "Couldn't convert TEST_SHARD_INDEX"
          else
            let nameToHash := name +:+ TrimSpace shardSalt in
            let testIndex := Z.rem (i64 (u32 (Fingerprint32 (bytes_of nameToHash)))) total in
            if decide (testIndex ≠ index) then ShardSkip else ShardRun
      | None => ShardFatal "Couldn't convert TEST_SHARD_INDEX"
      end
  | None => ShardFatal "Couldn't convert TEST_TOTAL_SHARDS"
  end.

(** The shards partition the tests.  For a given number of shards every
    test has exactly one shard in which it runs; in every other one it is
    skipped, and an index that is no shard's fails the test. *)
Theorem shards_partition Fingerprint32 name totalStr total :
  Atoi totalStr = Some total → (1 ≤ total)%Z →
  ∃ k, (0 ≤ k < total)%Z ∧
    ∀ indexStr index, Atoi indexStr = Some index →
      checkTestShard Fingerprint32 totalStr indexStr name =
        if decide (0 ≤ index < total)%Z
        then if decide (index = k) then ShardRun else ShardSkip
        else ShardFatal "Couldn't convert TEST_SHARD_INDEX".
Proof.
  intros Ht Hpos.
  set (h := i64 (u32 (Fingerprint32 (bytes_of (name +:+ TrimSpace shardSalt))))).
  assert (0 ≤ h)%Z as Hh.
  { unfold h. assert (0 ≤ u32 (Fingerprint32 (bytes_of (name +:+ TrimSpace shardSalt))) < 2 ^ 32)%Z
      as Hu by (apply Z.mod_pos_bound; lia).
    rewrite i64_small; lia. }
  exists (Z.rem h total). split; [pose proof (Z.rem_bound_pos h total); lia|].
  intros indexStr index Hi. unfold checkTestShard.
  assert (¬ (totalStr = "" ∨ indexStr = "")) as Hne by (intros [-> | ->]; discriminate).
  rewrite decide_False by done. rewrite Ht, decide_False by lia. rewrite Hi.
  destruct (decide (0 ≤ index < total)%Z).
  - rewrite decide_False by lia. cbv zeta. fold h.
    destruct (decide (index = Z.rem h total)); [by rewrite decide_False by congruence|].
    by rewrite decide_True by congruence.
  - by rewrite decide_True by lia.
Qed.

(** * Options *)

Inductive Precedence :=
| PrecedenceNamespace | PrecedenceTaskQueue | PrecedenceDestination | PrecedenceOther (n : Z).

Definition canBeNamespaceScoped (p : Precedence) : bool :=
  match p with
  | PrecedenceNamespace | PrecedenceTaskQueue | PrecedenceDestination => true
  | PrecedenceOther _ => false
  end.

Section test_env.
(** Values of settings, the constraints beside the namespace, hooks, and the
    values the cluster options pass on. *)
Context {V C Hook Fx Policy Fault HistoryFactory VisibilityFactory Persistence : Type}.
(** Authorization callbacks. *)
Context {AuthFn ClaimsFn : Type}.
Context (zero_constraints : C).

Record ConstrainedValue := mkConstrained {
  cv_Namespace : string; cv_other : C; cv_Value : V
}.

Inductive any_value := Plain (v : V) | Constrained (cvs : list ConstrainedValue).

Record GenericSetting := mkSetting {
  Key : string;
  set_Precedence : Precedence;
  Validate : any_value → option string
}.

Notation cluster_option :=
  (TestClusterOption (Fx := Fx) (Policy := Policy) (Fault := Fault)
     (HistoryFactory := HistoryFactory) (VisibilityFactory := VisibilityFactory)).

Record testOptions := mkTestOptions {
  dedicatedCluster : bool;
  dedicatedReason : string;
  dynamicConfigSettings : list (GenericSetting * any_value);
  clusterOptions : list cluster_option
}.

Inductive TestOption :=
| WithDedicatedCluster
| WithSdkWorker
| WithFxOptions (serviceName : string) (opts : list Fx)
| WithWorkerService (reason : string)
| WithPersistenceFaultInjection (cfg : option Fault)
| WithDynamicConfig (setting : GenericSetting) (value : any_value).

(** An option of the test; an invalid value panics. *)
Definition apply_test_option (opt : TestOption) (o : testOptions) : res testOptions :=
  match opt with
  | WithDedicatedCluster =>
      Ok (mkTestOptions true (dedicatedReason o) (dynamicConfigSettings o) (clusterOptions o))
  | WithSdkWorker => Ok o
  | WithFxOptions serviceName opts =>
      Ok (mkTestOptions true "custom fx options used" (dynamicConfigSettings o)
            (clusterOptions o ++ [WithFxOptionsForService serviceName opts]))
  | WithWorkerService reason =>
      Ok (mkTestOptions true ("worker service required: " +:+ reason) (dynamicConfigSettings o)
            (clusterOptions o ++ [withWorkerService true]))
  | WithPersistenceFaultInjection cfg =>
      Ok (mkTestOptions true "fault injection config used" (dynamicConfigSettings o)
            (clusterOptions o ++ [WithFaultInjectionConfig cfg]))
  | WithDynamicConfig setting value =>
      match Validate setting value with
      | Some err => Panic ("invalid value for setting " +:+ Key setting +:+ ": " +:+ err)
      | None =>
          Ok (mkTestOptions
                (if canBeNamespaceScoped (set_Precedence setting) then dedicatedCluster o else true)
                (dedicatedReason o) (dynamicConfigSettings o ++ [(setting, value)])
                (clusterOptions o))
      end
  end.

Fixpoint apply_test_options (opts : list TestOption) (o : testOptions) : res testOptions :=
  match opts with
  | [] => Ok o
  | opt :: opts =>
      match apply_test_option opt o with
      | Ok o => apply_test_options opts o
      | r => r
      end
  end.

(** * The guard *)

Record dedicatedClusterGuard := mkGuard { required : bool; usageReason : string }.

Definition newDedicatedClusterGuard (required : bool) : dedicatedClusterGuard := mkGuard required "".

Definition record_use (reason : string) (u : dedicatedClusterGuard) : dedicatedClusterGuard :=
  if required u then
    (if decide (usageReason u = "") then mkGuard (required u) reason else u)
  else u.

Definition validate (u : dedicatedClusterGuard) : option string :=
  if required u then
    (if decide (usageReason u = "")
     then Some "testcore.WithDedicatedCluster() was requested but no dedicated-cluster-only feature was used"
     else None)
  else None.

(** * The environment *)

(** What a test does to its cluster, and what its cleanup does. *)
Inductive hook_scope := ScopeNamespace (nsID : string) | ScopeGlobal.

Inductive cluster_call :=
| COverride (key : string) (value : any_value)
| CRestore (key : string) (value : any_value)      (* the cleanup of an override *)
| CHook (hook : Hook) (scope : hook_scope)
| CUnhook (hook : Hook) (scope : hook_scope)       (* the cleanup of a hook *)
| CSetOnAuthorize (fn : option AuthFn)
| CSetOnGetClaims (fn : option ClaimsFn)
| CStartCapture (reads : option string)             (* the namespace it reads, all of them *)
| CStopCapture
| CCheckMisuse                                     (* [checkForNamespaceCaptureMisuse] *)
| CCloseShard (shardID : Z).

Record TestEnv := mkTestEnv {
  isShared : bool;
  nsName : string;
  nsID : string;
  numHistoryShards : Z;
  captureMetrics : bool          (* the cluster has a capture handler *)
}.

(** The guard, the calls made so far, and the cleanups registered, the next one
    to run first. *)
Record env_state := mkEnvState {
  guard : dedicatedClusterGuard;
  calls : list cluster_call;
  cleanups : list cluster_call
}.

Definition use (reason : string) : GoM env_state unit :=
  modify (λ s, mkEnvState (record_use reason (guard s)) (calls s) (cleanups s)).
Definition send (c : cluster_call) : GoM env_state unit :=
  modify (λ s, mkEnvState (guard s) (calls s ++ [c]) (cleanups s)).

(** [t.Cleanup]: the calls of a cleanup function. *)
Definition Cleanup (cs : list cluster_call) : GoM env_state unit :=
  modify (λ s, mkEnvState (guard s) (calls s) (cs ++ cleanups s)).

(** [overrideDynamicConfigForTest] and [injectHook] of the cluster's host. *)
Definition overrideDynamicConfigForTest (key : string) (value : any_value) : GoM env_state unit :=
  send (COverride key value);; Cleanup [CRestore key value].
Definition injectHook (hook : Hook) (scope : hook_scope) : GoM env_state unit :=
  send (CHook hook scope);; Cleanup [CUnhook hook scope].

(** [t.Fatal] ends the test. *)
Definition Fatal {A} (msg : string) : GoM env_state A := panic msg.

(** The scope a hook asks for: its namespace, the cluster, or an unknown one. *)
Inductive hook_kind := HookNamespace | HookGlobal | HookUnknown.

Definition InjectHook (e : TestEnv) (hook : Hook) (kind : hook_kind) : GoM env_state unit :=
  match kind with
  | HookNamespace => injectHook hook (ScopeNamespace (nsID e))
  | HookGlobal =>
      if isShared e
      then Fatal "InjectHook: global hooks require a dedicated cluster; use testcore.WithDedicatedCluster()"
      else use "global hook injected";; injectHook hook ScopeGlobal
  | HookUnknown => Fatal "InjectHook: unknown scope"
  end.

Definition SetOnAuthorize (e : TestEnv) (fn : option AuthFn) : GoM env_state unit :=
  if isShared e
  then Fatal "SetOnAuthorize cannot be called on a shared cluster; use testcore.WithDedicatedCluster()"
  else use "authorization callback";; send (CSetOnAuthorize fn);; Cleanup [CSetOnAuthorize None].

Definition SetOnGetClaims (e : TestEnv) (fn : option ClaimsFn) : GoM env_state unit :=
  if isShared e
  then Fatal "SetOnGetClaims cannot be called on a shared cluster; use testcore.WithDedicatedCluster()"
  else use "authorization callback";; send (CSetOnGetClaims fn);; Cleanup [CSetOnGetClaims None].

(** A value, constrained to a namespace. *)
Definition constrain (ns : string) (value : any_value) : any_value :=
  match value with
  | Constrained cvs => Constrained ((λ cv, mkConstrained ns (cv_other cv) (cv_Value cv)) <$> cvs)
  | Plain v => Constrained [mkConstrained ns zero_constraints v]
  end.

Definition OverrideDynamicConfig (e : TestEnv) (setting : GenericSetting) (value : any_value)
    : GoM env_state unit :=
  if isShared e then
    if canBeNamespaceScoped (set_Precedence setting)
    then overrideDynamicConfigForTest (Key setting) (constrain (nsName e) value)
    else Fatal ("OverrideDynamicConfig for setting " +:+ Key setting +:+
                " cannot be called on a shared cluster; use testcore.WithDedicatedCluster()")
  else
    (if canBeNamespaceScoped (set_Precedence setting) then mret tt
     else use "global dynamic config used");;
    overrideDynamicConfigForTest (Key setting) value.

Definition StartGlobalMetricCapture (e : TestEnv) : GoM env_state unit :=
  if isShared e
  then Fatal "StartGlobalMetricCapture cannot be called on a shared cluster; use testcore.WithDedicatedCluster()"
  else
    use "global metric capture";;
    if captureMetrics e then send (CStartCapture None);; Cleanup [CCheckMisuse; CStopCapture]
    else Fatal "StartGlobalMetricCapture is unavailable because metrics capture is not enabled on this cluster".

(** A capture whose reads are restricted to the metrics of a namespace. *)
Definition StartNamespaceMetricCaptureFor (e : TestEnv) (namespaceName : string)
    : GoM env_state unit :=
  if captureMetrics e then send (CStartCapture (Some namespaceName));; Cleanup [CStopCapture]
  else Fatal "StartNamespaceMetricCapture is unavailable because metrics capture is not enabled on this cluster".

Definition StartNamespaceMetricCapture (e : TestEnv) : GoM env_state unit :=
  StartNamespaceMetricCaptureFor e (nsName e).

(** [WorkflowIDToHistoryShard] is the server's. *)
Context (WorkflowIDToHistoryShard : string → string → Z → Z).

Definition CloseShard (e : TestEnv) (namespaceID workflowID : string) : GoM env_state unit :=
  if isShared e
  then Fatal "CloseShard cannot be called on a shared cluster; use testcore.WithDedicatedCluster()"
  else
    use "shard closed";;
    send (CCloseShard (WorkflowIDToHistoryShard namespaceID workflowID (numHistoryShards e))).

(** The settings of a dedicated cluster are given to it at its creation; a later
    value of a key wins. *)
Definition startup_config (o : testOptions) : gmap string any_value :=
  if dedicatedCluster o
  then foldl (λ m sv, <[Key sv.1 := sv.2]> m) ∅ (dynamicConfigSettings o) else ∅.

Definition startup_guard (o : testOptions) : dedicatedClusterGuard :=
  let g := newDedicatedClusterGuard (dedicatedCluster o) in
  let g := if decide (dedicatedReason o ≠ "") then record_use (dedicatedReason o) g else g in
  if dedicatedCluster o then
    foldl (λ g sv, if canBeNamespaceScoped (set_Precedence sv.1) then g
                   else record_use "global dynamic config used" g) g (dynamicConfigSettings o)
  else g.

(** [clusterPool.get]: a dedicated cluster when one is asked for or customised,
    a shared one otherwise. *)
Definition pool_cluster (zero_policy : Policy) (sqlite_file : Persistence) (o : testOptions) :=
  let startup := startup_config o in
  let dc := (Some 0, size startup) in
  if dedicatedCluster o || bool_decide (0 < size startup) || bool_decide (0 < length (clusterOptions o))
  then createCluster zero_policy sqlite_file dc false (clusterOptions o) {[0 := startup]}
  else createCluster zero_policy sqlite_file (None, 0) true [] ∅.

Fixpoint apply_settings (e : TestEnv) (settings : list (GenericSetting * any_value))
    : GoM env_state unit :=
  match settings with
  | [] => mret tt
  | (s, v) :: settings => OverrideDynamicConfig e s v;; apply_settings e settings
  end.

(** [NewEnv], for a test that is not skipped: [ns] and [id] are the namespace it
    registers, or the registration's error. *)
Definition NewEnv (zero_policy : Policy) (sqlite_file : Persistence) (opts : list TestOption)
    (registered : string + (string * string)) : env_state * res TestEnv :=
  let s0 := mkEnvState (newDedicatedClusterGuard false) [] [] in
  match apply_test_options opts (mkTestOptions false "" [] []) with
  | Ok o =>
      let s := mkEnvState (startup_guard o) [] [] in
      let cfg := (pool_cluster zero_policy sqlite_file o).1 in
      match registered with
      | inl err => (s, Panic ("Failed to register namespace: " +:+ err))
      | inr (ns, id) =>
          let e := mkTestEnv (cfg_isShared cfg) ns id (cfg_NumHistoryShards cfg)
                     (cfg_EnableMetricsCapture cfg) in
          (if dedicatedCluster o then mret e
           else apply_settings e (dynamicConfigSettings o);; mret e) s
      end
  | Err x => (s0, Err x)
  | Panic x => (s0, Panic x)
  | Diverge => (s0, Diverge)
  end.

(** The end of the test: its cleanups, and last the one [NewEnv] registers first,
    which fails a test that did not need its dedicated cluster. *)
Definition test_end (failed : bool) (s : env_state) : list cluster_call * option string :=
  (calls s ++ cleanups s, if failed then None else validate (guard s)).

(** * Histories of a test *)

Inductive env_op :=
| OpInjectHook (hook : Hook) (kind : hook_kind)
| OpSetOnAuthorize (fn : option AuthFn)
| OpSetOnGetClaims (fn : option ClaimsFn)
| OpOverride (setting : GenericSetting) (value : any_value)
| OpGlobalCapture
| OpNamespaceCapture
| OpNamespaceCaptureFor (namespaceName : string)
| OpCloseShard (namespaceID workflowID : string).

Definition exec_env_op (e : TestEnv) (op : env_op) : GoM env_state unit :=
  match op with
  | OpInjectHook hook kind => InjectHook e hook kind
  | OpSetOnAuthorize fn => SetOnAuthorize e fn
  | OpSetOnGetClaims fn => SetOnGetClaims e fn
  | OpOverride setting value => OverrideDynamicConfig e setting value
  | OpGlobalCapture => StartGlobalMetricCapture e
  | OpNamespaceCapture => StartNamespaceMetricCapture e
  | OpNamespaceCaptureFor namespaceName => StartNamespaceMetricCaptureFor e namespaceName
  | OpCloseShard namespaceID workflowID => CloseShard e namespaceID workflowID
  end.

Fixpoint run_ops (e : TestEnv) (ops : list env_op) : GoM env_state unit :=
  match ops with [] => mret tt | op :: ops => exec_env_op e op;; run_ops e ops end.

(** * Cleanups *)

(** What undoes a call; a closed shard is reopened by the server. *)
Definition undo (c : cluster_call) : list cluster_call :=
  match c with
  | COverride key value => [CRestore key value]
  | CHook hook scope => [CUnhook hook scope]
  | CSetOnAuthorize _ => [CSetOnAuthorize None]
  | CSetOnGetClaims _ => [CSetOnGetClaims None]
  | CStartCapture None => [CCheckMisuse; CStopCapture]
  | CStartCapture (Some _) => [CStopCapture]
  | _ => []
  end.

(** The cleanups undo the calls, the last one first. *)
Definition mirrored (s : env_state) : Prop :=
  cleanups s = mjoin (reverse (undo <$> calls s)).

Lemma exec_env_op_mirrored e op s : mirrored s → mirrored (exec_env_op e op s).1.
Proof.
  intros Hs. destruct op as [hook []|fn|fn|setting value| | |other|ns wf]; unfold exec_env_op, InjectHook,
    SetOnAuthorize, SetOnGetClaims, OverrideDynamicConfig, StartGlobalMetricCapture,
    StartNamespaceMetricCapture, StartNamespaceMetricCaptureFor, CloseShard, injectHook, overrideDynamicConfigForTest;
    repeat case_match; try exact Hs;
    unfold mirrored, use, send, Cleanup in *; go_simpl; cbn [fst calls cleanups];
    rewrite fmap_app, reverse_app, Hs; reflexivity.
Qed.

Lemma run_ops_mirrored e ops s : mirrored s → mirrored (run_ops e ops s).1.
Proof.
  revert s. induction ops as [|op ops IH]; intros s Hs; [done|].
  pose proof (exec_env_op_mirrored e op s Hs) as Hop. simpl.
  unfold mbind, go_bind. destruct (exec_env_op e op s) as [s1 []]; auto.
Qed.

(** * Isolation on a shared cluster *)

Definition scoped_value (ns : string) (v : any_value) : Prop :=
  match v with Constrained cvs => Forall (λ cv, cv_Namespace cv = ns) cvs | Plain _ => False end.

(** A call that concerns one namespace only; a capture is stopped by the test
    that started it. *)
Definition scoped (ns id : string) (c : cluster_call) : Prop :=
  match c with
  | COverride _ v | CRestore _ v => scoped_value ns v
  | CHook _ sc | CUnhook _ sc => sc = ScopeNamespace id
  | CStartCapture reads => reads = Some ns
  | CStopCapture => True
  | CSetOnAuthorize _ | CSetOnGetClaims _ | CCheckMisuse | CCloseShard _ => False
  end.

(** A call that reads the metrics of a namespace the test named itself. *)
Definition reads_named (ops : list env_op) (c : cluster_call) : Prop :=
  ∃ other, c = CStartCapture (Some other) ∧ OpNamespaceCaptureFor other ∈ ops.

Definition isolated (e : TestEnv) (ops : list env_op) (s : env_state) : Prop :=
  Forall (λ c, scoped (nsName e) (nsID e) c ∨ reads_named ops c) (calls s ++ cleanups s).

Lemma constrain_scoped ns v : scoped_value ns (constrain ns v).
Proof.
  destruct v as [v|cvs]; simpl; [by repeat constructor|].
  apply Forall_fmap, Forall_true. done.
Qed.

Lemma isolated_send_cleanup e ops c c' s :
  scoped (nsName e) (nsID e) c ∨ reads_named ops c → scoped (nsName e) (nsID e) c' →
  isolated e ops s → isolated e ops ((send c;; Cleanup [c']) s).1.
Proof.
  unfold isolated. cbn. intros Hc Hc' [Hcs Hcl]%Forall_app.
  apply Forall_app. split; [apply Forall_app; split; [done|]|]; constructor; auto.
Qed.

Lemma exec_env_op_isolated e ops op s :
  isShared e = true → op ∈ ops → isolated e ops s → isolated e ops (exec_env_op e op s).1.
Proof.
  intros Hsh Hin Hs.
  destruct op as [hook []|fn|fn|setting value| | |other|ns wf]; unfold exec_env_op, InjectHook,
    SetOnAuthorize, SetOnGetClaims, OverrideDynamicConfig, StartGlobalMetricCapture,
    StartNamespaceMetricCapture, StartNamespaceMetricCaptureFor, CloseShard;
    rewrite ?Hsh; try exact Hs; try case_match; try exact Hs;
    apply isolated_send_cleanup; try done; first [apply constrain_scoped | left; done |
      left; apply constrain_scoped | right; by exists other].
Qed.

Lemma run_ops_isolated e ops ops' s :
  isShared e = true → ops' ⊆ ops → isolated e ops s → isolated e ops (run_ops e ops' s).1.
Proof.
  intros Hsh. revert s. induction ops' as [|op ops' IH]; intros s Hsub Hs; [done|].
  pose proof (exec_env_op_isolated e ops op s Hsh (Hsub _ ltac:(by left)) Hs) as Hop. simpl.
  assert (ops' ⊆ ops) by (intros o Ho; apply Hsub; by right).
  unfold mbind, go_bind. destruct (exec_env_op e op s) as [s1 []]; auto.
Qed.

(** No override of the options reads another namespace. *)
Lemma isolated_overrides e settings ops s :
  isolated e ((λ sv : GenericSetting * any_value, OpOverride sv.1 sv.2) <$> settings) s →
  isolated e ops s.
Proof.
  intros H. eapply Forall_impl; [exact H|]. intros c [Hc|(other & -> & Hin)]; [by left|].
  by apply list_elem_of_fmap in Hin as (? & ? & ?).
Qed.

Lemma apply_settings_run e settings :
  apply_settings e settings = run_ops e ((λ sv, OpOverride sv.1 sv.2) <$> settings).
Proof.
  induction settings as [|[st v] settings IH]; [done|]. simpl. by rewrite IH.
Qed.

(** * What the options amount to *)

Definition is_global (sv : GenericSetting * any_value) : bool :=
  negb (canBeNamespaceScoped (set_Precedence sv.1)).

(** The options that use a feature of a dedicated cluster; one more asks for such
    a cluster without using it. *)
Definition justifies (opt : TestOption) : bool :=
  match opt with
  | WithFxOptions _ _ | WithWorkerService _ | WithPersistenceFaultInjection _ => true
  | WithDynamicConfig setting value => is_global (setting, value)
  | WithDedicatedCluster | WithSdkWorker => false
  end.

Definition asks_dedicated (opt : TestOption) : bool :=
  match opt with WithDedicatedCluster => true | _ => justifies opt end.

Definition justified (o : testOptions) : bool :=
  bool_decide (dedicatedReason o ≠ "") || existsb is_global (dynamicConfigSettings o).

Lemma apply_test_option_spec opt o o' :
  apply_test_option opt o = Ok o' →
  dedicatedCluster o' = dedicatedCluster o || asks_dedicated opt ∧
  justified o' = justified o || justifies opt ∧
  existsb is_shared (clusterOptions o') = existsb is_shared (clusterOptions o) ∧
  (dedicatedCluster o' = false → clusterOptions o' = clusterOptions o).
Proof.
  destruct opt as [| |sn opts|reason|cfg|setting value]; simpl; intros H;
    [..|destruct (Validate setting value); [done|]]; simplify_eq/=;
    rewrite ?orb_false_r, ?orb_true_r, ?existsb_app; cbn; rewrite ?orb_false_r;
    unfold justified; simpl; rewrite ?existsb_app; cbn; rewrite ?orb_false_r;
    split_and!; try done.
  - unfold is_global. simpl. destruct (canBeNamespaceScoped _); simpl; [by rewrite orb_false_r|].
    by rewrite orb_true_r.
  - by rewrite orb_assoc.
Qed.

Lemma apply_test_options_spec opts o o' :
  apply_test_options opts o = Ok o' →
  dedicatedCluster o' = dedicatedCluster o || existsb asks_dedicated opts ∧
  justified o' = justified o || existsb justifies opts ∧
  existsb is_shared (clusterOptions o') = existsb is_shared (clusterOptions o) ∧
  (dedicatedCluster o' = false → clusterOptions o' = clusterOptions o).
Proof.
  revert o. induction opts as [|opt opts IH]; intros o; simpl.
  { intros [= ->]. by rewrite !orb_false_r. }
  destruct (apply_test_option opt o) as [o1| | |] eqn:E; try done. intros H.
  apply apply_test_option_spec in E as (E1 & E2 & E3 & E4). apply IH in H as (-> & -> & -> & H4).
  rewrite E1, E2, E3, !orb_assoc. split_and!; try done.
  intros Hd. rewrite H4 by (by rewrite E1). apply E4. rewrite E1.
  by apply orb_false_iff in Hd as [-> _].
Qed.

(** The environment of a test: the pool gives it a shared cluster unless an
    option asks for its own. *)
Lemma NewEnv_inv zero_policy sqlite_file opts ns id s e :
  NewEnv zero_policy sqlite_file opts (inr (ns, id)) = (s, Ok e) →
  ∃ o, apply_test_options opts (mkTestOptions false "" [] []) = Ok o ∧
    nsName e = ns ∧ nsID e = id ∧ isShared e = negb (dedicatedCluster o) ∧
    (if dedicatedCluster o then s = mkEnvState (startup_guard o) [] []
     else run_ops e ((λ sv, OpOverride sv.1 sv.2) <$> dynamicConfigSettings o)
            (mkEnvState (startup_guard o) [] []) = (s, Ok tt)).
Proof.
  unfold NewEnv. destruct (apply_test_options _ _) as [o| | |] eqn:Ho; try done. intros H.
  exists o. split; [done|]. apply apply_test_options_spec in Ho as (_ & _ & Hsh & Hco).
  assert (cfg_isShared (pool_cluster zero_policy sqlite_file o).1 = negb (dedicatedCluster o)) as Hs.
  { unfold pool_cluster, startup_config. destruct (dedicatedCluster o) eqn:Hd; cbn [orb negb].
    - by apply createCluster_isShared.
    - rewrite Hco by done. rewrite map_size_empty. cbn [length clusterOptions].
      rewrite bool_decide_false by lia. cbn [orb]. by apply createCluster_isShared. }
  revert H. destruct (pool_cluster zero_policy sqlite_file o) as [cfg h]. simpl in Hs. cbn [fst].
  destruct (dedicatedCluster o); [intros [= <- <-]; by split_and!|].
  rewrite apply_settings_run. unfold mbind, go_bind at 1.
  destruct (run_ops _ _ _) as [s1 [[]| | |]] eqn:Hr; intros H; inversion H; subst. by split_and!.
Qed.

(** C32: tests that share a cluster do not disturb each other.  A test none of
    whose options asks for a dedicated cluster gets a shared one, and whatever it
    then does - up to the call that fails it, if one does - every call to the
    cluster and every cleanup concerns the test's own namespace only: overrides
    carry its namespace as a constraint, hooks are scoped to its id, and callbacks,
    shards and global captures are out of its reach.  The one exception is a
    metrics capture for a namespace the test itself names
    ([StartNamespaceMetricCaptureFor]), which only reads. *)
Theorem shared_env_isolated zero_policy sqlite_file opts ns id s e ops :
  existsb asks_dedicated opts = false →
  NewEnv zero_policy sqlite_file opts (inr (ns, id)) = (s, Ok e) →
  isShared e = true ∧
  ∀ failed,
    Forall (λ c, scoped ns id c ∨
                 ∃ other, c = CStartCapture (Some other) ∧ OpNamespaceCaptureFor other ∈ ops)
      (test_end failed (run_ops e ops s).1).1.
Proof.
  intros Hno (o & Ho & Hns & Hid & Hsh & Hs)%NewEnv_inv. rewrite <-Hns, <-Hid.
  apply apply_test_options_spec in Ho as (Hd & _). simpl in Hd. rewrite Hno in Hd.
  rewrite Hd in Hsh, Hs. split; [done|]. intros failed. apply (run_ops_isolated e ops); [done..|].
  eapply isolated_overrides. change s with (s, Ok tt).1. rewrite <-Hs.
  apply run_ops_isolated; [done..|constructor].
Qed.

(** * The guard *)

(** Operations that need a dedicated cluster. *)
Definition needs_dedicated (op : env_op) : bool :=
  match op with
  | OpInjectHook _ HookGlobal | OpSetOnAuthorize _ | OpSetOnGetClaims _ | OpGlobalCapture
  | OpCloseShard _ _ => true
  | OpOverride setting value => is_global (setting, value)
  | OpInjectHook _ _ | OpNamespaceCapture | OpNamespaceCaptureFor _ => false
  end.

Lemma validate_record reason g : reason ≠ "" → validate (record_use reason g) = None.
Proof.
  intros Hr. destruct g as [[] u]; [|done]. unfold record_use, validate; simpl.
  destruct (decide (u = "")); simpl; by rewrite decide_False.
Qed.

Lemma validate_record_mono reason g : validate g = None → validate (record_use reason g) = None.
Proof.
  destruct g as [[] u]; [|done]. unfold record_use, validate; simpl.
  destruct (decide (u = "")); simpl; [done|]. by rewrite decide_False.
Qed.

(** A step of the test satisfies the guard exactly when it needed the cluster. *)
Lemma exec_env_op_guard e op s s' :
  exec_env_op e op s = (s', Ok tt) →
  validate (guard s') = None ↔ validate (guard s) = None ∨ needs_dedicated op = true.
Proof.
  assert (∀ reason g (P : Prop), reason ≠ "" → P →
    validate (record_use reason g) = None ↔ validate g = None ∨ P) as Hrec.
  { intros ??? Hr HP. split; [by right|]. intros _. by apply validate_record. }
  destruct op as [hook []|fn|fn|setting value| | |other|ns wf]; unfold exec_env_op, InjectHook,
    SetOnAuthorize, SetOnGetClaims, OverrideDynamicConfig, StartGlobalMetricCapture,
    StartNamespaceMetricCapture, StartNamespaceMetricCaptureFor, CloseShard, needs_dedicated, is_global; cbn [fst];
    repeat case_match; intros Hrun; inversion Hrun; subst; cbn [guard];
    try (by apply Hrec); naive_solver.
Qed.

Lemma run_ops_guard e ops s s' :
  run_ops e ops s = (s', Ok tt) →
  validate (guard s') = None ↔ validate (guard s) = None ∨ existsb needs_dedicated ops = true.
Proof.
  revert s. induction ops as [|op ops IH]; intros s; simpl.
  { intros [= <-]. naive_solver. }
  unfold mbind, go_bind at 1.
  destruct (exec_env_op e op s) as [s1 [[]| | |]] eqn:E; try done. intros Hr.
  rewrite (IH _ Hr), (exec_env_op_guard _ _ _ _ E), orb_true_iff. tauto.
Qed.

Lemma startup_guard_validate o :
  validate (startup_guard o) = None ↔ dedicatedCluster o = false ∨ justified o = true.
Proof.
  unfold startup_guard, justified, newDedicatedClusterGuard.
  destruct (dedicatedCluster o); [|case_decide; naive_solver].
  set (g := if decide (dedicatedReason o ≠ "") then _ else _).
  assert (validate g = None ↔ bool_decide (dedicatedReason o ≠ "") = true) as Hg.
  { unfold g. rewrite bool_decide_eq_true. case_decide; [|done].
    rewrite validate_record; naive_solver. }
  rewrite orb_true_iff, <-Hg. clearbody g.
  assert (∀ sts g, validate (foldl (λ g sv, if canBeNamespaceScoped (set_Precedence sv.1) then g
      else record_use "global dynamic config used" g) g sts) = None ↔
    validate g = None ∨ existsb is_global sts = true) as Hf; [|rewrite Hf; naive_solver].
  clear. induction sts as [|sv sts IH]; intros g; simpl; [naive_solver|].
  rewrite IH, orb_true_iff. unfold is_global at 2.
  destruct (canBeNamespaceScoped _); simpl; [naive_solver|].
  rewrite validate_record by done. naive_solver.
Qed.

(** The guard of dedicated clusters is exact.  A test that ran to its end is
    failed by its last cleanup if and only if it asked for a dedicated cluster
    and neither its options nor its operations used a feature that needs one. *)
Theorem dedicated_guard_exact zero_policy sqlite_file opts ns id s e ops s' :
  NewEnv zero_policy sqlite_file opts (inr (ns, id)) = (s, Ok e) →
  run_ops e ops s = (s', Ok tt) →
  (test_end false s').2 ≠ None ↔
    WithDedicatedCluster ∈ opts ∧ existsb justifies opts = false ∧
    existsb needs_dedicated ops = false.
Proof.
  intros (o & Ho & _ & _ & _ & Hs)%NewEnv_inv Hr.
  apply apply_test_options_spec in Ho as (Hd & Hj & _).
  unfold justified in Hj at 2. simpl in Hd, Hj.
  assert (validate (guard s) = None ↔ dedicatedCluster o = false ∨ justified o = true) as Hg.
  { rewrite <-startup_guard_validate. destruct (dedicatedCluster o) eqn:E; [by subst|].
    rewrite (run_ops_guard _ _ _ _ Hs). split; [|by left]. intros _.
    apply startup_guard_validate. by left. }
  unfold test_end. simpl. rewrite (run_ops_guard _ _ _ _ Hr), Hg, Hd, Hj.
  assert (existsb asks_dedicated opts = true ↔
    WithDedicatedCluster ∈ opts ∨ existsb justifies opts = true) as Ha.
  { rewrite !existsb_exists. setoid_rewrite <-list_elem_of_In. split.
    - intros (opt & Hin & Hopt). destruct opt; simpl in Hopt; naive_solver.
    - intros [Hin|(opt & Hin & Hopt)]; [by eexists|].
      exists opt. split; [done|]. by destruct opt. }
  destruct (existsb asks_dedicated opts), (existsb justifies opts),
    (existsb needs_dedicated ops); naive_solver.
Qed.
End test_env.

(** * The properties at concrete tests *)

Lemma shards_partition_witness :
  (∃ k, (0 ≤ k < 4)%Z ∧
    checkTestShard (λ bs, Z.of_nat (length bs)) "4" "7" "TestSignal" =
      ShardFatal "Couldn't convert TEST_SHARD_INDEX") ∧
  checkTestShard (λ bs, Z.of_nat (length bs)) "4" "1" "TestSignal" = ShardRun ∧
  checkTestShard (λ bs, Z.of_nat (length bs)) "4" "2" "TestSignal" = ShardSkip.
Proof.
  destruct (shards_partition (λ bs, Z.of_nat (length bs)) "TestSignal" "4" 4) as (k & Hk & H);
    [reflexivity|lia|].
  split; [exists k; split; [exact Hk|exact (H "7" 7%Z eq_refl)]|]. split; vm_compute; reflexivity.
Defined.

Definition w_namespaced : GenericSetting (V := Z) (C := unit) :=
  mkSetting "frontend.namespaceRPS" PrecedenceNamespace (λ _, None).
Definition w_global : GenericSetting (V := Z) (C := unit) :=
  mkSetting "system.enableNexus" (PrecedenceOther 0) (λ _, None).

Notation w_option := (TestOption (V := Z) (C := unit) (Fx := unit) (Fault := unit)).
Notation w_op := (env_op (V := Z) (C := unit) (Hook := string) (AuthFn := unit) (ClaimsFn := unit)).
Notation w_NewEnv opts :=
  (NewEnv (V := Z) (C := unit) (Hook := string) (Fx := unit) (Policy := unit) (Fault := unit)
     (HistoryFactory := unit) (VisibilityFactory := unit) (Persistence := unit)
     (AuthFn := unit) (ClaimsFn := unit) tt tt tt opts (inr ("ns-1", "id-1"))).
Notation w_run := (run_ops tt (λ _ _ n, (n - 1)%Z)).

(** A test on a shared cluster, with an override from its options and one of its
    own and two captures; the fifth operation fails it. *)
Definition w_shared_opts : list w_option := [WithDynamicConfig w_namespaced (Plain 10%Z)].
Definition w_shared_ops : list w_op :=
  [OpInjectHook "hook" HookNamespace; OpOverride w_namespaced (Constrained [mkConstrained "other" tt 5%Z]);
   OpNamespaceCapture; OpNamespaceCaptureFor "ns-2"; OpCloseShard "ns" "wf"; OpGlobalCapture].
Definition w_shared_env : TestEnv := mkTestEnv true "ns-1" "id-1" 4 true.

Lemma shared_env_isolated_witness :
  (w_NewEnv w_shared_opts).2 = Ok w_shared_env ∧
  isShared w_shared_env = true ∧
  length (test_end true (w_run w_shared_env w_shared_ops (w_NewEnv w_shared_opts).1).1).1 = 10 ∧
  Forall (λ c, scoped "ns-1" "id-1" c ∨
               ∃ other, c = CStartCapture (Some other) ∧ OpNamespaceCaptureFor other ∈ w_shared_ops)
    (test_end true (w_run w_shared_env w_shared_ops (w_NewEnv w_shared_opts).1).1).1.
Proof.
  split; [vm_compute; reflexivity|]. split; [reflexivity|]. split; [vm_compute; reflexivity|].
  apply (shared_env_isolated (HistoryFactory := unit) (VisibilityFactory := unit) tt (λ _ _ n, (n - 1)%Z) tt tt w_shared_opts "ns-1" "id-1"
    (w_NewEnv w_shared_opts).1 w_shared_env w_shared_ops); vm_compute; reflexivity.
Defined.

(** Tests on a dedicated cluster: one that does not use it, and one that does. *)
Definition w_dedicated_env : TestEnv := mkTestEnv false "ns-1" "id-1" 4 true.
Definition w_dedicated_opts : list w_option := [WithDedicatedCluster].
Definition w_idle_ops : list w_op := [OpInjectHook "hook" HookNamespace; OpNamespaceCapture].

Lemma dedicated_guard_exact_witness :
  (test_end false (w_run w_dedicated_env w_idle_ops (w_NewEnv w_dedicated_opts).1).1).2 ≠ None ∧
  (test_end false (w_run w_dedicated_env (w_idle_ops ++ [OpOverride w_global (Plain 1%Z)])
     (w_NewEnv w_dedicated_opts).1).1).2 = None.
Proof.
  split; [|vm_compute; reflexivity].
  apply (dedicated_guard_exact (HistoryFactory := unit) (VisibilityFactory := unit) tt (λ _ _ n, (n - 1)%Z) tt tt w_dedicated_opts "ns-1" "id-1"
    (w_NewEnv w_dedicated_opts).1 w_dedicated_env w_idle_ops
    (w_run w_dedicated_env w_idle_ops (w_NewEnv w_dedicated_opts).1).1).
  - vm_compute; reflexivity.
  - vm_compute; reflexivity.
  - split; [by left|]. split; vm_compute; reflexivity.
Defined.
