(* ===== verification/Onebox.v ===== *)
(** A Temporal server in one process
    ([conformance-tests/testcore/onebox.go]): what the harness's own code does
    around the server's packages - the order of starting and stopping, host
    maps, dynamic configuration at start-up, authorization callbacks, the copy
    of the persistence configuration and the choice of admin clients. *)

From S2P Require Import Prelude GoStrings GoNet Murmur Mappings Json Checkpoint.
From S2P Require Import ClusterOptions TestEnv.
From stdpp Require Import options.

(** * Hosts *)

Record Hosts := mkHosts { All : list string; Self : string }.

Definition grpcProtocol : string := "grpc".
Definition httpProtocol : string := "http".

(** [hostsByProtocolByService]; a missing key reads as the zero value. *)
Definition host_table := gmap string (gmap string Hosts).

Definition hosts_of (t : host_table) (protocol service : string) : Hosts :=
  default (mkHosts [] "") (t !! protocol ≫= λ m, m !! service).

(** [makeHostMap]: a clone, in which the service's hosts have a [Self]. *)
Definition makeHostMap (t : host_table) (serviceName self : string) : gmap string Hosts :=
  let hostMap := default ∅ (t !! grpcProtocol) in
  let hosts := default (mkHosts [] "") (hostMap !! serviceName) in
  <[serviceName := mkHosts (All hosts) self]> hostMap.

(** [addrs[i]] panics out of range. *)
Definition address_at (addrs : list string) (i : nat) : res string :=
  match addrs !! i with Some a => Ok a | None => Panic "runtime error: index out of range" end.

Definition FrontendGRPCAddress (t : host_table) : res string :=
  address_at (All (hosts_of t grpcProtocol "frontend")) 0.
Definition WorkerGRPCAddress (t : host_table) : res string :=
  address_at (All (hosts_of t grpcProtocol "worker")) 0.

(** [rand_Intn n] is below [n]; [rand.Intn] panics for [0]. *)
Definition FrontendHTTPAddress (rand_Intn : nat → nat) (t : host_table) : res string :=
  let addrs := All (hosts_of t httpProtocol "frontend") in
  if decide (length addrs = 0) then Panic "invalid argument to Intn"
  else address_at addrs (rand_Intn (length addrs)).

Definition mustPortFromAddress (addr : string) : res Z :=
  match SplitHostPort addr with
  | None => Panic "Invalid address"
  | Some (_, port) =>
      match Atoi port with Some p => Ok p | None => Panic "Cannot parse port" end
  end.

(** * Start and stop *)

(** An fx application: the service it runs, on a host. *)
Definition app : Type := string * string.

Record server := mkServer { fxApps : list app; started : list app; stopped : list app }.

(** [start...]: one application per host; one that cannot be built or started is
    fatal.  [builds a] is [app.Err()], [starts a] the error of [app.Start]. *)
Fixpoint start_service (builds starts : app → option string) (service : string) (hosts : list string)
    : GoM server unit :=
  match hosts with
  | [] => mret tt
  | host :: hosts =>
      match builds (service, host) with Some err => panic err | None => mret tt end;;
      modify (λ s, mkServer (fxApps s ++ [(service, host)]) (started s) (stopped s));;
      match starts (service, host) with
      | Some err => panic err
      | None =>
          modify (λ s, mkServer (fxApps s) (started s ++ [(service, host)]) (stopped s));;
          start_service builds starts service hosts
      end
  end.

(** The services in the order [Start] starts them. *)
Definition start_order : list string := ["matching"; "history"; "frontend"; "worker"].

Fixpoint start_services (builds starts : app → option string) (t : host_table) (services : list string)
    : GoM server unit :=
  match services with
  | [] => mret tt
  | service :: services =>
      start_service builds starts service (All (hosts_of t grpcProtocol service));;
      start_services builds starts t services
  end.

(** [Start]; [init] is the error of creating the system namespace. *)
Definition Start (init : option string) (builds starts : app → option string) (t : host_table)
    : GoM server unit :=
  match init with
  | Some err => fail ("failed to create temporal-system namespace: " +:+ err)
  | None => start_services builds starts t start_order
  end.

(** [Stop] reverses the list in place, stops every application and combines the
    errors; [stops a] is the error of [app.Stop]. *)
Definition Stop (stops : app → option string) (s : server) : server * list string :=
  let apps := reverse (fxApps s) in
  (mkServer apps (started s) (stopped s ++ apps), omap stops apps).

(** The applications of a table, in starting order. *)
Definition all_apps (t : host_table) : list app :=
  start_order ≫= λ service, (λ host, (service, host)) <$> All (hosts_of t grpcProtocol service).

Lemma start_service_ok builds starts service hosts s :
  (∀ host, host ∈ hosts → builds (service, host) = None ∧ starts (service, host) = None) →
  start_service builds starts service hosts s =
    (let apps := (λ host, (service, host)) <$> hosts in
     mkServer (fxApps s ++ apps) (started s ++ apps) (stopped s), Ok tt).
Proof.
  revert s. induction hosts as [|host hosts IH]; intros s Hok; cbn zeta.
  - cbn. rewrite !app_nil_r. by destruct s.
  - cbn [start_service]. go_simpl. destruct (Hok host) as [-> ->]; [set_solver|]. cbn [fxApps started stopped].
    rewrite IH by set_solver. cbn [fxApps started stopped fmap list_fmap].
    by rewrite <-!(assoc_L (++)).
Qed.

Lemma start_services_ok builds starts t services s :
  (∀ service host, service ∈ services → host ∈ All (hosts_of t grpcProtocol service) →
     builds (service, host) = None ∧ starts (service, host) = None) →
  start_services builds starts t services s =
    (let apps := services ≫= λ service, (λ host, (service, host)) <$> All (hosts_of t grpcProtocol service) in
     mkServer (fxApps s ++ apps) (started s ++ apps) (stopped s), Ok tt).
Proof.
  revert s. induction services as [|service services IH]; intros s Hok; cbn zeta.
  - cbn. rewrite !app_nil_r. by destruct s.
  - cbn [start_services]. erewrite go_bind_ok; [|apply start_service_ok; set_solver].
    rewrite IH by set_solver. cbn zeta. cbn [fxApps started stopped mbind list_bind].
    by rewrite <-!(assoc_L (++)).
Qed.

(** What was started is stopped, backwards.  When every application can be
    built and started,
    [Start] runs one per host of each service, matching before history before
    frontend before worker, and [Stop] then stops each of them exactly once in
    the opposite order, whichever of them fail to stop. *)
Theorem stop_reverses_start builds starts stops t :
  (∀ a, a ∈ all_apps t → builds a = None ∧ starts a = None) →
  ∃ s, Start None builds starts t (mkServer [] [] []) = (s, Ok tt) ∧ started s = all_apps t ∧
    stopped (Stop stops s).1 = reverse (all_apps t) ∧
    (Stop stops s).2 = omap stops (reverse (all_apps t)).
Proof.
  intros Hok. unfold Start. eexists. split; [apply start_services_ok|].
  - intros service host Hs Hh. apply Hok. apply list_elem_of_bind. exists service.
    split; [|done]. apply list_elem_of_fmap. eauto.
  - by split.
Qed.

(** * Authorization callbacks *)

Section callbacks.
Context {AuthInfo Claims Target : Type} (admin_claims : Claims).

(** The decision of the authorizer, allowing when no callback is set. *)
Inductive Decision_ := DecisionAllow | DecisionDeny.

Notation ClaimsFn := (AuthInfo → string + Claims).
Notation AuthFn := (Claims → Target → string + Decision_).

Record callbacks := mkCallbacks { onGetClaims : option ClaimsFn; onAuthorize : option AuthFn }.

Definition no_callbacks : callbacks := mkCallbacks None None.

Definition SetOnGetClaims (fn : option ClaimsFn) (c : callbacks) : callbacks :=
  mkCallbacks fn (onAuthorize c).
Definition SetOnAuthorize (fn : option AuthFn) (c : callbacks) : callbacks :=
  mkCallbacks (onGetClaims c) fn.

Definition GetClaims (authInfo : AuthInfo) (c : callbacks) : string + Claims :=
  match onGetClaims c with Some fn => fn authInfo | None => inr admin_claims end.
Definition Authorize (caller : Claims) (target : Target) (c : callbacks) : string + Decision_ :=
  match onAuthorize c with Some fn => fn caller target | None => inr DecisionAllow end.

Context {V C Hook Fx Policy Fault HistoryFactory VisibilityFactory Persistence : Type}.
Notation call := (cluster_call (V := V) (C := C) (Hook := Hook) (AuthFn := AuthFn) (ClaimsFn := ClaimsFn)).

(** What the calls of a test do to the callbacks of its cluster. *)
Definition apply_call (c : callbacks) (k : call) : callbacks :=
  match k with
  | CSetOnAuthorize fn => SetOnAuthorize fn c
  | CSetOnGetClaims fn => SetOnGetClaims fn c
  | _ => c
  end.

(** Calls followed by what undoes them leave a callback alone, or clear it. *)
Lemma undone_callbacks (made : list call) c :
  let c' := foldl apply_call c (made ++ mjoin (reverse (undo <$> made))) in
  (onAuthorize c' = onAuthorize c ∨ onAuthorize c' = None) ∧
  (onGetClaims c' = onGetClaims c ∨ onGetClaims c' = None).
Proof.
  revert c. induction made as [|k made IH]; intros c; [by auto|].
  rewrite fmap_cons, reverse_cons, join_app. cbn zeta.
  rewrite (assoc_L (++)), <-app_comm_cons, foldl_app. cbn [foldl].
  specialize (IH (apply_call c k)). cbn zeta in IH.
  set (c1 := foldl _ _ _) in *. change (foldl _ _ _) with c1 in IH.
  destruct k as [| | | | | |[]| | |]; simpl in *; naive_solver.
Qed.

(** A test leaves no trace.  Whatever a test did to its cluster, and wherever
    it failed, its cleanups undo its calls one by one, the last one first:
    overrides are restored, hooks removed, captures stopped; and afterwards the
    authorizer allows everybody and everybody is an administrator, as before. *)
Theorem test_leaves_no_trace zero_constraints WorkflowIDToHistoryShard zero_policy sqlite_file opts
    reg s (e : TestEnv) ops failed authInfo caller target :
  NewEnv (V := V) (C := C) (Hook := Hook) (Fx := Fx) (Policy := Policy) (Fault := Fault)
    (HistoryFactory := HistoryFactory) (VisibilityFactory := VisibilityFactory)
    (Persistence := Persistence) (AuthFn := AuthFn) (ClaimsFn := ClaimsFn)
    zero_constraints zero_policy sqlite_file opts reg = (s, Ok e) →
  let log := (test_end failed (run_ops zero_constraints WorkflowIDToHistoryShard e ops s).1).1 in
  (∃ made, log = made ++ mjoin (reverse (undo <$> made))) ∧
  let c := foldl apply_call no_callbacks log in
  GetClaims authInfo c = inr admin_claims ∧ Authorize caller target c = inr DecisionAllow.
Proof.
  intros HN.
  assert (mirrored s) as Hs.
  { destruct reg as [err|[ns id]]; [unfold NewEnv in HN; by destruct (apply_test_options _ _)|].
    destruct (NewEnv_inv zero_constraints WorkflowIDToHistoryShard _ _ _ _ _ _ _ HN)
      as (o & _ & _ & _ & _ & Ho).
    destruct (dedicatedCluster o); [rewrite Ho; reflexivity|].
    change s with (s, Ok tt).1. rewrite <-Ho. apply run_ops_mirrored. reflexivity. }
  cbn zeta. set (s' := (run_ops _ _ e ops s).1).
  assert (mirrored s') as Hs' by (by apply run_ops_mirrored).
  unfold test_end. cbn [fst]. unfold mirrored in Hs'. rewrite Hs'. split; [by exists (calls s')|].
  destruct (undone_callbacks (calls s') no_callbacks) as [H1 H2].
  unfold GetClaims, Authorize. destruct H1 as [-> | ->], H2 as [-> | ->]; done.
Qed.
End callbacks.

(** * Dynamic configuration at start-up *)

Section overrides.
Context {MR : MapRange} {V : Type}.

(** An override, and whether it ends with the creating test. *)
Definition override : Type := string * V * bool.

(** The calls [newTemporal] makes: the defaults and the callback URL for the
    cluster's lifetime, then the test's own. *)
Definition startup_overrides (defaults : gmap string V) (nexusKey chasmKey : string)
    (nexusCallbackTemplate : V) (params : gmap string V) : list override :=
  ((λ kv, (kv.1, kv.2, false)) <$> range_map defaults) ++
  [(nexusKey, nexusCallbackTemplate, false); (chasmKey, nexusCallbackTemplate, false)] ++
  ((λ kv, (kv.1, kv.2, true)) <$> range_map params).

(** The value in force: the last one set. *)
Definition in_force (k : string) (l : list override) : option V :=
  foldl (λ acc o, if decide (o.1.1 = k) then Some o.1.2 else acc) None l.

Context {ML : MapRangeLaws}.

Lemma foldl_in_force k b (m : gmap string V) acc :
  foldl (λ acc o, if decide (o.1.1 = k) then Some o.1.2 else acc) acc
    ((λ kv, (kv.1, kv.2, b)) <$> range_map m : list override) =
  match m !! k with Some v => Some v | None => acc end.
Proof using ML.
  assert (NoDup (range_map m).*1) as Hnd by (rewrite range_map_perm; apply NoDup_fst_map_to_list).
  assert (∀ v, (k, v) ∈ range_map m ↔ m !! k = Some v) as Hin.
  { intros v. rewrite range_map_perm. apply elem_of_map_to_list. }
  destruct (m !! k) as [v|] eqn:Em.
  - assert ((k, v) ∈ range_map m) as Hkv by (by apply Hin).
    apply list_elem_of_split in Hkv as (l1 & l2 & E). rewrite E in Hnd |- *.
    rewrite !fmap_app, !fmap_cons in Hnd. apply NoDup_app in Hnd as (_ & _ & Hnd).
    apply NoDup_cons in Hnd as [Hk _]. simpl in Hk.
    rewrite fmap_app, fmap_cons, foldl_app. cbn [foldl fst snd].
    rewrite decide_True by done. generalize (Some v). clear -Hk.
    induction l2 as [|[k' v'] l2 IH]; intros acc; [done|]. cbn.
    rewrite decide_False by set_solver. apply IH. set_solver.
  - assert (∀ v, (k, v) ∉ range_map m) as Hno by (intros v Hv%Hin; done).
    revert Hno. clear -k. generalize (range_map m) as l. intros l. revert acc.
    induction l as [|[k' v'] l IH]; intros acc Hno; [done|]. cbn.
    rewrite decide_False; [|intros ->; set_solver]. apply IH. set_solver.
Qed.

(** The test's overrides win over the callback URL, and that over the defaults,
    in whatever order the maps are gone through. *)
Theorem startup_precedence defaults nexusKey chasmKey url params k :
  in_force k (startup_overrides defaults nexusKey chasmKey url params) =
    match params !! k with
    | Some v => Some v
    | None => if decide (k = nexusKey ∨ k = chasmKey) then Some url else defaults !! k
    end.
Proof using ML.
  unfold in_force, startup_overrides. rewrite !foldl_app, !foldl_in_force. cbn [foldl fst snd].
  destruct (params !! k); [done|]. destruct (defaults !! k); repeat case_decide; naive_solver.
Qed.
End overrides.

(** * The copy of the persistence configuration *)

Section persistence_copy.
Context {MR : MapRange} {D F I : Type} (zero_D : D) (zero_F : F).

(** A fault injection configuration and its injector, which the encoding
    leaves out; the rest of a store is opaque. *)
Record FaultInjection_ := mkFault { fi_config : F; Injector : option I }.
Record DataStore := mkDataStore { ds_rest : D; ds_FaultInjection : option FaultInjection_ }.

(** [json_copy] encodes and decodes the stores; an error of either panics. *)
Definition copyPersistenceConfig (json_copy : gmap string DataStore → string + gmap string DataStore)
    (stores : gmap string DataStore) : res (gmap string DataStore) :=
  match json_copy stores with
  | inl err => Panic ("copy persistence config: " +:+ err)
  | inr newStores =>
      Ok (foldl (λ new nd,
            match ds_FaultInjection nd.2 with
            | None => new
            | Some fi =>
                let newDataStore := default (mkDataStore zero_D None) (new !! nd.1) in
                let newFault := default (mkFault zero_F None) (ds_FaultInjection newDataStore) in
                <[nd.1 := mkDataStore (ds_rest newDataStore)
                            (Some (mkFault (fi_config newFault) (Injector fi)))]> new
            end) newStores (range_map stores))
  end.

Definition injector_of (stores : gmap string DataStore) (name : string) : option I :=
  stores !! name ≫= λ ds, ds_FaultInjection ds ≫= Injector.

Context {ML : MapRangeLaws}.

(** The copy has the injectors of the original. *)
Theorem injectors_preserved json_copy stores new :
  copyPersistenceConfig json_copy stores = Ok new →
  ∀ name ds fi, stores !! name = Some ds → ds_FaultInjection ds = Some fi →
    injector_of new name = Injector fi.
Proof using ML.
  unfold copyPersistenceConfig. destruct (json_copy stores) as [|new0]; [done|]. intros [= <-].
  intros name ds fi Hds Hfi.
  assert ((name, ds) ∈ range_map stores) as Hin by (by rewrite range_map_perm; apply elem_of_map_to_list).
  assert (NoDup (range_map stores).*1) as Hnd by (rewrite range_map_perm; apply NoDup_fst_map_to_list).
  apply list_elem_of_split in Hin as (l1 & l2 & E). rewrite E in Hnd |- *.
  rewrite fmap_app, fmap_cons in Hnd. apply NoDup_app in Hnd as (_ & _ & Hnd).
  apply NoDup_cons in Hnd as [Hk _]. rewrite foldl_app. cbn [foldl fst snd]. rewrite Hfi.
  set (m := <[name := _]> _).
  assert (injector_of m name = Injector fi) as Hm
    by (unfold m, injector_of; by rewrite lookup_insert_eq).
  clearbody m. revert m Hm. clear -Hk. simpl in Hk.
  induction l2 as [|[n' d'] l2 IH]; intros m Hm; [done|]. cbn [foldl fst snd].
  apply IH; [set_solver|]. destruct (ds_FaultInjection d'); [|done].
  unfold injector_of. rewrite lookup_insert_ne; [done|]. set_solver.
Qed.
End persistence_copy.

(** * Clients of remote clusters *)

Section remote.
Context {MR : MapRange} {Client : Type}.

(** [info] are the RPC addresses of the known clusters; the name found last in
    the map's order is used. *)
Definition NewRemoteAdminClientWithTimeout (info : gmap string string) (mockAdminClient : gmap string Client)
    (factory : string → Client) (rpcAddress : string) : Client :=
  let clusterName :=
    foldl (λ acc na, if decide (rpcAddress = na.2) then na.1 else acc) "" (range_map info) in
  match mockAdminClient !! clusterName with
  | Some mock => mock
  | None => factory rpcAddress
  end.

Context {ML : MapRangeLaws}.

(** When no two clusters have an address, the client is the mock of the cluster
    at the address, whatever the order. *)
Theorem remote_client_determined info mocks factory addr name :
  (∀ n n' a, info !! n = Some a → info !! n' = Some a → n = n') →
  info !! name = Some addr →
  NewRemoteAdminClientWithTimeout info mocks factory addr = default (factory addr) (mocks !! name).
Proof using ML.
  intros Hinj Hname. unfold NewRemoteAdminClientWithTimeout.
  assert (∀ l acc, (∀ n a, (n, a) ∈ l → info !! n = Some a) → acc = name ∨ (name, addr) ∈ l →
    foldl (λ acc na, if decide (addr = na.2) then na.1 else acc) acc l = name) as Hf.
  { induction l as [|[n a] l IH]; intros acc Hl Hor; cbn [foldl fst snd].
    - destruct Hor as [|Hor]; [done|]. by apply elem_of_nil in Hor.
    - apply IH; [intros; apply Hl; by right|].
      destruct (decide (addr = a)) as [<-|Hne].
      + left. apply (Hinj n name addr); [apply Hl; by left|done].
      + destruct Hor as [|[?|?]%elem_of_cons]; [by left|congruence|by right]. }
  rewrite Hf; [by destruct (mocks !! name)| |].
  - intros n a. rewrite range_map_perm. by rewrite elem_of_map_to_list.
  - right. rewrite range_map_perm. by apply elem_of_map_to_list.
Qed.
End remote.

(** * The properties at a concrete server *)

Definition w_hosts : host_table :=
  {["grpc" := list_to_map [("frontend", mkHosts ["f:1"; "f:2"] ""); ("history", mkHosts ["h:1"] "");
                           ("matching", mkHosts ["m:1"] ""); ("worker", mkHosts [] "")]]}.

Lemma stop_reverses_start_witness :
  ∃ s, Start None (λ _, None) (λ _, None) w_hosts (mkServer [] [] []) = (s, Ok tt) ∧
    stopped (Stop (λ _, Some "timeout") s).1 =
      [("frontend", "f:2"); ("frontend", "f:1"); ("history", "h:1"); ("matching", "m:1")].
Proof.
  destruct (stop_reverses_start (λ _, None) (λ _, None) (λ _, Some "timeout") w_hosts)
    as (s & H1 & _ & H2 & _); [by intros|].
  exists s. split; [exact H1|]. etrans; [exact H2|]. vm_compute. reflexivity.
Defined.

(** A test that sets an authorizer that denies everybody, on a dedicated
    cluster, and then fails. *)
Definition w_deny_ops : list (env_op (V := Z) (C := unit) (Hook := string)
    (AuthFn := unit → unit → string + Decision_) (ClaimsFn := unit → string + unit)) :=
  [OpSetOnAuthorize (Some (λ _ _, inr DecisionDeny)); OpInjectHook "hook" HookGlobal;
   OpInjectHook "hook" HookUnknown].

Notation w_dedicated := (NewEnv (V := Z) (C := unit) (Hook := string) (Fx := unit) (Policy := unit)
  (Fault := unit) (HistoryFactory := unit) (VisibilityFactory := unit) (Persistence := unit)
  (AuthFn := unit → unit → string + Decision_) (ClaimsFn := unit → string + unit)
  tt tt tt [WithDedicatedCluster] (inr ("ns-1", "id-1"))).

Lemma test_leaves_no_trace_witness :
  let log := (test_end true (run_ops tt (λ _ _ n, n) w_dedicated_env w_deny_ops w_dedicated.1).1).1 in
  length log = 4 ∧
  Authorize tt tt (foldl apply_call no_callbacks (take 2 log)) = inr DecisionDeny ∧
  Authorize tt tt (foldl apply_call no_callbacks log) = inr DecisionAllow.
Proof.
  cbv zeta. split; [vm_compute; reflexivity|]. split; [vm_compute; reflexivity|].
  apply (test_leaves_no_trace (AuthInfo := unit) (Claims := unit) (Target := unit) tt
    (Fx := unit) (Fault := unit) (HistoryFactory := unit) (VisibilityFactory := unit)
    tt (λ _ _ n, n) tt tt [WithDedicatedCluster] (inr ("ns-1", "id-1")) w_dedicated.1 w_dedicated_env
    w_deny_ops true tt tt tt).
  vm_compute. reflexivity.
Defined.
