(* ===== verification/TestBase.v ===== *)
(** The base of the test suites
    ([conformance-tests/testcore/functional_test_base.go]): how a suite registers
    its namespaces with its cluster and with the proxy, waits for them, reads
    histories and runs a test under every matching behaviour.

    The cluster a suite runs on, its clock and its ticker are a service
    parameter.  The proxy is not: a suite registers its namespaces through the
    admin endpoints of [Admin]. *)

From S2P Require Import Prelude GoStrings GoSort ConsistentHash RingSpec Murmur Namespaces.
From S2P Require Import Mappings Resolver Wire Http Json Admin MetricCapture ClusterOptions.
From stdpp Require Import options.

(** * Registration with the proxy *)

(** A text of the source, with its double quotes written as apostrophes. *)
Definition lit (s : string) : list byte :=
  (λ b, if decide (b = x27) then x22 else b) <$> bytes_of s.

Section tempura.
Context {M3 : Murmur3} (json_err : list byte → string) (metrics : ResponseWriter → ResponseWriter).

(** [http.Post] to the admin API: the response is not looked at, and a request
    that does not reach the API changes nothing. *)
Definition admin_post (reached : bool) (path : string) (text : list byte)
    (vr : VirtualNamespaceRegistry) : VirtualNamespaceRegistry :=
  if reached then (serve_admin json_err metrics (mkAdminRequest "POST" path "" (BodyBytes text)) vr).1
  else vr.

(** The bodies are put together from strings, not encoded. *)
Definition create_payload (nsName : string) : list byte :=
  lit "{'name':'" ++ bytes_of nsName ++ lit "'}".

Definition add_payload (nsName clusterAddr : string) : list byte :=
  lit "{'virtual_namespace':'" ++ bytes_of nsName ++ lit "', 'physical_namespace':'" ++
  bytes_of nsName ++ lit "', 'cluster_address':'" ++ bytes_of clusterAddr ++ lit "'}".

Definition registerNamespaceWithTempura (reached1 reached2 : bool) (nsName clusterAddr : string)
    (vr : VirtualNamespaceRegistry) : VirtualNamespaceRegistry :=
  let vr := admin_post reached1 "/namespace/virtual/create" (create_payload nsName) vr in
  admin_post reached2 "/namespace/physical/add" (add_payload nsName clusterAddr) vr.

(** * What the proxy reads *)

Lemma read_create_payload ns :
  plain (bytes_of ns) →
  read_value (create_payload ns) = Some (JObject [(bytes_of "name", JString (bytes_of ns))], []).
Proof.
  intros Hns.
  assert (create_payload ns = x7b :: text_member (bytes_of "name") (bytes_of ns) ++ [x7d]) as ->.
  { unfold create_payload, text_member. cbn [app]. rewrite <-!(assoc_L (++)). cbn [app].
    by rewrite <-!(assoc_L (++)). }
  rewrite read_value_object with (n := 2) by reflexivity. cbn [Nat.add].
  rewrite (parse_text_member _ _ [] (bytes_of "name") (bytes_of ns) [x7d]); [done|done| |done].
  repeat constructor.
Qed.

Lemma read_add_payload ns addr :
  plain (bytes_of ns) → plain (bytes_of addr) →
  read_value (add_payload ns addr) =
    Some (JObject [(bytes_of "virtual_namespace", JString (bytes_of ns));
                   (bytes_of "physical_namespace", JString (bytes_of ns));
                   (bytes_of "cluster_address", JString (bytes_of addr))], []).
Proof.
  intros Hns Haddr.
  set (k1 := bytes_of "virtual_namespace"). set (k2 := bytes_of "physical_namespace").
  set (k3 := bytes_of "cluster_address"). set (n := bytes_of ns). set (a := bytes_of addr).
  assert (plain k1 ∧ plain k2 ∧ plain k3) as (H1 & H2 & H3) by (by repeat constructor).
  set (l2 := [x20] ++ text_member k3 a ++ [x7d]).
  set (l1 := [x20] ++ text_member k2 n ++ x2c :: l2).
  assert (add_payload ns addr = x7b :: [] ++ text_member k1 n ++ x2c :: l1) as ->.
  { unfold add_payload, l1, l2, text_member. fold n a. cbn [app]. rewrite <-!(assoc_L (++)).
    cbn [app]. rewrite <-!(assoc_L (++)). reflexivity. }
  rewrite read_value_object with (n := 5) by reflexivity. cbn [Nat.add].
  rewrite (parse_text_member _ _ [] k1 n (x2c :: l1)) by done.
  assert (∀ l, expect [x2c] (skip_ws (x2c :: l)) = Some l) as Hcomma.
  { intros l. by apply expect_Some. }
  rewrite Hcomma. unfold l1. rewrite (parse_text_member _ _ [x20] k2 n (x2c :: l2)) by done.
  rewrite Hcomma. unfold l2. by rewrite (parse_text_member _ _ [x20] k3 a [x7d]).
Qed.

(** The first request makes sure that the virtual namespace is there, the second
    one adds the cluster's namespace to it, and changes nothing when it is not. *)
Lemma create_effect ns vr :
  plain (bytes_of ns) → ns ≠ "" →
  admin_post true "/namespace/virtual/create" (create_payload ns) vr =
    update_ns ns (default (NewVirtualNamespace ns) (Resolve_ns vr ns)) vr.
Proof.
  intros Hns Hne. unfold admin_post, serve_admin. change (admin_route _) with EpCreate.
  unfold handle_create, decode_create, decode_body. cbn [AdminBody ReadAll Method].
  rewrite decide_False by (by intros []). rewrite read_create_payload by done.
  cbn [decode_struct decode_fields]. change (field_of _ _) with (Some "name").
  unfold field. rewrite string_of_bytes_of, lookup_insert_eq. cbn [default create_Name].
  rewrite decide_False by done. go_simpl. cbn [id].
  destruct (Resolve_ns vr ns) as [v|] eqn:Ev; [|done]. cbn.
  unfold update_ns. unfold Resolve_ns in Ev. rewrite insert_id by done. by destruct vr.
Qed.

Lemma add_effect ns addr vr :
  plain (bytes_of ns) → plain (bytes_of addr) → ns ≠ "" → addr ≠ "" →
  admin_post true "/namespace/physical/add" (add_payload ns addr) vr =
    match Resolve_ns vr ns with
    | Some v => update_ns ns (Add (mkNamespace None (buildPhysicalNamespace ns addr)) v) vr
    | None => vr
    end.
Proof.
  intros Hns Haddr Hne Hne'. unfold admin_post, serve_admin. change (admin_route _) with EpAdd.
  unfold handle_add, manage_guard, decode_manage, decode_body. go_simpl. cbn [AdminBody ReadAll Method id].
  rewrite decide_False by (by intros []). rewrite read_add_payload by done.
  cbn [decode_struct decode_fields].
  change (field_of _ (bytes_of "virtual_namespace")) with (Some "virtual_namespace").
  change (field_of _ (bytes_of "physical_namespace")) with (Some "physical_namespace").
  change (field_of _ (bytes_of "cluster_address")) with (Some "cluster_address").
  cbn iota. rewrite !string_of_bytes_of.
  set (st := <["cluster_address" := addr]> _).
  assert (field "virtual_namespace" st = ns) as -> by done.
  assert (field "physical_namespace" st = ns) as -> by done.
  assert (field "cluster_address" st = addr) as -> by done.
  cbn [manage_VirtualNamespace manage_PhysicalNamespace manage_ClusterAddress].
  rewrite decide_False by (intros [?|[?|?]]; done).
  by destruct (Resolve_ns vr ns).
Qed.

(** The two requests together. *)
Lemma register_effect ns addr vr :
  plain (bytes_of ns) → plain (bytes_of addr) → ns ≠ "" → addr ≠ "" →
  registerNamespaceWithTempura true true ns addr vr =
    update_ns ns
      (Add (mkNamespace None (buildPhysicalNamespace ns addr))
         (default (NewVirtualNamespace ns) (Resolve_ns vr ns))) vr.
Proof.
  intros Hns Haddr Hne Hne'. unfold registerNamespaceWithTempura.
  rewrite create_effect, add_effect by done.
  unfold Resolve_ns at 1, update_ns at 1. cbn [namespaces]. rewrite lookup_insert_eq.
  unfold update_ns. cbn. by rewrite insert_insert_eq.
Qed.

(** What a registration leaves in the registry under its name, for each of the
    requests that did or did not arrive; other names are not touched. *)
Lemma register_lookup r1 r2 ns addr vr vn :
  plain (bytes_of ns) → plain (bytes_of addr) → ns ≠ "" → addr ≠ "" →
  Resolve_ns (registerNamespaceWithTempura r1 r2 ns addr vr) vn =
    if decide (vn = ns) then
      let there := if r1 then Some (default (NewVirtualNamespace ns) (Resolve_ns vr ns))
                   else Resolve_ns vr ns in
      if r2 then Add (mkNamespace None (buildPhysicalNamespace ns addr)) <$> there else there
    else Resolve_ns vr vn.
Proof.
  intros Hns Haddr Hne Hne'. destruct r1, r2.
  - rewrite register_effect by done. unfold Resolve_ns, update_ns. cbn [namespaces].
    case_decide; [subst; by rewrite lookup_insert_eq|by rewrite lookup_insert_ne].
  - unfold registerNamespaceWithTempura. rewrite create_effect by done.
    change (admin_post false ?p ?b ?x) with x.
    unfold Resolve_ns, update_ns. cbn [namespaces].
    case_decide; [subst; by rewrite lookup_insert_eq|by rewrite lookup_insert_ne].
  - unfold registerNamespaceWithTempura.
    change (admin_post false _ _ vr) with vr. rewrite add_effect by done.
    destruct (Resolve_ns vr ns) as [v|] eqn:E; [|case_decide; by subst].
    unfold Resolve_ns in *. unfold update_ns. cbn [namespaces].
    case_decide; [subst; by rewrite lookup_insert_eq|by rewrite lookup_insert_ne].
  - cbn. case_decide; by subst.
Qed.
End tempura.

(** * The services of a suite *)

Inductive NamespaceState := Registered | Deleted.

(** The namespace a suite asks the persistence layer for. *)
Record CreateNamespaceRequest := mkCreateNamespace {
  cn_Id : string;
  cn_Name : string;
  cn_State : NamespaceState;
  cn_Description : string;
  cn_RetentionDays : Z;
  cn_HistoryArchivalState : string;
  cn_HistoryArchivalUri : string;
  cn_VisibilityArchivalState : string;
  cn_VisibilityArchivalUri : string;
  cn_BadBinaries : list string;
  cn_ActiveClusterName : string;
  cn_Clusters : list string;
  cn_FailoverVersion : Z;
  cn_IsGlobalNamespace : bool
}.

(** The cluster, the clock (in nanoseconds) and the ticker, with a state of
    their own; [None] is a nil error.  The ticker is created with a period. *)
Class Services (E : Type) := {
  CreateNamespace : CreateNamespaceRequest → E → E * option string;
  DescribeNamespace : string → E → E * option string;
  AddSearchAttributes : string → gset string → E → E * option string;
  ListSearchAttributes : string → E → E * option (gset string);
  UpdateNamespace : string → NamespaceState → E → E * option string;
  time_Now : E → E * Z;
  NewTicker : Z → E → E;
  ticker_C : E → E
}.

(** Time does not run backwards, and ticks are paced: a receive waits for a tick
    of the ticker, which holds at most one back.  So however long the steps
    between the receives take, [n] receives take all but two periods. *)
Class ServicesLaws (E : Type) `{Services E} := {
  clock : E → Z;
  clock_Create r e : (clock e ≤ clock (CreateNamespace r e).1)%Z;
  clock_Describe ns e : (clock e ≤ clock (DescribeNamespace ns e).1)%Z;
  clock_Add ns sa e : (clock e ≤ clock (AddSearchAttributes ns sa e).1)%Z;
  clock_List ns e : (clock e ≤ clock (ListSearchAttributes ns e).1)%Z;
  clock_Now e : (clock e ≤ (time_Now e).2 ≤ clock (time_Now e).1)%Z;
  clock_New d e : (clock e ≤ clock (NewTicker d e))%Z;
  clock_tick e : (clock e ≤ clock (ticker_C e))%Z;
  period : E → Z;
  period_New d e : period (NewTicker d e) = d;
  period_Create r e : period (CreateNamespace r e).1 = period e;
  period_Describe ns e : period (DescribeNamespace ns e).1 = period e;
  period_Add ns sa e : period (AddSearchAttributes ns sa e).1 = period e;
  period_List ns e : period (ListSearchAttributes ns e).1 = period e;
  period_Now e : period (time_Now e).1 = period e;
  period_tick e : period (ticker_C e) = period e;
  ticks_paced (f : E → E) n e :
    (0 < period e)%Z → (∀ e, clock e ≤ clock (f e))%Z → (∀ e, period (f e) = period e) →
    (clock e + (Z.of_nat n - 2) * period e ≤ clock (Nat.iter n (λ e, ticker_C (f e)) e))%Z
}.

(** [NamespaceCacheRefreshInterval], a second. *)
Definition NamespaceCacheRefreshInterval : Z := 1000000000.

Section base.
Context {M3 : Murmur3} (json_err : list byte → string) (metrics : ResponseWriter → ResponseWriter).
Context {E : Type} `{Services E}.
(** What other packages fix: the search attributes of tests, and the version of
    a namespace that was never failed over. *)
Context (expectedSearchAttributes : gset string) (EmptyVersion : Z).

(** The suite's world: the services, and the registry of its proxy. *)
Record suite_world := mkSuite { services : E; proxy_registry : VirtualNamespaceRegistry }.

Definition call {A} (f : E → E * A) : GoM suite_world A := λ w,
  let r := f (services w) in (mkSuite r.1 (proxy_registry w), Ok r.2).

Definition receive : GoM suite_world unit := λ w,
  (mkSuite (ticker_C (services w)) (proxy_registry w), Ok tt).

(** The two loops of [RegisterNamespace]: try, give up after the deadline, wait
    for a tick.  The fuel bounds the number of tries. *)
Fixpoint poll_until (fuel : nat) (try_once : E → E * bool) (deadline : Z) (err : string)
    : GoM suite_world unit :=
  match fuel with
  | O => lift Diverge
  | S fuel =>
      ready ← call try_once;
      if (ready : bool) then mret tt
      else
        now ← call time_Now;
        if decide (deadline < now)%Z then fail err
        else receive;; poll_until fuel try_once deadline err
  end.

Definition described (nsName : string) (e : E) : E * bool :=
  let r := DescribeNamespace nsName e in (r.1, bool_decide (r.2 = None)).

Definition attributes_ready (nsName : string) (e : E) : E * bool :=
  let r := ListSearchAttributes nsName e in
  (r.1, match r.2 with Some custom => bool_decide (expectedSearchAttributes ⊆ custom) | None => false end).

Definition namespace_request (currentClusterName nsID nsName : string) (retentionDays : Z)
    (archivalState historyArchivalURI visibilityArchivalURI : string) : CreateNamespaceRequest :=
  mkCreateNamespace nsID nsName Registered "namespace for functional tests" retentionDays
    archivalState historyArchivalURI archivalState visibilityArchivalURI []
    currentClusterName [currentClusterName] EmptyVersion false.

Definition check (r : option string) : GoM suite_world unit :=
  match r with Some err => fail err | None => mret tt end.

(** [nsID] is the new uuid; [reached] says which of the two requests reach the
    admin API.  The answer is the id, or an error. *)
Definition RegisterNamespace (fuel : nat) (currentClusterName clusterAddr nsID nsName : string)
    (reached : bool * bool) (retentionDays : Z)
    (archivalState historyArchivalURI visibilityArchivalURI : string) : GoM suite_world string :=
  err ← call (CreateNamespace (namespace_request currentClusterName nsID nsName retentionDays
                archivalState historyArchivalURI visibilityArchivalURI));
  check err;;
  modify (λ w, mkSuite (services w)
    (registerNamespaceWithTempura json_err metrics reached.1 reached.2 nsName clusterAddr
       (proxy_registry w)));;
  now ← call time_Now;
  modify (λ w, mkSuite (NewTicker (NamespaceCacheRefreshInterval / 2) (services w)) (proxy_registry w));;
  poll_until fuel (described nsName) (now + 5 * NamespaceCacheRefreshInterval)
    ("namespace cache did not refresh for " +:+ nsName +:+ " before deadline");;
  err ← call (AddSearchAttributes nsName expectedSearchAttributes);
  check err;;
  now ← call time_Now;
  poll_until fuel (attributes_ready nsName) (now + 5 * NamespaceCacheRefreshInterval)
    ("search attributes were not ready for " +:+ nsName +:+ " before deadline");;
  mret nsID.

Definition MarkNamespaceAsDeleted (nsName : string) : GoM suite_world unit :=
  err ← call (UpdateNamespace nsName Deleted); check err.

(** [s.Require().NoError(err)] ends the suite on an error. *)
Definition Require_NoError {A} (m : GoM suite_world A) : GoM suite_world A :=
  r ← try m; match r with inl err => panic err | inr a => mret a end.

(** The end of [setupCluster]: the suite's two namespaces, [names] the random
    names and [ids] the new uuids. *)
Definition setup_namespaces (fuel : nat) (currentClusterName clusterAddr : string)
    (names ids : string * string) (reached reached' : bool * bool)
    : GoM suite_world (string * string * string) :=
  namespaceID ← Require_NoError (RegisterNamespace fuel currentClusterName clusterAddr ids.1
    names.1 reached 1 "Disabled" "" "");
  Require_NoError (RegisterNamespace fuel currentClusterName clusterAddr ids.2 names.2
    reached' 1 "Disabled" "" "");;
  mret (names.1, namespaceID, names.2).

(** [TearDownCluster]; [tear_down] stops the cluster, if there is one. *)
Definition TearDownCluster (namespace externalNamespace : string)
    (tear_down : option (E → E * option string)) : GoM suite_world unit :=
  Require_NoError (MarkNamespaceAsDeleted namespace);;
  Require_NoError (MarkNamespaceAsDeleted externalNamespace);;
  match tear_down with
  | Some f => Require_NoError (err ← call f; check err)
  | None => mret tt
  end.

(** * Waiting *)

Context `{!ServicesLaws E}.

(** One round of a loop that was not ready in time. *)
Definition round (try_once : E → E * bool) (e : E) : E := (time_Now (try_once e).1).1.

Definition steady (try_once : E → E * bool) : Prop :=
  (∀ e, clock e ≤ clock (try_once e).1)%Z ∧ ∀ e, period (try_once e).1 = period e.

Lemma described_steady ns : steady (described ns).
Proof. split; intros e; [apply clock_Describe|apply period_Describe]. Qed.
Lemma attributes_ready_steady ns : steady (attributes_ready ns).
Proof. split; intros e; [apply clock_List|apply period_List]. Qed.

Lemma rounds_clock try_once n e :
  steady try_once → (0 < period e)%Z →
  (clock e + (Z.of_nat n - 2) * period e ≤
   clock (Nat.iter n (λ e, ticker_C (round try_once e)) e))%Z.
Proof.
  intros [Hc Hp] Hpos. apply ticks_paced; [done|..]; intros e'; unfold round.
  - pose proof (Hc e'). pose proof (clock_Now (try_once e').1). lia.
  - by rewrite period_Now.
Qed.

(** A loop whose deadline is ten periods away ends within fourteen tries; it
    answers readiness or its error, and does not touch the proxy. *)
Lemma poll_until_ends try_once deadline err e0 reg :
  steady try_once → (0 < period e0)%Z → (deadline ≤ clock e0 + 10 * period e0)%Z →
  ∀ fuel n, 14 ≤ n + fuel →
  (∀ m, n = S m → (time_Now (try_once (Nat.iter m (λ e, ticker_C (round try_once e)) e0)).1).2
                  ≤ deadline)%Z →
  let e := Nat.iter n (λ e, ticker_C (round try_once e)) e0 in
  ∃ e', (clock e ≤ clock e')%Z ∧ period e' = period e ∧
    ((poll_until fuel try_once deadline err (mkSuite e reg) = (mkSuite e' reg, Ok tt) ∧
      ∃ e1, try_once e1 = (e', true)) ∨
     poll_until fuel try_once deadline err (mkSuite e reg) = (mkSuite e' reg, Err err)).
Proof.
  intros Hst Hper Hdl fuel. induction fuel as [|fuel IH]; intros n Hn Hlate e.
  - exfalso. destruct n as [|m]; [lia|]. specialize (Hlate m eq_refl).
    set (em := Nat.iter m _ e0) in Hlate.
    pose proof (rounds_clock try_once m e0 Hst Hper) as Hclk. fold em in Hclk.
    pose proof (clock_Now (try_once em).1). pose proof (proj1 Hst em). nia.
  - pose proof (proj1 Hst e) as Hc. pose proof (proj2 Hst e) as Hp. cbn [poll_until].
    go_simpl. unfold call. cbn [services proxy_registry].
    destruct (try_once e) as [e1 ready] eqn:Et. simpl in Hc, Hp. cbn [fst snd].
    destruct ready; [exists e1; split; [done|]; split; [done|]; left; eauto|].
    cbn [services proxy_registry].
    pose proof (clock_Now e1) as Hnow. pose proof (period_Now e1) as Hpn.
    destruct (decide (deadline < (time_Now e1).2)%Z).
    { exists (time_Now e1).1. split; [lia|]. split; [congruence|]. by right. }
    assert (ticker_C (time_Now e1).1 = Nat.iter (S n) (λ e, ticker_C (round try_once e)) e0) as Hnext.
    { change (ticker_C (time_Now e1).1 = ticker_C (round try_once e)). unfold round. by rewrite Et. }
    destruct (IH (S n)) as (e' & Hc' & Hp' & Hr); [lia| |].
    { intros m [= <-]. change (Nat.iter n _ e0) with e. rewrite Et. simpl. lia. }
    rewrite <-Hnext in Hc', Hp', Hr. pose proof (clock_tick (time_Now e1).1).
    pose proof (period_tick (time_Now e1).1).
    exists e'. split; [lia|]. split; [congruence|]. exact Hr.
Qed.

Lemma poll_until_returns fuel try_once deadline err w :
  14 ≤ fuel → steady try_once → (0 < period (services w))%Z →
  (deadline ≤ clock (services w) + 10 * period (services w))%Z →
  ∃ e', period e' = period (services w) ∧
    ((poll_until fuel try_once deadline err w = (mkSuite e' (proxy_registry w), Ok tt) ∧
      ∃ e1, try_once e1 = (e', true)) ∨
     poll_until fuel try_once deadline err w = (mkSuite e' (proxy_registry w), Err err)).
Proof.
  intros Hf Hst Hper Hdl. destruct w as [e0 reg].
  destruct (poll_until_ends try_once deadline err e0 reg Hst Hper Hdl fuel 0) as (e' & _ & H2 & H3);
    [lia|done|]. eauto.
Qed.

(** Steps of a call. *)
Lemma bind_call {A B} (f : E → E * A) (k : A → GoM suite_world B) w :
  (call f ≫= k) w = k (f (services w)).2 (mkSuite (f (services w)).1 (proxy_registry w)).
Proof. done. Qed.
Lemma bind_modify {B} f (k : unit → GoM suite_world B) w : (modify f ≫= k) w = k tt (f w).
Proof. done. Qed.
Lemma bind_check {B} err (k : unit → GoM suite_world B) w :
  (check err ≫= k) w = match err with Some e => (w, Err e) | None => k tt w end.
Proof. by destruct err. Qed.

(** A registration ends.  Whatever the cluster answers and however slow it
    is, [RegisterNamespace] returns an id or an error after at most fourteen
    tries in each of its loops; if it returns an id, it is the new one, the
    namespace was registered with the proxy before the waiting began, and both
    the namespace and its search attributes were seen ready. *)
Theorem registration_ends fuel cc addr nsID ns reached days st huri vuri w :
  14 ≤ fuel →
  let o := RegisterNamespace fuel cc addr nsID ns reached days st huri vuri w in
  returns o.2 = true ∧
  ∀ id, o.2 = Ok id →
    id = nsID ∧
    proxy_registry o.1 =
      registerNamespaceWithTempura json_err metrics reached.1 reached.2 ns addr (proxy_registry w) ∧
    (∃ e, (DescribeNamespace ns e).2 = None) ∧
    (∃ e custom, (ListSearchAttributes ns e).2 = Some custom ∧ expectedSearchAttributes ⊆ custom).
Proof using ServicesLaws0.
  intros Hf o. unfold o, RegisterNamespace. clear o. rewrite bind_call, bind_check.
  set (r1 := CreateNamespace _ _). destruct r1.2 as [err|]; [by split|].
  rewrite bind_modify, bind_call, bind_modify. cbn [services proxy_registry].
  set (reg := registerNamespaceWithTempura _ _ _ _ _ _ _).
  set (w1 := mkSuite (NewTicker _ _) reg).
  assert (period (services w1) = 500000000%Z) as Hp1 by apply period_New.
  destruct (poll_until_returns fuel (described ns)
    ((time_Now r1.1).2 + 5 * NamespaceCacheRefreshInterval)
    ("namespace cache did not refresh for " +:+ ns +:+ " before deadline") w1)
    as (e2 & Hp2 & [[Hr [e2' He2]]|Hr]); [done|apply described_steady|lia| | |].
  { rewrite Hp1. pose proof (clock_Now r1.1).
    pose proof (clock_New (NamespaceCacheRefreshInterval / 2) (time_Now r1.1).1).
    unfold NamespaceCacheRefreshInterval in *. simpl in *. lia. }
  2: { unfold mbind, go_bind. rewrite Hr. by split. }
  rewrite (go_bind_ok _ _ _ _ _ Hr), bind_call, bind_check. cbn [services proxy_registry].
  set (r3 := AddSearchAttributes _ _ _). destruct r3.2 as [err|]; [by split|].
  rewrite bind_call. cbn [services proxy_registry]. set (w3 := mkSuite (time_Now r3.1).1 _).
  assert (period (services w3) = 500000000%Z) as Hp3.
  { unfold w3, r3. simpl. rewrite period_Now, period_Add. congruence. }
  destruct (poll_until_returns fuel (attributes_ready ns)
    ((time_Now r3.1).2 + 5 * NamespaceCacheRefreshInterval)
    ("search attributes were not ready for " +:+ ns +:+ " before deadline") w3)
    as (e4 & Hp4 & [[Hr' [e4' He4]]|Hr']); [done|apply attributes_ready_steady|lia| | |].
  { rewrite Hp3. pose proof (clock_Now r3.1). unfold NamespaceCacheRefreshInterval. simpl. lia. }
  2: { unfold mbind, go_bind. rewrite Hr'. by split. }
  rewrite (go_bind_ok _ _ _ _ _ Hr'). split; [done|]. intros id [= <-].
  split; [done|]. split; [done|]. apply (f_equal snd) in He2, He4. simpl in He2, He4.
  split; [exists e2'; by apply bool_decide_eq_true in He2|]. exists e4'.
  destruct (ListSearchAttributes ns e4').2 as [custom|]; [|done]. exists custom.
  by apply bool_decide_eq_true in He4.
Qed.

End base.

(** * Helpers of the suites *)

Section helpers.
Context {Ev E : Type}.

(** [GetWorkflowExecutionHistory]: the namespace, the execution, the largest page
    ([0]: the server's default) and the page token. *)
Context (fetch : string → string * string → Z → option (list byte) → E →
                 E * (string + list Ev * option (list byte))).

Fixpoint history_pages (fuel : nat) (namespace : string) (execution : string * string)
    (events : list Ev) (nextPageToken : option (list byte)) : GoM E (list Ev) :=
  match nextPageToken with
  | None => mret events
  | Some token =>
      match fuel with
      | O => lift Diverge
      | S fuel => λ e,
          let r := fetch namespace execution 0 (Some token) e in
          match r.2 with
          | inl err => (r.1, Panic err)
          | inr (more, next) =>
              history_pages fuel namespace execution (events ++ more) next r.1
          end
      end
  end.

(** [GetHistoryFunc]: small first page, then the rest; [fuel] bounds the number
    of pages after the first, and an error ends the test. *)
Definition GetHistoryFunc (fuel : nat) (namespace : string) (execution : string * string)
    : GoM E (list Ev) := λ e,
  let r := fetch namespace execution 5 None e in
  match r.2 with
  | inl err => (r.1, Panic err)
  | inr (events, next) => history_pages fuel namespace execution events next r.1
  end.

(** The service hands out a history page by page: [serves p ps size token e e']
    says that from [e] it answers the pages [p :: ps], the first to [size] and
    [token]. *)
Inductive serves (ns : string) (x : string * string)
    : list Ev → list (list Ev) → Z → option (list byte) → E → E → Prop :=
| serves_last p size token e e' :
    fetch ns x size token e = (e', inr (p, None)) → serves ns x p [] size token e e'
| serves_more p q ps size token next e e1 e' :
    fetch ns x size token e = (e1, inr (p, Some next)) →
    serves ns x q ps 0 (Some next) e1 e' →
    serves ns x p (q :: ps) size token e e'.

Lemma history_pages_served ns x q ps next e e' fuel events :
  serves ns x q ps 0 (Some next) e e' → length ps < fuel →
  history_pages fuel ns x events (Some next) e = (e', Ok (events ++ concat (q :: ps))).
Proof.
  remember 0%Z as size eqn:Hsize. remember (Some next) as token eqn:Htok. intros Hs.
  revert fuel events next Hsize Htok.
  induction Hs as [p size token e e' Hf|p q ps size token nx e e1 e' Hf Hs IH];
    intros [|fuel] events next -> -> Hlen; simpl in Hlen; try lia.
  - cbn [history_pages]. rewrite Hf. destruct fuel; simpl; by rewrite app_nil_r.
  - cbn [history_pages]. rewrite Hf. cbn [fst snd]. rewrite (IH fuel (events ++ p) nx eq_refl eq_refl); [|lia].
    simpl. by rewrite <-!(assoc_L (++)).
Qed.

(** The whole history is read, in order, however it is cut into pages. *)
Theorem history_read_whole ns x p ps fuel e e' :
  serves ns x p ps 5 None e e' → length ps ≤ fuel →
  GetHistoryFunc fuel ns x e = (e', Ok (concat (p :: ps))).
Proof.
  intros Hs Hlen. unfold GetHistoryFunc.
  inversion Hs as [? ? ? ? ? Hf|? ? ? ? ? next ? e1 ? Hf Hrest]; subst; rewrite Hf; cbn [fst snd].
  - destruct fuel; simpl; by rewrite app_nil_r.
  - rewrite (history_pages_served _ _ _ _ _ _ _ _ _ Hrest) by (simpl in Hlen; lia). done.
Qed.
End helpers.

(** [DurationNear]: both comparisons must hold; the bounds wrap at 64 bits. *)
Definition DurationNear (value target tolerance : Z) : bool :=
  bool_decide (i64 (target - tolerance) < value)%Z && bool_decide (value < i64 (target + tolerance))%Z.

Lemma DurationNear_spec value target tolerance :
  (- 2 ^ 63 ≤ target - tolerance)%Z → (target + tolerance < 2 ^ 63)%Z → (0 ≤ tolerance)%Z →
  DurationNear value target tolerance = true ↔ (Z.abs (value - target) < tolerance)%Z.
Proof.
  intros H1 H2 H3. unfold DurationNear. rewrite !i64_small by lia.
  rewrite andb_true_iff, !bool_decide_eq_true. lia.
Qed.

(** [RunTestWithMatchingBehavior]: a subtest per behaviour, with its overrides
    and hooks. *)
Definition RunTestWithMatchingBehavior : list (string * list (string * Z) * list (string * hook_value)) :=
  (λ behavior,
    (Behavior_Name behavior,
     [("MatchingForwarderMaxChildrenPerNode", 3%Z)] ++
     (if ForceTaskForward behavior || ForcePollForward behavior
      then [("MatchingNumTaskqueueReadPartitions", 13%Z); ("MatchingNumTaskqueueWritePartitions", 13%Z)]
      else [("MatchingNumTaskqueueReadPartitions", 1%Z); ("MatchingNumTaskqueueWritePartitions", 1%Z)]),
     InjectHooks behavior)) <$> AllMatchingBehaviors.

(** The suites configure a behaviour as [MatchingBehavior.Options] does. *)
Lemma RunTestWithMatchingBehavior_options :
  RunTestWithMatchingBehavior = (λ b, (Behavior_Name b, Behavior_Options b, InjectHooks b)) <$> AllMatchingBehaviors.
Proof. done. Qed.

(** * What a registration gives the clients of the proxy *)

Section registered.
Context {M3 : Murmur3} (json_err : list byte → string) (metrics : ResponseWriter → ResponseWriter).
Context {R : Type} `{Redis R}.

(** A registered namespace is routed to the suite's cluster.  When both
    requests of [registerNamespaceWithTempura] arrive, for a new name of plain
    characters, the proxy resolves every workflow of the namespace without a
    cached route to the suite's cluster, under the namespace's own name, and
    every other virtual namespace is as before. *)
Theorem registered_namespace_routed ns addr vr wf (w : World R) :
  plain (bytes_of ns) → plain (bytes_of addr) → ns ≠ "" → addr ≠ "" →
  Contains (ns +:+ ":") delim = false → Contains addr delim = false →
  Resolve_ns vr ns = None →
  registry w = registerNamespaceWithTempura json_err metrics true true ns addr vr →
  (∀ x, (redis_Get wf (client (Cache w))).2 ≠ RVal x) →
  (∃ s, (Resolve (mkPayload wf ns) w).2 = Ok (s, false) ∧
        parsePhysicalNamespace s = Ok (mkNamespace (Some (mkCluster addr)) ns)) ∧
  ∀ vn, vn ≠ ns → Resolve_ns (registry w) vn = Resolve_ns vr vn.
Proof.
  intros Hns Haddr Hne Hne' Hd Hd' Hnew Hreg Hmiss.
  rewrite register_effect, Hnew in Hreg by done. cbn [default] in Hreg. split.
  - exists (buildPhysicalNamespace ns addr). split; [|by apply parse_build_clean].
    destruct (Resolve_miss (mkPayload wf ns) w
      (Add (mkNamespace None (buildPhysicalNamespace ns addr)) (NewVirtualNamespace ns))) as [-> _].
    + done.
    + rewrite Hreg. unfold Resolve_ns. simpl. by rewrite lookup_insert_eq.
    + cbn [Ring Add NewVirtualNamespace name WorkflowID]. by rewrite GetSlot_single by lia.
  - intros vn Hvn. rewrite Hreg. unfold Resolve_ns. simpl. by rewrite lookup_insert_ne.
Qed.
End registered.

(** * The properties at a concrete suite *)

(** Services that take no time but for the ticker; the namespace is visible and
    its attributes are listed from given times on. *)
Record MemServices := mkMem { m_now : Z; m_period : Z; m_visible : Z; m_listed : Z }.

#[global] Instance MemServices_services : Services MemServices := {|
  CreateNamespace _ e := (e, None);
  DescribeNamespace _ e := (e, if decide (m_visible e ≤ m_now e)%Z then None else Some "not found");
  AddSearchAttributes _ _ e := (e, None);
  ListSearchAttributes _ e :=
    (e, Some (if decide (m_listed e ≤ m_now e)%Z then {["CustomKeywordField"]} else ∅));
  UpdateNamespace _ _ e := (e, None);
  time_Now e := (e, m_now e);
  NewTicker d e := mkMem (m_now e) d (m_visible e) (m_listed e);
  ticker_C e := mkMem (m_now e + Z.max 0 (m_period e)) (m_period e) (m_visible e) (m_listed e)
|}.

#[global] Program Instance MemServices_laws : ServicesLaws MemServices :=
  {| clock := m_now; period := m_period |}.
Next Obligation. intros. simpl. lia. Qed.
Next Obligation. intros. simpl. lia. Qed.
Next Obligation. intros. simpl. lia. Qed.
Next Obligation. intros. simpl. lia. Qed.
Next Obligation. intros. simpl. lia. Qed.
Next Obligation. intros. simpl. lia. Qed.
Next Obligation. intros. simpl. lia. Qed.
Next Obligation. done. Qed.
Next Obligation. done. Qed.
Next Obligation. done. Qed.
Next Obligation. done. Qed.
Next Obligation. done. Qed.
Next Obligation. done. Qed.
Next Obligation. done. Qed.
Next Obligation.
  intros f n e Hpos Hc Hp.
  assert (m_period (Nat.iter n (λ e, ticker_C (f e)) e) = m_period e ∧
    m_now e + (Z.of_nat n - 2) * m_period e ≤ m_now (Nat.iter n (λ e, ticker_C (f e)) e))%Z as [_ ?];
    [|done].
  induction n as [|n [IHp IHc]]; [simpl; lia|]. cbn [Nat.iter nat_rect].
  set (en := Nat.iter n _ e) in *. change (nat_rect _ _ _ n) with en.
  pose proof (Hc en). pose proof (Hp en). simpl in *. lia.
Qed.

(** The namespace becomes visible after two seconds, its attributes never. *)
Definition w_suite : suite_world := mkSuite (mkMem 0 0 2000000000 (2 ^ 62)) (mkRegistry ∅).
Notation w_register fuel := (RegisterNamespace (M3 := Murmur3_ref) (λ _, "") id
  {["CustomKeywordField"]} 0 fuel "active" "127.0.0.1:7233" "id-1" "namespace-1" (true, true) 1
  "Disabled" "" "").

Lemma registration_ends_witness :
  returns (w_register 14 w_suite).2 = true ∧
  (w_register 14 w_suite).2 = Err "search attributes were not ready for namespace-1 before deadline".
Proof.
  split; [|vm_compute; reflexivity].
  apply (registration_ends (M3 := Murmur3_ref) (λ _, "") id {["CustomKeywordField"]} 0 14).
  lia.
Defined.

Definition w_routed : World MemRedis :=
  mkWorld (mkMappings (mkMemRedis true ∅) 0 0)
    (registerNamespaceWithTempura (M3 := Murmur3_ref) (λ _, "") id true true
       "namespace-1" "127.0.0.1:7233" (mkRegistry ∅)) ∅.

Lemma registered_namespace_routed_witness :
  ∃ s, (Resolve (M3 := Murmur3_ref) (mkPayload "wf-1" "namespace-1") w_routed).2 = Ok (s, false) ∧
       parsePhysicalNamespace s =
         Ok (mkNamespace (Some (mkCluster "127.0.0.1:7233")) "namespace-1").
Proof.
  apply (registered_namespace_routed (M3 := Murmur3_ref) (λ _, "") id "namespace-1" "127.0.0.1:7233"
    (mkRegistry ∅) "wf-1" w_routed); try (vm_compute; reflexivity).
  - repeat constructor.
  - repeat constructor.
  - discriminate.
  - discriminate.
  - intros x. vm_compute. discriminate.
Defined.
