(* ===== verification/TestCluster.v ===== *)
(** A test cluster ([conformance-tests/testcore/test_cluster.go]): the hosts of a
    server, its cluster metadata, the proxy started in front of it, and its
    teardown.  With it the parts meet: the processes of [Fleet], the server of
    [Onebox] and the suites of [TestBase]. *)

From S2P Require Import Prelude GoStrings GoNet GoSort ConsistentHash RingSpec Murmur Namespaces.
From S2P Require Import Mappings Resolver Wire TaskToken Http Messages Samples Handlers.
From S2P Require Import HandlerSpec ConnPark Proxy Json Checkpoint Admin Fleet Onebox TestBase.
From Stdlib Require Import Ascii.
From stdpp Require Import options.

(** * Hosts and ports *)

Record host_config := mkHostConfig {
  NumFrontendHosts : Z;
  NumHistoryHosts : Z;
  NumMatchingHosts : Z;
  NumWorkers : Z;
  DisableWorker : bool
}.

Definition minNodes : Z := 1.

(** At least one host per service, and no worker when it is disabled. *)
Definition normalize_hosts (c : host_config) : host_config :=
  mkHostConfig (Z.max minNodes (NumFrontendHosts c)) (Z.max minNodes (NumHistoryHosts c))
    (Z.max minNodes (NumMatchingHosts c))
    (if DisableWorker c then 0 else Z.max minNodes (NumWorkers c)) (DisableWorker c).

(** [free] are the results of the calls of [freeport.MustGetFreePort]; [first] is
    the number of the next call. *)
Definition makeAddresses (free : nat → Z) (first : nat) (count : Z) : list string :=
  (λ i, "127.0.0.1:" +:+ show_int (free (first + i))) <$> seq 0 (Z.to_nat count).

(** The table of hosts, its addresses allocated in the order of the source. *)
Definition allocate_hosts (free : nat → Z) (cfg : host_config) : host_table :=
  let c := normalize_hosts cfg in
  let n1 := Z.to_nat (NumFrontendHosts c) in
  let n2 := n1 + Z.to_nat (NumMatchingHosts c) in
  let n3 := n2 + Z.to_nat (NumHistoryHosts c) in
  let n4 := n3 + Z.to_nat (NumWorkers c) in
  {[ grpcProtocol := list_to_map
       [("frontend", mkHosts (makeAddresses free 0 (NumFrontendHosts c)) "");
        ("matching", mkHosts (makeAddresses free n1 (NumMatchingHosts c)) "");
        ("history", mkHosts (makeAddresses free n2 (NumHistoryHosts c)) "");
        ("worker", mkHosts (makeAddresses free n3 (NumWorkers c)) "")];
     httpProtocol := list_to_map
       [("frontend", mkHosts (makeAddresses free n4 (NumFrontendHosts c)) "")] ]}.

(** * Cluster metadata *)

Record cluster_info := mkClusterInfo {
  ci_Enabled : bool;
  ci_ReplicationEnabled : bool;
  ci_InitialFailoverVersion : Z;
  ci_RPCAddress : string;
  ci_HTTPAddress : string;
  ci_ShardCount : Z;
  ci_ClusterID : string
}.

Definition zero_info : cluster_info := mkClusterInfo false false 0 "" "" 0 "".

Record cluster_config := mkClusterConfig {
  EnableGlobalNamespace : bool;
  FailoverVersionIncrement : Z;
  MasterClusterName : string;
  CurrentClusterName : string;
  ClusterInformation : gmap string cluster_info
}.

(** The current cluster's entry gets the addresses allocated to its frontend; an
    address that does not exist panics. *)
Definition set_self_address (t : host_table) (c : cluster_config) : res cluster_config :=
  if decide (size (ClusterInformation c) = 0) then Ok c
  else
    match address_at (All (hosts_of t grpcProtocol "frontend")) 0,
          address_at (All (hosts_of t httpProtocol "frontend")) 0 with
    | Ok rpc, Ok http =>
        let ci := default zero_info (ClusterInformation c !! CurrentClusterName c) in
        Ok (mkClusterConfig (EnableGlobalNamespace c) (FailoverVersionIncrement c)
              (MasterClusterName c) (CurrentClusterName c)
              (<[CurrentClusterName c :=
                  mkClusterInfo (ci_Enabled ci) (ci_ReplicationEnabled ci)
                    (ci_InitialFailoverVersion ci) rpc http (ci_ShardCount ci) (ci_ClusterID ci)]>
                 (ClusterInformation c)))
    | Panic e, _ | _, Panic e => Panic e
    | Err e, _ | _, Err e => Err e
    | Diverge, _ | _, Diverge => Diverge
    end.

(** [test_metadata] is [cluster.NewTestClusterMetadataConfig]; a cluster that is
    not the master but names one (a cross-cluster test) uses its own. *)
Definition choose_metadata (test_metadata : bool → bool → cluster_config) (IsMasterCluster : bool)
    (c : cluster_config) : cluster_config :=
  if decide (IsMasterCluster = false ∧ MasterClusterName c ≠ "") then c
  else test_metadata (EnableGlobalNamespace c) IsMasterCluster.

(** The loop that saves the metadata of every cluster: [save] is the error of
    [SaveClusterMetadata], [uuid] the new ids; an error ends it. *)
Fixpoint save_metadata (save : string → cluster_info → option string) (uuid : nat → string)
    (shards : Z) (i : nat) (infos : list (string * cluster_info)) (saved : gmap string cluster_info)
    : res (gmap string cluster_info) :=
  match infos with
  | [] => Ok saved
  | (clusterName, ci) :: infos =>
      let ci := mkClusterInfo (ci_Enabled ci) (ci_ReplicationEnabled ci) (ci_InitialFailoverVersion ci)
                  (ci_RPCAddress ci) (ci_HTTPAddress ci) shards (uuid i) in
      match save clusterName ci with
      | Some err => Err err
      | None => save_metadata save uuid shards (S i) infos (<[clusterName := ci]> saved)
      end
  end.

(** * Persistence options *)

(** [NewTestBase]: the default fault injection of the command line gives way to
    a test's own. *)
Definition fault_injection {F} (enableFaultInjection : string) (default_faults : F) (o : option F)
    : option F :=
  if decide (enableFaultInjection ≠ "" ∧ o = None) then Some default_faults else o.

(** * The proxy of a cluster *)

(** The command line [newClusterWithPersistenceTestBaseFactory] starts the proxy
    with. *)
Definition tempura_flags (redisAddr : string) (proxyPort adminPort : Z) (frontend : string) : flags :=
  mkFlags redisAddr ("localhost:" +:+ show_int proxyPort) adminPort ("http://" +:+ frontend).

Definition TempuraProxyGRPCAddress (proxyPort : Z) : string := "localhost:" +:+ show_int proxyPort.
Definition TempuraAdminAPIAddress (adminPort : Z) : string := "http://localhost:" +:+ show_int adminPort.

(** [FrontendClient]: the client of the proxy, if there is one. *)
Definition FrontendClient {A} (tempuraFrontendClient : option A) (host_client : A) : A :=
  default host_client tempuraFrontendClient.

(** * Teardown *)

(** What a cluster holds: what it starts and creates, its client of Elasticsearch
    and its gRPC connection to the proxy. *)
Record held := mkHeld {
  h_server : bool; h_store : bool; h_index : bool; h_history_dir : bool;
  h_visibility_dir : bool; h_redis : bool; h_proxy : bool; h_es_client : bool; h_conn : bool
}.

(** [TearDownCluster]: every step is taken, and the errors are combined; a server
    that did not stop cleanly counts as held.  The client and the connection are
    not closed.  [sql] is [UseSQLVisibility()]. *)
Definition TearDownCluster_steps (sql : bool) (stop_errs : list string)
    (delete_index remove_history remove_visibility : option string) (h : held)
    : held * list string :=
  let errs := stop_errs in
  let index := negb sql && h_index h in
  let errs := if index then errs ++ option_list delete_index else errs in
  let errs := errs ++ option_list remove_history in
  let errs := errs ++ option_list remove_visibility in
  (mkHeld (match stop_errs with [] => false | _ => h_server h end) false (if index then match delete_index with Some _ => true | None => false end else h_index h)
     (match remove_history with Some _ => h_history_dir h | None => false end)
     (match remove_visibility with Some _ => h_visibility_dir h | None => false end) false false
     (h_es_client h) (h_conn h),
   errs).

(** * The table of hosts *)

Lemma makeAddresses_seq free first count :
  makeAddresses free first count =
    (λ i, "127.0.0.1:" +:+ show_int (free i)) <$> seq first (Z.to_nat count).
Proof.
  unfold makeAddresses. apply list_eq. intros i. rewrite !list_lookup_fmap.
  destruct (decide (i < Z.to_nat count)).
  - by rewrite !lookup_seq_lt by lia.
  - by rewrite !lookup_seq_ge by lia.
Qed.

(** All addresses of a table, in the order of their allocation. *)
Definition addresses (t : host_table) : list string :=
  (["frontend"; "matching"; "history"; "worker"] ≫= λ s, All (hosts_of t grpcProtocol s)) ++
  All (hosts_of t httpProtocol "frontend").

Lemma addresses_allocated free cfg :
  ∃ n, addresses (allocate_hosts free cfg) =
    (λ i, "127.0.0.1:" +:+ show_int (free i)) <$> seq 0 n.
Proof.
  unfold addresses, allocate_hosts. set (c := normalize_hosts cfg).
  set (n1 := Z.to_nat (NumFrontendHosts c)). set (n2 := Z.to_nat (NumMatchingHosts c)).
  set (n3 := Z.to_nat (NumHistoryHosts c)). set (n4 := Z.to_nat (NumWorkers c)).
  exists (n1 + n2 + n3 + n4 + n1).
  change (?a ++ ?b = ?rhs) with
    ((makeAddresses free 0 (NumFrontendHosts c) ++ makeAddresses free n1 (NumMatchingHosts c) ++
      makeAddresses free (n1 + n2) (NumHistoryHosts c) ++
      makeAddresses free (n1 + n2 + n3) (NumWorkers c) ++ []) ++
     makeAddresses free (n1 + n2 + n3 + n4) (NumFrontendHosts c) = rhs).
  rewrite !makeAddresses_seq, app_nil_r, <-!fmap_app. f_equal.
  fold n1 n2 n3 n4. rewrite !seq_app. by rewrite <-!(assoc_L (++)).
Qed.

Lemma frontend_address free cfg :
  FrontendGRPCAddress (allocate_hosts free cfg) = Ok ("127.0.0.1:" +:+ show_int (free 0)).
Proof.
  unfold FrontendGRPCAddress.
  assert (All (hosts_of (allocate_hosts free cfg) grpcProtocol "frontend") =
    makeAddresses free 0 (NumFrontendHosts (normalize_hosts cfg))) as -> by done.
  rewrite makeAddresses_seq. unfold address_at. rewrite list_lookup_fmap, lookup_seq_lt; [done|].
  simpl. unfold minNodes. lia.
Qed.

Lemma address_port z : (0 ≤ z < 2 ^ 63)%Z → mustPortFromAddress ("127.0.0.1:" +:+ show_int z) = Ok z.
Proof.
  intros Hz. unfold mustPortFromAddress.
  change ("127.0.0.1:" +:+ show_int z) with ("127.0.0.1" +:+ ":" +:+ show_int z).
  rewrite SplitHostPort_join; [by rewrite Atoi_show_int| |].
  - repeat constructor; unfold host_char; set_solver.
  - apply show_int_host. lia.
Qed.

(** C36: the table of hosts is well-formed.  Whatever numbers a test configures,
    there is a frontend to connect to over gRPC and over HTTP, there is a worker
    address exactly when the worker is enabled (asking for it otherwise panics),
    every address parses back to its port, and with distinct free ports no two
    servers share an address. *)
Theorem hosts_well_formed free cfg rand_Intn :
  let t := allocate_hosts free cfg in
  (∀ i, i < length (addresses t) → (0 ≤ free i < 2 ^ 63)%Z) → (∀ n, 0 < n → rand_Intn n < n) →
  FrontendGRPCAddress t = Ok ("127.0.0.1:" +:+ show_int (free 0)) ∧
  (∃ a, FrontendHTTPAddress rand_Intn t = Ok a) ∧
  ((∃ a, WorkerGRPCAddress t = Ok a) ↔ DisableWorker cfg = false) ∧
  (∀ a, a ∈ addresses t → ∃ i, a = "127.0.0.1:" +:+ show_int (free i) ∧
                               mustPortFromAddress a = Ok (free i)) ∧
  ((∀ i j, i < length (addresses t) → j < length (addresses t) → free i = free j → i = j) →
   NoDup (addresses t)).
Proof.
  intros t Hfree Hrand. destruct (addresses_allocated free cfg) as [n Hall]. fold t in Hall.
  assert (length (addresses t) = n) as Hn by (rewrite Hall, length_fmap, length_seq; done).
  rewrite Hn in *. split_and!.
  - apply frontend_address.
  - unfold FrontendHTTPAddress.
    assert (∃ k, All (hosts_of t httpProtocol "frontend") =
      makeAddresses free k (NumFrontendHosts (normalize_hosts cfg))) as [k ->] by (by eexists).
    set (l := makeAddresses _ _ _).
    assert (0 < length l) as Hl.
    { unfold l. rewrite makeAddresses_seq, length_fmap, length_seq. simpl. unfold minNodes. lia. }
    rewrite decide_False by lia. unfold address_at.
    destruct (lookup_lt_is_Some_2 l (rand_Intn (length l))) as [a ->]; [by apply Hrand|]. by exists a.
  - unfold WorkerGRPCAddress.
    assert (∃ k, All (hosts_of t grpcProtocol "worker") =
      makeAddresses free k (NumWorkers (normalize_hosts cfg))) as [k ->] by (by eexists).
    rewrite makeAddresses_seq. unfold address_at. rewrite list_lookup_fmap.
    unfold normalize_hosts, minNodes. cbn [NumWorkers].
    destruct (DisableWorker cfg).
    + split; [by intros [? ?]|done].
    + rewrite lookup_seq_lt by lia. split; [done|]. by eexists.
  - intros a Ha. rewrite Hall in Ha. apply list_elem_of_fmap in Ha as (i & -> & Hi%elem_of_seq).
    exists i. split; [done|]. apply address_port, Hfree. lia.
  - intros Hinj. rewrite Hall. apply NoDup_fmap_2_strong; [|apply NoDup_seq].
    intros i j Hi%elem_of_seq Hj%elem_of_seq E. apply Hinj; [lia..|].
    apply (inj (String.append "127.0.0.1:")) in E. by apply (inj pretty) in E.
Qed.

(** * The traffic of a suite *)

Lemma bytes_of_chars s : bytes_of s = Ascii.byte_of_ascii <$> chars s.
Proof. done. Qed.

Lemma digits_plain s : Forall is_digit (chars s) → plain (bytes_of s).
Proof.
  intros Hs. rewrite bytes_of_chars. apply Forall_fmap. eapply Forall_impl; [exact Hs|].
  intros c Hc. unfold is_digit in Hc.
  repeat (apply elem_of_cons in Hc as [->|Hc]; [done|]). by apply elem_of_nil in Hc.
Qed.

Lemma address_plain z : (0 ≤ z)%Z → plain (bytes_of ("127.0.0.1:" +:+ show_int z)).
Proof.
  intros Hz. rewrite bytes_of_chars, chars_app, fmap_app. apply Forall_app. split.
  - repeat constructor.
  - destruct (pretty_Z_digits z Hz) as [Hd _]. by apply (digits_plain (show_int z)).
Qed.

(** An address has one colon, so it does not contain the delimiter. *)
Lemma address_no_delim z : (0 ≤ z)%Z → Contains ("127.0.0.1:" +:+ show_int z) delim = false.
Proof.
  intros Hz. destruct (Contains _ _) eqn:E; [|done]. exfalso.
  unfold Contains in E. apply bool_decide_eq_true in E as [m Hm].
  apply Index_Some in Hm. pose proof (str_take_drop m ("127.0.0.1:" +:+ show_int z)) as Hab.
  rewrite Hm in Hab. set (a := str_take m _) in Hab. set (b := str_drop _ _) in Hab.
  assert (length (filter (λ c, c = ":"%char) (chars ("127.0.0.1:" +:+ show_int z))) = 1) as H1.
  { rewrite chars_app, filter_app, length_app.
    rewrite (list_filter_none _ (chars (show_int z))); [done|].
    intros c Hc ->. pose proof (show_int_host z Hz) as Hh. rewrite Forall_forall in Hh.
    apply (Hh _ Hc). set_solver. }
  rewrite <-Hab, !chars_app, !filter_app, !length_app in H1. simpl in H1. lia.
Qed.

Section suite.
Context {M3 : Murmur3} {GZ : Gzip} {MR : MapRange} {R : Type} `{Redis R}
  {T : Transport} {AR : Arrival} {X : Type} `{!Codecs X}.
Context (url_Parse : string → string + string) (json_err : list byte → string)
  (metrics : ResponseWriter → ResponseWriter).

(** The traffic of a suite reaches its own cluster.  A test cluster starts a
    proxy in front of its first frontend; once a suite has registered a new
    namespace of plain characters with it, the proxy resolves every workflow of
    the namespace that has no cached route to that frontend, and forwards every
    call it does not know to the same one. *)
Theorem suite_traffic_reaches_cluster free cfg redisAddr proxyPort adminPort (server server' : R) p
    ns wf addr rw r :
  (0 ≤ free 0%nat)%Z →
  FrontendGRPCAddress (allocate_hosts free cfg) = Ok addr →
  url_Parse ("http://" +:+ addr) = inr addr →
  main url_Parse (tempura_flags redisAddr proxyPort adminPort addr) server = (server', Some p) →
  plain (bytes_of ns) → ns ≠ "" → Contains (ns +:+ ":") delim = false →
  Resolve_ns (p_registry p) ns = None →
  (∀ x, (redis_Get wf server').2 ≠ RVal x) →
  dispatch (URLPath r) = RDefault → URLHost r = "" →
  let p' := mkProcess (p_hits p) (p_misses p)
    (registerNamespaceWithTempura json_err metrics true true ns addr (p_registry p))
    (p_allocated p) (p_default p) in
  let w := world_of server' p' in
  (∃ s, (Resolve (mkPayload wf ns) w).2 = Ok (s, false) ∧
        parsePhysicalNamespace s = Ok (mkNamespace (Some (mkCluster addr)) ns)) ∧
  (∃ f, serveHTTP (X := X) (p_default p') rw (w, r) = ((w, r), Ok (Forwarded f)) ∧ URLHost f = addr).
Proof.
  intros H0 Haddr Hurl Hmain Hns Hne Hd Hnew Hmiss Hdisp Hhost p' w.
  assert (addr = "127.0.0.1:" +:+ show_int (free 0)) as ->.
  { rewrite frontend_address in Haddr. congruence. }
  assert (p_default p' = "127.0.0.1:" +:+ show_int (free 0)) as Hdef.
  { revert Hmain. unfold main, NewStickyProxy. cbn [default_target tempura_flags].
    rewrite Hurl. by intros [= _ <-]. }
  split.
  - apply (registered_namespace_routed json_err metrics ns _ (p_registry p) wf w); try done.
    + by apply address_plain.
    + by apply address_no_delim.
  - destruct (unrouted_passes_through (X := X) w (p_default p') rw r Hdisp) as (f & Hf & Hu & _).
    exists f. split; [done|]. by rewrite Hu, Hhost, decide_True.
Qed.
End suite.

(** * Metadata and teardown *)

(** When nothing fails, every cluster is saved under its name with its addresses
    and the number of shards of the test. *)
Lemma save_metadata_ok save uuid shards i infos saved saved' :
  save_metadata save uuid shards i infos saved = Ok saved' → NoDup infos.*1 →
  (∀ name ci, (name, ci) ∈ infos →
     ∃ ci', saved' !! name = Some ci' ∧ ci_ShardCount ci' = shards ∧
            ci_RPCAddress ci' = ci_RPCAddress ci ∧ ci_HTTPAddress ci' = ci_HTTPAddress ci) ∧
  (∀ name, name ∉ infos.*1 → saved' !! name = saved !! name).
Proof.
  revert i saved. induction infos as [|[n c] infos IH]; intros i saved; cbn [save_metadata fmap list_fmap fst].
  { intros [= <-] _. split; [intros name ci Hin; by apply elem_of_nil in Hin|done]. }
  destruct (save n _); [done|]. intros Hs [Hn Hnd]%NoDup_cons.
  destruct (IH _ _ Hs Hnd) as [IH1 IH2]. split.
  - intros name ci [E|Hin]%elem_of_cons; [|by apply IH1]. simplify_eq.
    rewrite IH2, lookup_insert_eq by done. eexists. split; [reflexivity|]. done.
  - intros name [Hne Hno]%not_elem_of_cons. by rewrite IH2, lookup_insert_ne by done.
Qed.

(** The store, Redis and the proxy are given up whatever fails, the client of
    Elasticsearch and the connection never are, and an error is reported exactly
    when a step fails. *)
Lemma TearDownCluster_releases sql stop_errs di rh rv h :
  let o := TearDownCluster_steps sql stop_errs di rh rv h in
  h_es_client o.1 = h_es_client h ∧ h_conn o.1 = h_conn h ∧ h_store o.1 = false ∧ h_redis o.1 = false ∧ h_proxy o.1 = false ∧
  (o.2 = [] ↔ stop_errs = [] ∧ (negb sql && h_index h = true → di = None) ∧ rh = None ∧ rv = None).
Proof.
  cbn zeta. split_and!; [done..|]. unfold TearDownCluster_steps. cbn [snd].
  destruct (negb sql && h_index h); rewrite ?app_nil;
    destruct stop_errs, di, rh, rv; naive_solver.
Qed.

(** * The properties at a concrete cluster *)

Definition w_free (i : nat) : Z := 33000 + Z.of_nat i.
Definition w_host_config : host_config := mkHostConfig 0 2 1 3 true.

Lemma hosts_well_formed_witness :
  FrontendGRPCAddress (allocate_hosts w_free w_host_config) = Ok "127.0.0.1:33000" ∧
  is_panic (WorkerGRPCAddress (allocate_hosts w_free w_host_config)) = true ∧
  length (addresses (allocate_hosts w_free w_host_config)) = 5 ∧
  NoDup (addresses (allocate_hosts w_free w_host_config)).
Proof.
  split; [vm_compute; reflexivity|]. split; [vm_compute; reflexivity|].
  assert (length (addresses (allocate_hosts w_free w_host_config)) = 5) as Hn by (vm_compute; reflexivity).
  split; [exact Hn|].
  apply (hosts_well_formed w_free w_host_config (λ _, 0)).
  - intros i. rewrite Hn. unfold w_free. lia.
  - intros n Hn'. exact Hn'.
  - intros i j _ _. unfold w_free. lia.
Defined.

Definition w_url_host (s : string) : string + string := inr (TrimPrefix s "http://").
Definition w_tempura : flags := tempura_flags "127.0.0.1:6390" 9000 9001 "127.0.0.1:33000".
Definition w_unrouted : Request :=
  mkRequest (rpc "DescribeNamespace") "" "" "proxy:9000" ∅ 0 "" (BodyBytes []).

Lemma suite_traffic_reaches_cluster_witness :
  ∃ server' p,
    main (M3 := Murmur3_ref) (MR := ListRange) w_url_host w_tempura (mkMemRedis true ∅) =
      (server', Some p) ∧
    ∃ s, (Resolve (M3 := Murmur3_ref) (mkPayload "wf-1" "namespace-1")
           (world_of server' (mkProcess (p_hits p) (p_misses p)
             (registerNamespaceWithTempura (M3 := Murmur3_ref) (λ _, "") id true true "namespace-1"
                "127.0.0.1:33000" (p_registry p)) (p_allocated p) (p_default p)))).2 = Ok (s, false) ∧
         parsePhysicalNamespace s =
           Ok (mkNamespace (Some (mkCluster "127.0.0.1:33000")) "namespace-1").
Proof.
  destruct (main (M3 := Murmur3_ref) (MR := ListRange) w_url_host w_tempura (mkMemRedis true ∅))
    as [server' op] eqn:E.
  assert (server' = mkMemRedis true ∅ ∧
    op = Some (mkProcess 0 0 (mkRegistry ∅) ∅ "127.0.0.1:33000")) as [-> ->].
  { revert E. vm_compute. intros [= <- <-]. split; reflexivity. }
  eexists _, _. split; [reflexivity|].
  eapply (suite_traffic_reaches_cluster (M3 := Murmur3_ref) (GZ := CopyGzip) (MR := ListRange)
    (T := TaskTransport) (AR := ReverseArrival) (X := unit) w_url_host (λ _, "") id w_free w_host_config
    "127.0.0.1:6390" 9000 9001 (mkMemRedis true ∅) (mkMemRedis true ∅)
    (mkProcess 0 0 (mkRegistry ∅) ∅ "127.0.0.1:33000") "namespace-1" "wf-1" "127.0.0.1:33000"
    new_writer w_unrouted).
  - unfold w_free. lia.
  - vm_compute. reflexivity.
  - vm_compute. reflexivity.
  - exact E.
  - repeat constructor.
  - discriminate.
  - vm_compute. reflexivity.
  - reflexivity.
  - intros x. vm_compute. discriminate.
  - vm_compute. reflexivity.
  - reflexivity.
Defined.
