(* ===== verification/MixedBrain.v ===== *)
(** The mixed-version test ([conformance-tests/mixedbrain]): a current and a
    released server form one cluster behind a load-balancing TCP proxy.  Ports
    and configuration ([config_util.go]), the release to test against
    ([build_util.go]), the servers ([server_util.go]) and the proxy
    ([proxy_util.go]). *)

From S2P Require Import Prelude GoStrings GoNet.
From stdpp Require Import options.

(** * Ports *)

Record portSet := mkPortSet {
  FrontendGRPC : Z; FrontendMembership : Z; FrontendHTTP : Z;
  HistoryGRPC : Z; HistoryMembership : Z;
  MatchingGRPC : Z; MatchingMembership : Z;
  WorkerGRPC : Z; WorkerMembership : Z
}.

Definition newPortSet (base : Z) : portSet :=
  mkPortSet base (i64 (base + 1)) (i64 (base + 2)) (i64 (base + 3)) (i64 (base + 4))
    (i64 (base + 5)) (i64 (base + 6)) (i64 (base + 7)) (i64 (base + 8)).

Definition portSetA : portSet := newPortSet 7230.
Definition portSetB : portSet := newPortSet 8240.

(** [newRandPortSet]: the fields are filled from nine calls of [MustGetFreePort],
    in the order of the declaration. *)
Definition newRandPortSet (free : nat → Z) : portSet :=
  mkPortSet (free 0) (free 1) (free 2) (free 3) (free 4) (free 5) (free 6) (free 7) (free 8).

(** The ports of the current server and of the released one
    ([TestMixedBrain] in [mixed_brain_test.go]): the fixed ones when the variable
    [CI] is set, free ones drawn for the two in turn otherwise. *)
Definition test_ports (CI : string) (free : nat → Z) : portSet * portSet :=
  if decide (CI ≠ "") then (portSetA, portSetB)
  else (newRandPortSet free, newRandPortSet (λ i, free (9 + i))).

Definition frontendAddr (p : portSet) : string := "127.0.0.1:" +:+ show_int (FrontendGRPC p).

Definition membershipPorts (p : portSet) : list Z :=
  [FrontendMembership p; HistoryMembership p; MatchingMembership p; WorkerMembership p].

(** * The servers' configuration *)

Record SQL := mkSQL {
  PluginName : string;
  DatabaseName : string;
  ConnectAddr : string;
  ConnectProtocol : string;
  ConnectAttributes : gmap string string;
  User : string;
  Password : string;
  MaxConns : Z;
  MaxIdleConns : Z;
  MaxConnLifetime : Z            (* in nanoseconds *)
}.

Record RPC := mkRPC {
  GRPCPort : Z; MembershipPort : Z; BindOnLocalHost : bool; HTTPPort : Z
}.

Record ClusterInformation := mkInfo {
  Enabled : bool; InitialFailoverVersion : Z; RPCAddress : string; HTTPAddress : string
}.

Record Config := mkConfig {
  Log_Stdout : bool;
  Log_Level : string;
  DefaultStore : string;
  VisibilityStore : string;
  NumHistoryShards : Z;
  DataStores : gmap string SQL;
  MaxJoinDuration : Z;
  BroadcastAddress : string;
  Services : gmap string RPC;
  FailoverVersionIncrement : Z;
  MasterClusterName : string;
  CurrentClusterName : string;
  ClusterInformations : gmap string ClusterInformation;
  DynamicConfig_Filepath : string;
  DynamicConfig_PollInterval : Z
}.

Definition seconds (n : Z) : Z := n * 1000000000.

(** [filepath.Join] of clean elements. *)
Definition filepath_Join (elems : list string) : string := Join elems "/".

Definition sqlite_store (tmpDir dbName : string) : SQL :=
  mkSQL "sqlite" (filepath_Join [tmpDir; dbName]) "localhost" "tcp"
    (list_to_map [("cache", "private"); ("setup", "true"); ("journal_mode", "wal");
                  ("synchronous", "2"); ("busy_timeout", "10000")]) "" "" 1 1 0.

Definition postgres_store (driver dbName : string) : SQL :=
  mkSQL driver dbName "127.0.0.1:5432" "tcp" ∅ "temporal" "temporal" 20 20 (seconds 3600).

(** The stores of a driver, [""] standing for sqlite. *)
Definition data_stores (driver tmpDir : string) : res (gmap string SQL) :=
  let driver := if decide (driver = "") then "sqlite" else driver in
  if decide (driver = "sqlite") then
    Ok (list_to_map [("default", sqlite_store tmpDir "temporal_default.db");
                     ("visibility", sqlite_store tmpDir "temporal_visibility.db")])
  else if decide (driver = "postgres12" ∨ driver = "postgres12_pgx") then
    Ok (list_to_map [("default", postgres_store driver "temporal");
                     ("visibility", postgres_store driver "temporal_visibility")])
  else Panic ("unsupported persistence driver: " +:+ driver).

(** [generateConfig]: the directory and the configuration written to its file
    [development.yaml].  [driver] is the variable [PERSISTENCE_DRIVER]. *)
Definition generateConfig (sourceRoot driver tmpDir : string) (ports activePorts : portSet)
    : res (string * Config) :=
  let configDir := filepath_Join [tmpDir; "config-" +:+ show_int (FrontendGRPC ports)] in
  let dynConfigPath :=
    filepath_Join [sourceRoot; "config"; "dynamicconfig"; "development-sql.yaml"] in
  match data_stores driver tmpDir with
  | Ok dataStores =>
      Ok (configDir,
        mkConfig true "info" "default" "visibility" 4 dataStores (seconds 30) "127.0.0.1"
          (list_to_map
             [("frontend", mkRPC (FrontendGRPC ports) (FrontendMembership ports) true
                             (FrontendHTTP ports));
              ("matching", mkRPC (MatchingGRPC ports) (MatchingMembership ports) true 0);
              ("history", mkRPC (HistoryGRPC ports) (HistoryMembership ports) true 0);
              ("worker", mkRPC (WorkerGRPC ports) (WorkerMembership ports) true 0)])
          10 "active" "active"
          {["active" := mkInfo true 1 ("localhost:" +:+ show_int (FrontendGRPC activePorts))
                          ("localhost:" +:+ show_int (FrontendHTTP activePorts))]}
          dynConfigPath (seconds 10))
  | Err e => Err e
  | Panic e => Panic e
  | Diverge => Diverge
  end.

(** The ports a server with this configuration listens on. *)
Definition listens (cfg : Config) : list Z :=
  map_to_list (Services cfg) ≫= λ '(_, rpc),
    [GRPCPort rpc; MembershipPort rpc] ++ (if decide (HTTPPort rpc = 0) then [] else [HTTPPort rpc])%Z.

Definition all_ports (p : portSet) : list Z :=
  [FrontendGRPC p; FrontendMembership p; FrontendHTTP p; HistoryGRPC p; HistoryMembership p;
   MatchingGRPC p; MatchingMembership p; WorkerGRPC p; WorkerMembership p].

Lemma listens_generated sourceRoot driver tmpDir ports act dir cfg :
  FrontendHTTP ports ≠ 0%Z →
  generateConfig sourceRoot driver tmpDir ports act = Ok (dir, cfg) →
  listens cfg ≡ₚ all_ports ports.
Proof.
  intros H0. unfold generateConfig. destruct (data_stores driver tmpDir); try done.
  intros [= _ <-]. unfold listens. cbn [Services].
  rewrite !map_to_list_insert, map_to_list_empty by (by simplify_map_eq).
  cbn [mbind list_bind GRPCPort MembershipPort HTTPPort].
  rewrite decide_False by done. rewrite !decide_True by done.
  cbn [app]. unfold all_ports. solve_Permutation.
Qed.

(** The two configurations of a test share everything but the ports. *)
Lemma generated_alike sourceRoot driver tmpDir p q act dirP cfgP dirQ cfgQ :
  generateConfig sourceRoot driver tmpDir p act = Ok (dirP, cfgP) →
  generateConfig sourceRoot driver tmpDir q act = Ok (dirQ, cfgQ) →
  (dirP = dirQ → FrontendGRPC p = FrontendGRPC q) ∧
  DataStores cfgP = DataStores cfgQ ∧ ClusterInformations cfgP = ClusterInformations cfgQ.
Proof.
  unfold generateConfig. destruct (data_stores driver tmpDir); try done.
  intros [= <- <-] [= <- <-]. split; [|done]. intros E. unfold filepath_Join in E. simpl in E.
  apply (inj (String.append tmpDir)) in E. by simplify_eq/=.
Qed.

(** The ports of a test are the fixed eighteen, or the first eighteen free ones. *)
Lemma test_ports_all CI free :
  let ps := test_ports CI free in
  all_ports ps.1 ++ all_ports ps.2 =
    if decide (CI ≠ "") then seqZ 7230 9 ++ seqZ 8240 9 else free <$> seq 0 18.
Proof. cbn zeta. unfold test_ports. by case_decide. Qed.

(** C37: the two servers of the test fit beside each other.  With the ports the
    test uses - the fixed ones in CI, and free and distinct ones elsewhere - the
    configurations generated for the current and the released server use
    eighteen different ports; they are written to different directories, and use
    the same databases and the same frontend as the cluster's address.  The fixed
    ports are unprivileged and small enough for the SMALLINT column that stores
    them; the drawn ones are if and only if the free ports are. *)
Theorem server_configs_fit sourceRoot driver tmpDir CI free dirA cfgA dirB cfgB :
  let ps := test_ports CI free in
  (CI = "" → (∀ i, i < 18 → (0 < free i)%Z) ∧
             ∀ i j, i < 18 → j < 18 → free i = free j → i = j) →
  generateConfig sourceRoot driver tmpDir ps.1 ps.1 = Ok (dirA, cfgA) →
  generateConfig sourceRoot driver tmpDir ps.2 ps.1 = Ok (dirB, cfgB) →
  let used := listens cfgA ++ listens cfgB in
  NoDup used ∧ length used = 18 ∧ dirA ≠ dirB ∧
  DataStores cfgA = DataStores cfgB ∧ ClusterInformations cfgA = ClusterInformations cfgB ∧
  (CI ≠ "" → Forall (λ p, 1024 ≤ p ≤ 32767)%Z used) ∧
  (CI = "" → (Forall (λ p, p ≤ 32767)%Z used ↔ ∀ i, i < 18 → (free i ≤ 32767)%Z)).
Proof.
  intros ps Hfree HA HB used.
  assert (FrontendHTTP ps.1 ≠ 0%Z ∧ FrontendHTTP ps.2 ≠ 0%Z) as [H1 H2].
  { unfold ps, test_ports. case_decide; [done|]. assert (CI = "") as Hci by (by destruct (decide (CI = ""))).
    destruct (Hfree Hci) as [Hpos _].
    pose proof (Hpos 2 ltac:(lia)). pose proof (Hpos 11 ltac:(lia)). cbn. lia. }
  assert (used ≡ₚ if decide (CI ≠ "") then seqZ 7230 9 ++ seqZ 8240 9 else free <$> seq 0 18) as Hp.
  { unfold used. rewrite (listens_generated _ _ _ _ _ _ _ H1 HA), (listens_generated _ _ _ _ _ _ _ H2 HB).
    unfold ps. by rewrite test_ports_all. }
  assert (NoDup used) as Hnd.
  { rewrite Hp. case_decide as Hci; [apply (bool_decide_eq_true_1 _); by vm_compute|].
    apply NoDup_fmap_2_strong; [|apply NoDup_seq].
    intros i j Hi%elem_of_seq Hj%elem_of_seq. apply Hfree; [by destruct (decide (CI = ""))|lia..]. }
  destruct (generated_alike _ _ _ _ _ _ _ _ _ _ HA HB) as (Hdir & Hstores & Hinfo).
  split_and!; try done.
  - rewrite Hp. by case_decide.
  - intros E%Hdir. revert Hnd. unfold used.
    rewrite (listens_generated _ _ _ _ _ _ _ H1 HA), (listens_generated _ _ _ _ _ _ _ H2 HB).
    unfold all_ports. rewrite E. cbn. intros [Hno _]%NoDup_cons. set_solver.
  - intros Hci. rewrite Hp, decide_True by done. apply (bool_decide_eq_true_1 _); by vm_compute.
  - intros Hci. rewrite Hp, decide_False by naive_solver. rewrite Forall_fmap, Forall_seq.
    split; intros Hall i; [intros ?; apply (Hall i); lia|intros ?; apply Hall; lia].
Qed.

(** * Cluster formation *)

(** [seen[port] = true] for the port of every member that parses. *)
Definition member_port (member : string) : option Z :=
  match SplitHostPort member with Some (_, portStr) => Atoi portStr | None => None end.

Definition seen_ports (members : list string) : gset Z := list_to_set (omap member_port members).

(** One try of [waitForClusterFormation]: [reply] is the answer of
    [DescribeCluster], an error, no membership, or the reachable members. *)
Definition cluster_formed (reply : string + option (list string)) (portSets : list portSet) : bool :=
  match reply with
  | inl _ | inr None => false
  | inr (Some members) =>
      let seen := seen_ports members in
      forallb (λ ps, forallb (λ port, bool_decide (port ∈ seen)) (membershipPorts ps)) portSets
  end.

(** The formation test is exact.  It passes if and only if every membership
    port of every server is the port of some reachable member; in particular it
    passes when the members are the servers' addresses, in any order and among
    others. *)
Theorem cluster_formed_exact members portSets :
  (cluster_formed (inr (Some members)) portSets = true ↔
   ∀ ps port, ps ∈ portSets → port ∈ membershipPorts ps →
     ∃ m, m ∈ members ∧ member_port m = Some port) ∧
  ((∀ ps port, ps ∈ portSets → port ∈ membershipPorts ps →
     (0 ≤ port < 2 ^ 63)%Z ∧ "127.0.0.1:" +:+ show_int port ∈ members) →
   cluster_formed (inr (Some members)) portSets = true).
Proof.
  assert (cluster_formed (inr (Some members)) portSets = true ↔
   ∀ ps port, ps ∈ portSets → port ∈ membershipPorts ps →
     ∃ m, m ∈ members ∧ member_port m = Some port) as Hiff; [|split; [done|]].
  - unfold cluster_formed, seen_ports. rewrite forallb_forall.
    setoid_rewrite forallb_forall. setoid_rewrite <-list_elem_of_In.
    setoid_rewrite bool_decide_eq_true. setoid_rewrite elem_of_list_to_set.
    setoid_rewrite list_elem_of_omap. naive_solver.
  - intros Hall. apply Hiff. intros ps port Hps Hport. destruct (Hall ps port Hps Hport) as [Hr Hin].
    eexists. split; [exact Hin|]. unfold member_port.
    change ("127.0.0.1:" +:+ show_int port) with ("127.0.0.1" +:+ ":" +:+ show_int port).
    rewrite (SplitHostPort_join "127.0.0.1" (show_int port)).
    + by apply Atoi_show_int.
    + repeat constructor; unfold host_char; set_solver.
    + apply show_int_host. lia.
Qed.

(** * The release to test against *)

(** Versions ([github.com/blang/semver]): [Major] and [Minor] are [uint64], and
    [v.GT(w)] compares precedence, a strict order. *)
Class Semver := {
  Version : Type;
  Version_eq_dec : EqDecision Version;
  zero_version : Version;
  Major : Version → Z;
  Minor : Version → Z;
  GT : Version → Version → bool;
  Parse : string → option Version;
  ParseTolerant : string → option Version
}.
#[global] Existing Instance Version_eq_dec.

Class SemverLaws `{Semver} := {
  GT_irrefl v : GT v v = false;
  GT_trans u v w : GT u v = true → GT v w = true → GT u w = true
}.

Section release.
Context `{Semver}.

(** [semver.MustParse] panics on a string that is no version. *)
Definition resolveReleaseVersion (serverVersion : string) (tags : list string) : res Version :=
  match Parse serverVersion with
  | None => Panic "invalid version"
  | Some current =>
      let targetMajor := Major current in
      let targetMinor := u64 (Minor current - 1) in
      Ok (foldl (λ best tag,
            match ParseTolerant tag with
            | None => best
            | Some v =>
                if decide (Major v = targetMajor ∧ Minor v = targetMinor ∧ GT v best = true)
                then v else best
            end) zero_version tags)
  end.

(** The tags in the output of [git ls-remote]. *)
Definition release_tags (out : string) : list string :=
  omap (λ line, match Fields line with
                | [_; ref] => Some (TrimPrefix ref "refs/tags/")
                | _ => None
                end) (Split out (String (Ascii.ascii_of_nat 10) "")).

(** One try of [downloadAndBuildReleaseServer]: [None] is tried again. *)
Definition fetch_release (serverVersion : string) (reply : string + string) : res (option Version) :=
  match reply with
  | inl _ => Ok None
  | inr out =>
      match resolveReleaseVersion serverVersion (release_tags out) with
      | Ok version => Ok (if decide (version = zero_version) then None else Some version)
      | Err e => Err e
      | Panic e => Panic e
      | Diverge => Diverge
      end
  end.

(** A version of the minor before [current]. *)
Definition previous_minor (current v : Version) : Prop :=
  Major v = Major current ∧ Minor v = u64 (Minor current - 1).

Context {SL : SemverLaws}.

Lemma resolve_best current serverVersion tags :
  Parse serverVersion = Some current →
  ∃ best, resolveReleaseVersion serverVersion tags = Ok best ∧
    (best = zero_version ∨
     ∃ tag, tag ∈ tags ∧ ParseTolerant tag = Some best ∧ previous_minor current best ∧
            GT best zero_version = true) ∧
    ∀ tag v, tag ∈ tags → ParseTolerant tag = Some v → previous_minor current v →
      GT v best = false.
Proof using SL.
  intros Hp. unfold resolveReleaseVersion, previous_minor. rewrite Hp. eexists. split; [done|].
  induction tags as [|tag tags IH] using rev_ind; [split; [by left|set_solver]|].
  rewrite foldl_app. cbn [foldl]. set (best := foldl _ _ tags) in *.
  destruct IH as [IH1 IH2].
  assert (∀ t v, t ∈ tags ++ [tag] → ParseTolerant t = Some v →
    t ∈ tags ∨ ParseTolerant tag = Some v) as Hsplit.
  { intros t v [Hin|Hin]%elem_of_app Hv; [by left|]. apply list_elem_of_singleton in Hin as ->. by right. }
  destruct (ParseTolerant tag) as [v|] eqn:Ev.
  2: { split; [destruct IH1 as [?|(t & ? & ?)]; [by left|right; exists t; set_solver]|].
    intros t v Hin Hv Hm. destruct (Hsplit t v Hin Hv); [by eapply IH2|done]. }
  case_decide as Hc.
  - destruct Hc as (H1 & H2 & H3). split.
    + right. exists tag. split; [set_solver|]. split; [done|]. split; [done|].
      destruct IH1 as [->|(_ & _ & _ & _ & Hz)]; [done|]. by eapply GT_trans.
    + intros t u Hin Hu Hm. destruct (Hsplit t u Hin Hu) as [Hin'|[= ->]]; [|apply GT_irrefl].
      destruct (GT u v) eqn:E; [|done]. specialize (IH2 t u Hin' Hu Hm).
      by rewrite (GT_trans u v best E H3) in IH2.
  - split; [destruct IH1 as [?|(t & ? & ?)]; [by left|right; exists t; set_solver]|].
    intros t u Hin Hu Hm. destruct (Hsplit t u Hin Hu) as [Hin'|[= ->]]; [by eapply IH2|].
    destruct (GT u best) eqn:E; [|done]. destruct Hc. by destruct Hm.
Qed.

(** The best release is tested against.  From the output of [git ls-remote]
    the test picks a tag of the minor before the server's own, of the highest
    precedence among all such tags; it tries again exactly when there is no such
    tag above the zero version.  (For a server of minor 0 the minor before it
    wraps around, and there is no such tag.) *)
Theorem release_is_best current serverVersion out :
  Parse serverVersion = Some current →
  (∃ v, fetch_release serverVersion (inr out) = Ok (Some v) ∧
        (∃ tag, tag ∈ release_tags out ∧ ParseTolerant tag = Some v) ∧ previous_minor current v ∧
        ∀ tag u, tag ∈ release_tags out → ParseTolerant tag = Some u → previous_minor current u →
          GT u v = false) ∨
  (fetch_release serverVersion (inr out) = Ok None ∧
   ∀ tag u, tag ∈ release_tags out → ParseTolerant tag = Some u → previous_minor current u →
     GT u zero_version = false).
Proof using SL.
  intros Hp. destruct (resolve_best current serverVersion (release_tags out) Hp)
    as (best & Hr & Hbest & Hmax). unfold fetch_release. rewrite Hr.
  destruct Hbest as [->|(tag & Htag & Hv & Hm & Hz)].
  - right. by rewrite decide_True.
  - left. exists best. rewrite decide_False; [by eauto 10|].
    intros ->. by rewrite GT_irrefl in Hz.
Qed.
End release.

(** * The load-balancing proxy *)

Record frontendProxy := mkProxy { backends : list string; connCount : list Z; next : Z }.

Definition startFrontendProxy (backends : list string) : frontendProxy :=
  mkProxy backends (replicate (length backends) 0%Z) 0.

(** One round of [serve]: the backend the accepted connection is proxied to. *)
Definition serve_conn : GoM frontendProxy string := λ p,
  let n := i64 (next p + 1) in
  let p := mkProxy (backends p) (connCount p) n in
  if decide (length (backends p) = 0) then (p, Panic "runtime error: integer divide by zero")
  else
    let idx := Z.rem (i64 (n - 1)) (Z.of_nat (length (backends p))) in
    if decide (idx < 0)%Z then (p, Panic "runtime error: index out of range")
    else match connCount p !! Z.to_nat idx, backends p !! Z.to_nat idx with
         | Some c, Some backend =>
             (mkProxy (backends p) (<[Z.to_nat idx := i64 (c + 1)]> (connCount p)) (next p), Ok backend)
         | _, _ => (p, Panic "runtime error: index out of range")
         end.

Fixpoint serve_conns (n : nat) : GoM frontendProxy (list string) :=
  match n with
  | O => mret []
  | S n => served ← serve_conns n; backend ← serve_conn; mret (served ++ [backend])
  end.

(** How often index [i] is used in [n] rounds over [k] backends. *)
Definition share (k n i : nat) : Z := Z.of_nat ((n + (k - 1 - i)) / k).

Lemma share_next k n i :
  i < k → share k (S n) i = (share k n i + (if decide (i = n mod k)%nat then 1 else 0))%Z.
Proof.
  intros Hi. unfold share. pose proof (Nat.div_mod n k ltac:(lia)) as Hn.
  pose proof (Nat.mod_upper_bound n k ltac:(lia)) as Hr.
  set (q := n / k) in *. set (r := n mod k) in *. case_decide as Heq.
  - rewrite <-(Nat.div_unique (S n + (k - 1 - i)) k (q + 1) 0) by lia.
    rewrite <-(Nat.div_unique (n + (k - 1 - i)) k q (k - 1)) by lia. lia.
  - destruct (decide (i < r)).
    + rewrite <-(Nat.div_unique (S n + (k - 1 - i)) k (q + 1) (r - i)) by lia.
      rewrite <-(Nat.div_unique (n + (k - 1 - i)) k (q + 1) (r - 1 - i)) by lia. lia.
    + rewrite <-(Nat.div_unique (S n + (k - 1 - i)) k q (S r + (k - 1 - i))) by lia.
      rewrite <-(Nat.div_unique (n + (k - 1 - i)) k q (r + (k - 1 - i))) by lia. lia.
Qed.

Lemma share_bound k n i : i < k → (0 ≤ share k n i ≤ Z.of_nat n)%Z.
Proof.
  intros Hi. unfold share. assert ((n + (k - 1 - i)) / k ≤ n); [|lia].
  destruct (decide (n = 0)) as [->|]; [rewrite Nat.div_small; lia|].
  apply Nat.Div0.div_le_upper_bound. nia.
Qed.

Lemma serve_conns_counts bs n :
  bs ≠ [] → (Z.of_nat n < 2 ^ 63)%Z →
  ∃ served, serve_conns n (startFrontendProxy bs) =
    (mkProxy bs (share (length bs) n <$> seq 0 (length bs)) (Z.of_nat n), Ok served) ∧
    length served = n ∧ ∀ i, i < n → served !! i = bs !! (i mod length bs).
Proof.
  intros Hbs. assert (0 < length bs) as Hk by (destruct bs; simpl; [done|lia]).
  induction n as [|n IH]; intros Hn.
  - exists []. split; [|split; [done|intros; lia]].
    unfold startFrontendProxy. cbn [serve_conns]. go_simpl. do 2 f_equal.
    apply list_eq. intros i. rewrite list_lookup_fmap. destruct (decide (i < length bs)).
    + rewrite lookup_replicate_2, lookup_seq_lt by lia. cbn. unfold share.
      by rewrite Nat.div_small by lia.
    + rewrite lookup_seq_ge by lia. by apply lookup_replicate_None; lia.
  - destruct IH as (served & Hs & Hlen & Hall); [lia|]. set (k := length bs) in *.
    pose proof (Nat.mod_upper_bound n k ltac:(lia)) as Hmod.
    destruct (lookup_lt_is_Some_2 bs (n mod k)) as [b Hb]; [done|].
    exists (served ++ [b]).
    cbn [serve_conns]. rewrite (go_bind_ok _ _ _ _ _ Hs). split.
    + unfold mbind, go_bind, serve_conn. cbn [backends connCount next]. fold k.
      rewrite decide_False by lia. rewrite (i64_small (Z.of_nat n + 1)) by lia.
      replace (Z.of_nat n + 1 - 1)%Z with (Z.of_nat n) by lia. rewrite i64_small by lia.
      rewrite Z.rem_mod_nonneg, <-Nat2Z.inj_mod by lia. rewrite decide_False by lia.
      rewrite Nat2Z.id, list_lookup_fmap, lookup_seq_lt by lia. cbn. rewrite Hb. cbn.
      replace (Z.of_nat n + 1)%Z with (Z.of_nat (S n)) by lia. go_simpl. do 2 f_equal.
      pose proof (share_bound k n (n mod k) Hmod). rewrite i64_small by lia.
      apply list_eq. intros i. rewrite list_lookup_fmap.
      destruct (decide (i = n mod k)) as [->|Hne].
      * rewrite list_lookup_insert_eq, lookup_seq_lt by (rewrite ?length_fmap, ?length_seq; lia).
        cbn. by rewrite share_next, decide_True by lia.
      * rewrite list_lookup_insert_ne, list_lookup_fmap by lia.
        destruct (decide (i < k)); [|by rewrite !lookup_seq_ge by lia].
        rewrite !lookup_seq_lt by lia. cbn. by rewrite share_next, decide_False, Z.add_0_r by lia.
    + split; [rewrite length_app; simpl; lia|]. intros i Hi.
      destruct (decide (i < n)); [rewrite lookup_app_l by lia; by apply Hall|].
      assert (i = n) as -> by lia. rewrite lookup_app_r by lia.
      by rewrite Hlen, Nat.sub_diag, Hb.
Qed.

(** Connections are spread evenly.  A proxy with backends accepts any
    (64-bit) number of connections without panicking; the [i]-th goes to backend
    [i] modulo their number, the counts differ by at most one, and every backend
    has been used once there are as many connections as backends. *)
Theorem connections_balanced bs n :
  bs ≠ [] → (Z.of_nat n < 2 ^ 63)%Z →
  ∃ served p, serve_conns n (startFrontendProxy bs) = (p, Ok served) ∧
    (∀ i, i < n → served !! i = bs !! (i mod length bs)) ∧
    length (connCount p) = length bs ∧
    (∀ i j ci cj, connCount p !! i = Some ci → connCount p !! j = Some cj →
       (Z.abs (ci - cj) ≤ 1)%Z) ∧
    (length bs ≤ n → Forall (λ c, 0 < c)%Z (connCount p)).
Proof.
  intros Hbs Hn. destruct (serve_conns_counts bs n Hbs Hn) as (served & Hs & _ & Hall).
  assert (0 < length bs) as Hk by (destruct bs; simpl; [done|lia]).
  eexists served, _. split; [exact Hs|]. split; [done|]. cbn [connCount].
  split; [by rewrite length_fmap, length_seq|]. split.
  - intros i j ci cj (x & -> & [-> Hx]%lookup_seq)%list_lookup_fmap_Some.
    intros (y & -> & [-> Hy]%lookup_seq)%list_lookup_fmap_Some. unfold share.
    set (k := length bs) in *.
    assert (∀ z, z < k → n / k ≤ (n + (k - 1 - z)) / k ≤ n / k + 1) as Hb;
      [|simpl; pose proof (Hb i Hx); pose proof (Hb j Hy); lia].
    intros z Hz. split; [apply Nat.Div0.div_le_mono; lia|].
    replace (n / k + 1) with ((n + 1 * k) / k) by (rewrite Nat.div_add; lia).
    apply Nat.Div0.div_le_mono. lia.
  - intros Hle. apply Forall_fmap, Forall_forall. intros i Hi%elem_of_seq. unfold compose, share.
    assert (1 ≤ (n + (length bs - 1 - i)) / length bs); [|lia].
    apply Nat.div_le_lower_bound; lia.
Qed.

(** * The server processes *)

(** [done] is the buffered channel the waiting goroutine sends to, once. *)
Record serverProcess := mkProcess { running : bool; done_chan : option string; log_open : bool }.

(** The process ends, by itself or after [cancel]; [err] is what [cmd.Wait]
    returns, [""] standing for nil. *)
Definition process_exit (err : string) (p : serverProcess) : serverProcess :=
  if running p then mkProcess false (Some err) (log_open p) else p.

(** The value is put back before the test fails. *)
Definition requireAlive (name : string) : GoM serverProcess unit := λ p,
  match done_chan p with
  | Some err =>
      (mkProcess (running p) (Some err) (log_open p), Panic (name +:+ " exited unexpectedly: " +:+ err))
  | None => (p, Ok tt)
  end.

(** [stop] waits on the channel: [None] while it is empty. *)
Definition stop (p : serverProcess) : option serverProcess :=
  match done_chan p with
  | Some _ => Some (mkProcess (running p) None false)
  | None => None
  end.

(** However often the test asked, a stopped process does not block [stop]. *)
Lemma stop_returns err name n p :
  running p = true → done_chan p = None →
  (requireAlive name p).2 = Ok tt ∧
  is_Some (stop (Nat.iter n (λ q, (requireAlive name q).1) (process_exit err p))).
Proof.
  intros Hr Hd. split; [unfold requireAlive; by rewrite Hd|].
  assert (Nat.iter n (λ q, (requireAlive name q).1) (process_exit err p) = process_exit err p) as ->.
  { unfold process_exit. rewrite Hr. induction n as [|n IH]; [done|].
    change (Nat.iter (S n) ?f ?x) with (f (Nat.iter n f x)). by rewrite IH. }
  unfold process_exit, stop. by rewrite Hr.
Qed.

(** The conditions of [registerDefaultNamespace] and [createNexusEndpoint]: the
    gRPC code of the error, if any and if it has one. *)
Inductive grpc_reply := ReplyOk | ReplyStatus (code : Z) | ReplyError.

Definition AlreadyExists : Z := 6.

Definition created (reply : grpc_reply) : bool :=
  match reply with
  | ReplyOk => true
  | ReplyStatus code => bool_decide (code = AlreadyExists)
  | ReplyError => false
  end.

(** * The properties at the test's own values *)

Definition w_free_port (i : nat) : Z := 40000 + Z.of_nat i.

Lemma server_configs_fit_witness :
  (∃ dirA cfgA dirB cfgB,
    generateConfig "/src" "" "/tmp/x" portSetA portSetA = Ok (dirA, cfgA) ∧
    generateConfig "/src" "" "/tmp/x" portSetB portSetA = Ok (dirB, cfgB) ∧
    NoDup (listens cfgA ++ listens cfgB) ∧
    Forall (λ p, 1024 ≤ p ≤ 32767)%Z (listens cfgA ++ listens cfgB)) ∧
  (∃ dirA cfgA dirB cfgB,
    generateConfig "/src" "" "/tmp/x" (test_ports "" w_free_port).1 (test_ports "" w_free_port).1 =
      Ok (dirA, cfgA) ∧
    generateConfig "/src" "" "/tmp/x" (test_ports "" w_free_port).2 (test_ports "" w_free_port).1 =
      Ok (dirB, cfgB) ∧
    NoDup (listens cfgA ++ listens cfgB) ∧
    ¬ Forall (λ p, p ≤ 32767)%Z (listens cfgA ++ listens cfgB)).
Proof.
  split; (eexists _, _, _, _; split; [reflexivity|]; split; [reflexivity|]).
  - edestruct (server_configs_fit "/src" "" "/tmp/x" "true" w_free_port)
      as (Hnd & _ & _ & _ & _ & Hfix & _); [discriminate|reflexivity|reflexivity|].
    split; [exact Hnd|apply Hfix; discriminate].
  - edestruct (server_configs_fit "/src" "" "/tmp/x" "" w_free_port)
      as (Hnd & _ & _ & _ & _ & _ & Hfree); [|reflexivity|reflexivity|].
    + intros _. unfold w_free_port. split; intros; lia.
    + split; [exact Hnd|]. intros Hall. pose proof (proj1 (Hfree eq_refl) Hall 0 ltac:(lia)) as H0.
      unfold w_free_port in H0. lia.
Defined.

Lemma cluster_formed_exact_witness :
  cluster_formed (inr (Some ["127.0.0.1:7231"; "x"; "127.0.0.1:7234"; "127.0.0.1:7236"; "127.0.0.1:7238"]))
    [portSetA] = true ∧
  cluster_formed (inr (Some ["127.0.0.1:7231"; "127.0.0.1:7234"; "127.0.0.1:7236"])) [portSetA] = false.
Proof.
  split; [|vm_compute; reflexivity]. apply cluster_formed_exact.
  intros ps port ->%list_elem_of_singleton Hport. vm_compute in Hport.
  repeat (apply elem_of_cons in Hport as [->|Hport];
    [split; [lia|]; vm_compute; repeat (apply list_elem_of_here || apply list_elem_of_further)|]).
  by apply elem_of_nil in Hport.
Defined.

(** Versions with three numbers, compared lexicographically. *)
Definition parse_version (s : string) : option (Z * Z * Z) :=
  match Split s "." with
  | [a; b; c] => a ← Atoi a; b ← Atoi b; c ← Atoi c; Some (a, b, c)
  | _ => None
  end.

Definition version_gt (u v : Z * Z * Z) : bool :=
  bool_decide (v.1.1 < u.1.1 ∨ v.1.1 = u.1.1 ∧ (v.1.2 < u.1.2 ∨ v.1.2 = u.1.2 ∧ v.2 < u.2))%Z.

Definition Semver_ref : Semver := {|
  Version := Z * Z * Z;
  Version_eq_dec := _;
  zero_version := (0, 0, 0)%Z;
  Major v := v.1.1;
  Minor v := v.1.2;
  GT := version_gt;
  Parse := parse_version;
  ParseTolerant s := parse_version (TrimPrefix s "v")
|}.

Lemma Semver_ref_laws : SemverLaws (H := Semver_ref).
Proof.
  split; simpl; unfold version_gt.
  - intros v. apply bool_decide_eq_false. lia.
  - intros u v w. rewrite !bool_decide_eq_true. lia.
Qed.

Definition w_ls_remote : string :=
  let nl := String (Ascii.ascii_of_nat 10) "" in
  let tab := String (Ascii.ascii_of_nat 9) "" in
  "a1" +:+ tab +:+ "refs/tags/v1.30.2" +:+ nl +:+ "b2" +:+ tab +:+ "refs/tags/v1.29.9" +:+ nl +:+
  "c3" +:+ tab +:+ "refs/tags/v1.30.11" +:+ nl +:+ "d4" +:+ tab +:+ "refs/tags/v1.31.0" +:+ nl.

Lemma release_is_best_witness :
  fetch_release (H := Semver_ref) "1.31.2" (inr w_ls_remote) = Ok (Some (1, 30, 11)%Z) ∧
  ∀ tag u, tag ∈ release_tags w_ls_remote → ParseTolerant (Semver := Semver_ref) tag = Some u →
    previous_minor (H := Semver_ref) (1, 31, 2)%Z u → version_gt u (1, 30, 11)%Z = false.
Proof.
  assert (fetch_release (H := Semver_ref) "1.31.2" (inr w_ls_remote) = Ok (Some (1, 30, 11)%Z)) as E
    by (vm_compute; reflexivity).
  split; [exact E|].
  destruct (release_is_best (H := Semver_ref) (SL := Semver_ref_laws) (1, 31, 2)%Z "1.31.2" w_ls_remote)
    as [(v & Hv & _ & _ & Hmax)|[Hn _]]; [vm_compute; reflexivity| |].
  - rewrite E in Hv. injection Hv as <-. exact Hmax.
  - rewrite E in Hn. discriminate Hn.
Defined.

Lemma connections_balanced_witness :
  ∃ served p, serve_conns 5 (startFrontendProxy ["current"; "release"]) = (p, Ok served) ∧
    Forall (λ c, 0 < c)%Z (connCount p).
Proof.
  destruct (connections_balanced ["current"; "release"] 5) as (served & p & H1 & _ & _ & _ & H2);
    [discriminate|lia|].
  exists served, p. split; [exact H1|]. apply H2. simpl. lia.
Defined.
