(* ===== verification/DataConverter.v ===== *)
(** The data converter of the tests
    ([conformance-tests/testcore/test_data_converter.go]): payloads encoded with
    encoding/gob, and counters of the calls. *)

From S2P Require Import Prelude GoStrings.
From stdpp Require Import options.

(** * encoding/gob *)

(** [Encode] of a value, [Decode] into a variable of type [T], and [%+v]; an
    error is on the left. *)
Class Gob (V T : Type) := {
  gob_Encode : V → string + list byte;
  gob_Decode : T → list byte → string + V;
  gob_any : T;
  show_value : V → string;
  type_name : V → string
}.

(** A value decodes into a variable of its own type. *)
Class GobLaws (V T : Type) `{Gob V T} := {
  type_of : V → T;
  gob_roundtrip v b : gob_Encode v = inr b → gob_Decode (type_of v) b = inr v
}.

Record pb_Payload := mkPb { Metadata : gmap string (list byte); Data : list byte }.

Record TestDataConverter := mkTDC { NumOfCallToPayloads : Z; NumOfCallFromPayloads : Z }.

Definition NewTestDataConverter : TestDataConverter := mkTDC 0 0.

Definition ErrEncodingIsNotSet : string := "payload encoding metadata is not set".
Definition ErrEncodingIsNotSupported : string := "payload encoding is not supported".

Section converter.
Context {V T : Type} `{Gob V T}.

Definition ToPayload (value : V) : string + pb_Payload :=
  match gob_Encode value with
  | inl err => inl err
  | inr buf => inr (mkPb {["encoding" := bytes_of "gob"]} buf)
  end.

Definition decodeGob (payload : pb_Payload) (target : T) : string + V :=
  gob_Decode target (Data payload).

(** The encoding is checked before the data is looked at. *)
Definition FromPayload (payload : pb_Payload) (target : T) : string + V :=
  match Metadata payload !! "encoding" with
  | None => inl ErrEncodingIsNotSet
  | Some encoding =>
      if decide (string_of encoding ≠ "gob") then inl ErrEncodingIsNotSupported
      else decodeGob payload target
  end.

Fixpoint to_payloads (i : nat) (values : list V) : string + list pb_Payload :=
  match values with
  | [] => inr []
  | value :: values =>
      match ToPayload value with
      | inl err => inl ("args[" +:+ Itoa i +:+ "], " +:+ type_name value +:+ ": " +:+ err)
      | inr p =>
          match to_payloads (S i) values with inl err => inl err | inr ps => inr (p :: ps) end
      end
  end.

Definition ToPayloads (values : list V) : GoM TestDataConverter (list pb_Payload) := λ tdc,
  (mkTDC (i64 (NumOfCallToPayloads tdc + 1)) (NumOfCallFromPayloads tdc),
   match to_payloads 0 values with inl err => Err err | inr ps => Ok ps end).

(** A variable of type [T], with its value once it is set; the variables are
    written in place, so those before an error or a panic stay written. *)
Definition variable : Type := T * option V.

Fixpoint from_payloads (i : nat) (payloads : list pb_Payload) (vars : list variable)
    : list variable * res unit :=
  match payloads with
  | [] => (vars, Ok tt)
  | p :: payloads =>
      match vars with
      | [] => ([], Panic "runtime error: index out of range")
      | (t, old) :: vars =>
          match FromPayload p t with
          | inl err => ((t, old) :: vars, Err ("args[" +:+ Itoa i +:+ "]: " +:+ err))
          | inr v =>
              let r := from_payloads (S i) payloads vars in ((t, Some v) :: r.1, r.2)
          end
      end
  end.

Definition FromPayloads (payloads : list pb_Payload) (vars : list variable)
    : GoM TestDataConverter (list variable) := λ tdc,
  let r := from_payloads 0 payloads vars in
  (mkTDC (NumOfCallToPayloads tdc) (i64 (NumOfCallFromPayloads tdc + 1)),
   match r.2 with Ok _ => Ok r.1 | Err e => Err e | Panic e => Panic e | Diverge => Diverge end).

Definition ToString (payload : pb_Payload) : string :=
  match Metadata payload !! "encoding" with
  | None => ErrEncodingIsNotSet
  | Some encoding =>
      if decide (string_of encoding ≠ "gob") then ErrEncodingIsNotSupported
      else match decodeGob payload gob_any with inl err => err | inr v => show_value v end
  end.

Definition ToStrings (payloads : list pb_Payload) : list string := ToString <$> payloads.

Context {GL : GobLaws V T}.

Lemma ToPayload_roundtrip v p : ToPayload v = inr p → FromPayload p (type_of v) = inr v.
Proof using GL.
  unfold ToPayload. destruct (gob_Encode v) as [|b] eqn:E; [done|]. intros [= <-].
  unfold FromPayload. cbn [Metadata]. rewrite lookup_singleton_eq, string_of_bytes_of.
  rewrite decide_False by (by intros []). by apply gob_roundtrip.
Qed.

(** The variables of some values, before and after. *)
Definition unset (values : list V) : list variable := (λ v, (type_of v, None)) <$> values.
Definition filled (values : list V) : list variable := (λ v, (type_of v, Some v)) <$> values.

Lemma from_to_payloads i j values ps rest :
  to_payloads i values = inr ps →
  from_payloads j ps (unset values ++ rest) = (filled values ++ rest, Ok tt).
Proof using GL.
  revert i j ps. induction values as [|v values IH]; intros i j ps; cbn [to_payloads].
  { by intros [= <-]. }
  destruct (ToPayload v) as [|p] eqn:Ep; [done|].
  destruct (to_payloads (S i) values) as [|ps'] eqn:Eps; [done|]. intros [= <-].
  change (unset (v :: values) ++ rest) with ((type_of v, None) :: (unset values ++ rest)).
  cbn [from_payloads]. rewrite (ToPayload_roundtrip v p Ep). by rewrite (IH (S i) (S j) ps').
Qed.

(** Too few variables. *)
Lemma from_payloads_short i j vs ws ps :
  ws ≠ [] → to_payloads i (vs ++ ws) = inr ps →
  (from_payloads j ps (unset vs)).2 = Panic "runtime error: index out of range".
Proof using GL.
  intros Hws. revert i j ps. induction vs as [|v vs IH]; intros i j ps.
  - destruct ws as [|w ws]; [done|]. cbn [app to_payloads]. destruct (ToPayload w); [done|].
    destruct (to_payloads (S i) ws); [done|]. by intros [= <-].
  - cbn [app to_payloads]. destruct (ToPayload v) as [|q] eqn:Eq; [done|].
    destruct (to_payloads (S i) (vs ++ ws)) as [|qs] eqn:E; [done|]. intros [= <-].
    change (unset (v :: vs)) with ((type_of v, None) :: unset vs).
    cbn [from_payloads]. rewrite (ToPayload_roundtrip v q Eq). cbn [snd]. by eapply IH.
Qed.

(** The converter loses nothing.  Values that are encoded decode to
    themselves into variables of their types; variables beyond the payloads are
    left alone, and with fewer variables than payloads the call panics.  Each
    direction counts one call, also when it fails. *)
Theorem converter_roundtrip values ps extra tdc :
  (ToPayloads values tdc).2 = Ok ps →
  (FromPayloads ps (unset values ++ extra) tdc).2 = Ok (filled values ++ extra) ∧
  (∀ vs ws, values = vs ++ ws → ws ≠ [] → is_panic (FromPayloads ps (unset vs) tdc).2 = true) ∧
  (ToPayloads values tdc).1 = mkTDC (i64 (NumOfCallToPayloads tdc + 1)) (NumOfCallFromPayloads tdc) ∧
  ∀ ps' vars, (FromPayloads ps' vars tdc).1 =
    mkTDC (NumOfCallToPayloads tdc) (i64 (NumOfCallFromPayloads tdc + 1)).
Proof using GL.
  unfold ToPayloads. cbn [fst snd]. destruct (to_payloads 0 values) as [|ps0] eqn:E; [done|].
  intros [= ->]. split; [|split; [|done]].
  - unfold FromPayloads. cbn [snd]. by rewrite (from_to_payloads 0 0 values ps extra E).
  - intros vs ws -> Hws. unfold FromPayloads. cbn [snd].
    by rewrite (from_payloads_short 0 0 vs ws ps Hws E).
Qed.
End converter.

(** * The property at a concrete encoding *)

(** Numbers and strings, with a byte for their type. *)
Inductive w_value := WNum (n : Z) | WStr (s : string).
Inductive w_type := TNum | TStr | TAny.

#[global] Instance w_gob : Gob w_value w_type := {|
  gob_Encode v := match v with
                  | WNum n => if decide (0 ≤ n < 256)%Z then inr [x01; byte_of_Z n] else inl "overflow"
                  | WStr s => inr (x02 :: bytes_of s)
                  end;
  gob_Decode t b := match b, t with
                    | [x01; n], (TNum | TAny) => inr (WNum (byteZ n))
                    | x02 :: s, (TStr | TAny) => inr (WStr (string_of s))
                    | _, _ => inl "gob: type mismatch"
                    end;
  gob_any := TAny;
  show_value v := match v with WNum _ => "a number" | WStr s => s end;
  type_name v := match v with WNum _ => "int" | WStr _ => "string" end
|}.

#[global] Program Instance w_gob_laws : GobLaws w_value w_type :=
  {| type_of v := match v with WNum _ => TNum | WStr _ => TStr end |}.
Next Obligation.
  intros [n|s] b; simpl.
  - case_decide; [|done]. intros [= <-]. rewrite byteZ_of_Z. unfold u8. by rewrite Z.mod_small by lia.
  - intros [= <-]. by rewrite string_of_bytes_of.
Qed.

Lemma converter_roundtrip_witness :
  ∃ ps, (ToPayloads [WNum 7; WStr "x"] NewTestDataConverter).2 = Ok ps ∧
    (FromPayloads ps (unset [WNum 7; WStr "x"] ++ []) NewTestDataConverter).2 =
      Ok (filled [WNum 7; WStr "x"] ++ []) ∧
    is_panic (FromPayloads ps (unset [WNum 7]) NewTestDataConverter).2 = true.
Proof.
  eexists. split; [vm_compute; reflexivity|].
  destruct (converter_roundtrip [WNum 7; WStr "x"]
    [mkPb {["encoding" := bytes_of "gob"]} [x01; x07];
     mkPb {["encoding" := bytes_of "gob"]} [x02; x78]] [] NewTestDataConverter) as (H1 & H2 & _);
    [vm_compute; reflexivity|].
  split; [exact H1|]. apply (H2 [WNum 7] [WStr "x"]); [reflexivity|discriminate].
Defined.
