(* ===== verification/NexusPoller.v ===== *)
(** The Nexus helpers of the conformance tests
    ([conformance-tests/nexus_test_base.go]): the poller that answers one Nexus
    task with what the test's handler returned, and the endpoints a test creates
    and deletes again. *)

From S2P Require Import Prelude.
From stdpp Require Import options.

(** * Data *)

Inductive RetryBehavior := RetryUnspecified | Retryable | NonRetryable.

(** The two error types of the Nexus SDK; the cause is any [error]. *)
Record OperationError (error : Type) := mkOperationError {
  oe_State : string; oe_Message : string; oe_Cause : option error }.
Record HandlerError (error : Type) := mkHandlerError {
  he_Type : string; he_Message : string; he_Cause : option error; he_RetryBehavior : RetryBehavior }.
Arguments mkOperationError {_} _ _ _.
Arguments oe_State {_} _.
Arguments oe_Message {_} _.
Arguments oe_Cause {_} _.
Arguments mkHandlerError {_} _ _ _ _.
Arguments he_Type {_} _.
Arguments he_Message {_} _.
Arguments he_Cause {_} _.
Arguments he_RetryBehavior {_} _.

(** The packages the poller calls: [errors.AsType] at the three types it asks
    for, the conversions between errors and failures, the empty failure with a
    message, and [URL.String]. *)
Class NexusTypes (error NexusFailure TemporalFailure ProtoFailure URL : Type) := {
  AsOperationError : error → option (OperationError error);
  AsHandlerError : error → option (HandlerError error);
  AsNotFound : error → bool;
  operation_error : OperationError error → error;
  handler_error : HandlerError error → error;
  errors_New : string → error;
  ErrorToFailure : error → error + NexusFailure;
  NexusFailureToTemporalFailure : NexusFailure → error + TemporalFailure;
  NexusFailureToProtoFailure : NexusFailure → ProtoFailure;
  message_failure : string → ProtoFailure;
  URL_String : URL → string
}.

Section nexus.
Context {error NexusFailure TemporalFailure ProtoFailure URL Payload : Type}.
Context {NT : NexusTypes error NexusFailure TemporalFailure ProtoFailure URL}.

Record WorkerVersionCapabilities := mkCapabilities { BuildId : string; UseVersioning : bool }.

Record PollNexusTaskQueueRequest := mkPoll {
  pq_Namespace : string; pq_Identity : string; pq_TaskQueue : string;
  pq_Capabilities : option WorkerVersionCapabilities }.

(** The service named by the request's operation; a request that is not of the
    kind asked for has none, which the getters read as the empty name. *)
Inductive nexus_request :=
| StartOperation (service : string)
| CancelOperation (service : string)
| OtherRequest.

Record PollNexusTaskQueueResponse := mkPolled {
  pr_TaskToken : option (list byte); pr_Request : nexus_request }.

Definition GetStartOperation_Service (r : nexus_request) : string :=
  match r with StartOperation s => s | _ => "" end.
Definition GetCancelOperation_Service (r : nexus_request) : string :=
  match r with CancelOperation s => s | _ => "" end.

(** A handler's link (its URL is a pointer), and the link sent. *)
Record Link := mkLink { l_URL : option URL; l_Type : string }.
Record pb_Link := mkPbLink { pl_Url : string; pl_Type : string }.

Inductive HandlerStartOperationResult :=
| StartResultSync (value : Payload)
| StartResultAsync (operationToken : string).

Record nexusTaskResponse := mkTaskResponse {
  StartResult : option HandlerStartOperationResult;
  CancelResult : bool;              (* whether the pointer is set *)
  Links : list Link }.

(** What is sent to the server. *)
Inductive pb_Response :=
| CancelAck
| SyncSuccess (payload : Payload) (links : list pb_Link)
| AsyncSuccess (operationToken : string) (links : list pb_Link)
| StartFailure (failure : TemporalFailure)
| StartOperationError (state : string) (failure : ProtoFailure).

Record pb_HandlerError := mkPbHandlerError {
  ph_ErrorType : string; ph_Failure : ProtoFailure; ph_RetryBehavior : RetryBehavior }.

Inductive answer :=
| TaskCompleted (response : pb_Response)
| TaskFailed (failure : TemporalFailure)
| TaskFailedLegacy (err : pb_HandlerError).

(** The calls of the poller; an answer names its namespace and task. *)
Inductive nexus_call :=
| PollNexusTaskQueue (req : PollNexusTaskQueueRequest)
| Respond (namespace identity : string) (token : list byte) (a : answer).

(** * The services, with a state of their own *)

Class NexusServices (E : Type) := {
  uuid_NewString : E → E * string;
  ctx_Err : E → bool;
  serve_poll : PollNexusTaskQueueRequest → E → E * (error + PollNexusTaskQueueResponse);
  serve_answer : nexus_call → E → E * option error
}.

Context {E : Type} {NS : NexusServices E}.

Definition nexusTaskHandler : Type :=
  PollNexusTaskQueueResponse → E → E * (option nexusTaskResponse * option error).

Record NexusTestEnv := mkNexusEnv { ne_Namespace : string; useTemporalFailures : bool }.

(** The state: the services', and the calls made so far. *)
Definition NxS : Type := E * list nexus_call.

Definition act {A} (f : E → E * A) : GoM NxS A := λ s, let o := f s.1 in ((o.1, s.2), Ok o.2).
Definition rpc {A} (f : E → E * A) (c : nexus_call) : GoM NxS A := λ s,
  let o := f s.1 in ((o.1, s.2 ++ [c]), Ok o.2).

(** [if _, ok := errors.AsType[*serviceerror.NotFound](err); err != nil &&
    ctx.Err() == nil && !ok { return err }; return nil], after an answer. *)
Definition answer_outcome (err : option error) (done : bool) : option error :=
  match err with
  | Some e => if negb done && negb (AsNotFound e) then Some e else None
  | None => None
  end.

(** An answer and what the poller returns for it. *)
Definition send_answer (env : NexusTestEnv) (token : list byte) (a : answer)
    : GoM NxS (option error) :=
  id ← act uuid_NewString;
  let c := Respond (ne_Namespace env) id token a in
  err ← rpc (serve_answer c) c;
  done ← gets (λ s, ctx_Err s.1);
  mret (answer_outcome err done).

(** [f(x)] whose error is returned. *)
Definition or_return {A} (r : error + A) (k : A → GoM NxS (option error)) : GoM NxS (option error) :=
  match r with inl e => mret (Some e) | inr a => k a end.

(** The failure of the legacy paths: of the cause, or the message alone. *)
Definition legacy_failure (cause : option error) (message : string) : error + ProtoFailure :=
  match cause with
  | Some c =>
      match ErrorToFailure c with
      | inl e => inl e
      | inr f => inr (NexusFailureToProtoFailure f)
      end
  | None => inr (message_failure message)
  end.

Definition respondNexusTaskFailed (env : NexusTestEnv) (taskToken : list byte)
    (he : HandlerError error) : GoM NxS (option error) :=
  if useTemporalFailures env then
    or_return (ErrorToFailure (handler_error he)) (λ nexusFailure,
    or_return (NexusFailureToTemporalFailure nexusFailure) (λ temporalFailure,
    send_answer env taskToken (TaskFailed temporalFailure)))
  else
    or_return (legacy_failure (he_Cause he) (he_Message he)) (λ protoFailure,
    send_answer env taskToken
      (TaskFailedLegacy (mkPbHandlerError (he_Type he) protoFailure
         match he_RetryBehavior he with
         | Retryable => Retryable
         | NonRetryable => NonRetryable
         | RetryUnspecified => RetryUnspecified
         end))).

Definition respondNexusTaskCompletedWithOperationError (env : NexusTestEnv) (taskToken : list byte)
    (opErr : OperationError error) : GoM NxS (option error) :=
  if useTemporalFailures env then
    or_return (ErrorToFailure (operation_error opErr)) (λ nexusFailure,
    or_return (NexusFailureToTemporalFailure nexusFailure) (λ temporalFailure,
    send_answer env taskToken (TaskCompleted (StartFailure temporalFailure))))
  else
    or_return (legacy_failure (oe_Cause opErr) (oe_Message opErr)) (λ protoFailure,
    send_answer env taskToken
      (TaskCompleted (StartOperationError (oe_State opErr) protoFailure))).

(** [for _, l := range result.Links]: a nil URL is dereferenced. *)
Fixpoint convert_links (links : list Link) : res (list pb_Link) :=
  match links with
  | [] => Ok []
  | l :: links =>
      match l_URL l with
      | None => Panic "invalid memory address or nil pointer dereference"
      | Some u =>
          match convert_links links with
          | Ok converted => Ok (mkPbLink (URL_String u) (l_Type l) :: converted)
          | r => r
          end
      end
  end.

Definition build_response (result : nexusTaskResponse) : GoM NxS pb_Response :=
  if CancelResult result then mret CancelAck else
  match StartResult result with
  | Some (StartResultSync value) =>
      links ← lift (convert_links (Links result)); mret (SyncSuccess value links)
  | Some (StartResultAsync operationToken) =>
      links ← lift (convert_links (Links result)); mret (AsyncSuccess operationToken links)
  | None => panic "unreachable"
  end.

(** What is done with a task that was polled. *)
Definition handle_nexus_task (env : NexusTestEnv) (handler : nexusTaskHandler)
    (res : PollNexusTaskQueueResponse) (taskToken : list byte) : GoM NxS (option error) :=
  if decide (GetStartOperation_Service (pr_Request res) ≠ "test-service" ∧
             GetCancelOperation_Service (pr_Request res) ≠ "test-service")
  then mret (Some (errors_New "expected service to be test-service"))
  else
    out ← act (handler res);
    match out with
    | (_, Some handlerErr) =>
        match AsOperationError handlerErr with
        | Some opErr => respondNexusTaskCompletedWithOperationError env taskToken opErr
        | None =>
            match AsHandlerError handlerErr with
            | Some he => respondNexusTaskFailed env taskToken he
            | None => mret (Some handlerErr)
            end
        end
    | (None, None) => mret None
    | (Some result, None) =>
        response ← build_response result;
        send_answer env taskToken (TaskCompleted response)
    end.

Definition versionedNexusTaskPollerDo (env : NexusTestEnv) (taskQueue buildID : string)
    (handler : nexusTaskHandler) : GoM NxS (option error) :=
  let vc := if decide (buildID = "") then None else Some (mkCapabilities buildID true) in
  id ← act uuid_NewString;
  let req := mkPoll (ne_Namespace env) id taskQueue vc in
  polled ← rpc (serve_poll req) (PollNexusTaskQueue req);
  done ← gets (λ s, ctx_Err s.1);
  if (done : bool) then mret None
  else or_return polled (λ res,
    match pr_TaskToken res with
    | None => mret None
    | Some taskToken => handle_nexus_task env handler res taskToken
    end).

(** [nexusTaskPoller] is the poller without a build id; what its goroutine
    returns is the one value of the channel. *)
Definition nexusTaskPoller (env : NexusTestEnv) (taskQueue : string) (handler : nexusTaskHandler)
    : GoM NxS (option error) := versionedNexusTaskPollerDo env taskQueue "" handler.

(** * What the poller sends *)

Lemma bind_act {A B} (f : E → E * A) (k : A → GoM NxS B) s :
  (act f ≫= k) s = k (f s.1).2 ((f s.1).1, s.2).
Proof. done. Qed.
Lemma bind_rpc {A B} (f : E → E * A) c (k : A → GoM NxS B) s :
  (rpc f c ≫= k) s = k (f s.1).2 ((f s.1).1, s.2 ++ [c]).
Proof. done. Qed.
Lemma bind_gets {A B} (f : NxS → A) (k : A → GoM NxS B) s : (gets f ≫= k) s = k (f s) s.
Proof. done. Qed.

(** The answers an environment may give: with Temporal failures it sends no
    legacy error, and without it sends no Temporal failure. *)
Definition in_dialect (env : NexusTestEnv) (a : answer) : Prop :=
  match a with
  | TaskFailed _ | TaskCompleted (StartFailure _) => useTemporalFailures env = true
  | TaskFailedLegacy _ | TaskCompleted (StartOperationError _ _) => useTemporalFailures env = false
  | TaskCompleted _ => True
  end.

(** [m] sends nothing and leaves the outcome to the caller, or sends one answer
    [a] to [token] and returns the server's error for it, unless the context is
    done or the task is not found any more. *)
Definition answers_once (env : NexusTestEnv) (token : list byte) (m : GoM NxS (option error)) : Prop :=
  ∀ s, (m s).1.2 = s.2 ∨
    ∃ id a e, (m s).1.2 = s.2 ++ [Respond (ne_Namespace env) id token a] ∧ in_dialect env a ∧
      let r := serve_answer (Respond (ne_Namespace env) id token a) e in
      (m s).1.1 = r.1 ∧ (m s).2 = Ok (answer_outcome r.2 (ctx_Err r.1)).

Lemma answers_send env token a :
  in_dialect env a → answers_once env token (send_answer env token a).
Proof.
  intros Ha s. right. unfold send_answer. rewrite bind_act. cbn zeta.
  rewrite bind_rpc, bind_gets. cbn [fst snd]. eexists _, a, _. split; [reflexivity|]. by split.
Qed.

Lemma answers_ret env token r : answers_once env token (mret r).
Proof. intros s. by left. Qed.

Lemma answers_or_return {A} env token (r : error + A) k :
  (∀ a, answers_once env token (k a)) → answers_once env token (or_return r k).
Proof. intros Hk. destruct r as [e|a]; [apply answers_ret|apply Hk]. Qed.

Lemma answers_failed env token he : answers_once env token (respondNexusTaskFailed env token he).
Proof.
  unfold respondNexusTaskFailed. destruct (useTemporalFailures env) eqn:Hm;
    repeat (apply answers_or_return; intros ?); by apply answers_send.
Qed.

Lemma answers_operation_error env token oe :
  answers_once env token (respondNexusTaskCompletedWithOperationError env token oe).
Proof.
  unfold respondNexusTaskCompletedWithOperationError. destruct (useTemporalFailures env) eqn:Hm;
    repeat (apply answers_or_return; intros ?); by apply answers_send.
Qed.

(** The response built has no failure in it, and building it sends nothing. *)
Lemma build_response_spec result s :
  (∃ r, build_response result s = (s, Ok r) ∧ ∀ env, in_dialect env (TaskCompleted r)) ∨
  ∃ msg, build_response result s = (s, Panic msg).
Proof.
  unfold build_response. destruct (CancelResult result); [left; by eexists|].
  assert (∀ links, (∃ l, convert_links links = Ok l) ∨ ∃ msg, convert_links links = Panic msg) as Hl.
  { induction links as [|l links [[? IH]|[? IH]]]; simpl; [eauto| |];
      rewrite IH; destruct (l_URL l); eauto. }
  destruct (StartResult result) as [[v|tok]|]; [| |right; by eexists];
    (destruct (Hl (Links result)) as [[l Hl']|[msg Hl']]; unfold mbind, go_bind, lift; rewrite Hl';
     [left|right]; by eexists).
Qed.

Lemma answers_act {A} env token (f : E → E * A) k :
  (∀ a, answers_once env token (k a)) → answers_once env token (act f ≫= k).
Proof. intros Hk s. rewrite bind_act. exact (Hk _ ((f s.1).1, s.2)). Qed.

Lemma answers_handled env handler res token :
  answers_once env token (handle_nexus_task env handler res token).
Proof.
  unfold handle_nexus_task. case_decide; [apply answers_ret|]. apply answers_act.
  intros [[result|] [herr|]].
  2: { intros s. destruct (build_response_spec result s) as [(r & Hr & Hd)|(msg & Hr)];
         unfold mbind, go_bind; rewrite Hr; [by apply answers_send|by left]. }
  3: apply answers_ret.
  all: destruct (AsOperationError herr); [apply answers_operation_error|].
  all: destruct (AsHandlerError herr); [apply answers_failed|apply answers_ret].
Qed.

(** The error of an answer is reported unless the context is done or the task is
    not found any more. *)
Lemma answer_outcome_spec err done e :
  answer_outcome err done = Some e ↔ err = Some e ∧ done = false ∧ AsNotFound e = false.
Proof.
  unfold answer_outcome. destruct err as [e'|]; [|by split; [|intros (? & _)]].
  destruct done; cbn [negb andb]; [by split; [|intros (_ & ? & _)]|].
  destruct (AsNotFound e') eqn:Hnf; cbn [negb].
  - split; [done|]. intros ([= ->] & _ & ?). congruence.
  - split; [by intros [= ->]|]. by intros ([= ->] & _ & _).
Qed.

(** C39: a run polls once, in the environment's namespace, and answers at most once.
    It does not answer a poll that ended with the context done (it returns nil), with
    an error (it returns that) or without a task (nil); it answers the task it
    polled only, in the environment's namespace and in the dialect the environment
    was created with.  When it answered, it returns an error if and only if the
    answer failed with it, the context is not done, and it is not a NotFound. *)
Theorem nexus_task_answered_once env taskQueue buildID handler s :
  let o := versionedNexusTaskPollerDo env taskQueue buildID handler s in
  ∃ req, pq_Namespace req = ne_Namespace env ∧ pq_TaskQueue req = taskQueue ∧
    let polled := serve_poll req (uuid_NewString s.1).1 in
    (o.1.2 = s.2 ++ [PollNexusTaskQueue req] ∧
     (ctx_Err polled.1 = true → o.2 = Ok None) ∧
     (ctx_Err polled.1 = false → ∀ err, polled.2 = inl err → o.2 = Ok (Some err)) ∧
     (ctx_Err polled.1 = false → ∀ res, polled.2 = inr res → pr_TaskToken res = None → o.2 = Ok None)) ∨
    ∃ res token id a e',
      ctx_Err polled.1 = false ∧ polled.2 = inr res ∧ pr_TaskToken res = Some token ∧
      o.1.2 = s.2 ++ [PollNexusTaskQueue req; Respond (ne_Namespace env) id token a] ∧
      in_dialect env a ∧
      let r := serve_answer (Respond (ne_Namespace env) id token a) e' in
      o.1.1 = r.1 ∧
      ∃ outcome, o.2 = Ok outcome ∧
        ∀ err, outcome = Some err ↔ r.2 = Some err ∧ ctx_Err r.1 = false ∧ AsNotFound err = false.
Proof.
  cbn zeta. unfold versionedNexusTaskPollerDo. rewrite bind_act. cbn zeta.
  set (req := mkPoll _ _ _ _). rewrite bind_rpc, bind_gets. cbn [fst snd].
  exists req. split; [done|]. split; [done|].
  destruct (ctx_Err _) eqn:Hctx; [by left|].
  destruct (serve_poll req _).2 as [err|res] eqn:Hpoll.
  { left. split_and!; try done. by intros _ ? [= ->]. }
  cbn [or_return]. destruct (pr_TaskToken res) as [token|] eqn:Htok.
  2: { left. by split_and!. }
  destruct (answers_handled env handler res token
    ((serve_poll req (uuid_NewString s.1).1).1, s.2 ++ [PollNexusTaskQueue req]))
    as [H|(id & a & e' & Hlog & Hd & Hr & Ho)].
  { left. split_and!; try done. intros _ res' [= <-]. congruence. }
  right. exists res, token, id, a, e'. do 3 (split; [done|]).
  split; [rewrite Hlog; cbn [snd]; by rewrite <-(assoc_L (++))|]. split; [done|]. split; [done|].
  eexists. split; [exact Ho|]. intros err. apply answer_outcome_spec.
Qed.

(** The response that carries a handler's result. *)
Inductive delivers : nexusTaskResponse → pb_Response → Prop :=
| delivers_cancel start links : delivers (mkTaskResponse start true links) CancelAck
| delivers_sync v (links : list (URL * string)) :
    delivers (mkTaskResponse (Some (StartResultSync v)) false
                ((λ l, mkLink (Some l.1) l.2) <$> links))
      (SyncSuccess v ((λ l, mkPbLink (URL_String l.1) l.2) <$> links))
| delivers_async tok (links : list (URL * string)) :
    delivers (mkTaskResponse (Some (StartResultAsync tok)) false
                ((λ l, mkLink (Some l.1) l.2) <$> links))
      (AsyncSuccess tok ((λ l, mkPbLink (URL_String l.1) l.2) <$> links)).

Lemma convert_links_spec (links : list (URL * string)) :
  convert_links ((λ l, mkLink (Some l.1) l.2) <$> links) =
    Ok ((λ l, mkPbLink (URL_String l.1) l.2) <$> links).
Proof. induction links as [|l links IH]; [done|]. csimpl. by rewrite IH. Qed.

Lemma build_response_delivers result response s :
  delivers result response → build_response result s = (s, Ok response).
Proof.
  intros [|v links|tok links]; [done| |]; unfold build_response, mbind, go_bind, lift;
    cbn [CancelResult StartResult Links]; pose proof (convert_links_spec links) as Hl;
    by setoid_rewrite Hl.
Qed.

Definition for_test_service (r : nexus_request) : Prop :=
  r = StartOperation "test-service" ∨ r = CancelOperation "test-service".

(** A result of the handler is delivered: when the poll returned a task of the
    test's service and the handler a result, the poller sends the response that
    carries it, to that task. *)
Theorem nexus_result_delivered env taskQueue handler s e1 id1 e2 res token e3 result response :
  let req := mkPoll (ne_Namespace env) id1 taskQueue None in
  uuid_NewString s.1 = (e1, id1) →
  serve_poll req e1 = (e2, inr res) → ctx_Err e2 = false →
  pr_TaskToken res = Some token → for_test_service (pr_Request res) →
  handler res e2 = (e3, (Some result, None)) → delivers result response →
  (nexusTaskPoller env taskQueue handler s).1.2 =
    s.2 ++ [PollNexusTaskQueue req;
            Respond (ne_Namespace env) (uuid_NewString e3).2 token (TaskCompleted response)].
Proof.
  intros req Hid Hpoll Hctx Htok Hsvc Hh Hd.
  unfold nexusTaskPoller, versionedNexusTaskPollerDo. rewrite decide_True by done.
  rewrite bind_act, Hid. cbn [fst snd]. cbn zeta. fold req.
  rewrite bind_rpc, bind_gets. cbn [fst snd]. rewrite Hpoll. cbn [fst snd or_return].
  rewrite Hctx, Htok. unfold handle_nexus_task.
  rewrite decide_False by (destruct Hsvc as [-> | ->]; by intros []).
  rewrite bind_act. cbn [fst snd]. rewrite Hh. cbn [fst snd].
  rewrite (go_bind_ok _ _ _ _ _ (build_response_delivers _ _ _ Hd)).
  unfold send_answer. rewrite bind_act. cbn zeta. rewrite bind_rpc, bind_gets. cbn [fst snd].
  by rewrite <-(assoc_L (++)).
Qed.

(** A result with neither pointer set is not acknowledged as a cancellation: the
    poller panics and the task is left unanswered. *)
Theorem nexus_empty_result_panics env handler res token s e links :
  for_test_service (pr_Request res) →
  handler res s.1 = (e, (Some (mkTaskResponse None false links), None)) →
  handle_nexus_task env handler res token s = ((e, s.2), Panic "unreachable").
Proof.
  intros Hsvc Hh. unfold handle_nexus_task.
  rewrite decide_False by (destruct Hsvc as [-> | ->]; by intros []).
  by rewrite bind_act, Hh.
Qed.
End nexus.

(** * Endpoints *)

Inductive EndpointTarget :=
| TargetWorker (namespace taskQueue : string)
| TargetExternal (url : string).

Record EndpointSpec := mkSpec { es_Name : string; es_Target : EndpointTarget }.
Record Endpoint := mkEndpoint { ep_Id : string; ep_Version : Z }.

(** [RandomizedNexusEndpoint]: the test's name with its slashes and underscores
    replaced, and a uuid. *)
Definition safe_byte (b : byte) : byte :=
  if decide (b = x2f ∨ b = x5f) then x2d else b.
Definition RandomizedNexusEndpoint (name uuid : string) : string :=
  string_of (safe_byte <$> bytes_of name) +:+ "-" +:+ uuid.

(** The operator service, the uuids, and the mock servers with their addresses;
    the last have a state too. *)
Class EndpointService (E : Type) := {
  CreateNexusEndpoint : EndpointSpec → E → E * (string + Endpoint);
  DeleteNexusEndpoint : string → Z → E → E * option string;
  new_uuid : E → E * string;
  AllocListenAddress : E → E * string;
  NewNexusServer : string → E → E
}.

(** The endpoints of the cluster, which only the first two calls change: a
    created one is new, and one deleted at its version is gone. *)
Class EndpointLaws (E : Type) `{EndpointService E} := {
  endpoints : E → gset (string * Z);
  create_ok spec e e' ep : CreateNexusEndpoint spec e = (e', inr ep) →
    (ep_Id ep, ep_Version ep) ∉ endpoints e ∧
    endpoints e' = {[(ep_Id ep, ep_Version ep)]} ∪ endpoints e;
  create_err spec e e' err : CreateNexusEndpoint spec e = (e', inl err) → endpoints e' = endpoints e;
  delete_ok id v e : (id, v) ∈ endpoints e →
    endpoints (DeleteNexusEndpoint id v e).1 = endpoints e ∖ {[(id, v)]};
  uuid_endpoints e : endpoints (new_uuid e).1 = endpoints e;
  alloc_endpoints e : endpoints (AllocListenAddress e).1 = endpoints e;
  server_endpoints a e : endpoints (NewNexusServer a e) = endpoints e
}.

Section endpoints.
Context {E : Type} {ES : EndpointService E}.

(** The state: the services', and the cleanups registered, last first; each
    deletes the endpoint with its id and version. *)
Definition EpS : Type := E * list (string * Z).

Definition ask {A} (f : E → E * A) : GoM EpS A := λ s, let o := f s.1 in ((o.1, s.2), Ok o.2).

(** The creation that both helpers share: [require.NoError] ends the test. *)
Definition create_with_cleanup (spec : EndpointSpec) : GoM EpS Endpoint :=
  r ← ask (CreateNexusEndpoint spec);
  match r with
  | inl err => panic err
  | inr ep => modify (λ s, (s.1, (ep_Id ep, ep_Version ep) :: s.2));; mret ep
  end.

Definition createNexusEndpoint (namespace name taskQueue : string) : GoM EpS Endpoint :=
  create_with_cleanup (mkSpec name (TargetWorker namespace taskQueue)).

Definition createRandomNexusEndpoint (namespace testName : string) : GoM EpS Endpoint :=
  id ← ask new_uuid;
  createNexusEndpoint namespace (RandomizedNexusEndpoint testName id) "unused".

Definition createRandomExternalNexusServer (testName : string) : GoM EpS string :=
  id ← ask new_uuid;
  let endpointName := RandomizedNexusEndpoint testName id in
  listenAddr ← ask AllocListenAddress;
  ask (λ e, (NewNexusServer listenAddr e, tt));;
  create_with_cleanup (mkSpec endpointName (TargetExternal ("http://" +:+ listenAddr)));;
  mret endpointName.

(** What a test may do with endpoints, in any order, until one fails. *)
Inductive endpoint_op :=
| OpEndpoint (namespace name taskQueue : string)
| OpRandomEndpoint (namespace testName : string)
| OpExternalServer (testName : string).

Definition endpoint_step (op : endpoint_op) : GoM EpS unit :=
  match op with
  | OpEndpoint ns name tq => createNexusEndpoint ns name tq;; mret tt
  | OpRandomEndpoint ns t => createRandomNexusEndpoint ns t;; mret tt
  | OpExternalServer t => createRandomExternalNexusServer t;; mret tt
  end.

Fixpoint endpoint_steps (ops : list endpoint_op) : GoM EpS unit :=
  match ops with
  | [] => mret tt
  | op :: ops => endpoint_step op;; endpoint_steps ops
  end.

(** The end of the test: the cleanups run, last registered first; the error of
    a deletion is ignored. *)
Definition endpoints_end (s : EpS) : E :=
  foldl (λ e c, (DeleteNexusEndpoint c.1 c.2 e).1) s.1 s.2.

Context {EL : EndpointLaws E}.

(** The endpoints are [base] and, apart from it, those to be cleaned up. *)
Definition tracked (base : gset (string * Z)) (s : EpS) : Prop :=
  NoDup s.2 ∧ list_to_set s.2 ## base ∧ endpoints s.1 = list_to_set s.2 ∪ base.

Lemma tracked_ask {A B} base (f : E → E * A) (k : A → GoM EpS B) s :
  (∀ e, endpoints (f e).1 = endpoints e) → tracked base s →
  (∀ a s', tracked base s' → tracked base (k a s').1) →
  tracked base ((ask f ≫= k) s).1.
Proof.
  intros Hf (Hn & Hd & He) Hk.
  apply (Hk (f s.1).2 ((f s.1).1, s.2)). split; [done|]. split; [done|]. cbn. by rewrite Hf.
Qed.

Lemma tracked_create {B} base spec (k : Endpoint → GoM EpS B) s :
  tracked base s → (∀ a s', tracked base s' → tracked base (k a s').1) →
  tracked base ((create_with_cleanup spec ≫= k) s).1.
Proof.
  intros (Hn & Hd & He) Hk. unfold create_with_cleanup, ask, mbind, go_bind, panic, modify, mret, go_ret.
  destruct (CreateNexusEndpoint spec s.1) as [e' [err|ep]] eqn:Hc; cbn [fst snd].
  - split; [done|]. split; [done|]. cbn. by rewrite (create_err _ _ _ _ Hc).
  - apply Hk. apply create_ok in Hc as [Hnew He']. rewrite He in Hnew.
    split; [cbn; constructor; [set_solver|done]|]. split; [cbn; set_solver|].
    cbn. rewrite He', He. set_solver.
Qed.

Lemma tracked_step base op s : tracked base s → tracked base (endpoint_step op s).1.
Proof.
  intros Hs. destruct op; cbn [endpoint_step].
  - by apply tracked_create.
  - unfold createRandomNexusEndpoint. rewrite go_bind_assoc.
    apply tracked_ask; [apply uuid_endpoints|done|]. intros ???. by apply tracked_create.
  - unfold createRandomExternalNexusServer. rewrite go_bind_assoc.
    apply tracked_ask; [apply uuid_endpoints|done|]. intros id s1 H1. cbn zeta. rewrite go_bind_assoc.
    apply tracked_ask; [apply alloc_endpoints|done|]. intros a s2 H2. rewrite go_bind_assoc.
    apply tracked_ask; [intros e; apply server_endpoints|done|]. intros [] s3 H3.
    rewrite go_bind_assoc. by apply tracked_create.
Qed.

Lemma tracked_steps base ops s : tracked base s → tracked base (endpoint_steps ops s).1.
Proof.
  revert s. induction ops as [|op ops IH]; intros s Hs; [done|]. cbn [endpoint_steps].
  apply (tracked_step _ op) in Hs. unfold mbind, go_bind.
  destruct (endpoint_step op s) as [s' []]; auto.
Qed.

(** A test leaves no endpoint behind: whatever endpoints it created before it
    ended or failed, after its cleanups the cluster has those it had before. *)
Theorem nexus_endpoints_cleaned ops e :
  endpoints (endpoints_end (endpoint_steps ops (e, [])).1) = endpoints e.
Proof.
  assert (tracked (endpoints e) (endpoint_steps ops (e, [])).1) as Ht.
  { apply tracked_steps. split; [constructor|]. split; [set_solver|]. cbn. set_solver. }
  revert Ht. generalize (endpoint_steps ops (e, [])).1. intros [e1 l]. unfold endpoints_end. cbn [fst snd].
  revert e1. induction l as [|[id v] l IH]; intros e1 (Hn & Hd & He); cbn in *; [set_solver|].
  apply NoDup_cons in Hn as [Hnew Hn]. apply IH. split; [done|]. split; [set_solver|]. cbn.
  rewrite delete_ok by (rewrite He; set_solver). rewrite He.
  assert ((id, v) ∉ (list_to_set l : gset (string * Z))) by set_solver. set_solver.
Qed.
End endpoints.

(** A service that keeps a set of endpoints, all at version 1. *)
Definition w_new_id (e : gset (string * Z)) : string := fresh (set_map (D := gset string) fst e).

Lemma w_new_id_fresh e v : (w_new_id e, v) ∉ e.
Proof.
  intros Hin. apply (is_fresh (set_map (D := gset string) fst e)).
  change (w_new_id e ∈ (set_map fst e : gset string)). revert Hin. generalize (w_new_id e).
  intros id Hin. apply elem_of_map. by exists (id, v).
Qed.

#[local] Instance w_endpoint_service : EndpointService (gset (string * Z)) := {|
  CreateNexusEndpoint spec e :=
    ({[(w_new_id e, 1%Z)]} ∪ e, inr (mkEndpoint (w_new_id e) 1));
  DeleteNexusEndpoint id v e :=
    if decide ((id, v) ∈ e) then (e ∖ {[(id, v)]}, None) else (e, Some "not found");
  new_uuid e := (e, "uuid");
  AllocListenAddress e := (e, "127.0.0.1:9000");
  NewNexusServer a e := e
|}.

#[local] Instance w_endpoint_laws : EndpointLaws (gset (string * Z)).
Proof.
  refine {| endpoints := id |}; try done.
  - intros spec e e' ep. pose proof (w_new_id_fresh e 1) as Hf. revert Hf.
    unfold CreateNexusEndpoint, w_endpoint_service. generalize (w_new_id e).
    intros new Hf [= <- <-]. by split.
  - intros id v e Hin. unfold DeleteNexusEndpoint, w_endpoint_service. by rewrite decide_True.
Defined.

(** The poller against a server that knows the task no more: an operation error
    is answered in the environment's dialect, and the NotFound is not reported. *)
#[local] Instance w_nexus_types : NexusTypes string string string string string := {|
  AsOperationError e := if decide (e = "failed") then Some (mkOperationError "failed" "boom" None) else None;
  AsHandlerError e := None;
  AsNotFound e := bool_decide (e = "NotFound");
  operation_error oe := oe_Message oe;
  handler_error he := he_Message he;
  errors_New s := s;
  ErrorToFailure e := inr e;
  NexusFailureToTemporalFailure f := inr ("temporal:" +:+ f);
  NexusFailureToProtoFailure f := f;
  message_failure m := m;
  URL_String u := u
|}.

#[local] Instance w_nexus_services :
    NexusServices (error := string) (TemporalFailure := string) (ProtoFailure := string)
      (Payload := string) nat := {|
  uuid_NewString n := (S n, pretty n);
  ctx_Err n := false;
  serve_poll req n := (n, inr (mkPolled (Some [x01]) (StartOperation "test-service")));
  serve_answer c n := (n, Some "NotFound")
|}.

Example nexus_operation_error_example :
  let handler : nexusTaskHandler (URL := string) (Payload := string) := λ _ n, (n, (None, Some "failed")) in
  (λ temporal,
     let o := nexusTaskPoller (mkNexusEnv "ns" temporal) "tq" handler (0, []) in
     (o.1.2, o.2)) <$> [true; false] =
  [([PollNexusTaskQueue (mkPoll "ns" "0" "tq" None);
     Respond "ns" "1" [x01] (TaskCompleted (StartFailure "temporal:boom"))], Ok None);
   ([PollNexusTaskQueue (mkPoll "ns" "0" "tq" None);
     Respond "ns" "1" [x01] (TaskCompleted (StartOperationError "failed" "boom"))], Ok None)].
Proof. vm_compute. done. Qed.
