(* ===== verification/XdcSuite.v ===== *)
(** The base of the cross-cluster suites ([conformance-tests/xdc/base.go]): two
    clusters that are started and connected to each other, the namespaces that
    are created in them, changed and failed over, and the waiting until every
    cluster has seen the change. *)

From S2P Require Import Prelude GoStrings GoNet Onebox TestCluster.
From stdpp Require Import options.

(** * Data *)

Inductive dc_value := DDuration (ns : Z) | DBool (b : bool) | DAny (id : nat).
Definition second : Z := 1000000000.
Definition refresh_interval : Z := second.     (* [testcore.NamespaceCacheRefreshInterval] *)

Definition namespaceCacheWaitTime : Z := 2 * refresh_interval.
Definition namespaceCacheCheckInterval : Z := refresh_interval / 2.
Definition replicationWaitTime : Z := 15 * second.
Definition replicationCheckInterval : Z := 500000000.

(** The overrides every cluster gets, by the name of the setting; a suite's own
    value of one of them is replaced. *)
Definition xdc_overrides (enableTransitionHistory : bool) (own : gmap string dc_value)
    : gmap string dc_value :=
  foldl (λ m kv, <[kv.1 := kv.2]> m) own
    [("ClusterMetadataRefreshInterval", DDuration (5 * second));
     ("NamespaceCacheRefreshInterval", DDuration refresh_interval);
     ("EnableTransitionHistory", DBool enableTransitionHistory);
     ("SendRawHistoryBetweenInternalServices", DBool true);
     ("TransferProcessorUpdateAckInterval", DDuration (3 * second));
     ("TimerProcessorUpdateAckInterval", DDuration (3 * second));
     ("VisibilityProcessorUpdateAckInterval", DDuration (3 * second));
     ("OutboundProcessorUpdateAckInterval", DDuration (3 * second));
     ("ArchivalProcessorUpdateAckInterval", DDuration (3 * second));
     ("TransferProcessorMaxPollInterval", DDuration (3 * second));
     ("TimerProcessorMaxPollInterval", DDuration (3 * second));
     ("VisibilityProcessorMaxPollInterval", DDuration (3 * second));
     ("OutboundProcessorMaxPollInterval", DDuration (3 * second))].

(** The configuration of one of the clusters, as far as the suite sets it. *)
Record xdc_config (Fx : Type) := mkXdcConfig {
  xc_Metadata : cluster_config;
  xc_NumHistoryShards : Z;
  xc_DBName : string;
  xc_DynamicConfigOverrides : gmap string dc_value;
  xc_ServiceFxOptions : gmap string (list Fx);
  xc_EnableMetricsCapture : bool
}.
Arguments mkXdcConfig {_} _ _ _ _ _ _.
Arguments xc_Metadata {_} _.
Arguments xc_NumHistoryShards {_} _.
Arguments xc_DBName {_} _.
Arguments xc_DynamicConfigOverrides {_} _.
Arguments xc_ServiceFxOptions {_} _.
Arguments xc_EnableMetricsCapture {_} _.

(** A running cluster: its metadata and its table of hosts. *)
Record cluster := mkXCluster { metadata : cluster_config; hosts : host_table }.
Definition ClusterName (c : cluster) : string := CurrentClusterName (metadata c).

(** The configuration of the cluster with this index and name: [shards] is the
    number the options ask for (0: none), [db] the default database. *)
Definition cluster_setup {Fx} (shards : Z) (db : string) (overrides : gmap string dc_value)
    (fx : gmap string (list Fx)) (clusterIndex : nat) (clusterName : string) : xdc_config Fx :=
  mkXdcConfig
    (mkClusterConfig true 10 clusterName clusterName
       {[ clusterName := mkClusterInfo true false (Z.of_nat clusterIndex + 1) "" "" 0 "" ]})
    (if decide (shards ≠ 0)%Z then shards else 1)
    (db +:+ "_" +:+ clusterName) overrides fx true.

Definition cluster_names (suffix : string) : list string :=
  ["active_" +:+ suffix; "standby_" +:+ suffix].

(** The replication status of a shard; pointers and the map may be nil. *)
Record ack_info := mkAck { AckedTaskId : Z; AckedTaskVisibilityTime : option Z }.
Record shard_status := mkShard {
  MaxReplicationTaskId : Z;
  ShardLocalTime : option Z;
  RemoteClusters : option (gmap string (option ack_info))
}.

(** A namespace as a registry of a server reports it. *)
Record ns_view := mkView {
  nv_IsGlobal : bool; nv_ClusterNames : list string; nv_ActiveCluster : string
}.

Record RegisterRequest := mkRegister {
  rg_Namespace : string; rg_IsGlobal : bool; rg_Clusters : list string;
  rg_ActiveClusterName : string; rg_RetentionHours : Z
}.

Inductive NamespaceUpdate :=
| UpdateClusters (ns : string) (clusters : list string)
| Promote (ns : string)
| UpdateActive (ns : string) (activeClusterName : string).

Record RemoteClusterRequest := mkRemote {
  rc_FrontendAddress : string; rc_FrontendHttpAddress : string;
  rc_EnableRemoteClusterConnection : bool; rc_EnableReplication : bool
}.

(** The calls that change a cluster, each with the cluster it is made to. *)
Inductive xdc_call :=
| XAddRemote (to : string) (req : RemoteClusterRequest)
| XRegister (to : string) (req : RegisterRequest)
| XUpdate (to : string) (req : NamespaceUpdate)
| XAddSearchAttributes (to ns : string)
| XTearDown (to : string).

Inductive sa_error := AlreadyExists | OtherError (msg : string).

(** * The services, with a state of their own

    [start_cluster] is what [NewCluster] does outside of the metadata and the
    hosts: it answers an error, or the free ports it got. *)
Class XdcServices (E Fx : Type) := {
  start_cluster : xdc_config Fx → E → E * (string + (nat → Z));
  serve_AddRemote : cluster → RemoteClusterRequest → E → E * option string;
  serve_Register : cluster → RegisterRequest → E → E * option string;
  serve_Update : cluster → NamespaceUpdate → E → E * (string + Z);
  serve_AddSearchAttributes : cluster → string → E → E * option sa_error;
  serve_ListSearchAttributes : cluster → string → E → E * (string + gmap string Z);
  serve_GetReplicationStatus : cluster → E → E * (string + list (option shard_status));
  serve_Count : cluster → string → E → E * (string + Z);
  serve_TearDown : cluster → E → E * option string;
  registries : cluster → nat;              (* the number of its registries *)
  GetNamespace : cluster → nat → string → E → E * (string + option ns_view);
  time_Now : E → E * Z;
  (* how often a condition is checked before the timeout *)
  checks_before : Z → Z → E → nat
}.

Section xdc.
Context {E Fx : Type} {XS : XdcServices E Fx}.
(** [cluster.NewTestClusterMetadataConfig] and [rand.Intn]. *)
Context (test_metadata : bool → bool → cluster_config) (rand_Intn : nat → nat).

(** The state: the services', the calls made, and whether [onceClusterConnect]
    has run. *)
Record xstate := mkXState { world : E; log : list xdc_call; connected_once : bool }.

Definition ask {A} (f : E → E * A) : GoM xstate A := λ s,
  let o := f (world s) in (mkXState o.1 (log s) (connected_once s), Ok o.2).
Definition invoke {A} (c : xdc_call) (f : E → E * A) : GoM xstate A := λ s,
  let o := f (world s) in (mkXState o.1 (log s ++ [c]) (connected_once s), Ok o.2).

(** [s.NoError]: the suite's assertions are those of [require]. *)
Definition NoError (err : option string) : GoM xstate unit :=
  match err with Some e => panic e | None => mret tt end.

Fixpoint for_each {A} (f : A → GoM xstate unit) (l : list A) : GoM xstate unit :=
  match l with [] => mret tt | a :: l => f a;; for_each f l end.

(** [EventuallyWithT]: the condition is checked until it holds, or time is up. *)
Fixpoint check_until {S} (checks : nat) (cond : S → S * bool) (s : S) : S * bool :=
  match checks with
  | O => (s, false)
  | S checks =>
      let '(s, ok) := cond s in if (ok : bool) then (s, true) else check_until checks cond s
  end.

Definition EventuallyWithT (cond : E → E * bool) (waitFor tick : Z) : GoM xstate unit := λ s,
  let o := check_until (checks_before (Fx := Fx) waitFor tick (world s)) cond (world s) in
  (mkXState o.1 (log s) (connected_once s),
   if o.2 then Ok tt else Panic "Condition never satisfied").

(** A condition that asks every element in turn, and fails at the first. *)
Fixpoint each {A} (f : A → E → E * bool) (l : list A) (e : E) : E * bool :=
  match l with
  | [] => (e, true)
  | a :: l => let '(e, ok) := f a e in if (ok : bool) then each f l e else (e, false)
  end.

(** * Starting the clusters *)

Definition NewCluster (cfg : xdc_config Fx) : GoM xstate cluster :=
  r ← ask (start_cluster cfg);
  match r with
  | inl err => panic err
  | inr free =>
      let t := allocate_hosts free (mkHostConfig 0 0 0 0 false) in
      m ← lift (set_self_address t (xc_Metadata cfg));
      mret (mkXCluster (choose_metadata test_metadata false m) t)
  end.

Fixpoint new_clusters (cfgs : list (xdc_config Fx)) : GoM xstate (list cluster) :=
  match cfgs with
  | [] => mret []
  | cfg :: cfgs => c ← NewCluster cfg; cs ← new_clusters cfgs; mret (c :: cs)
  end.

Definition connect (c remoteC : cluster) : GoM xstate unit :=
  grpc ← lift (FrontendGRPCAddress (hosts remoteC));
  http ← lift (FrontendHTTPAddress rand_Intn (hosts remoteC));
  let req := mkRemote grpc http true true in
  err ← invoke (XAddRemote (ClusterName c) req) (serve_AddRemote c req);
  NoError err.

(** [for i, a := range cs { for j, b := range cs { if i != j { f(a, b) } } }] *)
Definition for_pairs (f : cluster → cluster → GoM xstate unit) (cs : list cluster) : GoM xstate unit :=
  for_each (λ ic, for_each (λ jc, if decide (ic.1 ≠ jc.1) then f ic.2 jc.2 else mret tt)
                    (zip (seq 0 (length cs)) cs))
    (zip (seq 0 (length cs)) cs).

Record suite := mkXSuite { clusters : list cluster; startTime : Z }.

(** [shards] and [fx] are what the options amount to. *)
Definition setup_configs (shards : Z) (fx : gmap string (list Fx)) (db suffix : string)
    (own : gmap string dc_value) (enableTransitionHistory : bool) : list (xdc_config Fx) :=
  let overrides := xdc_overrides enableTransitionHistory own in
  imap (cluster_setup shards db overrides fx) (cluster_names suffix).

Definition setupSuite (shards : Z) (fx : gmap string (list Fx)) (db suffix : string)
    (own : gmap string dc_value) (enableTransitionHistory : bool) : GoM xstate suite :=
  cs ← new_clusters (setup_configs shards fx db suffix own enableTransitionHistory);
  now ← ask time_Now;
  for_pairs connect cs;;
  mret (mkXSuite cs now).

Definition tearDownSuite (s : suite) : GoM xstate unit :=
  for_each (λ c, err ← invoke (XTearDown (ClusterName c)) (serve_TearDown c); NoError err) (clusters s).

(** [make(_, 2)]: an entry per cluster, nil where there is none; a third cluster
    is out of range. *)
Definition clusterReplicationConfig (s : suite) : res (list (option string)) :=
  if decide (2 < length (clusters s)) then Panic "runtime error: index out of range"
  else Ok ((Some ∘ ClusterName <$> clusters s) ++ replicate (2 - length (clusters s)) None).

(** * Waiting for the clusters *)

(** [WithinRange(actual, start, end)]. *)
Definition within_range (actual start stop : Z) : bool :=
  bool_decide (start ≤ stop ∧ start ≤ actual ∧ actual ≤ stop)%Z.

(** The condition of [waitForClusterConnected]; the clock is read when a time
    is compared. *)
Definition shard_synced (start : Z) (target : string) (shards : list (option shard_status)) (e : E)
    : E * bool :=
  match shards with
  | [Some shard] =>
      if decide (MaxReplicationTaskId shard ≤ 0)%Z then (e, false) else
      match ShardLocalTime shard with
      | None => (e, false)
      | Some local =>
          let '(e, now) := time_Now e in
          if negb (within_range local start now) then (e, false) else
          match RemoteClusters shard ≫= λ m, m !! target with
          | Some (Some ack) =>
              if decide (AckedTaskId ack < MaxReplicationTaskId shard)%Z then (e, false) else
              match AckedTaskVisibilityTime ack with
              | None => (e, false)
              | Some t => let '(e, now) := time_Now e in (e, within_range t start now)
              end
          | _ => (e, false)
          end
      end
  | _ => (e, false)
  end.

Definition connected (start : Z) (source : cluster) (target : string) (e : E) : E * bool :=
  let '(e, r) := serve_GetReplicationStatus source e in
  match r with inl _ => (e, false) | inr shards => shard_synced start target shards e end.

Definition waitForClusterConnected (s : suite) (sourceCluster : cluster) (targetClusterName : string)
    : GoM xstate unit :=
  EventuallyWithT (connected (startTime s) sourceCluster targetClusterName) (90 * second) second.

Definition waitForClusterSynced (s : suite) : GoM xstate unit :=
  for_pairs (λ source target, waitForClusterConnected s source (ClusterName target)) (clusters s).

(** [setupTest]: the clusters are waited for once per suite. *)
Definition setupTest (s : suite) : GoM xstate unit := λ st,
  if connected_once st then (st, Ok tt)
  else waitForClusterSynced s (mkXState (world st) (log st) true).

(** * Namespaces *)

(** A check of every registry of a cluster. *)
Definition registries_report (c : cluster) (ns : string) (P : ns_view → bool) (e : E) : E * bool :=
  each (λ r e, let '(e, v) := GetNamespace c r ns e in
               (e, match v with inr (Some view) => P view | _ => false end))
    (seq 0 (registries (Fx := Fx) (E := E) c)) e.

Definition createNamespace (uuid : string) (isGlobal : bool) (cs : list cluster) : GoM xstate string :=
  let ns := "test-namespace-" +:+ uuid in
  let clusterNames := if isGlobal then ClusterName <$> cs else [] in
  match cs with
  | [] => panic "runtime error: index out of range"
  | c0 :: others =>
      let regReq := mkRegister ns isGlobal clusterNames (ClusterName c0) (7 * 24) in
      err ← invoke (XRegister (ClusterName c0) regReq) (serve_Register c0 regReq);
      NoError err;;
      EventuallyWithT (registries_report c0 ns (λ v, bool_decide (nv_IsGlobal v = isGlobal)))
        namespaceCacheWaitTime namespaceCacheCheckInterval;;
      (if decide (1 < length cs ∧ isGlobal = true) then
         EventuallyWithT
           (each (λ c, registries_report c ns (λ v,
              bool_decide (nv_IsGlobal v = isGlobal ∧ nv_ClusterNames v = clusterNames))) others)
           replicationWaitTime replicationCheckInterval
       else mret tt);;
      mret ns
  end.

Definition createGlobalNamespace (s : suite) (uuid : string) : GoM xstate string :=
  createNamespace uuid true (clusters s).
(** [s.clusters[:1]] is out of range without clusters. *)
Definition createNamespaceInCluster0 (s : suite) (uuid : string) (isGlobal : bool) : GoM xstate string :=
  match clusters s with
  | [] => panic "runtime error: slice bounds out of range"
  | c0 :: _ => createNamespace uuid isGlobal [c0]
  end.

(** The registries of the cluster that was updated, with the variable
    [isGlobalNamespace] the condition writes. *)
Definition report_clusters (c : cluster) (ns : string) (names : list string) (se : E * bool)
    : (E * bool) * bool :=
  foldl (λ acc r,
      let '((e, g), ok) := acc in
      if (ok : bool) then
        let '(e, v) := GetNamespace c r ns e in
        match v with
        | inr (Some view) =>
            if decide (nv_ClusterNames view = names) then ((e, nv_IsGlobal view), true)
            else ((e, g), false)
        | _ => ((e, g), false)
        end
      else acc)
    (se, true) (seq 0 (registries (Fx := Fx) (E := E) c)).

Definition updateNamespaceClusters (ns : string) (inClusterIndex : nat) (cs : list cluster)
    : GoM xstate unit :=
  let clusterNames := ClusterName <$> cs in
  match cs !! inClusterIndex with
  | None => panic "runtime error: index out of range"
  | Some c =>
      r ← invoke (XUpdate (ClusterName c) (UpdateClusters ns clusterNames))
            (serve_Update c (UpdateClusters ns clusterNames));
      NoError (match r with inl err => Some err | inr _ => None end);;
      isGlobalNamespace ← (λ s,
        let n := checks_before (Fx := Fx) namespaceCacheWaitTime namespaceCacheCheckInterval (world s) in
        let o := check_until n (report_clusters c ns clusterNames) (world s, false) in
        (mkXState o.1.1 (log s) (connected_once s),
         if o.2 then Ok o.1.2 else Panic "Condition never satisfied"));
      if decide (1 < length cs ∧ isGlobalNamespace = true) then
        EventuallyWithT
          (each (λ ic, if decide (ic.1 = inClusterIndex) then λ e, (e, true)
                       else registries_report ic.2 ns (λ v, bool_decide (nv_ClusterNames v = clusterNames)))
             (zip (seq 0 (length cs)) cs))
          replicationWaitTime replicationCheckInterval
      else mret tt
  end.

Definition promoteNamespace (s : suite) (ns : string) (inClusterIndex : nat) : GoM xstate unit :=
  match clusters s !! inClusterIndex with
  | None => panic "runtime error: index out of range"
  | Some c =>
      r ← invoke (XUpdate (ClusterName c) (Promote ns)) (serve_Update c (Promote ns));
      NoError (match r with inl err => Some err | inr _ => None end);;
      EventuallyWithT (registries_report c ns nv_IsGlobal)
        namespaceCacheWaitTime namespaceCacheCheckInterval
  end.

Definition failover (s : suite) (ns : string) (inClusterIndex : nat) (targetCluster : string)
    (targetFailoverVersion : Z) : GoM xstate unit :=
  waitForClusterSynced s;;
  match clusters s !! inClusterIndex with
  | None => panic "runtime error: index out of range"
  | Some c =>
      r ← invoke (XUpdate (ClusterName c) (UpdateActive ns targetCluster))
            (serve_Update c (UpdateActive ns targetCluster));
      match r with
      | inl err => panic err
      | inr version =>
          (if decide (targetFailoverVersion = version) then mret tt else panic "Not equal");;
          EventuallyWithT
            (each (λ c, registries_report c ns (λ v, bool_decide (nv_ActiveCluster v = targetCluster)))
               (clusters s))
            replicationWaitTime replicationCheckInterval;;
          waitForClusterSynced s
      end
  end.

(** * Search attributes and visibility *)

(** [sql] is [UseSQLVisibility()]; the expected attributes are the server's. *)
Definition registerTestSearchAttributes (expected : gmap string Z) (sql : bool) (s : suite)
    (ns : string) : GoM xstate unit :=
  (if decide (sql = true ∧ clusters s = []) then panic "runtime error: slice bounds out of range"
   else mret tt);;
  for_each (λ cl,
      err ← invoke (XAddSearchAttributes (ClusterName cl) ns) (serve_AddSearchAttributes cl ns);
      match err with Some (OtherError msg) => panic msg | _ => mret tt end)
    (if sql then take 1 (clusters s) else clusters s);;
  for_each (λ cl,
      EventuallyWithT (λ e,
        let '(e, r) := serve_ListSearchAttributes cl ns e in
        (e, match r with inl _ => false | inr custom => bool_decide (expected ⊆ custom) end))
        replicationWaitTime replicationCheckInterval)
    (clusters s).

(** [s.Eventually] fails the test like the other assertions. *)
Definition waitForVisibilityCount (s : suite) (ns : string) (expectedCount : Z) : GoM xstate unit :=
  match clusters s with
  | [] => panic "runtime error: index out of range"
  | c0 :: _ =>
      EventuallyWithT (λ e,
        let '(e, r) := serve_Count c0 ns e in
        (e, match r with inl _ => false | inr n => bool_decide (n = expectedCount) end))
        (15 * second) 200000000
  end.

(** * Loops and conditions *)

Lemma bind_ask {A B} (f : E → E * A) (k : A → GoM xstate B) s :
  (ask f ≫= k) s = k (f (world s)).2 (mkXState (f (world s)).1 (log s) (connected_once s)).
Proof. done. Qed.
Lemma bind_invoke {A B} c (f : E → E * A) (k : A → GoM xstate B) s :
  (invoke c f ≫= k) s =
    k (f (world s)).2 (mkXState (f (world s)).1 (log s ++ [c]) (connected_once s)).
Proof. done. Qed.

Lemma check_until_true {S} n (cond : S → S * bool) s :
  (check_until n cond s).2 = true → ∃ s0, cond s0 = ((check_until n cond s).1, true).
Proof.
  revert s. induction n as [|n IH]; intros s; [done|]. cbn [check_until].
  destruct (cond s) as [s1 []] eqn:Hc; [intros _; by exists s|apply IH].
Qed.

Lemma EventuallyWithT_Ok cond w t s s' :
  EventuallyWithT cond w t s = (s', Ok tt) →
  log s' = log s ∧ ∃ e, (cond e).2 = true.
Proof.
  unfold EventuallyWithT. destruct (check_until _ _ _).2 eqn:Hc; [|done]. intros [= <-].
  split; [done|]. apply check_until_true in Hc as [e He]. exists e. by rewrite He.
Qed.

Lemma each_true {A} (f : A → E → E * bool) l e :
  (each f l e).2 = true → ∀ a, a ∈ l → ∃ e', (f a e').2 = true.
Proof.
  revert e. induction l as [|x l IH]; intros e He a Ha; [by apply elem_of_nil in Ha|].
  cbn [each] in He. destruct (f x e) as [e1 []] eqn:Hf; [|done].
  apply elem_of_cons in Ha as [->|Ha]; [exists e; by rewrite Hf|by eapply IH].
Qed.

(** Every registry of the cluster has reported a view of [ns] that satisfies [P]. *)
Definition all_report (c : cluster) (ns : string) (P : ns_view → Prop) : Prop :=
  ∀ r, r < registries (Fx := Fx) (E := E) c →
    ∃ e view, (GetNamespace c r ns e).2 = inr (Some view) ∧ P view.

Lemma registries_report_true c ns (P : ns_view → bool) e :
  (registries_report c ns P e).2 = true → all_report c ns (λ v, P v = true).
Proof.
  intros H r Hr. destruct (each_true _ _ _ H r) as [e' He']; [apply elem_of_seq; lia|].
  exists e'. destruct (GetNamespace c r ns e') as [e'' [?|[view|]]]; try done. by exists view.
Qed.

Lemma all_report_weaken c ns (P Q : ns_view → Prop) :
  (∀ v, P v → Q v) → all_report c ns P → all_report c ns Q.
Proof. intros HPQ H r (e & v & He & Hv)%H. exists e, v. auto. Qed.

Lemma each_report cs ns (P : ns_view → bool) e :
  (each (λ c, registries_report c ns P) cs e).2 = true →
  ∀ c, c ∈ cs → all_report c ns (λ v, P v = true).
Proof.
  intros H c Hc. destruct (each_true _ _ _ H c Hc) as [e' He']. by eapply registries_report_true.
Qed.

(** A loop whose steps keep the log, and achieve something for their element. *)
Lemma for_each_Ok {A} (f : A → GoM xstate unit) (Q : A → Prop) l s s' :
  (∀ a s s', f a s = (s', Ok tt) → log s' = log s ∧ Q a) →
  for_each f l s = (s', Ok tt) → log s' = log s ∧ Forall Q l.
Proof.
  intros Hf. revert s. induction l as [|a l IH]; intros s Hs; [by injection Hs as <-|].
  apply go_bind_Ok_inv in Hs as (s1 & [] & H1 & H2).
  apply Hf in H1 as [Hl HQ]. apply IH in H2 as [Hl2 HQ2]. split; [congruence|by constructor].
Qed.

Lemma zip_seq_lookup {A} (l : list A) i x k :
  l !! i = Some x → (k + i, x) ∈ zip (seq k (length l)) l.
Proof.
  revert i k. induction l as [|y l IH]; intros [|i] k Hi; simplify_eq/=.
  - rewrite Nat.add_0_r. apply elem_of_cons. by left.
  - apply elem_of_cons. right. rewrite <-Nat.add_succ_comm. by apply IH.
Qed.

(** * The clusters are in step *)

(** At some moment the source had something to replicate, and the target had
    acknowledged all of it. *)
Definition in_step (source : cluster) (target : string) : Prop :=
  ∃ e shard m ack, (serve_GetReplicationStatus (Fx := Fx) (E := E) source e).2 = inr [Some shard] ∧
    RemoteClusters shard = Some m ∧ m !! target = Some (Some ack) ∧
    (0 < MaxReplicationTaskId shard ≤ AckedTaskId ack)%Z.

Lemma connected_true start source target e :
  (connected start source target e).2 = true → in_step source target.
Proof.
  unfold connected, in_step.
  destruct (serve_GetReplicationStatus source e) as [e1 [?|shards]] eqn:Hr; [done|].
  unfold shard_synced. destruct shards as [|[shard|] []]; try done.
  case_decide as H0; [done|]. destruct (ShardLocalTime shard); [|done].
  destruct (time_Now e1) as [e2 now]. destruct (negb _); [done|].
  destruct (RemoteClusters shard) as [m|] eqn:Hm; [|done]. cbn.
  destruct (m !! target) as [[ack|]|] eqn:Ht; try done. case_decide as H1; [done|]. intros _.
  exists e, shard, m, ack. rewrite Hr. split_and!; try done; lia.
Qed.

Lemma waitForClusterSynced_Ok s st st' :
  waitForClusterSynced s st = (st', Ok tt) →
  log st' = log st ∧
  ∀ i j a b, clusters s !! i = Some a → clusters s !! j = Some b → i ≠ j → in_step a (ClusterName b).
Proof.
  unfold waitForClusterSynced, for_pairs. intros H.
  eapply (for_each_Ok _ (λ ic, Forall (λ jc, ic.1 ≠ jc.1 → in_step ic.2 (ClusterName jc.2))
    (zip (seq 0 (length (clusters s))) (clusters s)))) in H as [Hl HQ].
  - split; [done|]. intros i j a b Ha Hb Hij. rewrite Forall_forall in HQ.
    specialize (HQ _ (zip_seq_lookup _ _ _ 0 Ha)). rewrite Forall_forall in HQ.
    exact (HQ _ (zip_seq_lookup _ _ _ 0 Hb) Hij).
  - intros ic s1 s2 H12. eapply for_each_Ok; [|exact H12]. intros jc s3 s4 H34. cbn beta in H34.
    case_decide as Hne; [|by injection H34 as <-].
    apply EventuallyWithT_Ok in H34 as [Hlog [e He]]. split; [done|]. intros _. by eapply connected_true.
Qed.

(** A failover that passes was seen everywhere: it made one update, in the
    cluster asked for, the server answered with the failover version expected,
    every registry of every cluster has reported the target as the active
    cluster, and the clusters have caught up with each other. *)
Theorem failover_seen_everywhere s ns i target version st st' :
  failover s ns i target version st = (st', Ok tt) →
  ∃ c, clusters s !! i = Some c ∧
    log st' = log st ++ [XUpdate (ClusterName c) (UpdateActive ns target)] ∧
    (∃ e, (serve_Update (Fx := Fx) (E := E) c (UpdateActive ns target) e).2 = inr version) ∧
    (∀ c', c' ∈ clusters s → all_report c' ns (λ v, nv_ActiveCluster v = target)) ∧
    (∀ j k a b, clusters s !! j = Some a → clusters s !! k = Some b → j ≠ k →
       in_step a (ClusterName b)).
Proof.
  unfold failover. intros (s1 & [] & [Hl1 _]%waitForClusterSynced_Ok & H)%go_bind_Ok_inv.
  destruct (clusters s !! i) as [c|]; [|done]. exists c. split; [done|].
  rewrite bind_invoke in H. set (r := serve_Update c _ _) in *.
  destruct r.2 as [err|version'] eqn:Hr; [done|].
  apply go_bind_Ok_inv in H as (s2 & [] & H2 & H). case_decide as Hv; [|done]. injection H2 as <-.
  apply go_bind_Ok_inv in H as (s3 & [] & [Hl3 [e3 He3]]%EventuallyWithT_Ok & H).
  apply waitForClusterSynced_Ok in H as [Hl4 Hstep]. cbn [log] in Hl3.
  split; [congruence|]. split; [exists (world s1); by rewrite Hv|]. split; [|done].
  intros c' Hc'. eapply all_report_weaken; [|by eapply each_report].
  intros v Hb. by apply bool_decide_eq_true in Hb.
Qed.

(** A global namespace that was created exists everywhere: it is registered once,
    in the first cluster and for all of them, with the first as the active one;
    every registry of every cluster has reported it as a global namespace, and
    those of the other clusters with the full list of clusters. *)
Theorem global_namespace_everywhere s uuid st st' ns :
  createGlobalNamespace s uuid st = (st', Ok ns) →
  ∃ c0 others, clusters s = c0 :: others ∧
    log st' = log st ++ [XRegister (ClusterName c0)
      (mkRegister ns true (ClusterName <$> clusters s) (ClusterName c0) 168)] ∧
    (∀ c, c ∈ clusters s → all_report c ns (λ v, nv_IsGlobal v = true)) ∧
    (∀ c, c ∈ others → all_report c ns (λ v, nv_ClusterNames v = ClusterName <$> clusters s)).
Proof.
  unfold createGlobalNamespace, createNamespace. destruct (clusters s) as [|c0 others]; [done|].
  intros H. exists c0, others. split; [done|]. rewrite bind_invoke in H.
  apply go_bind_Ok_inv in H as (s1 & [] & H1 & H).
  unfold NoError in H1. destruct (serve_Register _ _ _).2; [done|]. injection H1 as <-.
  apply go_bind_Ok_inv in H as (s2 & [] & [Hl2 [e2 He2]]%EventuallyWithT_Ok & H).
  cbn [log] in Hl2. apply registries_report_true in He2.
  apply go_bind_Ok_inv in H as (s3 & [] & H3 & [= <- <-]).
  assert (log s3 = log s2 ∧ ∀ c, c ∈ others → all_report c ("test-namespace-" +:+ uuid) (λ v,
    nv_IsGlobal v = true ∧ nv_ClusterNames v = ClusterName <$> c0 :: others)) as [Hl3 Hothers].
  { case_decide as Hlen.
    - apply EventuallyWithT_Ok in H3 as [Hl3 [e3 He3]]. split; [done|]. intros c Hc.
      eapply all_report_weaken; [|by eapply each_report].
      intros v Hb. by apply bool_decide_eq_true in Hb.
    - injection H3 as <-. split; [done|]. destruct others; [|cbn in Hlen; lia].
      intros c Hc. by apply elem_of_nil in Hc. }
  split; [by rewrite Hl3, Hl2|]. split.
  - intros c [->|Hc]%elem_of_cons.
    + eapply all_report_weaken; [|exact He2]. intros v Hb. by apply bool_decide_eq_true in Hb.
    + eapply all_report_weaken; [|by apply Hothers]. by intros v [? _].
  - intros c Hc. eapply all_report_weaken; [|by apply Hothers]. by intros v [_ ?].
Qed.

(** * The clusters of a suite *)

(** A cluster set up with a name and an index, on the ports it got. *)
Definition started (free : nat → Z) (i : nat) (name : string) : cluster :=
  let grpc := "127.0.0.1:" +:+ show_int (free 0) in
  let http := "127.0.0.1:" +:+ show_int (free 4) in
  mkXCluster
    (mkClusterConfig true 10 name name
       {[ name := mkClusterInfo true false (Z.of_nat i + 1) grpc http 0 "" ]})
    (allocate_hosts free (mkHostConfig 0 0 0 0 false)).

Lemma NewCluster_Ok shards db ov fx i name st st' c :
  name ≠ "" →
  NewCluster (cluster_setup shards db ov fx i name) st = (st', Ok c) →
  log st' = log st ∧ ∃ free, c = started free i name.
Proof.
  intros Hname. unfold NewCluster. rewrite bind_ask.
  destruct (start_cluster _ _).2 as [err|free]; [done|].
  unfold mbind, go_bind, lift, set_self_address. cbn [xc_Metadata cluster_setup ClusterInformation].
  rewrite map_size_singleton. rewrite decide_False by done.
  intros [= <- <-]. split; [done|]. exists free. unfold started. f_equal.
  cbn [CurrentClusterName]. rewrite lookup_singleton_eq, insert_singleton_eq.
  unfold choose_metadata. by rewrite decide_True.
Qed.

Lemma started_http free i name :
  rand_Intn 1 = 0 →
  FrontendHTTPAddress rand_Intn (hosts (started free i name)) = Ok ("127.0.0.1:" +:+ show_int (free 4)).
Proof.
  intros Hr. unfold FrontendHTTPAddress.
  assert (All (hosts_of (hosts (started free i name)) httpProtocol "frontend") =
    ["127.0.0.1:" +:+ show_int (free 4)]) as -> by done.
  cbn [length]. by rewrite Hr.
Qed.

(** The address of a cluster, as its own metadata has it. *)
Definition self_info (c : cluster) : option cluster_info :=
  ClusterInformation (metadata c) !! ClusterName c.

(** The request that tells a cluster of another. *)
Definition introduces (req : RemoteClusterRequest) (remote : cluster) : Prop :=
  ∃ ci, self_info remote = Some ci ∧
    req = mkRemote (ci_RPCAddress ci) (ci_HTTPAddress ci) true true.

Lemma connect_Ok c free i name st st' :
  rand_Intn 1 = 0 →
  connect c (started free i name) st = (st', Ok tt) →
  ∃ req, introduces req (started free i name) ∧ log st' = log st ++ [XAddRemote (ClusterName c) req].
Proof.
  intros Hr. unfold connect, mbind at 1 2, go_bind at 1 2, lift.
  cbn [hosts started]. rewrite frontend_address.
  pose proof (started_http free i name Hr) as Hh. cbn [hosts started] in Hh. rewrite Hh.
  cbn zeta. rewrite bind_invoke. unfold NoError.
  destruct (serve_AddRemote _ _ _).2; [done|]. intros [= <-]. eexists. split; [|reflexivity].
  unfold introduces, self_info, ClusterName. cbn [metadata started CurrentClusterName ClusterInformation].
  rewrite lookup_singleton_eq. by eexists.
Qed.

(** The failover versions a cluster hands out: its initial one and all that
    follow it by whole increments. *)
Definition owns_version (c : cluster) (v : Z) : Prop :=
  ∃ ci k, self_info c = Some ci ∧
    v = (ci_InitialFailoverVersion ci + k * FailoverVersionIncrement (metadata c))%Z.

(** C38: a suite that was set up has an active and a standby cluster with names and
    databases of their own; each was told exactly the addresses that the other's
    own metadata has, and no failover version belongs to both. *)
Theorem xdc_clusters_paired shards fx db suffix own eth st st' s :
  rand_Intn 1 = 0 →
  setupSuite shards fx db suffix own eth st = (st', Ok s) →
  ∃ a b reqA reqB, clusters s = [a; b] ∧
    ClusterName a = "active_" +:+ suffix ∧ ClusterName b = "standby_" +:+ suffix ∧
    NoDup (xc_DBName <$> setup_configs shards fx db suffix own eth) ∧
    introduces reqA b ∧ introduces reqB a ∧
    log st' = log st ++ [XAddRemote (ClusterName a) reqA; XAddRemote (ClusterName b) reqB] ∧
    ∀ v, ¬ (owns_version a v ∧ owns_version b v).
Proof.
  intros Hr. unfold setupSuite. intros (s1 & cs & Hnew & H)%go_bind_Ok_inv.
  unfold setup_configs in Hnew. cbn [imap cluster_names] in Hnew.
  change (imap _ _) with [cluster_setup shards db (xdc_overrides eth own) fx 0 ("active_" +:+ suffix);
    cluster_setup shards db (xdc_overrides eth own) fx 1 ("standby_" +:+ suffix)] in Hnew.
  cbn [new_clusters] in Hnew.
  apply go_bind_Ok_inv in Hnew as (s2 & a & [Hl2 [fa Ha]]%NewCluster_Ok & Hnew); [|done].
  apply go_bind_Ok_inv in Hnew as (s3 & ? & Hnew & [= <- <-]).
  apply go_bind_Ok_inv in Hnew as (s4 & b & [Hl4 [fb Hb]]%NewCluster_Ok & [= <- <-]); [|done].
  rewrite bind_ask in H. apply go_bind_Ok_inv in H as (s5 & [] & H5 & [= <- <-]).
  unfold for_pairs in H5. cbn [length seq zip zip_with for_each fst snd] in H5. subst a b.
  apply go_bind_Ok_inv in H5 as (s6 & [] & H6 & H5).
  apply go_bind_Ok_inv in H6 as (s7 & [] & [= <-] & H6).
  apply go_bind_Ok_inv in H6 as (s8 & [] & (reqA & HA & HlA)%connect_Ok & [= <-]); [|done].
  apply go_bind_Ok_inv in H5 as (s9 & [] & H9 & [= <-]).
  apply go_bind_Ok_inv in H9 as (s10 & [] & (reqB & HB & HlB)%connect_Ok & H9); [|done].
  injection H9 as <-.
  exists (started fa 0 ("active_" +:+ suffix)), (started fb 1 ("standby_" +:+ suffix)), reqA, reqB.
  cbn [log] in HlA. split_and!; try done.
  - cbn. apply NoDup_cons. split; [|apply NoDup_singleton].
    intros Edb%list_elem_of_singleton. apply (inj (String.append db)) in Edb. done.
  - rewrite HlB, HlA, Hl4, Hl2. by rewrite <-(assoc_L (++)).
  - intros v [(ca & ka & Hca & Hva) (cb & kb & Hcb & Hvb)].
    unfold self_info, ClusterName in Hca, Hcb.
    cbn [metadata started CurrentClusterName ClusterInformation] in Hca, Hcb.
    rewrite lookup_singleton_eq in Hca, Hcb. simplify_eq/=. lia.
Qed.
End xdc.

(** * A suite on a simple service

    Clusters start on ports counted from the number of the start; a namespace's
    active cluster is the one last written, and replication is immediate. *)

Record w_world := mkWWorld { w_starts : nat; w_active : string; w_clock : Z }.

Definition w_shard : shard_status :=
  mkShard 7 (Some 3%Z)
    (Some {[ "active_x" := Some (mkAck 7 (Some 3%Z)); "standby_x" := Some (mkAck 7 (Some 3%Z)) ]}).

Definition w_view (e : w_world) : ns_view := mkView true ["active_x"; "standby_x"] (w_active e).

#[local] Instance w_services : XdcServices w_world unit := {|
  start_cluster cfg e :=
    (mkWWorld (S (w_starts e)) (w_active e) (w_clock e),
     inr (λ i, 33000 + 100 * Z.of_nat (w_starts e) + Z.of_nat i)%Z);
  serve_AddRemote c req e := (e, None);
  serve_Register c req e := (mkWWorld (w_starts e) (rg_ActiveClusterName req) (w_clock e), None);
  serve_Update c req e :=
    match req with
    | UpdateActive _ name => (mkWWorld (w_starts e) name (w_clock e), inr 2%Z)
    | _ => (e, inr 1%Z)
    end;
  serve_AddSearchAttributes c ns e := (e, Some AlreadyExists);
  serve_ListSearchAttributes c ns e := (e, inr ∅);
  serve_GetReplicationStatus c e := (e, inr [Some w_shard]);
  serve_Count c ns e := (e, inr 0%Z);
  serve_TearDown c e := (e, None);
  registries c := 2;
  GetNamespace c r ns e := (e, inr (Some (w_view e)));
  time_Now e := (e, w_clock e);
  checks_before w t e := 3
|}.

Definition w_metadata (global master : bool) : cluster_config :=
  mkClusterConfig global 10 "" "" ∅.
Definition w_first : xstate := mkXState (mkWWorld 0 "" 2) [] false.
Definition w_setup : xstate (E := w_world) * res suite :=
  setupSuite w_metadata (λ _, 0) 0 ∅ "db" "x" ∅ true w_first.
Definition w_suite : suite :=
  mkXSuite [started (λ i, 33000 + Z.of_nat i)%Z 0 "active_x";
            started (λ i, 33100 + Z.of_nat i)%Z 1 "standby_x"] 2.

Lemma xdc_clusters_paired_witness :
  ∃ a b reqA reqB, clusters w_suite = [a; b] ∧ introduces reqA b ∧ introduces reqB a ∧
    log w_setup.1 = [XAddRemote "active_x" reqA; XAddRemote "standby_x" reqB].
Proof.
  destruct (xdc_clusters_paired (Fx := unit) w_metadata (λ _, 0) 0 ∅ "db" "x" ∅ true w_first w_setup.1 w_suite)
    as (a & b & reqA & reqB & H1 & H2 & H3 & _ & H4 & H5 & H6 & _); [done|vm_compute; reflexivity|].
  exists a, b, reqA, reqB. split; [done|]. split; [done|]. split; [done|].
  rewrite H6, H2, H3. reflexivity.
Defined.

(** The namespace created is active in the first cluster, and a failover to the
    other passes. *)
Example xdc_failover_example :
  let o := createGlobalNamespace w_suite "1" w_first in
  o.2 = Ok "test-namespace-1" ∧
  (failover w_suite "test-namespace-1" 0 "standby_x" 2
     (mkXState (mkWWorld 2 (w_active (world o.1)) 5) [] true)).2 = Ok tt ∧
  (failover w_suite "test-namespace-1" 0 "standby_x" 3
     (mkXState (mkWWorld 2 (w_active (world o.1)) 5) [] true)).2 = Panic "Not equal".
Proof. vm_compute. done. Qed.
