(* ===== verification/Wiring.v ===== *)
(** The wiring of a test server ([conformance-tests/testcore/onebox.go]): the
    applications that [startFrontend], [startHistory], [startMatching] and
    [startWorker] build from the harness's own values, what each of them is
    given, and the references the harness takes out of them.

    An application is a list of options for the dependency container: a type is
    provided by a constructor, decorated, populated from, or left to a module of
    the server.  Types are written as in the source. *)

From S2P Require Import Prelude GoStrings GoNet Murmur Mappings Json Checkpoint.
From S2P Require Import ClusterOptions TestEnv Onebox TestCluster.
From stdpp Require Import options.

Section wiring.
(** Objects of other packages, which the harness only passes on. *)
Context {Obj Policy : Type}.

(** * The server *)

Record RPC := mkRPC { BindOnIP : string; GRPCPort_ : Z; HTTPPort_ : Z; ForwardedHeaders : list string }.

(** A [config.Config]: the entry of its one service, the redirection policy and
    the exporters. *)
Record Config_ := mkConfig_ {
  cf_Service : string; cf_RPC : RPC; cf_Policy : option Policy; cf_Exporters : option Obj }.

(** What a server is made from: the parameters its applications read. *)
Record TemporalParams := mkTemporalParams {
  p_ClusterMetadataConfig : cluster_config;
  p_PersistenceConfig : Obj;
  p_ESConfig : option Obj;
  p_ESClient : option Obj;
  p_ArchiverMetadata : Obj;
  p_ArchiverProvider : Obj;
  p_AbstractDataStoreFactory : option Obj;
  p_VisibilityStoreFactory : option Obj;
  p_ExecutionManager : Obj;
  p_MockAdminClient : option Obj;
  p_DCRedirectionPolicy : Policy;
  p_TLSConfigProvider : option Obj;
  p_CaptureMetricsHandler : option Obj;
  p_ServiceFxOptions : gmap string (list Obj);
  p_TaskCategoryRegistry : Obj;
  p_HostsByProtocolByService : host_table;
  p_SpanExporters : option Obj;
  p_TokenProvider : option Obj
}.

(** The recorder of task writes of a host, around the manager of its store. *)
Record task_recorder := mkRecorder { tr_base : Obj; tr_host : string }.

(** The server: its parameters, which do not change, the file its replication
    recorder writes to, and what starting it sets (the visibility manager and the
    registry of CHASM are set where its engine is). *)
Record TemporalImpl := mkImpl {
  params : TemporalParams;
  outputFile : string;
  apps : list app;
  namespaceRegistries : list Obj;
  taskQueueRecorder : option task_recorder;
  chasmEngine : option Obj;
  frontendClients : option Obj;           (* the connection the clients share *)
  rawClients : option (Obj * Obj * Obj);   (* history, matching, scheduler *)
  frontendMembershipAddress : string
}.

Definition newTemporal (p : TemporalParams) : TemporalImpl :=
  mkImpl p ("/tmp/replication_stream_messages_" +:+ CurrentClusterName (p_ClusterMetadataConfig p) +:+ ".txt")
    [] [] None None None None "".

(** [setNexusCallbackURL]: the template for the server's HTTP address. *)
Definition nexusCallbackTemplate (addr : string) : string :=
  "http://" +:+ addr +:+ "/namespaces/{{.NamespaceName}}/nexus/callback".

Definition ChasmEngine (c : TemporalImpl) : string + option Obj :=
  let n := length (All (hosts_of (p_HostsByProtocolByService (params c)) grpcProtocol "history")) in
  if decide (n = 1) then inr (chasmEngine c)
  else inl ("expected exactly one host for chasm engine, got " +:+ Itoa n).

(** [GetExecutionManager]: the recorder once there is one. *)
Definition GetExecutionManager (c : TemporalImpl) : task_recorder + Obj :=
  match taskQueueRecorder c with
  | Some r => inl r
  | None => inr (p_ExecutionManager (params c))
  end.

(** * The container *)

Inductive fx_value :=
| VNil
| VObj (o : Obj)
| VString (s : string)
| VPort (p : Z)
| VPolicy (p : Policy)
| VCluster (c : cluster_config)
| VHostMap (m : gmap string Hosts)
| VConfig (c : Config_)
| VRPCFactory (r : RPC) (sn : string) (frontendURL : string) (tls : option Obj) (dialOptions : list string)
| VLogger (host : string)
| VMetrics (capture : option Obj)
| VInterceptors (clusterNames : list string)
| VDynamicConfig                          (* the server's memory client *)
| VServer.                                (* the server itself *)

(** Options of the container.  [needs] are the types of a constructor's
    arguments, in order; a constructor may fail or panic.  [FromModule] is a
    module or constructor of another package, and [Extra] a suite's own options:
    both are opaque, and count as providing nothing. *)
Inductive fx_option :=
| Supply (type : string) (v : fx_value)
| Provide (type : string) (needs : list string) (run : list fx_value → res fx_value)
| Decorate (type : string)
| FromModule (name : string)
| Populate (types : list string)
| Extra (opts : list Obj).

Definition provides (o : fx_option) : list string :=
  match o with
  | Supply t _ | Provide t _ _ => [t]
  | _ => []
  end.

Definition provided (g : list fx_option) : list string := g ≫= provides.

Fixpoint find_constructor (t : string) (g : list fx_option) : option fx_option :=
  match g with
  | [] => None
  | o :: g => if decide (t ∈ provides o) then Some o else find_constructor t g
  end.

(** The arguments of a constructor, from the results for their types. *)
Fixpoint all_ok (l : list (res fx_value)) : res (list fx_value) :=
  match l with
  | [] => Ok []
  | Ok v :: l => match all_ok l with Ok vs => Ok (v :: vs) | Err e => Err e | Panic m => Panic m | Diverge => Diverge end
  | Err e :: _ => Err e
  | Panic m :: _ => Panic m
  | Diverge :: _ => Diverge
  end.

(** The value of a type.  What the options of the harness do not provide comes
    from the modules ([ext]); [depth] bounds the constructors behind each other. *)
Fixpoint resolve (ext : string → res fx_value) (depth : nat) (g : list fx_option) (t : string)
    : res fx_value :=
  match find_constructor t g with
  | Some (Supply _ v) => Ok v
  | Some (Provide _ needs run) =>
      match depth with
      | O => Diverge
      | S depth =>
          match all_ok (resolve ext depth g <$> needs) with
          | Ok args => run args
          | Err e => Err e
          | Panic m => Panic m
          | Diverge => Diverge
          end
      end
  | _ => ext t
  end.

(** [fx.Provide(func() T { return v })] *)
Definition give (type : string) (v : fx_value) : fx_option := Provide type [] (λ _, Ok v).
Definition opt (o : option Obj) : fx_value := match o with Some x => VObj x | None => VNil end.

(** * The constructors of the harness *)

(** [draw a site] is [rand.Intn] as called at this place for this application;
    [GetFrontendClientConfig] and [MakeURL] are the server's. *)
Context (draw : app → string → nat → nat).
Context (GetFrontendClientConfig : Obj → string + Obj) (MakeURL : fx_value → string → string).
(** The copy of the persistence configuration that an application gets. *)
Context (copy_persistence : TemporalParams → fx_value).

Definition http_port (c : TemporalImpl) (a : app) (site : string) : res Z :=
  match FrontendHTTPAddress (draw a site) (p_HostsByProtocolByService (params c)) with
  | Ok addr => mustPortFromAddress addr
  | Err e => Err e
  | Panic m => Panic m
  | Diverge => Diverge
  end.

Definition to_value {A} (f : A → fx_value) (r : res A) : res fx_value :=
  match r with Ok a => Ok (f a) | Err e => Err e | Panic m => Panic m | Diverge => Diverge end.

Definition frontendConfigProvider (c : TemporalImpl) (a : app) : res fx_value :=
  to_value (λ port, VConfig (mkConfig_ "frontend"
      (mkRPC "" 0 port ["this-header-forwarded"; "this-header-prefix-forwarded-*"])
      (Some (p_DCRedirectionPolicy (params c))) (p_SpanExporters (params c))))
    (http_port c a "config").

Definition configProvider (c : TemporalImpl) (args : list fx_value) : res fx_value :=
  match args with
  | [VString serviceName] =>
      Ok (VConfig (mkConfig_ serviceName (mkRPC "" 0 0 [])
            (Some (p_DCRedirectionPolicy (params c))) (p_SpanExporters (params c))))
  | _ => Panic "arguments"
  end.

Definition GetMetricsHandler (c : TemporalImpl) : fx_value := VMetrics (p_CaptureMetricsHandler (params c)).

(** A nil pointer becomes a nil interface. *)
Definition GetTLSConfigProvider (c : TemporalImpl) : fx_value := opt (p_TLSConfigProvider (params c)).

(** The client configuration of a TLS provider, if there is one. *)
Definition client_tls (tlsConfigProvider : fx_value) : string + option Obj :=
  match tlsConfigProvider with
  | VObj p => match GetFrontendClientConfig p with inl err => inl err | inr cfg => inr (Some cfg) end
  | _ => inr None
  end.

Definition rpc_needs : list string :=
  ["primitives.ServiceName"; "listenHostPort"; "log.Logger"; "*membership.GRPCResolver";
   "encryption.TLSConfigProvider"; "membership.Monitor"; "telemetry.ClientStatsHandler";
   "httpPort"; "metrics.Handler"].

(** The dial options, by name; the recorder is always there. *)
Definition dial_options (c : TemporalImpl) (tracingStatsHandler : fx_value) : list string :=
  let clusterName := CurrentClusterName (p_ClusterMetadataConfig (params c)) in
  match tracingStatsHandler with VNil => [] | _ => ["WithStatsHandler"] end ++
  ["WithChainUnaryInterceptor " +:+ clusterName; "WithChainStreamInterceptor " +:+ clusterName].

Definition newRPCFactory (c : TemporalImpl) (args : list fx_value) : res fx_value :=
  match args with
  | [VString sn; VString grpcHostPort; _; grpcResolver; tlsConfigProvider; _; stats; VPort http; _] =>
      match SplitHostPort grpcHostPort with
      | None => Err "failed parsing host:port"
      | Some (host, portStr) =>
          match Atoi portStr with
          | None => Err "invalid port"
          | Some port =>
              match client_tls tlsConfigProvider with
              | inl err => Err ("failed getting client TLS config: " +:+ err)
              | inr frontendTLSConfig =>
                  Ok (VRPCFactory (mkRPC host port http []) sn (MakeURL grpcResolver "frontend")
                        frontendTLSConfig (dial_options c stats))
              end
          end
      end
  | _ => Panic "arguments"
  end.

(** The SDK client factory of an application: its URL and TLS configuration. *)
Definition sdkClientFactoryProvider (args : list fx_value) : res fx_value :=
  match args with
  | [grpcResolver; _; _; _; tlsConfigProvider] =>
      match client_tls tlsConfigProvider with
      | inl err => Panic err
      | inr tlsConfig =>
          Ok (VRPCFactory (mkRPC "" 0 0 []) "sdk" (MakeURL grpcResolver "frontend") tlsConfig [])
      end
  | _ => Panic "arguments"
  end.
Definition sdk_needs : list string :=
  ["*membership.GRPCResolver"; "metrics.Handler"; "log.Logger"; "*dynamicconfig.Collection";
   "encryption.TLSConfigProvider"].

Definition recorder_interceptor (c : TemporalImpl) : fx_value :=
  VInterceptors [CurrentClusterName (p_ClusterMetadataConfig (params c))].

(** [newClientFactoryProvider]: the cluster's configuration and the mocks. *)
Definition newClientFactoryProvider (args : list fx_value) : res fx_value :=
  match args with [VCluster cfg; _] => Ok (VCluster cfg) | _ => Panic "arguments" end.
Definition client_factory : fx_option :=
  Provide "client.FactoryProvider" ["*cluster.Config"; "map[string]adminservice.AdminServiceClient"]
    newClientFactoryProvider.

(** * The applications *)

(** [fx.Supply(c.copyPersistenceConfig(), serviceName, c.mockAdminClient)] *)
Definition supplies (c : TemporalImpl) (serviceName : string) : list fx_option :=
  [Supply "config.Persistence" (copy_persistence (params c));
   Supply "primitives.ServiceName" (VString serviceName);
   Supply "map[string]adminservice.AdminServiceClient" (opt (p_MockAdminClient (params c)))].

(** [static.MembershipModule(c.makeHostMap(serviceName, host))] *)
Definition membership (c : TemporalImpl) (serviceName host : string) : fx_option :=
  Supply "static.Hosts" (VHostMap (makeHostMap (p_HostsByProtocolByService (params c)) serviceName host)).

Definition getFxOptionsForService (c : TemporalImpl) (serviceName : string) : fx_option :=
  Extra (default [] (p_ServiceFxOptions (params c) !! serviceName)).

Definition frontend_options (c : TemporalImpl) (host : string) : list fx_option :=
  let p := params c in
  let a : app := ("frontend", host) in
  supplies c "frontend" ++
  [Provide "*config.Config" [] (λ _, frontendConfigProvider c a);
   give "listenHostPort" (VString host);
   Provide "httpPort" [] (λ _, to_value VPort (http_port c a "httpPort"));
   give "config.DCRedirectionPolicy" (VPolicy (p_DCRedirectionPolicy p));
   give "log.Logger" (VLogger host);
   give "log.ThrottledLogger" (VLogger host);
   give "resource.NamespaceLogger" (VLogger host);
   Provide "common.RPCFactory" rpc_needs (newRPCFactory c);
   membership c "frontend" host;
   give "*cluster.Config" (VCluster (p_ClusterMetadataConfig p));
   give "carchiver.ArchivalMetadata" (VObj (p_ArchiverMetadata p));
   give "provider.ArchiverProvider" (VObj (p_ArchiverProvider p));
   Provide "sdk.ClientFactory" sdk_needs sdkClientFactoryProvider;
   give "metrics.Handler" (GetMetricsHandler c);
   give "[]grpc.UnaryServerInterceptor" (recorder_interceptor c);
   give "[]grpc.StreamServerInterceptor" (recorder_interceptor c);
   give "authorization.Authorizer" VServer;
   give "authorization.ClaimMapper" VServer;
   give "authorization.JWTAudienceMapper" VNil;
   client_factory;
   give "searchattribute.Mapper" VNil;
   give "resolver.ServiceResolver" (VString "noop");
   FromModule "persistenceClient.FactoryProvider";
   give "persistenceClient.AbstractDataStoreFactory" (opt (p_AbstractDataStoreFactory p));
   give "visibility.VisibilityStoreFactory" (opt (p_VisibilityStoreFactory p));
   give "dynamicconfig.Client" VDynamicConfig;
   Decorate "testhooks.TestHooks";
   FromModule "resource.DefaultSnTaggedLoggerProvider";
   give "esclient.Client" (opt (p_ESClient p));
   give "encryption.TLSConfigProvider" (GetTLSConfigProvider c);
   give "tasks.TaskCategoryRegistry" (VObj (p_TaskCategoryRegistry p));
   FromModule "temporal.TraceExportModule";
   FromModule "temporal.ServiceTracingModule";
   FromModule "frontend.Module";
   Populate ["namespace.Registry"; "common.RPCFactory"; "resource.HistoryRawClient";
             "resource.MatchingRawClient"; "schedulerpb.SchedulerServiceClient"; "*membership.GRPCResolver"];
   FromModule "temporal.FxLogAdapter";
   getFxOptionsForService c "frontend";
   FromModule "chasm.Module";
   FromModule "chasmtests.Module"].

Definition history_options (c : TemporalImpl) (host : string) : list fx_option :=
  let p := params c in
  let a : app := ("history", host) in
  supplies c "history" ++
  [Provide "*config.Config" ["primitives.ServiceName"] (configProvider c);
   give "metrics.Handler" (GetMetricsHandler c);
   give "listenHostPort" (VString host);
   Provide "httpPort" [] (λ _, to_value VPort (http_port c a "httpPort"));
   give "config.DCRedirectionPolicy" (VPolicy (p_DCRedirectionPolicy p));
   give "log.Logger" (VLogger host);
   give "log.ThrottledLogger" (VLogger host);
   Provide "common.RPCFactory" rpc_needs (newRPCFactory c);
   Decorate "persistence.ExecutionManager";
   Decorate "[]grpc.UnaryServerInterceptor";
   give "[]grpc.StreamServerInterceptor" (recorder_interceptor c);
   membership c "history" host;
   give "*cluster.Config" (VCluster (p_ClusterMetadataConfig p));
   give "carchiver.ArchivalMetadata" (VObj (p_ArchiverMetadata p));
   give "provider.ArchiverProvider" (VObj (p_ArchiverProvider p));
   Provide "sdk.ClientFactory" sdk_needs sdkClientFactoryProvider;
   client_factory;
   give "searchattribute.Mapper" VNil;
   give "resolver.ServiceResolver" (VString "noop");
   FromModule "persistenceClient.FactoryProvider";
   give "persistenceClient.AbstractDataStoreFactory" (opt (p_AbstractDataStoreFactory p));
   give "visibility.VisibilityStoreFactory" (opt (p_VisibilityStoreFactory p));
   give "dynamicconfig.Client" VDynamicConfig;
   Decorate "testhooks.TestHooks";
   FromModule "resource.DefaultSnTaggedLoggerProvider";
   give "esclient.Client" (opt (p_ESClient p));
   give "encryption.TLSConfigProvider" (GetTLSConfigProvider c);
   give "tasks.TaskCategoryRegistry" (VObj (p_TaskCategoryRegistry p));
   FromModule "temporal.TraceExportModule";
   FromModule "temporal.ServiceTracingModule";
   FromModule "history.QueueModule";
   FromModule "history.Module";
   FromModule "replication.Module";
   FromModule "temporal.FxLogAdapter";
   getFxOptionsForService c "history";
   FromModule "chasm.Module";
   FromModule "chasmtests.Module";
   Populate ["namespace.Registry"];
   Populate ["chasm.Engine"];
   Populate ["chasm.VisibilityManager"];
   Populate ["*chasm.Registry"]].

Definition matching_options (c : TemporalImpl) (host : string) : list fx_option :=
  let p := params c in
  let a : app := ("matching", host) in
  supplies c "matching" ++
  [Provide "*config.Config" ["primitives.ServiceName"] (configProvider c);
   give "metrics.Handler" (GetMetricsHandler c);
   give "listenHostPort" (VString host);
   Provide "httpPort" [] (λ _, to_value VPort (http_port c a "httpPort"));
   give "log.Logger" (VLogger host);
   give "log.ThrottledLogger" (VLogger host);
   Provide "common.RPCFactory" rpc_needs (newRPCFactory c);
   membership c "matching" host;
   give "*cluster.Config" (VCluster (p_ClusterMetadataConfig p));
   give "carchiver.ArchivalMetadata" (VObj (p_ArchiverMetadata p));
   give "provider.ArchiverProvider" (VObj (p_ArchiverProvider p));
   client_factory;
   give "searchattribute.Mapper" VNil;
   give "resolver.ServiceResolver" (VString "noop");
   FromModule "persistenceClient.FactoryProvider";
   give "persistenceClient.AbstractDataStoreFactory" (opt (p_AbstractDataStoreFactory p));
   give "visibility.VisibilityStoreFactory" (opt (p_VisibilityStoreFactory p));
   give "dynamicconfig.Client" VDynamicConfig;
   Decorate "testhooks.TestHooks";
   give "esclient.Client" (opt (p_ESClient p));
   give "encryption.TLSConfigProvider" (GetTLSConfigProvider c);
   FromModule "resource.DefaultSnTaggedLoggerProvider";
   give "tasks.TaskCategoryRegistry" (VObj (p_TaskCategoryRegistry p));
   FromModule "temporal.TraceExportModule";
   FromModule "temporal.ServiceTracingModule";
   FromModule "matching.Module";
   FromModule "temporal.FxLogAdapter";
   getFxOptionsForService c "matching";
   FromModule "chasm.Module";
   FromModule "chasmtests.Module";
   Populate ["namespace.Registry"]].

(** The worker's copy of the cluster configuration; the map is cloned. *)
Definition clusterConfigCopy (c : TemporalImpl) : cluster_config :=
  let m := p_ClusterMetadataConfig (params c) in
  mkClusterConfig (EnableGlobalNamespace m) (FailoverVersionIncrement m) (MasterClusterName m)
    (CurrentClusterName m) (ClusterInformation m).

Definition worker_options (c : TemporalImpl) (host : string) : list fx_option :=
  let p := params c in
  let a : app := ("worker", host) in
  supplies c "worker" ++
  [Provide "*config.Config" ["primitives.ServiceName"] (configProvider c);
   give "metrics.Handler" (GetMetricsHandler c);
   give "listenHostPort" (VString host);
   Provide "httpPort" [] (λ _, to_value VPort (http_port c a "httpPort"));
   give "config.DCRedirectionPolicy" (VPolicy (p_DCRedirectionPolicy p));
   give "log.Logger" (VLogger host);
   give "log.ThrottledLogger" (VLogger host);
   Provide "common.RPCFactory" rpc_needs (newRPCFactory c);
   membership c "worker" host;
   give "*cluster.Config" (VCluster (clusterConfigCopy c));
   give "carchiver.ArchivalMetadata" (VObj (p_ArchiverMetadata p));
   give "provider.ArchiverProvider" (VObj (p_ArchiverProvider p));
   Provide "sdk.ClientFactory" sdk_needs sdkClientFactoryProvider;
   client_factory;
   give "searchattribute.Mapper" VNil;
   give "resolver.ServiceResolver" (VString "noop");
   FromModule "persistenceClient.FactoryProvider";
   give "persistenceClient.AbstractDataStoreFactory" (opt (p_AbstractDataStoreFactory p));
   give "visibility.VisibilityStoreFactory" (opt (p_VisibilityStoreFactory p));
   give "dynamicconfig.Client" VDynamicConfig;
   Decorate "testhooks.TestHooks";
   FromModule "resource.DefaultSnTaggedLoggerProvider";
   give "esclient.Client" (opt (p_ESClient p));
   give "encryption.TLSConfigProvider" (GetTLSConfigProvider c);
   give "tasks.TaskCategoryRegistry" (VObj (p_TaskCategoryRegistry p));
   FromModule "temporal.TraceExportModule";
   FromModule "temporal.ServiceTracingModule";
   FromModule "worker.Module";
   FromModule "temporal.FxLogAdapter";
   getFxOptionsForService c "worker";
   FromModule "chasm.Module";
   FromModule "chasmtests.Module";
   Populate ["namespace.Registry"]].

Definition options_of (c : TemporalImpl) (a : app) : list fx_option :=
  match a with
  | ("frontend", host) => frontend_options c host
  | ("history", host) => history_options c host
  | ("matching", host) => matching_options c host
  | (_, host) => worker_options c host
  end.

(** * Starting *)

(** The container: [fx_Err] is [app.Err()], [fx_Start] the error of [app.Start],
    [populate a t] what [fx.Populate] takes out of an application, [base_manager]
    the execution manager that a history application decorates. *)
Context (fx_Err fx_Start : app → option string) (populate : app → string → Obj).
Context (base_manager : app → Obj).

Definition set_started (a : app) (c : TemporalImpl) : TemporalImpl :=
  mkImpl (params c) (outputFile c) (apps c ++ [a])
    (namespaceRegistries c ++ [populate a "namespace.Registry"]) (taskQueueRecorder c)
    (chasmEngine c) (frontendClients c) (rawClients c) (frontendMembershipAddress c).

(** Building a history application wraps its execution manager in a recorder and
    populates the engine; both replace those of an earlier host. *)
Definition set_history (a : app) (c : TemporalImpl) : TemporalImpl :=
  mkImpl (params c) (outputFile c) (apps c) (namespaceRegistries c)
    (Some (mkRecorder (base_manager a) a.2)) (Some (populate a "chasm.Engine"))
    (frontendClients c) (rawClients c) (frontendMembershipAddress c).

(** The body of the loops of [start...]; [logger.Fatal] does not return. *)
Definition start_app (service host : string) : GoM TemporalImpl unit :=
  let a : app := (service, host) in
  (if decide (service = "history") then modify (set_history a) else mret tt);;
  (match fx_Err a with Some err => panic err | None => mret tt end);;
  modify (set_started a);;
  (match fx_Start a with Some err => panic err | None => mret tt end).

Fixpoint start_hosts (service : string) (hosts : list string) : GoM TemporalImpl unit :=
  match hosts with
  | [] => mret tt
  | host :: hosts => start_app service host;; start_hosts service hosts
  end.

Definition hosts_in (c : TemporalImpl) (service : string) : list string :=
  All (hosts_of (p_HostsByProtocolByService (params c)) grpcProtocol service).

Definition startMatching : GoM TemporalImpl unit :=
  hosts ← gets (λ c, hosts_in c "matching"); start_hosts "matching" hosts.
Definition startHistory : GoM TemporalImpl unit :=
  hosts ← gets (λ c, hosts_in c "history"); start_hosts "history" hosts.
Definition startWorker : GoM TemporalImpl unit :=
  hosts ← gets (λ c, hosts_in c "worker"); start_hosts "worker" hosts.

(** The clients come from the last frontend; without one the factory is nil. *)
Definition startFrontend : GoM TemporalImpl unit :=
  hosts ← gets (λ c, hosts_in c "frontend");
  start_hosts "frontend" hosts;;
  match last hosts with
  | None => panic "invalid memory address or nil pointer dereference"
  | Some host =>
      let from := populate ("frontend", host) in
      modify (λ c, mkImpl (params c) (outputFile c) (apps c) (namespaceRegistries c)
        (taskQueueRecorder c) (chasmEngine c) (Some (from "common.RPCFactory"))
        (Some (from "resource.HistoryRawClient", from "resource.MatchingRawClient",
               from "schedulerpb.SchedulerServiceClient"))
        (MakeURL (VObj (from "*membership.GRPCResolver")) "frontend"))
  end.

(** [Start]; [init] is the error of [InitializeSystemNamespaces]. *)
Definition Start_impl (init : option string) : GoM TemporalImpl unit :=
  match init with
  | Some err => fail ("failed to create temporal-system namespace: " +:+ err)
  | None => startMatching;; startHistory;; startFrontend;; startWorker
  end.

(** * What an application is given *)

Definition service_names : list string := ["frontend"; "history"; "matching"; "worker"].

(** No application provides a type twice, which the container would refuse. *)
Lemma options_NoDup c service host :
  service ∈ service_names → NoDup (provided (options_of c (service, host))).
Proof.
  intros Hs. unfold service_names in Hs. apply (bool_decide_eq_true_1 _).
  repeat (apply elem_of_cons in Hs as [->|Hs]; [vm_compute; reflexivity|]).
  by apply elem_of_nil in Hs.
Qed.

(** The values an application gets whatever the modules provide. *)
Lemma resolve_plain ext d c service host :
  service ∈ service_names →
  let g := options_of c (service, host) in
  resolve ext (S d) g "listenHostPort" = Ok (VString host) ∧
  resolve ext (S d) g "primitives.ServiceName" = Ok (VString service) ∧
  resolve ext (S d) g "static.Hosts" =
    Ok (VHostMap (makeHostMap (p_HostsByProtocolByService (params c)) service host)) ∧
  resolve ext (S d) g "log.Logger" = Ok (VLogger host) ∧
  resolve ext (S d) g "metrics.Handler" = Ok (GetMetricsHandler c) ∧
  resolve ext (S d) g "encryption.TLSConfigProvider" = Ok (GetTLSConfigProvider c) ∧
  resolve ext (S d) g "httpPort" = to_value VPort (http_port c (service, host) "httpPort") ∧
  resolve ext (S d) g "*cluster.Config" = Ok (VCluster (p_ClusterMetadataConfig (params c))).
Proof.
  intros Hs. unfold service_names in Hs.
  repeat (apply elem_of_cons in Hs as [->|Hs];
    [cbn zeta; split_and!; [reflexivity..|]; cbn; unfold give, clusterConfigCopy;
     by destruct (p_ClusterMetadataConfig (params c))|]).
  by apply elem_of_nil in Hs.
Qed.

Lemma resolve_external ext d c service host t :
  service ∈ service_names →
  t ∈ ["*membership.GRPCResolver"; "membership.Monitor"; "telemetry.ClientStatsHandler"] →
  resolve ext d (options_of c (service, host)) t = ext t.
Proof.
  intros Hs Ht. unfold service_names in Hs. destruct d.
  all: repeat (apply elem_of_cons in Hs as [->|Hs];
    [repeat (apply elem_of_cons in Ht as [->|Ht]; [reflexivity|]); by apply elem_of_nil in Ht|]).
  all: by apply elem_of_nil in Hs.
Qed.

(** The RPC factory of an application is built from its own values and from
    what the modules provide for the other three types. *)
Lemma resolve_factory ext d c service host port resolver monitor stats :
  service ∈ service_names →
  http_port c (service, host) "httpPort" = Ok port →
  ext "*membership.GRPCResolver" = Ok resolver → ext "membership.Monitor" = Ok monitor →
  ext "telemetry.ClientStatsHandler" = Ok stats →
  resolve ext (S (S d)) (options_of c (service, host)) "common.RPCFactory" =
    newRPCFactory c [VString service; VString host; VLogger host; resolver; GetTLSConfigProvider c;
                     monitor; stats; VPort port; GetMetricsHandler c].
Proof.
  intros Hs Hp Hr Hm Hst.
  assert (resolve ext (S (S d)) (options_of c (service, host)) "common.RPCFactory" =
    match all_ok (resolve ext (S d) (options_of c (service, host)) <$> rpc_needs) with
    | Ok args => newRPCFactory c args
    | Err e => Err e | Panic m => Panic m | Diverge => Diverge
    end) as ->.
  { unfold service_names in Hs.
    repeat (apply elem_of_cons in Hs as [->|Hs]; [reflexivity|]). by apply elem_of_nil in Hs. }
  destruct (resolve_plain ext d c service host Hs) as (H1 & H2 & _ & H4 & H5 & H6 & H7 & _).
  unfold rpc_needs. cbn [fmap list_fmap].
  rewrite H1, H2, H4, H5, H6, H7, Hp, !resolve_external by (done || (clear; set_solver)).
  by rewrite Hr, Hm, Hst.
Qed.

(** The HTTP port an application is told is the port of one of the frontends. *)
Lemma http_port_allocated c a site free cfg :
  p_HostsByProtocolByService (params c) = allocate_hosts free cfg →
  (∀ n, 0 < n → draw a site n < n) → (∀ i, (0 ≤ free i < 2 ^ 63)%Z) →
  ∃ i, http_port c a site = Ok (free i) ∧
    "127.0.0.1:" +:+ show_int (free i) ∈
      All (hosts_of (allocate_hosts free cfg) httpProtocol "frontend").
Proof.
  intros Ht Hdraw Hfree. unfold http_port, FrontendHTTPAddress. rewrite Ht.
  assert (∃ k, All (hosts_of (allocate_hosts free cfg) httpProtocol "frontend") =
    makeAddresses free k (NumFrontendHosts (normalize_hosts cfg))) as [k ->] by (by eexists).
  rewrite makeAddresses_seq. set (n := Z.to_nat _).
  assert (0 < n) as Hn by (unfold n, normalize_hosts, minNodes; cbn; lia).
  rewrite length_fmap, length_seq. rewrite decide_False by lia.
  specialize (Hdraw n Hn). unfold address_at. rewrite list_lookup_fmap, lookup_seq_lt by done.
  cbn [fmap option_fmap option_map]. exists (k + draw a site n). split; [by apply address_port|].
  apply list_elem_of_fmap. eexists. split; [reflexivity|]. apply elem_of_seq. lia.
Qed.

(** C35: every application serves its own host.  On a table of hosts allocated from
    free ports, the application started for a host of a service can be built
    as far as the harness's own options go (none of their constructors and values
    provides a type twice; what modules of the server and a suite's own options
    provide is not seen), announces that host as its own membership address among all of its service's hosts, is told the
    HTTP port of a frontend, and its RPC factory binds exactly the address and
    port of the host, unless the TLS provider fails. *)
Theorem applications_serve_their_hosts ext d c free cfg service host tls resolver monitor stats :
  p_HostsByProtocolByService (params c) = allocate_hosts free cfg →
  (∀ a site n, 0 < n → draw a site n < n) → (∀ i, (0 ≤ free i < 2 ^ 63)%Z) →
  service ∈ service_names → host ∈ hosts_in c service →
  client_tls (GetTLSConfigProvider c) = inr tls →
  ext "*membership.GRPCResolver" = Ok resolver → ext "membership.Monitor" = Ok monitor →
  ext "telemetry.ClientStatsHandler" = Ok stats →
  let g := options_of c (service, host) in
  NoDup (provided g) ∧
  (∃ m, resolve ext (S d) g "static.Hosts" = Ok (VHostMap m) ∧
        m !! service = Some (mkHosts (hosts_in c service) host)) ∧
  ∃ i j, host = "127.0.0.1:" +:+ show_int (free i) ∧
    "127.0.0.1:" +:+ show_int (free j) ∈
      All (hosts_of (allocate_hosts free cfg) httpProtocol "frontend") ∧
    resolve ext (S d) g "httpPort" = Ok (VPort (free j)) ∧
    resolve ext (S (S d)) g "common.RPCFactory" =
      Ok (VRPCFactory (mkRPC "127.0.0.1" (free i) (free j) []) service (MakeURL resolver "frontend")
            tls (dial_options c stats)).
Proof.
  intros Ht Hdraw Hfree Hs Hhost Htls Hr Hm Hst g.
  destruct (resolve_plain ext d c service host Hs) as (_ & _ & H3 & _ & _ & _ & H7 & _).
  split; [by apply options_NoDup|]. split.
  { eexists. split; [exact H3|]. unfold makeHostMap. rewrite lookup_insert_eq. do 2 f_equal.
    unfold hosts_in, hosts_of. destruct (p_HostsByProtocolByService (params c) !! grpcProtocol); done. }
  assert (∃ i, host = "127.0.0.1:" +:+ show_int (free i)) as [i Hi].
  { unfold hosts_in in Hhost. rewrite Ht in Hhost.
    destruct (addresses_allocated free cfg) as [n Hall].
    assert (host ∈ addresses (allocate_hosts free cfg)) as Hin.
    { unfold addresses. apply elem_of_app. left. apply list_elem_of_bind. exists service.
      split; [done|]. unfold service_names in Hs. clear -Hs. set_solver. }
    rewrite Hall in Hin. apply list_elem_of_fmap in Hin as (i & -> & _). by exists i. }
  destruct (http_port_allocated c (service, host) "httpPort" free cfg Ht) as (j & Hp & Hj);
    [apply Hdraw|done|].
  exists i, j. split; [done|]. split; [done|]. split; [unfold g; by rewrite H7, Hp|].
  unfold g. rewrite (resolve_factory ext d c service host _ resolver monitor stats Hs Hp Hr Hm Hst).
  unfold newRPCFactory. rewrite Hi.
  change ("127.0.0.1:" +:+ show_int (free i)) with ("127.0.0.1" +:+ ":" +:+ show_int (free i)).
  rewrite SplitHostPort_join.
  - rewrite Atoi_show_int by done. by rewrite Htls.
  - clear. repeat constructor; unfold host_char; set_solver.
  - apply show_int_host. apply Hfree.
Qed.

(** * What starting leaves behind *)

Lemma start_app_inv service host c c' :
  start_app service host c = (c', Ok tt) →
  params c' = params c ∧ apps c' = apps c ++ [(service, host)] ∧
  namespaceRegistries c' = namespaceRegistries c ++ [populate (service, host) "namespace.Registry"] ∧
  taskQueueRecorder c' =
    (if decide (service = "history") then Some (mkRecorder (base_manager (service, host)) host)
     else taskQueueRecorder c) ∧
  frontendClients c' = frontendClients c.
Proof.
  unfold start_app. cbn zeta. case_decide as Hs; go_simpl;
    destruct (fx_Err _); [done| |done|]; go_simpl; destruct (fx_Start _); try done; by intros [= <-].
Qed.

Lemma start_hosts_inv service hosts c c' :
  start_hosts service hosts c = (c', Ok tt) →
  params c' = params c ∧ apps c' = apps c ++ ((λ host, (service, host)) <$> hosts) ∧
  namespaceRegistries c' =
    namespaceRegistries c ++ ((λ host, populate (service, host) "namespace.Registry") <$> hosts) ∧
  taskQueueRecorder c' =
    (if decide (service = "history")
     then match last hosts with
          | Some host => Some (mkRecorder (base_manager (service, host)) host)
          | None => taskQueueRecorder c
          end
     else taskQueueRecorder c) ∧
  frontendClients c' = frontendClients c.
Proof.
  revert c. induction hosts as [|host hosts IH]; intros c; cbn [start_hosts].
  { intros [= <-]. cbn. rewrite !app_nil_r. by case_decide. }
  unfold mbind, go_bind. destruct (start_app service host c) as [c1 [[]| | |]] eqn:H1; try done.
  apply start_app_inv in H1 as (P1 & A1 & R1 & T1 & F1).
  intros (P2 & A2 & R2 & T2 & F2)%IH. rewrite P2, A2, R2, T2, F2, P1, A1, R1, T1, F1.
  cbn [fmap list_fmap]. rewrite <-!(assoc_L (++)). split_and!; try done.
  destruct (decide (service = "history")); [|done].
  destruct hosts as [|h hosts]; [done|]. rewrite last_cons_cons.
  destruct (last (h :: hosts)) eqn:E; [done|]. by apply last_None in E.
Qed.

(** A server that started has one registry per application, in the order of
    [Onebox]'s applications; its execution manager is the recorder of the last
    history host, so what the other history hosts write is not recorded; and its
    clients are those of the last frontend. *)
Theorem started_server_registries c c' :
  Start_impl None c = (c', Ok tt) → apps c = [] → namespaceRegistries c = [] →
  let t := p_HostsByProtocolByService (params c) in
  apps c' = all_apps t ∧
  namespaceRegistries c' = (λ a, populate a "namespace.Registry") <$> all_apps t ∧
  (∃ host, last (hosts_in c "frontend") = Some host ∧
     frontendClients c' = Some (populate ("frontend", host) "common.RPCFactory")) ∧
  ∀ host, last (hosts_in c "history") = Some host →
    GetExecutionManager c' = inl (mkRecorder (base_manager ("history", host)) host).
Proof.
  intros Hstart Ha Hr t. unfold Start_impl, mbind, go_bind in Hstart.
  unfold startMatching, startHistory, startFrontend, startWorker, mbind, go_bind, gets in Hstart.
  destruct (start_hosts "matching" (hosts_in c "matching") c) as [c1 [[]| | |]] eqn:H1; try done.
  apply start_hosts_inv in H1 as (P1 & A1 & R1 & T1 & F1).
  destruct (start_hosts "history" (hosts_in c1 "history") c1) as [c2 [[]| | |]] eqn:H2; try done.
  apply start_hosts_inv in H2 as (P2 & A2 & R2 & T2 & F2).
  destruct (start_hosts "frontend" (hosts_in c2 "frontend") c2) as [c3 [[]| | |]] eqn:H3; try done.
  apply start_hosts_inv in H3 as (P3 & A3 & R3 & T3 & F3).
  destruct (last (hosts_in c2 "frontend")) as [fh|] eqn:Hlast; [|done].
  unfold modify in Hstart. set (c4 := mkImpl _ _ _ _ _ _ _ _ _) in Hstart.
  apply start_hosts_inv in Hstart as (P5 & A5 & R5 & T5 & F5).
  assert (∀ s, hosts_in c1 s = hosts_in c s) as E1 by (intros; unfold hosts_in; by rewrite P1).
  assert (∀ s, hosts_in c2 s = hosts_in c s) as E2 by (intros; unfold hosts_in; by rewrite P2, P1).
  assert (∀ s, hosts_in c4 s = hosts_in c s) as E4
    by (intros; unfold hosts_in, c4; cbn [params]; by rewrite P3, P2, P1).
  rewrite !E1, !E2, !E4 in *. cbn [apps namespaceRegistries taskQueueRecorder frontendClients c4] in *.
  assert (all_apps t = ((λ h, ("matching", h)) <$> hosts_in c "matching") ++
    ((λ h, ("history", h)) <$> hosts_in c "history") ++
    ((λ h, ("frontend", h)) <$> hosts_in c "frontend") ++
    ((λ h, ("worker", h)) <$> hosts_in c "worker")) as Hall.
  { unfold all_apps, start_order. cbn [mbind list_bind]. by rewrite app_nil_r. }
  split_and!.
  - rewrite A5, A3, A2, A1, Ha, Hall. by rewrite <-!(assoc_L (++)).
  - rewrite R5, R3, R2, R1, Hr, Hall, !fmap_app, <-!list_fmap_compose. by rewrite <-!(assoc_L (++)).
  - exists fh. split; [done|]. by rewrite F5.
  - intros host Hh. unfold GetExecutionManager. rewrite T5, T3, T2, Hh.
    repeat case_decide; done.
Qed.
End wiring.

(** * A server with two frontends *)

Definition w_ports (i : nat) : Z := (33000 + Z.of_nat i `mod` 1000)%Z.
Definition w_host_counts : host_config := mkHostConfig 2 2 1 1 false.
Definition w_params : TemporalParams (Obj := string) (Policy := unit) :=
  mkTemporalParams (mkClusterConfig false 10 "active" "active" ∅) "persistence" None None "am" "ap" None None
    "em" None tt (Some "tls") None ∅ "tcr"
    (allocate_hosts w_ports w_host_counts) None None.
Definition w_server : TemporalImpl := newTemporal w_params.
Definition w_ext (t : string) : res (fx_value (Obj := string) (Policy := unit)) := Ok (VObj t).
Definition w_url (r : fx_value (Obj := string) (Policy := unit)) (service : string) : string :=
  "membership://" +:+ service.

Lemma applications_serve_their_hosts_witness :
  resolve w_ext 3
    (options_of (λ _ _ _, 0) inr w_url (λ p, VObj (p_PersistenceConfig p)) w_server
       ("history", "127.0.0.1:33004")) "common.RPCFactory" =
    Ok (VRPCFactory (mkRPC "127.0.0.1" 33004 33006 []) "history" "membership://frontend" (Some "tls")
          ["WithStatsHandler"; "WithChainUnaryInterceptor active"; "WithChainStreamInterceptor active"]).
Proof.
  destruct (applications_serve_their_hosts (λ _ _ _, 0) inr w_url (λ p, VObj (p_PersistenceConfig p))
    w_ext 1 w_server w_ports w_host_counts
    "history" "127.0.0.1:33004" (Some "tls") (VObj "*membership.GRPCResolver") (VObj "membership.Monitor")
    (VObj "telemetry.ClientStatsHandler")) as (_ & _ & i & j & Hi & Hj & Hp & Hf).
  - reflexivity.
  - done.
  - intros i. unfold w_ports. pose proof (Z.mod_pos_bound (Z.of_nat i) 1000). lia.
  - apply (bool_decide_eq_true_1 _). vm_compute. reflexivity.
  - apply (bool_decide_eq_true_1 _). vm_compute. reflexivity.
  - done.
  - done.
  - done.
  - done.
  - rewrite Hf. do 2 f_equal. clear Hf.
    assert (w_ports i = 33004)%Z as ->.
    { assert (mustPortFromAddress ("127.0.0.1:" +:+ show_int (w_ports i)) = Ok 33004%Z)
        as E by (rewrite <-Hi; vm_compute; reflexivity).
      rewrite address_port in E; [by injection E|]. unfold w_ports. pose proof (Z.mod_pos_bound (Z.of_nat i) 1000). lia. }
    assert (resolve w_ext 2
      (options_of (λ _ _ _, 0) inr w_url (λ p, VObj (p_PersistenceConfig p)) w_server
         ("history", "127.0.0.1:33004")) "httpPort" = Ok (VPort 33006)) as Hp' by (vm_compute; reflexivity).
    pose proof (eq_trans (eq_sym Hp') Hp) as E.
    injection E as <-. reflexivity.
Defined.

(** The HTTP ports of the frontends are drawn independently: with two frontends
    both may be told to listen on the same one, and one frontend may be given
    one port by its configuration and another by its factory. *)
Theorem frontends_draw_http_ports :
  let hosts := hosts_in w_server "frontend" in
  hosts = ["127.0.0.1:33000"; "127.0.0.1:33001"] ∧
  (∃ draw, (∀ a site n, 0 < n → draw a site n < n) ∧
     (λ h, http_port draw w_server ("frontend", h) "httpPort") <$> hosts = [Ok 33006%Z; Ok 33006%Z]) ∧
  (∃ draw, (∀ a site n, 0 < n → draw a site n < n) ∧
     (λ site, http_port draw w_server ("frontend", "127.0.0.1:33000") site) <$> ["config"; "httpPort"] =
       [Ok 33006%Z; Ok 33007%Z]).
Proof.
  split; [vm_compute; reflexivity|]. split.
  - exists (λ _ _ _, 0). split; [done|]. vm_compute. reflexivity.
  - exists (λ _ site n, if decide (site = "httpPort") then n - 1 else 0). split.
    + intros a site n Hn. case_decide; lia.
    + vm_compute. reflexivity.
Qed.
