(* ===== verification/Certs.v ===== *)
(** Certificates of the harness ([conformance-tests/testutils/certificate.go] and
    [tls.go]) and the TLS configuration made from them
    ([createFixedTLSConfigProvider] of [testcore/test_cluster.go]).

    Cryptography is symbolic: a key is the number of its generation, a signature
    names the key that made it, and a file is represented by the PEM block that
    was written to it, DER and PEM being encodings of it. *)

From S2P Require Import Prelude GoStrings GoNet.
From Stdlib Require Import Ascii.
From stdpp Require Import options.

(** * Data *)

Record rsa_key := mkKey { key_id : nat; key_bits : Z }.

Inductive ExtKeyUsage := ServerAuth | ClientAuth.
Inductive KeyUsage := CertSign | KeyEncipherment | DigitalSignature.

#[global] Instance ExtKeyUsage_eq_dec : EqDecision ExtKeyUsage.
Proof. solve_decision. Defined.

Section certs.
(** [net.ParseIP] and [IP.IsLoopback]. *)
Context {IP : Type} (ParseIP : string → option IP) (IsLoopback : IP → bool) (IPv6loopback IPv4loopback : IP).

Record template := mkTemplate {
  SerialNumber : Z;
  CommonName : string;
  Country : list string;
  Organization : list string;
  NotBefore : Z;                      (* in nanoseconds *)
  NotAfter : Z;
  BasicConstraintsValid : bool;
  IsCA : bool;
  tm_ExtKeyUsage : list ExtKeyUsage;
  tm_KeyUsage : list KeyUsage;
  IPAddresses : list IP;
  DNSNames : list string
}.

(** A certificate: what it states, the key it certifies, the name of its issuer
    and the key that signed it. *)
Record Certificate := mkCert { stated : template; public : nat; issuer : string; signed_by : nat }.

(** [tls.Certificate]: a chain and its private key. *)
Record tls_Certificate := mkTLS { chain_ : list Certificate; PrivateKey : rsa_key }.

Inductive der := DerCert (c : Certificate) | DerKey (k : rsa_key).
Record pem_block := mkBlock { pem_Type : string; pem_Bytes : der }.

(** * The world: files, keys and the clock *)

(** [fault n] is the error of the [n]-th call that can fail outside of the
    harness (key generation, signing, writing and reading). *)
Context (fault : nat → option string) (now : Z) (Int63n : nat → Z).

Record cert_world := mkCertWorld { files : gmap string pem_block; next_key : nat; calls : nat }.

Definition external : GoM cert_world unit := λ w,
  (mkCertWorld (files w) (next_key w) (S (calls w)),
   match fault (calls w) with Some e => Err e | None => Ok tt end).

Definition GenerateKey (bits : Z) : GoM cert_world rsa_key :=
  external;;
  k ← gets next_key;
  modify (λ w, mkCertWorld (files w) (S (next_key w)) (calls w));;
  mret (mkKey k bits).

(** [CreateCertificate template parent pub priv]. *)
Definition CreateCertificate (t parent : template) (pub priv : rsa_key) : GoM cert_world Certificate :=
  external;; mret (mkCert t (key_id pub) (CommonName parent) (key_id priv)).

Definition WriteFile (file : string) (b : pem_block) : GoM cert_world unit :=
  external;; modify (λ w, mkCertWorld (<[file := b]> (files w)) (next_key w) (calls w)).

Definition ReadFile (file : string) : GoM cert_world pem_block :=
  external;;
  f ← gets (λ w, files w !! file);
  match f with Some b => mret b | None => fail ("open " +:+ file +:+ ": no such file or directory") end.

(** * certificate.go *)

(** [strings.ToLower] on ASCII letters. *)
Definition lower (c : ascii) : ascii :=
  let n := nat_of_ascii c in if decide (65 ≤ n ≤ 90) then ascii_of_nat (n + 32) else c.
Definition ToLower (s : string) : string := String.string_of_list_ascii (lower <$> chars s).

(** The alternative names of a certificate for [commonName]. *)
Definition alternative_names (commonName : string) : list IP * list string :=
  let '(ips, dns) :=
    match ParseIP commonName with
    | Some ip =>
        if IsLoopback ip then ([IPv6loopback; IPv4loopback], ["localhost"]) else ([ip], [])
    | None => ([], [commonName])
    end in
  if decide (ToLower commonName = "localhost") then ([IPv6loopback; IPv4loopback], dns) else (ips, dns).

Definition minute : Z := 60 * 1000000000.
Definition day : Z := 24 * 60 * minute.

Definition ca_template (commonName : string) (extUsage : list ExtKeyUsage) : template :=
  let names := alternative_names commonName in
  mkTemplate (now / 1000000000) commonName ["USA"] ["TemporalTechnologiesTesting"]
    (now - minute) (now + day) true true extUsage [CertSign; KeyEncipherment; DigitalSignature]
    names.1 names.2.

Definition generateSelfSignedX509CA (commonName : string) (extUsage : list ExtKeyUsage)
    (keyLengthBits : Z) : GoM cert_world tls_Certificate :=
  let t := ca_template commonName extUsage in
  privateKey ← GenerateKey keyLengthBits;
  cert ← CreateCertificate t t privateKey privateKey;
  mret (mkTLS [cert] privateKey).

Definition server_template (commonName : string) (serialNumber : Z) : template :=
  let names := alternative_names commonName in
  mkTemplate serialNumber commonName ["USA"] ["TemporalTechnologiesTesting"]
    (now - minute) (now + day) true false [ServerAuth; ClientAuth] [DigitalSignature]
    names.1 names.2.

(** A serial number of 0 is replaced by a random one; [ca.Certificate[0]] panics
    when the chain is empty. *)
Definition generateServerX509UsingCAAndSerialNumber (commonName : string) (serialNumber : Z)
    (ca : tls_Certificate) : GoM cert_world (tls_Certificate * rsa_key) :=
  i ← (if decide (serialNumber = 0)%Z then gets (λ w, Int63n (calls w)) else mret serialNumber);
  let t := server_template commonName i in
  privateKey ← GenerateKey 4096;
  match chain_ ca with
  | [] => panic "runtime error: index out of range"
  | caCert :: _ =>
      cert ← CreateCertificate t (stated caCert) privateKey (PrivateKey ca);
      mret (mkTLS [cert] privateKey, privateKey)
  end.

(** * tls.go *)

Definition CertFilePath (dir : string) : string := dir +:+ "/cert_pub.pem".
Definition KeyFilePath (dir : string) : string := dir +:+ "/cert_priv.pem".
Definition CAFilePath (dir : string) : string := dir +:+ "/ca_pub.pem".

(** [pemEncodeToFile]; encoding into a buffer does not fail. *)
Definition pemEncodeToFile (file : string) (b : pem_block) : GoM cert_world unit := WriteFile file b.

Definition first_cert (c : tls_Certificate) : GoM cert_world Certificate :=
  match chain_ c with [] => panic "runtime error: index out of range" | x :: _ => mret x end.

Definition GenerateSelfSignedCA (filePath : string) : GoM cert_world tls_Certificate :=
  caCert ← generateSelfSignedX509CA "undefined" [] 1024;
  c ← first_cert caCert;
  pemEncodeToFile filePath (mkBlock "CERTIFICATE" (DerCert c));;
  mret caCert.

(** [tls.X509KeyPair]: a certificate and the key it certifies. *)
Definition X509KeyPair (certPem keyPem : pem_block) : GoM cert_world tls_Certificate :=
  match pem_Bytes certPem, pem_Bytes keyPem with
  | DerCert c, DerKey k =>
      if decide (public c = key_id k) then mret (mkTLS [c] k)
      else fail "tls: private key does not match public key"
  | _, _ => fail "tls: failed to find PEM block"
  end.

Definition GenerateServerCert (caCert : tls_Certificate) (commonName : string) (serialNumber : Z)
    (certPubFile certPrivFile : string) : GoM cert_world tls_Certificate :=
  r ← generateServerX509UsingCAAndSerialNumber commonName serialNumber caCert;
  let '(serverCert, privKey) := r in
  c ← first_cert serverCert;
  let certPEM := mkBlock "CERTIFICATE" (DerCert c) in
  pemEncodeToFile certPubFile certPEM;;
  let keyPEM := mkBlock "RSA PRIVATE KEY" (DerKey privKey) in
  pemEncodeToFile certPrivFile keyPEM;;
  X509KeyPair certPEM keyPEM.

Record CertChain := mkChain { CertPubFile : string; CertKeyFile : string; CaPubFile : string }.

Definition GenerateTestChainWithSN (tempDir commonName : string) (serialNumber : Z)
    : GoM cert_world (CertChain * tls_Certificate) :=
  let caPubFile := CAFilePath tempDir in
  let certPubFile := CertFilePath tempDir in
  let certPrivFile := KeyFilePath tempDir in
  caCert ← GenerateSelfSignedCA caPubFile;
  GenerateServerCert caCert commonName serialNumber certPubFile certPrivFile;;
  mret (mkChain certPubFile certPrivFile caPubFile, caCert).

Definition GenerateTestChain (tempDir commonName : string) : GoM cert_world CertChain :=
  r ← GenerateTestChainWithSN tempDir commonName 0; mret r.1.

(** A pool of authorities. *)
Definition GenerateSelfSignedCAPool (caCert : tls_Certificate) : GoM cert_world (list Certificate) :=
  c ← first_cert caCert; mret [c].

Fixpoint generate_certs (tempDir commonName : string) (caCert : tls_Certificate) (i : nat) (num : nat)
    : GoM cert_world (list tls_Certificate) :=
  match num with
  | O => mret []
  | S num =>
      cert ← GenerateServerCert caCert commonName (Z.of_nat i + 100)
               (tempDir +:+ "/cert_pub_" +:+ Itoa i +:+ ".pem")
               (tempDir +:+ "/cert_priv_" +:+ Itoa i +:+ ".pem");
      certs ← generate_certs tempDir commonName caCert (S i) num;
      mret (cert :: certs)
  end.

(** [make] panics for a negative number. *)
Definition GenerateTestCerts (tempDir commonName : string) (num : Z)
    : GoM cert_world (list tls_Certificate * list Certificate * list Certificate) :=
  caCert ← GenerateSelfSignedCA (CAFilePath tempDir);
  caPool ← GenerateSelfSignedCAPool caCert;
  (if decide (num < 0)%Z then panic "runtime error: makeslice: len out of range" else mret tt);;
  chains ← generate_certs tempDir commonName caCert 0 (Z.to_nat num);
  wrongCACert ← GenerateSelfSignedCA (CAFilePath tempDir);
  wrongCAPool ← GenerateSelfSignedCAPool wrongCACert;
  mret (chains, caPool, wrongCAPool).

(** * createFixedTLSConfigProvider *)

Record tls_Config := mkTLSConfig {
  Certificates : list tls_Certificate;
  ClientCAs : list Certificate;
  RequireAndVerifyClientCert : bool;
  ServerName : string;
  RootCAs : list Certificate
}.

Record FixedTLSConfigProvider := mkProvider {
  InternodeServerConfig : tls_Config; InternodeClientConfig : tls_Config;
  FrontendServerConfig : tls_Config; FrontendClientConfig : tls_Config
}.

Definition TlsCertCommonName : string := "my-common-name".

Definition LoadX509KeyPair (certFile keyFile : string) : GoM cert_world tls_Certificate :=
  c ← ReadFile certFile; k ← ReadFile keyFile; X509KeyPair c k.

Definition provider_from (tempDir : string) : GoM cert_world FixedTLSConfigProvider :=
  certChain ← GenerateTestChain tempDir TlsCertCommonName;
  tlsCert ← LoadX509KeyPair (CertPubFile certChain) (CertKeyFile certChain);
  caCertBytes ← ReadFile (CaPubFile certChain);
  match pem_Bytes caCertBytes with
  | DerKey _ => fail "failed adding CA to pool"
  | DerCert ca =>
      let serverTLSConfig := mkTLSConfig [tlsCert] [ca] true "" [] in
      let clientTLSConfig := mkTLSConfig [tlsCert] [] false TlsCertCommonName [ca] in
      mret (mkProvider serverTLSConfig clientTLSConfig serverTLSConfig clientTLSConfig)
  end.

(** [os.RemoveAll(dir)]. *)
Definition RemoveAll (dir : string) (w : cert_world) : cert_world :=
  mkCertWorld (filter (λ f, HasPrefix f.1 (dir +:+ "/") = false) (files w)) (next_key w) (calls w).

(** The directory is removed when the function returns, with or without error. *)
Definition createFixedTLSConfigProvider (tempDir : string) : GoM cert_world FixedTLSConfigProvider :=
  external;;
  ((λ w, let o := provider_from tempDir w in (RemoveAll tempDir o.1, o.2))
    : GoM cert_world FixedTLSConfigProvider).

(** * Lemmas *)

Lemma external_Ok w w' : external w = (w', Ok tt) → files w' = files w ∧ next_key w' = next_key w.
Proof. unfold external. destruct (fault _); [done|]. by intros [= <-]. Qed.

Lemma GenerateKey_Ok bits w w' k :
  GenerateKey bits w = (w', Ok k) →
  k = mkKey (next_key w) bits ∧ files w' = files w ∧ next_key w' = S (next_key w).
Proof.
  unfold GenerateKey. intros (w1 & [] & [Hf Hk]%external_Ok & H)%go_bind_Ok_inv.
  unfold mbind, go_bind, gets, modify in H. injection H as <- <-. cbn. by rewrite Hf, Hk.
Qed.

Lemma CreateCertificate_Ok t parent pub priv w w' c :
  CreateCertificate t parent pub priv w = (w', Ok c) →
  c = mkCert t (key_id pub) (CommonName parent) (key_id priv) ∧
  files w' = files w ∧ next_key w' = next_key w.
Proof.
  unfold CreateCertificate. intros (w1 & [] & [Hf Hk]%external_Ok & [= <- <-])%go_bind_Ok_inv.
  by rewrite Hf, Hk.
Qed.

Lemma WriteFile_Ok file b w w' :
  WriteFile file b w = (w', Ok tt) →
  files w' = <[file := b]> (files w) ∧ next_key w' = next_key w.
Proof.
  unfold WriteFile. intros (w1 & [] & [Hf Hk]%external_Ok & [= <-])%go_bind_Ok_inv.
  cbn. by rewrite Hf, Hk.
Qed.

Lemma ReadFile_Ok file b w w' :
  ReadFile file w = (w', Ok b) →
  files w !! file = Some b ∧ files w' = files w ∧ next_key w' = next_key w.
Proof.
  unfold ReadFile. intros (w1 & [] & [Hf Hk]%external_Ok & H)%go_bind_Ok_inv.
  unfold mbind, go_bind, gets in H. rewrite Hf in H.
  destruct (files w !! file); [|done]. injection H as <- <-. by rewrite Hf, Hk.
Qed.

(** The authority made from the key with this number. *)
Definition authority (k : nat) : Certificate := mkCert (ca_template "undefined" []) k "undefined" k.

Lemma GenerateSelfSignedCA_Ok file w w' ca :
  GenerateSelfSignedCA file w = (w', Ok ca) →
  ca = mkTLS [authority (next_key w)] (mkKey (next_key w) 1024) ∧
  files w' = <[file := mkBlock "CERTIFICATE" (DerCert (authority (next_key w)))]> (files w) ∧
  next_key w' = S (next_key w).
Proof.
  unfold GenerateSelfSignedCA, generateSelfSignedX509CA. cbn zeta. intros (w1 & c & H1 & H)%go_bind_Ok_inv.
  apply go_bind_Ok_inv in H1 as (w2 & k & (-> & Hf2 & Hk2)%GenerateKey_Ok & H1).
  apply go_bind_Ok_inv in H1 as (w3 & cert & (-> & Hf3 & Hk3)%CreateCertificate_Ok & [= <- <-]).
  unfold first_cert in H. cbn [chain_] in H. rewrite go_bind_ret in H.
  apply go_bind_Ok_inv in H as (w4 & [] & [Hf4 Hk4]%WriteFile_Ok & [= <- <-]).
  rewrite Hf4, Hk4, Hf3, Hk3, Hf2, Hk2. done.
Qed.

(** The certificate of a server, with this key, under an authority. *)
Definition server_cert (commonName : string) (sn : Z) (k ca : nat) : Certificate :=
  mkCert (server_template commonName sn) k "undefined" ca.

Lemma GenerateServerCert_Ok k cn sn f1 f2 w w' c :
  GenerateServerCert (mkTLS [authority k] (mkKey k 1024)) cn sn f1 f2 w = (w', Ok c) →
  ∃ sn', (sn ≠ 0%Z → sn' = sn) ∧
    let cert := server_cert cn sn' (next_key w) k in
    c = mkTLS [cert] (mkKey (next_key w) 4096) ∧
    files w' = <[f2 := mkBlock "RSA PRIVATE KEY" (DerKey (mkKey (next_key w) 4096))]>
                 (<[f1 := mkBlock "CERTIFICATE" (DerCert cert)]> (files w)) ∧
    next_key w' = S (next_key w).
Proof.
  unfold GenerateServerCert, generateServerX509UsingCAAndSerialNumber.
  intros (w1 & [sc pk] & H1 & H)%go_bind_Ok_inv.
  apply go_bind_Ok_inv in H1 as (w2 & i & Hi & H1). cbn zeta in H1.
  assert (w2 = w ∧ (sn ≠ 0%Z → i = sn)) as [-> Hsn].
  { case_decide; injection Hi as <- <-; [by split|done]. }
  apply go_bind_Ok_inv in H1 as (w3 & key & (-> & Hf3 & Hk3)%GenerateKey_Ok & H1).
  cbn [chain_] in H1.
  apply go_bind_Ok_inv in H1 as (w4 & cert & (-> & Hf4 & Hk4)%CreateCertificate_Ok & [= <- <- <-]).
  unfold first_cert in H. cbn [chain_] in H. rewrite go_bind_ret in H. cbn zeta in H.
  apply go_bind_Ok_inv in H as (w5 & [] & [Hf5 Hk5]%WriteFile_Ok & H).
  apply go_bind_Ok_inv in H as (w6 & [] & [Hf6 Hk6]%WriteFile_Ok & H).
  unfold X509KeyPair in H. cbn [pem_Bytes public key_id] in H. rewrite decide_True in H by done.
  injection H as <- <-. exists i. split; [done|]. cbn zeta.
  rewrite Hf6, Hf5, Hf4, Hf3, Hk6, Hk5, Hk4, Hk3. done.
Qed.

(** * Verification *)

Definition valid_at (t : Z) (c : Certificate) : Prop :=
  (NotBefore (stated c) ≤ t ≤ NotAfter (stated c))%Z.

(** [c] verifies at time [t] against the authorities of a pool, for a use and,
    if one is asked for, a host name. *)
Definition verifies (pool : list Certificate) (name : option string) (usage : ExtKeyUsage) (t : Z)
    (c : Certificate) : Prop :=
  (∃ ca, ca ∈ pool ∧ signed_by c = public ca ∧ issuer c = CommonName (stated ca) ∧
         IsCA (stated ca) = true ∧ CertSign ∈ tm_KeyUsage (stated ca) ∧ valid_at t ca) ∧
  valid_at t c ∧ usage ∈ tm_ExtKeyUsage (stated c) ∧
  (∀ n, name = Some n → n ∈ DNSNames (stated c)).

(** A handshake: the client verifies the server and, where it is required, the
    server the client. *)
Definition handshake (server client : tls_Config) (t : Z) : Prop :=
  (∃ c, head (Certificates server) ≫= head ∘ chain_ = Some c ∧
        verifies (RootCAs client) (Some (ServerName client)) ServerAuth t c) ∧
  (RequireAndVerifyClientCert server = true →
   ∃ c, head (Certificates client) ≫= head ∘ chain_ = Some c ∧
        verifies (ClientCAs server) None ClientAuth t c).

Lemma authority_verifies k cn sn k' usage t name :
  (now - minute ≤ t ≤ now + day)%Z → (∀ n, name = Some n → n ∈ (alternative_names cn).2) →
  verifies [authority k] name usage t (server_cert cn sn k' k).
Proof.
  clear fault Int63n. intros Ht Hn. split; [|split; [done|split; [|done]]].
  - exists (authority k). split_and!; try done; [set_solver|]. cbn. set_solver.
  - cbn. destruct usage; set_solver.
Qed.

Lemma other_authority k k' name usage t c :
  signed_by c = k' → k ≠ k' → ¬ verifies [authority k] name usage t c.
Proof. intros Hc Hne [(ca & ->%list_elem_of_singleton & Hs & _) _]. cbn in Hs. congruence. Qed.

(** * The provider of a cluster *)

Lemma chain_paths dir :
  CertFilePath dir ≠ KeyFilePath dir ∧ CertFilePath dir ≠ CAFilePath dir ∧ KeyFilePath dir ≠ CAFilePath dir.
Proof. by split_and!; intros E%(inj (String.append dir)). Qed.

(** The chain in a directory, for the keys [k] of the authority and [S k]. *)
Definition chain_files (dir cn : string) (sn : Z) (k : nat) (m : gmap string pem_block)
    : gmap string pem_block :=
  <[KeyFilePath dir := mkBlock "RSA PRIVATE KEY" (DerKey (mkKey (S k) 4096))]>
    (<[CertFilePath dir := mkBlock "CERTIFICATE" (DerCert (server_cert cn sn (S k) k))]>
       (<[CAFilePath dir := mkBlock "CERTIFICATE" (DerCert (authority k))]> m)).

Lemma GenerateTestChainWithSN_Ok dir cn sn w w' chain ca :
  GenerateTestChainWithSN dir cn sn w = (w', Ok (chain, ca)) →
  ∃ sn', (sn ≠ 0%Z → sn' = sn) ∧
    chain = mkChain (CertFilePath dir) (KeyFilePath dir) (CAFilePath dir) ∧
    ca = mkTLS [authority (next_key w)] (mkKey (next_key w) 1024) ∧
    files w' = chain_files dir cn sn' (next_key w) (files w) ∧ next_key w' = S (S (next_key w)).
Proof.
  unfold GenerateTestChainWithSN. cbn zeta.
  intros (w1 & ca' & (-> & Hf1 & Hk1)%GenerateSelfSignedCA_Ok & H)%go_bind_Ok_inv.
  apply go_bind_Ok_inv in H as (w2 & c & (sn' & Hsn & -> & Hf2 & Hk2)%GenerateServerCert_Ok & [= <- <- <-]).
  exists sn'. rewrite Hf2, Hk2, Hf1, Hk1. done.
Qed.

(** The certificate and the authority that the provider for the key [k] has. *)
Definition provider_of (sn : Z) (k : nat) : FixedTLSConfigProvider :=
  let cert := mkTLS [server_cert TlsCertCommonName sn (S k) k] (mkKey (S k) 4096) in
  let server := mkTLSConfig [cert] [authority k] true "" [] in
  let client := mkTLSConfig [cert] [] false TlsCertCommonName [authority k] in
  mkProvider server client server client.

Lemma provider_from_Ok dir w w' p :
  provider_from dir w = (w', Ok p) →
  ∃ sn, p = provider_of sn (next_key w) ∧
    files w' = chain_files dir TlsCertCommonName sn (next_key w) (files w) ∧
    next_key w' = S (S (next_key w)).
Proof.
  unfold provider_from, GenerateTestChain. intros (w1 & ch & H1 & H)%go_bind_Ok_inv.
  apply go_bind_Ok_inv in H1 as (w2 & [ch' ca] & H1 & [= <- <-]).
  apply GenerateTestChainWithSN_Ok in H1 as (sn & _ & -> & -> & Hf & Hk). cbn [fst CertPubFile CertKeyFile CaPubFile] in H.
  destruct (chain_paths dir) as (N1 & N2 & N3).
  apply go_bind_Ok_inv in H as (w3 & cert & H3 & H).
  unfold LoadX509KeyPair in H3.
  apply go_bind_Ok_inv in H3 as (w4 & b1 & (Hb1 & Hf4 & Hk4)%ReadFile_Ok & H3).
  apply go_bind_Ok_inv in H3 as (w5 & b2 & (Hb2 & Hf5 & Hk5)%ReadFile_Ok & H3).
  rewrite Hf4 in Hb2. rewrite Hf in Hb1, Hb2. unfold chain_files in Hb1, Hb2.
  simplify_map_eq. unfold X509KeyPair in H3. cbn [pem_Bytes public key_id server_cert] in H3.
  rewrite decide_True in H3 by done. injection H3 as <- <-.
  apply go_bind_Ok_inv in H as (w6 & b3 & (Hb3 & Hf6 & Hk6)%ReadFile_Ok & H).
  rewrite Hf5, Hf4, Hf in Hb3. unfold chain_files in Hb3. simplify_map_eq.
  cbn [pem_Bytes] in H. injection H as <- <-. exists sn.
  rewrite Hf6, Hf5, Hf4, Hk6, Hk5, Hk4, Hf, Hk. done.
Qed.

Lemma HasPrefix_path dir s : HasPrefix (dir +:+ "/" +:+ s) (dir +:+ "/") = true.
Proof. apply HasPrefix_spec. exists s. by rewrite str_app_assoc. Qed.

(** Writing in the directory is undone by removing it. *)
Lemma removed_insert dir s b (m : gmap string pem_block) :
  filter (λ f, HasPrefix f.1 (dir +:+ "/") = false) (<[dir +:+ "/" +:+ s := b]> m) =
  filter (λ f, HasPrefix f.1 (dir +:+ "/") = false) m.
Proof.
  clear fault now Int63n ParseIP IsLoopback IPv6loopback IPv4loopback.
  apply map_eq. intros f. apply option_eq. intros x. rewrite !map_lookup_filter_Some. cbn [fst].
  destruct (decide (f = dir +:+ "/" +:+ s)) as [->|Hne].
  - rewrite HasPrefix_path. naive_solver.
  - by rewrite lookup_insert_ne.
Qed.

(** [m] writes in the directory only, whatever its outcome. *)
Definition only_in (dir : string) {A} (m : GoM cert_world A) : Prop :=
  ∀ w, filter (λ f, HasPrefix f.1 (dir +:+ "/") = false) (files (m w).1) =
       filter (λ f, HasPrefix f.1 (dir +:+ "/") = false) (files w).

Lemma only_in_bind dir {A B} (m : GoM cert_world A) (f : A → GoM cert_world B) :
  only_in dir m → (∀ a, only_in dir (f a)) → only_in dir (m ≫= f).
Proof.
  intros Hm Hf w. specialize (Hm w). unfold mbind, go_bind.
  destruct (m w) as [w1 [a| | |]]; try done. by rewrite (Hf a w1).
Qed.

Lemma only_in_files dir {A} (m : GoM cert_world A) :
  (∀ w, files (m w).1 = files w) → only_in dir m.
Proof. intros H w. by rewrite H. Qed.

Lemma only_in_external dir : only_in dir external.
Proof. by apply only_in_files. Qed.

Lemma only_in_write dir s b : only_in dir (WriteFile (dir +:+ "/" +:+ s) b).
Proof.
  apply only_in_bind; [apply only_in_external|]. intros [] w. cbn. apply removed_insert.
Qed.

Lemma only_in_read dir f : only_in dir (ReadFile f).
Proof.
  apply only_in_bind; [apply only_in_external|]. intros []. apply only_in_bind; [done|].
  by intros [b|].
Qed.

Lemma only_in_key dir bits : only_in dir (GenerateKey bits).
Proof. apply only_in_bind; [apply only_in_external|]. intros []. by apply only_in_files. Qed.

Lemma only_in_create dir t parent pub priv : only_in dir (CreateCertificate t parent pub priv).
Proof. by apply only_in_bind; [apply only_in_external|]. Qed.

Lemma only_in_pair dir c k : only_in dir (X509KeyPair c k).
Proof. apply only_in_files. intros w. unfold X509KeyPair. by repeat case_match. Qed.

Lemma only_in_first dir c : only_in dir (first_cert c).
Proof. apply only_in_files. intros w. unfold first_cert. by case_match. Qed.

Lemma only_in_ca dir s : only_in dir (GenerateSelfSignedCA (dir +:+ "/" +:+ s)).
Proof.
  apply only_in_bind; [|intros c; apply only_in_bind; [apply only_in_first|]].
  - apply only_in_bind; [apply only_in_key|]. intros k. by apply only_in_bind; [apply only_in_create|].
  - intros c'. by apply only_in_bind; [apply only_in_write|].
Qed.

Lemma only_in_server dir ca cn sn s1 s2 :
  only_in dir (GenerateServerCert ca cn sn (dir +:+ "/" +:+ s1) (dir +:+ "/" +:+ s2)).
Proof.
  apply only_in_bind.
  - apply only_in_bind; [by case_decide|]. intros i. apply only_in_bind; [apply only_in_key|].
    intros k. destruct (chain_ ca); [done|]. by apply only_in_bind; [apply only_in_create|].
  - intros [c k]. apply only_in_bind; [apply only_in_first|]. intros c'.
    apply only_in_bind; [apply only_in_write|]. intros [].
    apply only_in_bind; [apply only_in_write|]. intros []. apply only_in_pair.
Qed.

Lemma only_in_provider dir : only_in dir (provider_from dir).
Proof.
  apply only_in_bind.
  - apply only_in_bind; [|done]. apply only_in_bind; [apply (only_in_ca dir "ca_pub.pem")|].
    intros ca. apply only_in_bind; [|done]. apply (only_in_server dir ca _ _ "cert_pub.pem" "cert_priv.pem").
  - intros ch. apply only_in_bind.
    + apply only_in_bind; [apply only_in_read|]. intros c.
      apply only_in_bind; [apply only_in_read|]. intros k. apply only_in_pair.
    + intros c. apply only_in_bind; [apply only_in_read|]. intros b. by destruct (pem_Bytes b).
Qed.

(** C24: mutual TLS works, and leaves no keys behind.  The provider that a cluster
    with mTLS gets: for a day, its clients and its servers accept each other's
    certificates, the name the clients ask for included, between the nodes and
    at the frontend.  Whether or not it could be created, the files are those
    that there were before the temporary directory was made. *)
Theorem mtls_provider_works dir w :
  ParseIP TlsCertCommonName = None →
  (∀ f b, files w !! f = Some b → HasPrefix f (dir +:+ "/") = false) →
  let o := createFixedTLSConfigProvider dir w in
  files o.1 = files w ∧
  ∀ p t, o.2 = Ok p → (now - minute ≤ t ≤ now + day)%Z →
    handshake (FrontendServerConfig p) (FrontendClientConfig p) t ∧
    handshake (InternodeServerConfig p) (InternodeClientConfig p) t.
Proof.
  intros HIP Hfresh o.
  assert (filter (λ f, HasPrefix f.1 (dir +:+ "/") = false) (files w) = files w) as Hall.
  { apply map_filter_id. intros f b Hf. exact (Hfresh f b Hf). }
  split.
  { unfold o, createFixedTLSConfigProvider, mbind, go_bind, external.
    destruct (fault (calls w)); [done|]. cbn [fst files RemoveAll].
    etrans; [exact (only_in_provider dir _)|exact Hall]. }
  intros p t Hp Ht. unfold o in Hp.
  destruct (createFixedTLSConfigProvider dir w) as [w' r] eqn:Ho. cbn in Hp. subst r.
  apply go_bind_Ok_inv in Ho as (w1 & [] & _ & Ho).
  destruct (provider_from dir w1) as [w2 r2] eqn:H2. cbn in Ho. injection Ho as <- ->.
  apply provider_from_Ok in H2 as (sn & -> & _).
  assert (∀ n, Some TlsCertCommonName = Some n → n ∈ (alternative_names TlsCertCommonName).2) as Hn.
  { intros n [= <-]. unfold alternative_names. rewrite HIP. rewrite decide_False by done. set_solver. }
  split; (split; [|intros _]; eexists; (split; [reflexivity|]); by apply authority_verifies).
Qed.

(** Clusters do not accept each other: the client of one provider is refused by
    the server of another, and the server by the client. *)
Theorem mtls_providers_separate dir dir' w w1 w2 w3 p q t :
  createFixedTLSConfigProvider dir w = (w1, Ok p) → next_key w1 ≤ next_key w2 →
  createFixedTLSConfigProvider dir' w2 = (w3, Ok q) →
  ¬ handshake (FrontendServerConfig p) (FrontendClientConfig q) t ∧
  ¬ handshake (FrontendServerConfig q) (FrontendClientConfig p) t.
Proof.
  assert (∀ d w w' p, createFixedTLSConfigProvider d w = (w', Ok p) →
    ∃ sn, p = provider_of sn (next_key w) ∧ next_key w < next_key w') as Hgen.
  { intros d v v' r H. unfold createFixedTLSConfigProvider in H.
    apply go_bind_Ok_inv in H as (v1 & [] & [Hf1 Hk1]%external_Ok & H).
    destruct (provider_from d v1) as [v2 r2] eqn:H2. cbn in H. injection H as <- ->.
    apply provider_from_Ok in H2 as (sn & -> & _ & Hk2). rewrite Hk1 in *.
    exists sn. split; [done|]. cbn [next_key RemoveAll fst]. lia. }
  intros (sn & -> & Hk)%Hgen Hle (sn' & -> & _)%Hgen.
  split; intros [(c & [= <-] & Hc) _]; revert Hc; cbn [RootCAs provider_of FrontendClientConfig];
    (eapply other_authority; [reflexivity|]); cbn [signed_by server_cert]; lia.
Qed.

(** * Several certificates *)

Lemma generate_certs_Ok dir cn k n i w w' cs :
  generate_certs dir cn (mkTLS [authority k] (mkKey k 1024)) i n w = (w', Ok cs) →
  k < next_key w →
  length cs = n ∧ k < next_key w' ∧
  ∀ j c, cs !! j = Some c → ∃ k', k' ≠ k ∧
    c = mkTLS [server_cert cn (Z.of_nat (i + j) + 100) k' k] (mkKey k' 4096).
Proof.
  revert i w cs. induction n as [|n IH]; intros i w cs H Hk; cbn [generate_certs] in H.
  { injection H as <- <-. split; [done|]. split; [done|]. by intros []. }
  apply go_bind_Ok_inv in H as (w1 & c & (sn & Hsn & -> & _ & Hk1)%GenerateServerCert_Ok & H).
  apply go_bind_Ok_inv in H as (w2 & cs' & H & [= <- <-]).
  apply IH in H as (Hl & Hk2 & Hcs); [|lia]. split; [cbn; by rewrite Hl|]. split; [done|].
  intros [|j] c; cbn.
  - intros [= <-]. exists (next_key w). split; [lia|]. rewrite Hsn by lia. by rewrite Nat.add_0_r.
  - intros (k' & Hne & ->)%Hcs. exists k'. split; [done|]. by rewrite Nat.add_succ_r.
Qed.

(** The certificates that [GenerateTestCerts] returns verify against the pool it
    returns and not against the wrong one, and have different serial numbers;
    but the authority left on disk is the wrong one, against which none of them
    verifies. *)
Theorem test_certs_pools dir cn num w w' chains pool wrong t :
  GenerateTestCerts dir cn num w = (w', Ok (chains, pool, wrong)) →
  (now - minute ≤ t ≤ now + day)%Z →
  Z.of_nat (length chains) = num ∧
  (∀ i c, chains !! i = Some c → ∃ leaf, chain_ c = [leaf] ∧
     SerialNumber (stated leaf) = (Z.of_nat i + 100)%Z ∧
     verifies pool None ServerAuth t leaf ∧ ¬ verifies wrong None ServerAuth t leaf) ∧
  ∃ ca, files w' !! CAFilePath dir = Some (mkBlock "CERTIFICATE" (DerCert ca)) ∧ wrong = [ca].
Proof.
  unfold GenerateTestCerts.
  intros (w1 & ca & (-> & Hf1 & Hk1)%GenerateSelfSignedCA_Ok & H)%go_bind_Ok_inv Ht.
  unfold GenerateSelfSignedCAPool, first_cert in H. cbn [chain_] in H.
  rewrite go_bind_assoc, go_bind_ret in H. rewrite go_bind_ret in H.
  apply go_bind_Ok_inv in H as (w2 & [] & H2 & H).
  case_decide as Hnum; [done|]. injection H2 as <-.
  apply go_bind_Ok_inv in H as (w3 & cs & H3 & H).
  apply generate_certs_Ok in H3 as (Hl & Hk3 & Hcs); [|lia].
  apply go_bind_Ok_inv in H as (w4 & ca' & (-> & Hf4 & Hk4)%GenerateSelfSignedCA_Ok & H).
  cbn [chain_] in H. rewrite go_bind_assoc, !go_bind_ret in H. injection H as <- <- <- <-.
  split; [lia|]. split.
  - intros i c (k' & Hne & ->)%Hcs. eexists. split; [reflexivity|]. split; [cbn; lia|]. split.
    + by apply authority_verifies.
    + eapply other_authority; [reflexivity|]. cbn. lia.
  - eexists. split; [rewrite Hf4; by apply lookup_insert_eq|done].
Qed.
End certs.

(** * A provider, and test certificates *)

Definition w_certs : cert_world (IP := nat) := mkCertWorld ∅ 0 0.

Lemma mtls_provider_works_witness :
  let o := createFixedTLSConfigProvider (λ _, None) (λ _ : nat, false) 6 4 (λ _, None) 0 (λ _, 7%Z)
             "/tmp/x" w_certs in
  files o.1 = ∅ ∧ ∃ p, o.2 = Ok p ∧
    handshake (FrontendServerConfig p) (FrontendClientConfig p) day.
Proof.
  destruct (mtls_provider_works (λ _, None) (λ _ : nat, false) 6 4 (λ _, None) 0 (λ _, 7%Z) "/tmp/x" w_certs)
    as [Hf Hp]; [done|by intros ??|].
  assert ((createFixedTLSConfigProvider (λ _, None) (λ _ : nat, false) 6 4 (λ _, None) 0 (λ _, 7%Z)
             "/tmp/x" w_certs).2 =
    Ok (provider_of (λ _, None) (λ _ : nat, false) 6 4 0 7 0)) as Ho by (vm_compute; reflexivity).
  split; [exact Hf|]. eexists. split; [exact Ho|]. apply (Hp _ _ Ho). unfold day, minute. lia.
Defined.

Example test_certs_example :
  let o := GenerateTestCerts (λ _, None) (λ _ : nat, false) 6 4 (λ _, None) 0 (λ _, 7%Z) "/tmp/x" "host" 2 w_certs in
  (match o.2 with Ok (certs, _, _) => length certs | _ => 0 end) = 2 ∧ size (files o.1) = 5 ∧
  (GenerateTestCerts (λ _, None) (λ _ : nat, false) 6 4 (λ _, None) 0 (λ _, 7%Z) "/tmp/x" "host" (-1) w_certs).2 =
    Panic "runtime error: makeslice: len out of range".
Proof. vm_compute. done. Qed.
