(* ===== verification/Base64.v ===== *)
(** Standard base64 ([encoding/base64.StdEncoding]), with which
    [ConvertFileToBase64] ([conformance-tests/testutils/tls.go]) passes a file on,
    and its decoding. *)

From S2P Require Import Prelude.
From stdpp Require Import options.
Open Scope Z_scope.

Definition alphabet : list byte :=
  bytes_of "ABCDEFGHIJKLMNOPQRSTUVWXYZabcdefghijklmnopqrstuvwxyz0123456789+/".
Definition pad : byte := x3d.

(** The character of a 6-bit value, and the value of a character. *)
Definition enc6 (v : Z) : byte := nth (Z.to_nat v) alphabet pad.

Fixpoint index_of (b : byte) (l : list byte) : option Z :=
  match l with
  | [] => None
  | x :: l => if decide (x = b) then Some 0 else (λ i, i + 1) <$> index_of b l
  end.
Definition dec6 (b : byte) : option Z := index_of b alphabet.

(** [StdEncoding.EncodeToString]: groups of three bytes, the last one padded. *)
Fixpoint EncodeToString (src : list byte) : list byte :=
  match src with
  | [] => []
  | [a] =>
      let val := Z.shiftl (byteZ a) 16 in
      [enc6 (Z.land (Z.shiftr val 18) 63); enc6 (Z.land (Z.shiftr val 12) 63); pad; pad]
  | [a; b] =>
      let val := Z.lor (Z.shiftl (byteZ a) 16) (Z.shiftl (byteZ b) 8) in
      [enc6 (Z.land (Z.shiftr val 18) 63); enc6 (Z.land (Z.shiftr val 12) 63);
       enc6 (Z.land (Z.shiftr val 6) 63); pad]
  | a :: b :: c :: src =>
      let val := Z.lor (Z.lor (Z.shiftl (byteZ a) 16) (Z.shiftl (byteZ b) 8)) (byteZ c) in
      enc6 (Z.land (Z.shiftr val 18) 63) :: enc6 (Z.land (Z.shiftr val 12) 63) ::
      enc6 (Z.land (Z.shiftr val 6) 63) :: enc6 (Z.land val 63) :: EncodeToString src
  end.

(** Decoding a padded text. *)
Fixpoint DecodeString (s : list byte) : option (list byte) :=
  match s with
  | [] => Some []
  | c0 :: c1 :: c2 :: c3 :: s =>
      v0 ← dec6 c0; v1 ← dec6 c1;
      if decide (c3 = pad) then
        if decide (s = []) then
          if decide (c2 = pad) then Some [byte_of_Z (v0 * 4 + v1 / 16)]
          else v2 ← dec6 c2; Some [byte_of_Z (v0 * 4 + v1 / 16); byte_of_Z (v1 * 16 + v2 / 4)]
        else None
      else
        v2 ← dec6 c2; v3 ← dec6 c3; rest ← DecodeString s;
        Some (byte_of_Z (v0 * 4 + v1 / 16) :: byte_of_Z (v1 * 16 + v2 / 4) ::
              byte_of_Z (v2 * 64 + v3) :: rest)
  | _ => None
  end.

(** [ConvertFileToBase64]: a file that cannot be read panics. *)
Definition ConvertFileToBase64 (ReadFile : string → string + list byte) (file : string) : res string :=
  match ReadFile file with
  | inl err => Panic err
  | inr fileBytes => Ok (string_of (EncodeToString fileBytes))
  end.

(** * Decoding undoes encoding *)

Lemma six_bits v : 0 ≤ v < 64 → dec6 (enc6 v) = Some v ∧ enc6 v ≠ pad.
Proof.
  intros Hv.
  assert (Forall (λ n, dec6 (enc6 n) = Some n ∧ enc6 n ≠ pad) (seqZ 0 64)) as H.
  { apply (bool_decide_eq_true_1 _). vm_compute. reflexivity. }
  rewrite Forall_forall in H. apply H, elem_of_seqZ. lia.
Qed.

(** The four values of a group of three bytes. *)
Definition group (a b c : Z) : Z * Z * Z * Z :=
  (a / 4, a mod 4 * 16 + b / 16, b mod 16 * 4 + c / 64, c mod 64).

Lemma group_bits a b c :
  0 ≤ a < 256 → 0 ≤ b < 256 → 0 ≤ c < 256 →
  let val := Z.lor (Z.lor (Z.shiftl a 16) (Z.shiftl b 8)) c in
  (Z.land (Z.shiftr val 18) 63, Z.land (Z.shiftr val 12) 63, Z.land (Z.shiftr val 6) 63,
   Z.land val 63) = group a b c.
Proof.
  intros Ha Hb Hc val.
  assert (val = a * 2 ^ 16 + b * 2 ^ 8 + c) as ->.
  { assert (val = Z.lor (Z.lor c (Z.shiftl b 8)) (Z.shiftl a 16)) as ->.
    { unfold val. by rewrite (Z.lor_comm (Z.lor c _)), (Z.lor_comm c), Z.lor_assoc. }
    rewrite (lor_shiftl_disjoint c b 8) by lia.
    rewrite (lor_shiftl_disjoint (c + b * 2 ^ 8) a 16) by lia. lia. }
  unfold group. rewrite !Z.shiftr_div_pow2 by lia.
  change 63 with (Z.ones 6). rewrite !Z.land_ones by lia.
  change (2 ^ 18) with 262144. change (2 ^ 16) with 65536. change (2 ^ 12) with 4096.
  change (2 ^ 8) with 256. change (2 ^ 6) with 64.
  rewrite !pair_equal_spec. split_and!; Z.div_mod_to_equations; lia.
Qed.

Lemma group_range a b c :
  0 ≤ a < 256 → 0 ≤ b < 256 → 0 ≤ c < 256 →
  0 ≤ (group a b c).1.1.1 < 64 ∧ 0 ≤ (group a b c).1.1.2 < 64 ∧
  0 ≤ (group a b c).1.2 < 64 ∧ 0 ≤ (group a b c).2 < 64.
Proof. intros ???. unfold group. cbn [fst snd]. Z.div_mod_to_equations. lia. Qed.

(** The bytes are found again in the values. *)
Lemma ungroup (a b c : byte) :
  let '(v0, v1, v2, v3) := group (byteZ a) (byteZ b) (byteZ c) in
  byte_of_Z (v0 * 4 + v1 / 16) = a ∧ byte_of_Z (v1 * 16 + v2 / 4) = b ∧ byte_of_Z (v2 * 64 + v3) = c.
Proof.
  unfold group. pose proof (byteZ_range a). pose proof (byteZ_range b). pose proof (byteZ_range c).
  assert (∀ z x, u8 z = byteZ x → byte_of_Z z = x) as Hz.
  { intros z x Hx. rewrite <-(byte_of_byteZ x), <-Hx, <-byteZ_of_Z. by rewrite byte_of_byteZ. }
  split_and!; apply Hz; unfold u8; change (2 ^ 8) with 256; Z.div_mod_to_equations; lia.
Qed.

(** The steps of the encoder, by group. *)
Lemma encode_cons a b c src :
  EncodeToString (a :: b :: c :: src) =
    let '(v0, v1, v2, v3) := group (byteZ a) (byteZ b) (byteZ c) in
    enc6 v0 :: enc6 v1 :: enc6 v2 :: enc6 v3 :: EncodeToString src.
Proof.
  cbn [EncodeToString]. cbn zeta.
  pose proof (group_bits (byteZ a) (byteZ b) (byteZ c) (byteZ_range a) (byteZ_range b) (byteZ_range c)) as H.
  cbn zeta in H. rewrite <-H. reflexivity.
Qed.

Lemma encode_two a b :
  EncodeToString [a; b] =
    let '(v0, v1, v2, _) := group (byteZ a) (byteZ b) 0 in [enc6 v0; enc6 v1; enc6 v2; pad].
Proof.
  pose proof (group_bits (byteZ a) (byteZ b) 0 (byteZ_range a) (byteZ_range b)) as H.
  cbn zeta in H. rewrite <-H by lia. cbn [EncodeToString]. by rewrite Z.lor_0_r.
Qed.

Lemma encode_one a :
  EncodeToString [a] =
    let '(v0, v1, _, _) := group (byteZ a) 0 0 in [enc6 v0; enc6 v1; pad; pad].
Proof.
  pose proof (group_bits (byteZ a) 0 0 (byteZ_range a)) as H. cbn zeta in H.
  rewrite <-H by lia. cbn [EncodeToString]. by rewrite Z.shiftl_0_l, !Z.lor_0_r.
Qed.

(** Induction by groups of three. *)
Lemma groups_ind (P : list byte → Prop) :
  P [] → (∀ a, P [a]) → (∀ a b, P [a; b]) → (∀ a b c l, P l → P (a :: b :: c :: l)) → ∀ l, P l.
Proof.
  intros H0 H1 H2 H3 l. remember (length l) as n eqn:Hn. revert l Hn.
  induction (lt_wf n) as [n _ IH]. intros [|a [|b [|c l]]] Hn; auto.
  apply H3. apply (IH (length l)); [cbn in Hn; lia|done].
Qed.

(** A file comes back from its base64 text: decoding is total on what
    [ConvertFileToBase64] returns and gives the bytes of the file; the text has
    four characters for every three bytes begun. *)
Theorem base64_roundtrip src :
  DecodeString (EncodeToString src) = Some src ∧
  Z.of_nat (length (EncodeToString src)) = 4 * ((Z.of_nat (length src) + 2) / 3).
Proof.
  induction src as [|a|a b|a b c src [IH IHl]] using groups_ind; [done|..].
  - rewrite encode_one. pose proof (ungroup a x00 x00) as U.
    pose proof (group_range (byteZ a) 0 0 (byteZ_range a)) as R.
    change (byteZ x00) with 0 in U. destruct (group (byteZ a) 0 0) as [[[v0 v1] v2] v3].
    cbn [fst snd] in R. destruct R as (R0 & R1 & _); [lia..|]. destruct U as (U0 & _).
    split; [|done]. cbn [DecodeString]. rewrite (proj1 (six_bits v0 R0)), (proj1 (six_bits v1 R1)).
    cbn. by rewrite U0.
  - rewrite encode_two. pose proof (ungroup a b x00) as U.
    pose proof (group_range (byteZ a) (byteZ b) 0 (byteZ_range a) (byteZ_range b)) as R.
    change (byteZ x00) with 0 in U. destruct (group (byteZ a) (byteZ b) 0) as [[[v0 v1] v2] v3].
    cbn [fst snd] in R. destruct R as (R0 & R1 & R2 & _); [lia|]. destruct U as (U0 & U1 & _).
    split; [|done]. cbn [DecodeString]. destruct (six_bits v2 R2) as [D2 P2].
    rewrite (proj1 (six_bits v0 R0)), (proj1 (six_bits v1 R1)), D2.
    cbn [mbind option_bind]. rewrite decide_True by done. rewrite decide_True by done.
    rewrite decide_False by done. by rewrite U0, U1.
  - rewrite encode_cons. pose proof (ungroup a b c) as U.
    pose proof (group_range _ _ _ (byteZ_range a) (byteZ_range b) (byteZ_range c)) as R.
    destruct (group (byteZ a) (byteZ b) (byteZ c)) as [[[v0 v1] v2] v3].
    cbn [fst snd] in R. destruct R as (R0 & R1 & R2 & R3). destruct U as (U0 & U1 & U2).
    destruct (six_bits v3 R3) as [D3 P3]. split.
    + cbn [DecodeString].
      rewrite (proj1 (six_bits v0 R0)), (proj1 (six_bits v1 R1)), (proj1 (six_bits v2 R2)), D3, IH.
      cbn [mbind option_bind]. rewrite decide_False by done. by rewrite U0, U1, U2.
    + cbn [length]. Z.div_mod_to_equations. lia.
Qed.
