(* ===== verification/Updates.v ===== *)
(** Helpers of the workflow tests ([conformance-tests/update_workflow_utils.go],
    [workflow_utils.go] and [matching_utils.go]): starting a workflow, sending an
    update and waiting until it is admitted, with the goroutines and unbuffered
    channels of the source, and deployment versions. *)

From S2P Require Import Prelude MetricCapture.
From stdpp Require Import options.

(** * Requests *)

(** The names a test draws from its test variables. *)
Record TestVars := mkVars {
  tv_WorkflowID : string; tv_RunID : string; tv_UpdateID : string; tv_HandlerName : string;
  tv_TaskQueue : string; tv_WorkflowType : string; tv_Any : string; tv_DeploymentVersion : string
}.
Definition WorkflowExecution (tv : TestVars) : string * string := (tv_WorkflowID tv, tv_RunID tv).

Inductive stage := StageUnspecified | StageAdmitted | StageAccepted | StageCompleted.
Definition stage_number (s : stage) : Z :=
  match s with StageUnspecified => 0 | StageAdmitted => 1 | StageAccepted => 2 | StageCompleted => 3 end.

Record PollUpdateRequest := mkPollUpdate {
  pu_Namespace : string; pu_Execution : string * string; pu_UpdateId : string;
  pu_WaitPolicy : option stage
}.

Record UpdateWorkflowRequest := mkUpdate {
  uw_Namespace : string; uw_Execution : string * string; uw_WaitPolicy : option stage;
  uw_UpdateId : string; uw_Name : string; uw_Args : string
}.

Definition pollUpdate (ns : string) (tv : TestVars) (waitPolicy : option stage) : PollUpdateRequest :=
  mkPollUpdate ns (WorkflowExecution tv) (tv_UpdateID tv) waitPolicy.

Definition updateWorkflowRequest (ns : string) (tv : TestVars) (waitPolicy : option stage)
    : UpdateWorkflowRequest :=
  mkUpdate ns (WorkflowExecution tv) waitPolicy (tv_UpdateID tv) (tv_HandlerName tv)
    ("args-value-of-" +:+ tv_UpdateID tv).

Record StartWorkflowRequest := mkStart {
  sw_RequestId : string; sw_Namespace : string; sw_WorkflowId : string; sw_WorkflowType : string;
  sw_TaskQueue : string
}.
Definition startWorkflowRequest (ns : string) (tv : TestVars) : StartWorkflowRequest :=
  mkStart (tv_Any tv) ns (tv_WorkflowID tv) (tv_WorkflowType tv) (tv_TaskQueue tv).

(** * The service *)

Class UpdateService (E Resp : Type) := {
  StartWorkflowExecution : StartWorkflowRequest → E → E * (string + string);
  UpdateWorkflowExecution : UpdateWorkflowRequest → E → E * (string + Resp);
  PollWorkflowExecutionUpdate : PollUpdateRequest → E → E * (string + stage)
}.

Section updates.
Context {E Resp : Type} {US : UpdateService E Resp}.

Definition mustStartWorkflow (ns : string) (tv : TestVars) : GoM E string := λ e,
  let '(e, r) := StartWorkflowExecution (startWorkflowRequest ns tv) e in
  match r with
  | inl err => (e, Panic ("Failed to start workflow: " +:+ err))
  | inr runID => (e, Ok runID)
  end.

(** The condition of [waitUpdateAdmitted]. *)
Definition admitted (ns : string) (tv : TestVars) (e : E) : E * bool :=
  let '(e, r) := PollWorkflowExecutionUpdate (pollUpdate ns tv (Some StageUnspecified)) e in
  (e, match r with
      | inl _ => false
      | inr s => bool_decide (stage_number StageAdmitted ≤ stage_number s)%Z
      end).

(** * [sendUpdateNoErrorInternal] and [sendUpdateInternal] *)

(** The result of the update's call: a response, or an error with a nil one. *)
Record updateResponseErr := mkResponseErr { ur_response : option Resp; ur_err : option string }.
Definition to_response (r : string + Resp) : updateResponseErr :=
  match r with inl err => mkResponseErr None (Some err) | inr a => mkResponseErr (Some a) None end.

(** The test, which waits for [syncCh], then holds [retCh], then has received
    from it. *)
Inductive test_pc := TWaitSync | THolding | TReceived (r : option Resp).

(** The goroutine of [sendUpdateNoErrorInternal]: it checks for admission with so
    many checks left, sends on [syncCh], receives the result of the update, and
    sends its response on [retCh].  [AExited] is [runtime.Goexit], which a failed
    [require] calls in the goroutine it is run in. *)
Inductive admit_pc :=
| ACheck (checks : nat)
| ASync
| AReceive
| ASend (r : option Resp)
| ADone
| AExited.

(** The goroutine of [sendUpdateInternal]. *)
Inductive call_pc := CCall | CSend (r : updateResponseErr) | CDone.

Record send_state := mkSend {
  world : E; tpc : test_pc; apc : admit_pc; cpc : call_pc; test_failed : bool
}.

Context (ns : string) (tv : TestVars) (waitPolicy : option stage).

(** The channels are unbuffered: a send and its receive are one step. *)
Inductive send_step : send_state → send_state → Prop :=
| step_check_ok e e' n t c f :
    admitted ns tv e = (e', true) →
    send_step (mkSend e t (ACheck (S n)) c f) (mkSend e' t ASync c f)
| step_check_no e e' n t c f :
    admitted ns tv e = (e', false) →
    send_step (mkSend e t (ACheck (S n)) c f) (mkSend e' t (ACheck n) c f)
| step_timeout e t c f :
    send_step (mkSend e t (ACheck 0) c f) (mkSend e t AExited c true)
| step_sync e c f :
    send_step (mkSend e TWaitSync ASync c f) (mkSend e THolding AReceive c f)
| step_call e e' t a f r :
    UpdateWorkflowExecution (updateWorkflowRequest ns tv waitPolicy) e = (e', r) →
    send_step (mkSend e t a CCall f)
      (mkSend e' t a (CSend (to_response r)) (f || match r with inl _ => true | inr _ => false end))
| step_result e t r f :
    send_step (mkSend e t AReceive (CSend r) f) (mkSend e t (ASend (ur_response r)) CDone f)
| step_deliver e r c f :
    send_step (mkSend e THolding (ASend r) c f) (mkSend e (TReceived r) ADone c f).

(** The call of a test that starts with so many checks before the timeout. *)
Definition sendUpdateNoErrorInternal (checks : nat) (e : E) : send_state :=
  mkSend e TWaitSync (ACheck checks) CCall false.

(** * What the test can rely on *)

(** An invariant of every run: where the test is tells where the goroutine is. *)
Definition send_inv (s : send_state) : Prop :=
  match apc s with
  | ACheck _ | ASync => tpc s = TWaitSync
  | AExited => tpc s = TWaitSync ∧ test_failed s = true
  | AReceive => tpc s = THolding ∧ cpc s ≠ CDone ∧ ∃ e e', admitted ns tv e = (e', true)
  | ASend r => tpc s = THolding ∧ ∃ e e', admitted ns tv e = (e', true)
  | ADone => (∃ r, tpc s = TReceived r) ∧ ∃ e e', admitted ns tv e = (e', true)
  end ∧
  (apc s = ASync → ∃ e e', admitted ns tv e = (e', true)) ∧
  (cpc s = CDone → (∃ r, apc s = ASend r) ∨ apc s = ADone).

Lemma send_inv_step s s' : send_step s s' → send_inv s → send_inv s'.
Proof.
  unfold send_inv. destruct 1; cbn [apc tpc cpc test_failed]; intros (H1 & H2 & H3);
    (split; [|split]); try done; try naive_solver.
  - destruct a; naive_solver.
Qed.

Lemma send_inv_start checks e : send_inv (sendUpdateNoErrorInternal checks e).
Proof. by unfold send_inv. Qed.

Lemma send_inv_run checks e s :
  rtc send_step (sendUpdateNoErrorInternal checks e) s → send_inv s.
Proof.
  intros Hrun. remember (sendUpdateNoErrorInternal checks e) as s0 eqn:E0.
  assert (send_inv s0) as H0 by (rewrite E0; apply send_inv_start). clear E0.
  induction Hrun as [|x y z Hxy _ IH]; [done|]. by eapply IH, send_inv_step.
Qed.

(** The work left. *)
Definition send_measure (s : send_state) : nat :=
  match apc s with ACheck n => n + 5 | ASync => 4 | AReceive => 3 | ASend _ => 2 | _ => 0 end +
  match cpc s with CCall => 2 | CSend _ => 1 | CDone => 0 end.

Lemma send_step_measure s s' : send_step s s' → send_measure s' < send_measure s.
Proof. destruct 1; unfold send_measure; cbn [apc cpc]; try lia; destruct c; lia. Qed.

(** What has happened when the test goes on.  In every state that a run reaches,
    a test that is past the call has an update that was seen admitted; and the
    call returns no later than that. *)
Theorem update_admitted_before_return checks e s :
  rtc send_step (sendUpdateNoErrorInternal checks e) s → tpc s ≠ TWaitSync →
  ∃ e1 e2, admitted ns tv e1 = (e2, true).
Proof.
  intros (H1 & H2 & _)%send_inv_run Ht. destruct (apc s); naive_solver.
Qed.

(** Every run ends in one of two ways: the test has received the response of the
    update, or the goroutine has left after its last check. *)
Theorem update_send_outcomes checks e :
  eventually send_step
    (λ s, (∃ r, tpc s = TReceived r) ∨ (apc s = AExited ∧ tpc s = TWaitSync ∧ test_failed s = true))
    (sendUpdateNoErrorInternal checks e).
Proof.
  apply (eventually_measure _ send_inv _ send_measure); [|by intros; split; [eapply send_inv_step|apply send_step_measure]|apply send_inv_start].
  intros [w t a c f] (H1 & H2 & H3); cbn [apc tpc cpc test_failed] in *.
  destruct a as [[|n]| | |r| |].
  - right. eexists. apply step_timeout.
  - right. destruct (admitted ns tv w) as [w' []] eqn:Ha; eexists;
      [by eapply step_check_ok|by eapply step_check_no].
  - right. subst t. eexists. apply step_sync.
  - right. destruct H1 as (-> & Hc & _). destruct c as [|r|]; [|eexists; apply step_result|done].
    destruct (UpdateWorkflowExecution (updateWorkflowRequest ns tv waitPolicy) w) as [w' r] eqn:Hu.
    eexists. by eapply step_call.
  - right. destruct H1 as [-> _]. eexists. apply step_deliver.
  - left. naive_solver.
  - left. naive_solver.
Qed.

(** In the second way the test hangs: nothing will ever send on [syncCh], so it
    stays in the call although it has been marked as failed. *)
Theorem update_not_admitted_hangs checks e s s' :
  rtc send_step (sendUpdateNoErrorInternal checks e) s → apc s = AExited →
  rtc send_step s s' → tpc s' = TWaitSync ∧ test_failed s' = true.
Proof.
  intros (H1 & _)%send_inv_run Ha Hrun'. rewrite Ha in H1.
  assert (apc s = AExited ∧ tpc s = TWaitSync ∧ test_failed s = true) as H by naive_solver.
  clear H1 Ha. induction Hrun' as [|x y z Hxy _ IH]; [naive_solver|]. apply IH.
  destruct Hxy; cbn in *; naive_solver.
Qed.
End updates.

(** * Deployment versions ([matching_utils.go]) *)

Section deployment.
Context {E : Type}.

(** [SyncDeploymentUserData] answers the version of the user data, and
    [CheckTaskQueueUserDataPropagation] returns when all partitions have it. *)
Inductive matching_call :=
| SyncDeploymentUserData (namespaceID taskQueue : string) (tqTypes : list Z) (version : string)
    (routingUpdateTime currentSinceTime : Z)
| CheckPropagation (namespaceID taskQueue : string) (version : Z).

Context (serve_sync : matching_call → E → E * (string + Z)).
Context (serve_check : matching_call → E → E * option string) (time_Now : E → Z).

(** The state: the service's, and the calls made. *)
Definition syncDeploymentVersionToTaskQueues (namespaceID : string) (tv : TestVars) (tqTypes : list Z)
    : GoM (E * list matching_call) unit := λ s,
  let now := time_Now s.1 in
  let c := SyncDeploymentUserData namespaceID (tv_TaskQueue tv) tqTypes (tv_DeploymentVersion tv) now now in
  let '(e, r) := serve_sync c s.1 in
  match r with
  | inl err => ((e, s.2 ++ [c]), Panic err)
  | inr version =>
      let c' := CheckPropagation namespaceID (tv_TaskQueue tv) version in
      let '(e, err) := serve_check c' e in
      ((e, s.2 ++ [c; c']), match err with Some err => Panic err | None => Ok tt end)
  end.

(** A sync that passes has waited for the version it wrote, on its own queue. *)
Lemma sync_waits_for_its_version nsID tv types s s' :
  syncDeploymentVersionToTaskQueues nsID tv types s = (s', Ok tt) →
  ∃ now version e, s'.2 = s.2 ++
      [SyncDeploymentUserData nsID (tv_TaskQueue tv) types (tv_DeploymentVersion tv) now now;
       CheckPropagation nsID (tv_TaskQueue tv) version] ∧
    (serve_sync (SyncDeploymentUserData nsID (tv_TaskQueue tv) types (tv_DeploymentVersion tv) now now) s.1).2
      = inr version ∧
    (serve_check (CheckPropagation nsID (tv_TaskQueue tv) version) e).2 = None.
Proof.
  unfold syncDeploymentVersionToTaskQueues. cbn zeta.
  destruct (serve_sync _ _) as [e [err|version]] eqn:Hs; [done|].
  destruct (serve_check _ e) as [e' [err|]] eqn:Hc; [done|]. intros [= <-].
  exists (time_Now s.1), version, e. rewrite Hs, Hc. done.
Qed.
End deployment.

(** [runWithMatchingBehaviors]: a subtest per behaviour, each with the base
    options followed by the behaviour's, and its hooks. *)
Definition runWithMatchingBehaviors {Opt} (of_setting : string * Z → Opt) (baseOpts : list Opt)
    : list (string * list Opt * list (string * hook_value)) :=
  (λ behavior, (Behavior_Name behavior, baseOpts ++ (of_setting <$> Behavior_Options behavior),
                InjectHooks behavior)) <$> AllMatchingBehaviors.

(** * An update that is never admitted *)

#[local] Instance w_update_service (st : stage) : UpdateService unit string := {|
  StartWorkflowExecution req e := (e, inr "run");
  UpdateWorkflowExecution req e := (e, inr "response");
  PollWorkflowExecutionUpdate req e := (e, inr st)
|}.

Definition w_vars : TestVars := mkVars "wf" "run" "upd" "handler" "tq" "type" "any" "v1".

Lemma update_not_admitted_hangs_witness :
  ∃ s, rtc (send_step (US := w_update_service StageUnspecified) "ns" w_vars None)
         (sendUpdateNoErrorInternal 1 tt) s ∧ apc s = AExited ∧
    ∀ s', rtc (send_step (US := w_update_service StageUnspecified) "ns" w_vars None) s s' →
      tpc s' = TWaitSync ∧ test_failed s' = true.
Proof.
  assert (rtc (send_step (US := w_update_service StageUnspecified) "ns" w_vars None)
            (sendUpdateNoErrorInternal 1 tt) (mkSend tt TWaitSync AExited CCall true)) as Hrun.
  { eapply rtc_l; [by eapply step_check_no|]. eapply rtc_l; [apply step_timeout|]. apply rtc_refl. }
  eexists. split; [exact Hrun|]. split; [done|]. intros s' Hs'.
  by eapply (update_not_admitted_hangs (US := w_update_service StageUnspecified) "ns" w_vars None 1 tt);
    [exact Hrun| |exact Hs'].
Defined.

(** With a server that admits at once the test receives the response. *)
Example update_admitted_example :
  rtc (send_step (US := w_update_service StageAdmitted) "ns" w_vars None)
    (sendUpdateNoErrorInternal 1 tt) (mkSend tt (TReceived (Some "response")) ADone CDone false).
Proof.
  eapply rtc_l; [by eapply (step_call (US := w_update_service StageAdmitted))|].
  eapply rtc_l; [by eapply step_check_ok|]. eapply rtc_l; [apply step_sync|].
  eapply rtc_l; [apply step_result|]. eapply rtc_l; [apply step_deliver|]. apply rtc_refl.
Qed.
