(* ===== verification/SuiteLife.v ===== *)
(** The life of a suite ([FunctionalTestBase] of
    [conformance-tests/testcore/functional_test_base.go]): the SDK client and
    worker of every test, the export of traces, the decoding of payloads, hooks
    and shards. *)

From S2P Require Import Prelude GoStrings GoNet Murmur Mappings Json Checkpoint.
From S2P Require Import ClusterOptions TestEnv Onebox TestCluster Wiring.
From Stdlib Require Import Ascii.
From stdpp Require Import options.

(** [RandomizeStr] ([utils.go]). *)
Definition RandomizeStr (id uuid : string) : string := id +:+ "-" +:+ uuid.

(** * The SDK of a test *)

Section sdk.
Context {TLS : Type}.

Record client_options := mkClientOptions { HostPort : string; Namespace : string; co_TLS : option TLS }.

(** The SDK: the clients that are open, the workers that run, the clients dialled
    with their options, and how many of either were made. *)
Record sdk_world := mkSdk {
  open : gset nat; running : gset nat; dialled : list client_options; next_id : nat
}.

(** The fields of a suite that its tests use. *)
Record suite_fields := mkFields {
  sdkClient : option nat; sdkWorker : option nat; taskQueue : string;
  callbackURL : string          (* the override of the callback template *)
}.

(** What a suite is given: its cluster's addresses, its namespace and the TLS
    configuration of the cluster's frontend clients. *)
Record suite_config := mkSuiteConfig {
  proxyPort : Z; httpAddress : string; suiteNamespace : string; frontendTLS : option TLS
}.

Definition life : Type := sdk_world * suite_fields.

(** [FrontendGRPCAddress] and [WorkerGRPCAddress] of a suite: the proxy's. *)
Definition suite_FrontendGRPCAddress (c : suite_config) : string := TempuraProxyGRPCAddress (proxyPort c).
Definition suite_WorkerGRPCAddress (c : suite_config) : string := TempuraProxyGRPCAddress (proxyPort c).

(** [sdkclient.Dial]: a new client, or nil with an error. *)
Definition Dial (err : option string) (o : client_options) : GoM life unit := λ s,
  let w := s.1 in
  match err with
  | Some e =>
      ((mkSdk (open w) (running w) (dialled w ++ [o]) (next_id w),
        mkFields None (sdkWorker s.2) (taskQueue s.2) (callbackURL s.2)), Panic e)
  | None =>
      ((mkSdk ({[next_id w]} ∪ open w) (running w) (dialled w ++ [o]) (S (next_id w)),
        mkFields (Some (next_id w)) (sdkWorker s.2) (taskQueue s.2) (callbackURL s.2)), Ok tt)
  end.

(** [sdkworker.New] and [Start]: the field is set also when starting fails. *)
Definition StartWorker (err : option string) (uuid : string) : GoM life unit := λ s,
  let w := s.1 in
  let f := mkFields (sdkClient s.2) (Some (next_id w)) (RandomizeStr "tq" uuid) (callbackURL s.2) in
  match err with
  | Some e => ((mkSdk (open w) (running w) (dialled w) (S (next_id w)), f), Panic e)
  | None => ((mkSdk (open w) ({[next_id w]} ∪ running w) (dialled w) (S (next_id w)), f), Ok tt)
  end.

(** [setupSdk]; a failed assertion ends the test. *)
Definition setupSdk (c : suite_config) (dial_err start_err : option string) (uuid : string)
    : GoM life unit :=
  modify (λ s, (s.1, mkFields (sdkClient s.2) (sdkWorker s.2) (taskQueue s.2)
                       (nexusCallbackTemplate (httpAddress c))));;
  Dial dial_err (mkClientOptions (suite_FrontendGRPCAddress c) (suiteNamespace c) (frontendTLS c));;
  StartWorker start_err uuid.

Definition remove_opt (o : option nat) (X : gset nat) : gset nat :=
  match o with Some n => X ∖ {[n]} | None => X end.

(** [tearDownSdk]: stop the worker, close the client, if there are any. *)
Definition tearDownSdk : GoM life unit := λ s,
  ((mkSdk (remove_opt (sdkClient s.2) (open s.1)) (remove_opt (sdkWorker s.2) (running s.1))
      (dialled s.1) (next_id s.1), s.2), Ok tt).

(** A test: what goes wrong in its set-up, and whether its shard skips it. *)
Record test_run := mkTestRun {
  skipped : bool; tr_dial_err : option string; tr_start_err : option string; tr_uuid : string
}.

Definition SetupTest (c : suite_config) (t : test_run) : GoM life unit :=
  if skipped t then panic "skipped"
  else setupSdk c (tr_dial_err t) (tr_start_err t) (tr_uuid t).

(** The set-up, and the teardown that follows it whatever its outcome and that
    of the test, which leaves the SDK of the suite alone. *)
Definition run_test (c : suite_config) (s : life) (t : test_run) : life :=
  (tearDownSdk (SetupTest c t s).1).1.

Definition run_tests (c : suite_config) (ts : list test_run) (s : life) : life := foldl (run_test c) s ts.

Definition first_life : life := (mkSdk ∅ ∅ [] 0, mkFields None None "" "").

(** Only the suite's own client is open, and only its own worker runs. *)
Definition own (s : life) : Prop :=
  open s.1 ⊆ match sdkClient s.2 with Some n => {[n]} | None => ∅ end ∧
  running s.1 ⊆ match sdkWorker s.2 with Some n => {[n]} | None => ∅ end.

Lemma remove_own (o : option nat) (X : gset nat) :
  X ⊆ match o with Some n => {[n]} | None => ∅ end → remove_opt o X = ∅.
Proof. destruct o; cbn; set_solver. Qed.

Lemma run_test_released c s t :
  open s.1 = ∅ → running s.1 = ∅ → open (run_test c s t).1 = ∅ ∧ running (run_test c s t).1 = ∅.
Proof.
  intros Ho Hr. assert (own (SetupTest c t s).1) as [H1 H2].
  { unfold own, SetupTest. destruct (skipped t); [cbn; rewrite Ho, Hr; set_solver|].
    unfold setupSdk. go_simpl. unfold Dial. destruct (tr_dial_err t); cbn; [rewrite Ho, Hr; set_solver|].
    unfold StartWorker. destruct (tr_start_err t); cbn; rewrite Ho, Hr; set_solver. }
  unfold run_test, tearDownSdk. cbn. by rewrite !remove_own.
Qed.

Lemma run_test_dialled c s t :
  ∃ os, dialled (run_test c s t).1 = dialled s.1 ++ os ∧
    Forall (λ o, o = mkClientOptions (suite_FrontendGRPCAddress c) (suiteNamespace c) (frontendTLS c)) os.
Proof.
  unfold run_test, tearDownSdk, SetupTest. cbn.
  destruct (skipped t); [exists []; split; [by rewrite app_nil_r|constructor]|].
  unfold setupSdk. go_simpl. unfold Dial.
  destruct (tr_dial_err t); cbn; [eexists; split; [done|by repeat constructor]|].
  unfold StartWorker. destruct (tr_start_err t); cbn; (eexists; split; [done|by repeat constructor]).
Qed.

(** A suite leaks neither clients nor workers: after any sequence of tests, some
    of them skipped, some failing to dial or to start their worker, none is left
    open or running; and every client any of them dialled was for the suite's
    namespace and through the proxy, not the server behind it. *)
Theorem suite_releases_sdk c ts :
  let s := run_tests c ts first_life in
  open s.1 = ∅ ∧ running s.1 = ∅ ∧
  Forall (λ o, HostPort o = TempuraProxyGRPCAddress (proxyPort c) ∧ Namespace o = suiteNamespace c)
    (dialled s.1).
Proof.
  cbn zeta. unfold run_tests.
  assert (∀ s, open s.1 = ∅ → running s.1 = ∅ →
    Forall (λ o, HostPort o = TempuraProxyGRPCAddress (proxyPort c) ∧ Namespace o = suiteNamespace c)
      (dialled s.1) →
    open (foldl (run_test c) s ts).1 = ∅ ∧ running (foldl (run_test c) s ts).1 = ∅ ∧
    Forall (λ o, HostPort o = TempuraProxyGRPCAddress (proxyPort c) ∧ Namespace o = suiteNamespace c)
      (dialled (foldl (run_test c) s ts).1)) as H; [|by apply H].
  induction ts as [|t ts IH]; intros s Ho Hr Hd; [done|]. cbn [foldl].
  destruct (run_test_released c s t Ho Hr) as [Ho' Hr'].
  destruct (run_test_dialled c s t) as (os & Hos & Hall). apply IH; [done..|].
  rewrite Hos. apply Forall_app. split; [done|]. eapply Forall_impl; [exact Hall|]. by intros o ->.
Qed.
End sdk.

(** * Traces *)

(** [[^a-zA-Z0-9._-]]: the characters a file name is cleaned of. *)
Definition valid_filename_char (c : ascii) : bool :=
  let n := nat_of_ascii c in
  bool_decide (97 ≤ n ≤ 122 ∨ 65 ≤ n ≤ 90 ∨ 48 ≤ n ≤ 57 ∨ n = 46 ∨ n = 95 ∨ n = 45).

(** [ReplaceAllString(_, "-")] for a run of such characters; [in_run] says that
    the last one was of a run. *)
Fixpoint clean_chars (in_run : bool) (l : list ascii) : list ascii :=
  match l with
  | [] => []
  | c :: l =>
      if valid_filename_char c then c :: clean_chars false l
      else if in_run then clean_chars true l else "-"%char :: clean_chars true l
  end.
Definition clean_filename (s : string) : string := String.string_of_list_ascii (clean_chars false (chars s)).

Definition traces_filename (testName : string) (unix : Z) : string :=
  "traces." +:+ clean_filename testName +:+ "_" +:+ show_int unix +:+ ".json".

(** [exportOTELTraces]: an exporter is a list of the files it wrote, and whether
    it was shut down; [write_err] is the error of writing, which is logged. *)
Definition exportOTELTraces (exporter : option (list string * bool)) (failed : bool) (testName : string)
    (unix : Z) (write_err : bool) : option (list string * bool) :=
  match exporter with
  | None => None
  | Some (written, _) =>
      Some (if failed && negb write_err then written ++ [traces_filename testName unix] else written, true)
  end.

Lemma clean_chars_valid b l : Forall (λ c, valid_filename_char c = true) (clean_chars b l).
Proof.
  revert b. induction l as [|c l IH]; intros b; cbn [clean_chars]; [constructor|].
  destruct (valid_filename_char c) eqn:Hc; [by constructor|].
  destruct b; [apply IH|]. constructor; [done|apply IH].
Qed.

(** Cleaning keeps a valid name, and cleaning twice is cleaning once. *)
Lemma clean_chars_id l : Forall (λ c, valid_filename_char c = true) l → ∀ b, clean_chars b l = l.
Proof. induction 1 as [|c l Hc _ IH]; intros b; [done|]. cbn [clean_chars]. by rewrite Hc, IH. Qed.

Theorem traces_filename_valid name unix :
  (0 ≤ unix)%Z →
  Forall (λ c, valid_filename_char c = true) (chars (traces_filename name unix)) ∧
  clean_filename (clean_filename name) = clean_filename name.
Proof.
  intros Hu.
  assert (∀ b l, chars (String.string_of_list_ascii (clean_chars b l)) = clean_chars b l) as Hcl.
  { intros b l. unfold chars. apply String.list_ascii_of_string_of_list_ascii. }
  split.
  - unfold traces_filename, clean_filename. rewrite !chars_app, Hcl.
    repeat (apply Forall_app; split); [by repeat constructor|apply clean_chars_valid|by repeat constructor| |by repeat constructor].
    destruct (pretty_Z_digits unix Hu) as [Hd _]. eapply Forall_impl; [exact Hd|].
    intros c Hc. unfold is_digit in Hc.
    repeat (apply elem_of_cons in Hc as [->|Hc]; [done|]). by apply elem_of_nil in Hc.
  - unfold clean_filename. by rewrite Hcl, (clean_chars_id _ (clean_chars_valid false (chars name)) false).
Qed.

(** * Payloads *)

(** [payloads.Decode] into a byte slice is the SDK's; [binary.Read] of a
    little-endian [int32] reads four bytes and ignores the rest. *)
Definition i32 (z : Z) : Z := (z + 2 ^ 31) mod 2 ^ 32 - 2 ^ 31.

Definition binary_Read_int32 (buf : list byte) : string + Z :=
  match buf with
  | [] => inl "EOF"
  | b0 :: b1 :: b2 :: b3 :: _ =>
      inr (i32 (Z.lor (Z.lor (Z.lor (byteZ b0) (Z.shiftl (byteZ b1) 8)) (Z.shiftl (byteZ b2) 16))
                  (Z.shiftl (byteZ b3) 24)))
  | _ => inl "unexpected EOF"
  end.

Definition DecodePayloadsByteSliceInt32 {P} (decode : P → string + list byte) (ps : P) : res Z :=
  match decode ps with
  | inl err => Panic err
  | inr buf => match binary_Read_int32 buf with inl err => Panic err | inr r => Ok r end
  end.

(** [DecodePayloadsString] and [DecodePayloadsInt], with the SDK's decoders. *)
Definition DecodePayloads {P A} (decode : P → string + A) (ps : P) : res A :=
  match decode ps with inl err => Panic err | inr r => Ok r end.

(** The bytes of an [int32], little-endian. *)
Definition le_bytes (v : Z) : list byte :=
  let u := u32 v in
  [byte_of_Z u; byte_of_Z (u / 2 ^ 8); byte_of_Z (u / 2 ^ 16); byte_of_Z (u / 2 ^ 24)].

(** Every [int32] is read back from its bytes, whatever follows them; shorter
    payloads fail the test. *)
Theorem int32_payload_roundtrip {P} (decode : P → string + list byte) ps v rest :
  (- 2 ^ 31 ≤ v < 2 ^ 31)%Z → decode ps = inr (le_bytes v ++ rest) →
  DecodePayloadsByteSliceInt32 decode ps = Ok v ∧
  ∀ n, n < 4 → ∃ err, binary_Read_int32 (take n (le_bytes v)) = inl err.
Proof.
  intros Hv Hd. split.
  - unfold DecodePayloadsByteSliceInt32. rewrite Hd. unfold le_bytes. cbn zeta.
    rewrite <-!app_comm_cons. cbn [binary_Read_int32].
    set (u := u32 v). assert (0 ≤ u < 2 ^ 32)%Z as Hu by (apply Z.mod_pos_bound; lia).
    rewrite !byteZ_of_Z. unfold u8.
    rewrite (lor_shiftl_disjoint _ _ 8), (lor_shiftl_disjoint _ _ 16), (lor_shiftl_disjoint _ _ 24);
      [|Z.div_mod_to_equations; lia..]. f_equal. unfold i32.
    assert (u `mod` 2 ^ 8 + (u / 2 ^ 8) `mod` 2 ^ 8 * 2 ^ 8 + (u / 2 ^ 16) `mod` 2 ^ 8 * 2 ^ 16 +
            (u / 2 ^ 24) `mod` 2 ^ 8 * 2 ^ 24 = u)%Z as -> by (Z.div_mod_to_equations; lia).
    unfold u, u32. Z.div_mod_to_equations. lia.
  - intros n Hn. do 4 (destruct n as [|n]; [by eexists|]). lia.
Qed.

(** * Hooks, settings and shards of a suite *)

Section suite_cluster.
Context {V C Hook AuthFn ClaimsFn : Type}.
Notation state := (env_state (V := V) (C := C) (Hook := Hook) (AuthFn := AuthFn) (ClaimsFn := ClaimsFn)).

(** [OverrideDynamicConfig] of a suite sets the value for the whole cluster. *)
Definition base_OverrideDynamicConfig (key : string) (value : any_value) : GoM state unit :=
  overrideDynamicConfigForTest key value.

Definition base_InjectHook (namespaceID : string) (hook : Hook) (kind : hook_kind) : GoM state unit :=
  match kind with
  | HookNamespace => injectHook hook (ScopeNamespace namespaceID)
  | HookGlobal => injectHook hook ScopeGlobal
  | HookUnknown => Fatal "InjectHook: unknown scope"
  end.

Context (WorkflowIDToHistoryShard : string → string → Z → Z).

(** [CloseShard]; [close_err] is the error of the admin service. *)
Definition base_CloseShard (isShared : bool) (numHistoryShards : Z) (close_err : option string)
    (namespaceID workflowID : string) : GoM state unit :=
  if isShared
  then Fatal "CloseShard cannot be called on a shared cluster; use testcore.WithDedicatedCluster()"
  else
    send (CCloseShard (WorkflowIDToHistoryShard namespaceID workflowID numHistoryShards));;
    match close_err with Some err => panic err | None => mret tt end.

(** Where a test environment refuses a global hook on a shared cluster, a suite
    injects it: the two differ there, and nowhere else in what they send. *)
Theorem base_hook_unguarded (e : TestEnv) hook kind (s : state) :
  (isShared e = true → kind = HookGlobal →
   is_panic (InjectHook e hook kind s).2 = true ∧
   base_InjectHook (nsID e) hook kind s =
     (mkEnvState (guard s) (calls s ++ [CHook hook ScopeGlobal])
        (CUnhook hook ScopeGlobal :: cleanups s), Ok tt)) ∧
  (¬ (isShared e = true ∧ kind = HookGlobal) →
   calls (InjectHook e hook kind s).1 = calls (base_InjectHook (nsID e) hook kind s).1 ∧
   cleanups (InjectHook e hook kind s).1 = cleanups (base_InjectHook (nsID e) hook kind s).1 ∧
   (InjectHook e hook kind s).2 = (base_InjectHook (nsID e) hook kind s).2).
Proof.
  unfold InjectHook, base_InjectHook. split.
  - intros -> ->. done.
  - intros Hn. destruct kind, (isShared e); try done. naive_solver.
Qed.

End suite_cluster.
