(* ===== verification/SuiteSetup.v ===== *)
(** Setting a suite up and tearing it down ([setupCluster], [TearDownSuite] and
    their parts in [conformance-tests/testcore/functional_test_base.go]): the
    options become a configuration, the configuration a cluster, and the cluster
    gets the two namespaces of the suite. *)

From S2P Require Import Prelude GoStrings GoSort ConsistentHash RingSpec Murmur Namespaces.
From S2P Require Import Mappings Resolver Wire Http Json Admin MetricCapture ClusterOptions.
From S2P Require Import GoNet TestEnv Onebox TestBase Fleet TestCluster Wiring SuiteLife.
From stdpp Require Import options.

Section setup.
Context {M3 : Murmur3} (json_err : list byte → string) (metrics : ResponseWriter → ResponseWriter).
Context {E : Type} `{Services E}.
Context (expectedSearchAttributes : gset string) (EmptyVersion : Z).
Context {Val Fx Policy Fault HistoryFactory VisibilityFactory Persistence : Type}.
Notation option_t := (TestClusterOption (Fx := Fx) (Policy := Policy) (Fault := Fault)
  (HistoryFactory := HistoryFactory) (VisibilityFactory := VisibilityFactory)).
Notation config_t := (TestClusterConfig (Fx := Fx) (Policy := Policy) (Fault := Fault)
  (HistoryFactory := HistoryFactory) (VisibilityFactory := VisibilityFactory) (Persistence := Persistence)).
Context (zero_policy : Policy) (sqlite_file : Persistence).
(** [NewCluster], with the maps the configuration points to and the file exporter
    of traces if there is one. *)
Context (NewCluster : config_t → gmap loc (gmap string Val) → option string → E → E * option string).

(** The fields that setting up leaves. *)
Record suite_ids := mkIds {
  s_namespace : string; s_namespaceID : string; s_externalNamespace : string; s_isShared : bool;
  s_otel : option string; s_testLogger : bool
}.

(** [ownLogger]: the suite has set a logger, which is a test logger or not;
    otherwise it gets one.  [otelOutputDir] is the environment's variable; [uuids]
    and [ids] are new. *)
Definition setupCluster (fuel : nat) (ownLogger : option bool) (options : list option_t) (h : gmap loc (gmap string Val))
    (otelOutputDir currentClusterName clusterAddr : string) (uuids ids : string * string)
    (reached reached' : bool * bool) : GoM (suite_world (E := E)) suite_ids :=
  let '(params, h) := ApplyTestClusterOptions zero_policy options h in
  let cfg := setup_config sqlite_file params in
  let otel := if decide (otelOutputDir ≠ "") then Some otelOutputDir else None in
  Require_NoError (err ← call (NewCluster cfg h otel); check err);;
  r ← setup_namespaces json_err metrics expectedSearchAttributes EmptyVersion fuel currentClusterName
        clusterAddr (RandomizeStr "namespace" uuids.1, RandomizeStr "external-namespace" uuids.2) ids
        reached reached';
  let '(ns, id, ext) := r in
  mret (mkIds ns id ext (cfg_isShared cfg) otel (default true ownLogger)).

(** [TearDownSuite]: a test logger is closed before the cluster is torn down, so
    that errors of the teardown do not fail the test; the flag of the state says
    whether it is. *)
Definition TearDownSuite (s : suite_ids)
    (tear_down : option (E → E * option string)) : GoM (bool * suite_world (E := E)) unit := λ st,
  let closed := st.1 || s_testLogger s in
  let o := TearDownCluster (s_namespace s) (s_externalNamespace s) tear_down st.2 in
  ((closed, o.1), o.2).

Context `{!ServicesLaws E}.

Lemma Require_NoError_returns {A} (m : GoM (suite_world (E := E)) A) w :
  returns (m w).2 = true →
  (∃ a, Require_NoError m w = ((m w).1, Ok a) ∧ (m w).2 = Ok a) ∨
  ∃ err, Require_NoError m w = ((m w).1, Panic err).
Proof.
  unfold Require_NoError, mbind, go_bind, try. destruct (m w) as [w' []]; try done; eauto.
Qed.

(** What the proxy knows of a namespace, [before] and [after] its registration:
    when both requests arrived, the cluster's namespace is an active one, and the
    one every workflow goes to if the proxy did not know the namespace; the
    first request alone creates an empty virtual namespace, the second alone
    needs one that is there, and without them nothing changes. *)
Definition registered (ns addr : string) (reached : bool * bool) (before after : option VirtualNamespace)
    : Prop :=
  let physical := buildPhysicalNamespace ns addr in
  match reached with
  | (true, true) =>
      ∃ v, after = Some v ∧ Namespaces v !! physical = Some NamespaceActive ∧
           (before = None → ∀ key, GetSlot (Ring v) key = physical)
  | (true, false) => after = Some (default (NewVirtualNamespace ns) before)
  | (false, true) =>
      (before = None → after = None) ∧
      (before ≠ None → ∃ v, after = Some v ∧ Namespaces v !! physical = Some NamespaceActive)
  | (false, false) => after = before
  end.

Lemma register_registered r ns addr vr :
  plain (bytes_of ns) → plain (bytes_of addr) → ns ≠ "" → addr ≠ "" →
  registered ns addr r (Resolve_ns vr ns)
    (Resolve_ns (registerNamespaceWithTempura json_err metrics r.1 r.2 ns addr vr) ns).
Proof.
  intros. rewrite register_lookup, decide_True by done.
  destruct r as [[] []], (Resolve_ns vr ns) as [v|]; cbn; try done.
  - eexists. split; [done|]. cbn. by rewrite lookup_insert_eq.
  - eexists. split; [done|]. cbn. rewrite lookup_insert_eq. split; [done|]. intros _ key.
    apply GetSlot_single. lia.
  - split; [done|]. intros _. eexists. split; [done|]. cbn. by rewrite lookup_insert_eq.
Qed.

Lemma RandomizeStr_plain id uuid :
  plain (bytes_of id) → plain (bytes_of uuid) → plain (bytes_of (RandomizeStr id uuid)).
Proof.
  intros Hid Hu. unfold RandomizeStr. rewrite !bytes_of_chars, !chars_app, !fmap_app.
  apply Forall_app. split; [done|]. apply Forall_app. split; [by repeat constructor|done].
Qed.

(** Two registrations under different names, one after the other. *)
Lemma two_registered u1 u2 addr r r' vr :
  plain (bytes_of u1) → plain (bytes_of u2) → plain (bytes_of addr) → addr ≠ "" →
  let n1 := RandomizeStr "namespace" u1 in
  let n2 := RandomizeStr "external-namespace" u2 in
  let vr' := registerNamespaceWithTempura json_err metrics r'.1 r'.2 n2 addr
               (registerNamespaceWithTempura json_err metrics r.1 r.2 n1 addr vr) in
  (∀ ns p, (ns, p) ∈ [(n1, r); (n2, r')] →
     registered ns addr p (Resolve_ns vr ns) (Resolve_ns vr' ns)) ∧
  (∀ vn, vn ∉ [n1; n2] → Resolve_ns vr' vn = Resolve_ns vr vn).
Proof.
  intros H1 H2 Ha Ha' n1 n2.
  assert (plain (bytes_of n1)) by (by apply RandomizeStr_plain; [repeat constructor|]).
  assert (plain (bytes_of n2)) by (by apply RandomizeStr_plain; [repeat constructor|]).
  assert (n1 ≠ n2) by done. assert (n1 ≠ "" ∧ n2 ≠ "") as [? ?] by done. clearbody n1 n2. split.
  - intros ns p [[= -> ->]|[[= -> ->]|[]%elem_of_nil]%elem_of_cons]%elem_of_cons.
    + rewrite (register_lookup _ _ r'.1), decide_False by done. by apply register_registered.
    + replace (Resolve_ns vr n2) with
        (Resolve_ns (registerNamespaceWithTempura json_err metrics r.1 r.2 n1 addr vr) n2)
        by (by rewrite register_lookup, decide_False).
      by apply register_registered.
  - intros vn [? [? _]%not_elem_of_cons]%not_elem_of_cons.
    by rewrite !register_lookup, !decide_False.
Qed.

(** C34: setting up ends, and gives a suite two namespaces.  With fourteen tries per
    wait it comes to an end whatever the cluster answers: a suite is set up, or
    an assertion fails.  A suite that is set up has two different namespaces,
    its own one with the new id, and is marked as shared exactly if an option asked
    for that.  At the proxy each of the two is registered as far as the requests
    to the admin API arrived: with both, the suite's cluster is an active
    physical namespace of it, and the only one if the namespace was unknown;
    their errors are not looked at, and a namespace none of whose requests
    arrived is unknown to the proxy of a suite that is set up all the same.  Every
    other virtual namespace is as before. *)
Theorem setup_cluster_ends fuel logger options h otel cc addr uuids ids reached reached' w :
  14 ≤ fuel → plain (bytes_of uuids.1) → plain (bytes_of uuids.2) →
  plain (bytes_of addr) → addr ≠ "" →
  let o := setupCluster fuel logger options h otel cc addr uuids ids reached reached' w in
  ((∃ s, o.2 = Ok s) ∨ ∃ err, o.2 = Panic err) ∧
  ∀ s, o.2 = Ok s →
    s_namespace s ≠ s_externalNamespace s ∧ s_namespaceID s = ids.1 ∧
    s_isShared s = existsb is_shared options ∧
    (∀ ns r, (ns, r) ∈ [(s_namespace s, reached); (s_externalNamespace s, reached')] →
       registered ns addr r (Resolve_ns (proxy_registry w) ns) (Resolve_ns (proxy_registry o.1) ns)) ∧
    (∀ vn, vn ∉ [s_namespace s; s_externalNamespace s] →
       Resolve_ns (proxy_registry o.1) vn = Resolve_ns (proxy_registry w) vn).
Proof using ServicesLaws0.
  intros Hf Hu1 Hu2 Haddr Haddr'. cbn zeta. unfold setupCluster.
  destruct (ApplyTestClusterOptions zero_policy options h) as [params h'] eqn:Hp. cbn zeta. set (cfg := setup_config _ _).
  set (otel' := if decide (otel ≠ "") then _ else _).
  assert (cfg_isShared cfg = existsb is_shared options) as Hsh.
  { unfold cfg, setup_config. cbn [cfg_isShared]. change params with (params, h').1. rewrite <-Hp.
    unfold ApplyTestClusterOptions. by rewrite SharedCluster_apply. }
  set (m := err ← call (NewCluster cfg h' otel'); check err).
  assert (returns (m w).2 = true ∧ proxy_registry (m w).1 = proxy_registry w) as [Hm Hmr].
  { unfold m, call, mbind, go_bind, check. by destruct (NewCluster cfg h' otel' (services w)).2. }
  destruct (Require_NoError_returns m w Hm) as [(a & Em & _)|[err Em]];
    [rewrite !(go_bind_ok _ _ _ _ _ Em)|rewrite !(go_bind_panic _ _ _ _ _ Em); split; [right; by eexists|done]].
  set (w1 := (m w).1) in *. unfold setup_namespaces. cbn [fst snd].
  set (r1 := RegisterNamespace _ _ _ _ _ _ _ ids.1 _ _ _ _ _ _).
  destruct (registration_ends json_err metrics expectedSearchAttributes EmptyVersion fuel cc addr
    ids.1 (RandomizeStr "namespace" uuids.1) reached 1 "Disabled" "" "" w1 Hf) as [Hret1 Hok1].
  fold r1 in Hret1, Hok1.
  destruct (Require_NoError_returns r1 w1 Hret1) as [(id & E1 & Hid)|[err E1]];
    [|by rewrite !(go_bind_panic _ _ _ _ _ (go_bind_panic _ _ _ _ _ E1)); split; [right; eexists|]].
  destruct (Hok1 id Hid) as (-> & Hreg1 & _).
  set (r2 := RegisterNamespace _ _ _ _ _ _ _ ids.2 _ _ _ _ _ _).
  destruct (registration_ends json_err metrics expectedSearchAttributes EmptyVersion fuel cc addr
    ids.2 (RandomizeStr "external-namespace" uuids.2) reached' 1 "Disabled" "" "" (r1 w1).1 Hf) as [Hret2 Hok2].
  fold r2 in Hret2, Hok2.
  destruct (Require_NoError_returns r2 (r1 w1).1 Hret2) as [(id2 & E2 & Hid2)|[err E2]].
  - destruct (Hok2 id2 Hid2) as (-> & Hreg2 & _).
    erewrite !go_bind_ok; [|rewrite (go_bind_ok _ _ _ _ _ E1), (go_bind_ok _ _ _ _ _ E2); done].
    split; [by left; eexists|].
    intros s [= <-]. cbn [s_namespace s_externalNamespace s_namespaceID s_isShared fst].
    do 3 (split; [done|]). unfold mret, go_ret. cbn [fst]. rewrite Hreg2, Hreg1, Hmr.
    by apply two_registered.
  - erewrite !go_bind_panic; [|rewrite (go_bind_ok _ _ _ _ _ E1), (go_bind_panic _ _ _ _ _ E2); done].
    split; [by right; eexists|done].
Qed.
End setup.

(** A suite on a shared cluster, over the service of the registration's example
    with search attributes ready after three seconds. *)
Definition w_setup_world : suite_world :=
  mkSuite (mkMem 0 0 2000000000 3000000000) (mkRegistry ∅).

Definition w_setup : suite_world * res suite_ids :=
  setupCluster (M3 := Murmur3_ref) (Val := nat) (Fx := nat) (Policy := nat) (Fault := nat)
    (HistoryFactory := nat) (VisibilityFactory := nat) (Persistence := nat)
    (λ _, "") id {["CustomKeywordField"]} 0 0 1 (λ _ _ _ e, (e, None)) 14 None [WithSharedCluster] ∅ ""
    "active" "127.0.0.1:7233" ("u1", "u2") ("id-1", "id-2") (true, true) (true, true) w_setup_world.

(** The same when the admin API is not reached. *)
Definition w_setup_alone : suite_world * res suite_ids :=
  setupCluster (M3 := Murmur3_ref) (Val := nat) (Fx := nat) (Policy := nat) (Fault := nat)
    (HistoryFactory := nat) (VisibilityFactory := nat) (Persistence := nat)
    (λ _, "") id {["CustomKeywordField"]} 0 0 1 (λ _ _ _ e, (e, None)) 14 None [WithSharedCluster] ∅ ""
    "active" "127.0.0.1:7233" ("u1", "u2") ("id-1", "id-2") (false, false) (false, false) w_setup_world.

Lemma setup_cluster_ends_witness :
  (∃ s, w_setup.2 = Ok s ∧ s_isShared s = true ∧
     ∃ v, Resolve_ns (proxy_registry w_setup.1) "namespace-u1" = Some v ∧
          Namespaces v !! "namespace-u1::127.0.0.1:7233" = Some NamespaceActive) ∧
  (∃ s, w_setup_alone.2 = Ok s ∧ Resolve_ns (proxy_registry w_setup_alone.1) "namespace-u1" = None).
Proof.
  assert (w_setup.2 = Ok (mkIds "namespace-u1" "id-1" "external-namespace-u2" true None true)) as E
    by (vm_compute; reflexivity).
  assert (w_setup_alone.2 = Ok (mkIds "namespace-u1" "id-1" "external-namespace-u2" true None true)) as E'
    by (vm_compute; reflexivity).
  split; (eexists; split; [first [exact E|exact E']|]).
  - split; [reflexivity|].
    destruct (setup_cluster_ends (M3 := Murmur3_ref) (Val := nat) (Fx := nat) (Policy := nat) (Fault := nat)
      (HistoryFactory := nat) (VisibilityFactory := nat) (Persistence := nat)
      (λ _, "") id {["CustomKeywordField"]} 0 0 1 (λ _ _ _ e, (e, None)) 14 None [WithSharedCluster] ∅ ""
      "active" "127.0.0.1:7233" ("u1", "u2") ("id-1", "id-2") (true, true) (true, true) w_setup_world)
      as [_ Hs]; [lia|repeat constructor|repeat constructor|repeat constructor|discriminate|].
    destruct (Hs _ E) as (_ & _ & _ & Hreg & _).
    destruct (Hreg "namespace-u1" (true, true)) as (v & Hv & Hst & _); [by left|].
    exists v. split; [exact Hv|exact Hst].
  - destruct (setup_cluster_ends (M3 := Murmur3_ref) (Val := nat) (Fx := nat) (Policy := nat) (Fault := nat)
      (HistoryFactory := nat) (VisibilityFactory := nat) (Persistence := nat)
      (λ _, "") id {["CustomKeywordField"]} 0 0 1 (λ _ _ _ e, (e, None)) 14 None [WithSharedCluster] ∅ ""
      "active" "127.0.0.1:7233" ("u1", "u2") ("id-1", "id-2") (false, false) (false, false) w_setup_world)
      as [_ Hs]; [lia|repeat constructor|repeat constructor|repeat constructor|discriminate|].
    destruct (Hs _ E') as (_ & _ & _ & Hreg & _).
    exact (Hreg "namespace-u1" (false, false) ltac:(by left)).
Defined.
