(* ===== verification/Scripts.v ===== *)
(** The demonstration programs under [scripts/]: [start_workflows.go] starts a
    thousand workflows through the proxy, at most two calls at a time, and
    [worker.go] serves them.  The starter's goroutines, its semaphore channel and
    its wait group are a step relation; an answer of the proxy is a step of the
    environment, with or without an error. *)

From S2P Require Import Prelude GoStrings GoNet.
From Stdlib Require Import Ascii.
From stdpp Require Import options.

(** What both programs dial. *)
Record ClientOptions := mkClient { HostPort : string; Client_Namespace : string }.

Record StartWorkflowOptions := mkStart { Start_ID : string; Start_TaskQueue : string }.

(** * The starter *)

Definition starter_client : ClientOptions := mkClient "localhost:8088" "default".

Definition numWorkflows : nat := Z.to_nat 1000.

(** The capacity of [sem]. *)
Definition sem_cap : nat := 2.

Definition workflowID (nanos : Z) (index : nat) : string :=
  "test-workflow-" +:+ show_int nanos +:+ "-" +:+ Itoa index.

Definition workflowOptions (nanos : Z) (index : nat) : StartWorkflowOptions :=
  mkStart (workflowID nanos index) "test-task-queue".

Definition started_type : string := "DummyWorkflowType".

(** A goroutine: not yet at its call, waiting for the answer, at its deferred
    functions, or with its token given back. *)
Inductive routine :=
| Begun (index : nat) | Calling (index : nat) | Called (index : nat) | Released (index : nat).

(** The main goroutine: before iteration [i] (or, at [numWorkflows], at
    [wg.Wait]), with the token for iteration [i] taken, or past the end. *)
Inductive starter_main := Loop (i : nat) | Holding (i : nat) | Finished.

Record starter := mkStarter {
  st_main : starter_main; sem : nat; wg : Z; routines : list routine;
  requests : list (nat * StartWorkflowOptions * string); failures : list nat
}.

Definition starter_start : starter := mkStarter (Loop 0) 0 (Z.of_nat numWorkflows) [] [] [].

(** One step of the main goroutine, of a goroutine or of the proxy.  A send on
    [sem] waits while it is full, a receive while it is empty. *)
Inductive starter_step : starter → starter → Prop :=
| st_acquire i n w rs q f :
    i < numWorkflows → n < sem_cap →
    starter_step (mkStarter (Loop i) n w rs q f) (mkStarter (Holding i) (S n) w rs q f)
| st_go i n w rs q f :
    starter_step (mkStarter (Holding i) n w rs q f) (mkStarter (Loop (S i)) n w (rs ++ [Begun i]) q f)
| st_call p i nanos n w rs1 rs2 q f :
    starter_step (mkStarter p n w (rs1 ++ Begun i :: rs2) q f)
      (mkStarter p n w (rs1 ++ Calling i :: rs2) (q ++ [(i, workflowOptions nanos i, started_type)]) f)
| st_answer p i (failed : bool) n w rs1 rs2 q f :
    starter_step (mkStarter p n w (rs1 ++ Calling i :: rs2) q f)
      (mkStarter p n w (rs1 ++ Called i :: rs2) q (if failed then f ++ [i] else f))
| st_release p i n w rs1 rs2 q f :
    starter_step (mkStarter p (S n) w (rs1 ++ Called i :: rs2) q f)
      (mkStarter p n w (rs1 ++ Released i :: rs2) q f)
| st_done p i n w rs1 rs2 q f :
    starter_step (mkStarter p n w (rs1 ++ Released i :: rs2) q f)
      (mkStarter p n (w - 1) (rs1 ++ rs2) q f)
| st_wait n q f rs :
    starter_step (mkStarter (Loop numWorkflows) n 0 rs q f) (mkStarter Finished n 0 rs q f).

(** ** The ids of a run *)

Lemma last_part_unique {A} (x : A) l1 l2 k1 k2 :
  x ∉ l2 → x ∉ k2 → l1 ++ x :: l2 = k1 ++ x :: k2 → l2 = k2.
Proof.
  revert k1. induction l1 as [|a l1 IH]; intros [|b k1] H1 H2; cbn; intros Heq; simplify_eq.
  - done.
  - destruct H1. set_solver.
  - destruct H2. set_solver.
  - by eapply IH.
Qed.

Lemma Itoa_no_dash n : "-"%char ∉ chars (Itoa n).
Proof.
  pose proof (Itoa_digits n) as H. rewrite Forall_forall in H. intros Hin.
  specialize (H _ Hin). unfold is_digit in H. set_solver.
Qed.

(** Whatever the clock says, an id tells its index. *)
Lemma workflowID_index t1 t2 i j : workflowID t1 i = workflowID t2 j → i = j.
Proof.
  intros H. apply (inj Itoa). apply (f_equal chars) in H. unfold workflowID in H.
  rewrite !chars_app in H. change (chars "-") with ["-"%char] in H.
  rewrite !(assoc_L (++)) in H. rewrite <-!(assoc_L (++)) in H.
  assert (chars (Itoa i) = chars (Itoa j)) as Hc.
  { eapply last_part_unique; [apply Itoa_no_dash|apply Itoa_no_dash|].
    rewrite !(assoc_L (++)) in H. rewrite <-!(assoc_L (++) _ ["-"%char]) in H. exact H. }
  rewrite <-(String.string_of_list_ascii_of_string (Itoa i)),
    <-(String.string_of_list_ascii_of_string (Itoa j)). unfold chars in Hc. by rewrite Hc.
Qed.

(** ** The invariant of a run *)

Definition position (p : starter_main) : nat :=
  match p with Loop i => i | Holding i => i | Finished => numWorkflows end.

Definition tokens_main (p : starter_main) : nat := match p with Holding _ => 1 | _ => 0 end.
Definition tokens (r : routine) : nat := match r with Released _ => 0 | _ => 1 end.
Definition begun (r : routine) : list nat := match r with Begun i => [i] | _ => [] end.
Definition in_flight (r : routine) : nat := match r with Calling _ => 1 | _ => 0 end.

Definition request_ok (q : nat * StartWorkflowOptions * string) : Prop :=
  ∃ nanos, q.1.2 = workflowOptions nanos q.1.1 ∧ q.2 = started_type.

Record starter_inv (c : starter) : Prop := {
  si_pos : position (st_main c) ≤ numWorkflows;
  si_hold : ∀ i, st_main c = Holding i → i < numWorkflows;
  si_sem : sem c = tokens_main (st_main c) + sum_list_with tokens (routines c);
  si_cap : sem c ≤ sem_cap;
  si_wg : wg c = (Z.of_nat (numWorkflows - position (st_main c)) + Z.of_nat (length (routines c)))%Z;
  si_requests : (requests c).*1.*1 ++ (routines c ≫= begun) ≡ₚ seq 0 (position (st_main c));
  si_sent : Forall request_ok (requests c);
  si_end : st_main c = Finished → routines c = []
}.

Lemma starter_inv_start : starter_inv starter_start.
Proof. split; unfold starter_start; cbn [st_main sem wg routines requests position]; try done; cbn; unfold sem_cap; lia. Qed.

Lemma sum_tokens_app l1 r l2 :
  sum_list_with tokens (l1 ++ r :: l2) = tokens r + sum_list_with tokens (l1 ++ l2).
Proof. rewrite !sum_list_with_app. cbn. lia. Qed.

Lemma begun_app l1 r l2 :
  (l1 ++ r :: l2) ≫= begun ≡ₚ begun r ++ ((l1 ++ l2) ≫= begun).
Proof. rewrite !bind_app. cbn. by rewrite !(assoc_L (++)), (comm (++) (l1 ≫= begun) (begun r)). Qed.

Lemma starter_inv_step c c' : starter_inv c → starter_step c c' → starter_inv c'.
Proof.
  intros [Hp Hh Hs Hc Hw Hq Hok He] Hst; destruct Hst; cbn [st_main sem wg routines requests position tokens_main] in *;
    rewrite ?sum_tokens_app, ?begun_app, ?length_app in *;
    cbn [tokens begun length app] in *.
  - split; cbn [st_main sem wg routines requests position tokens_main]; try done; try lia; naive_solver.
  - specialize (Hh i eq_refl).
    split; cbn [st_main sem wg routines requests position tokens_main]; try done.
    + rewrite sum_list_with_app. cbn. lia.
    + rewrite length_app. cbn [length]. lia.
    + rewrite bind_app. cbn. rewrite (assoc_L (++)), Hq. change [i] with (seq (0 + i) 1).
      rewrite <-seq_app. by rewrite Nat.add_comm.
  - split; cbn [st_main sem wg routines requests position tokens_main];
      rewrite ?sum_tokens_app, ?length_app; cbn [tokens length]; try done; try lia.
    + rewrite begun_app, !fmap_app. cbn. by rewrite <-(assoc_L (++)).
    + apply Forall_app_2; [done|]. repeat constructor. by exists nanos.
    + intros E. specialize (He E). by destruct rs1.
  - split; cbn [st_main sem wg routines requests position tokens_main];
      rewrite ?sum_tokens_app, ?length_app, ?begun_app; cbn [tokens length begun]; try done; try lia.
    intros E. specialize (He E). by destruct rs1.
  - split; cbn [st_main sem wg routines requests position tokens_main];
      rewrite ?sum_tokens_app, ?length_app, ?begun_app; cbn [tokens length begun]; try done; try lia.
    intros E. specialize (He E). by destruct rs1.
  - split; cbn [st_main sem wg routines requests position tokens_main];
      rewrite ?length_app; try done; try lia.
    intros E. specialize (He E). by destruct rs1.
  - split; cbn [st_main sem wg routines requests position tokens_main]; try done.
    intros _. destruct rs; [done|]. cbn [length] in Hw. lia.
Qed.

(** Every step does some of the work that is left. *)
Definition work (r : routine) : nat :=
  match r with Begun _ => 4 | Calling _ => 3 | Called _ => 2 | Released _ => 1 end.

Definition work_left (c : starter) : nat :=
  match st_main c with Finished => 0 | _ => 1 end
  + (6 * (numWorkflows - position (st_main c)) - tokens_main (st_main c))
  + sum_list_with work (routines c).

Lemma starter_step_work c c' : starter_inv c → starter_step c c' → work_left c' < work_left c.
Proof.
  intros [Hp Hh _ _ _ _ _ He] Hst; destruct Hst; unfold work_left;
    cbn [st_main routines position tokens_main] in *;
    rewrite ?sum_list_with_app; cbn [work sum_list_with]; try lia.
  - specialize (Hh i eq_refl). lia.
Qed.

Lemma routine_steps p n w rs q f r :
  r ∈ rs → (∀ i, r ≠ Called i) ∨ 0 < n → ∃ c', starter_step (mkStarter p n w rs q f) c'.
Proof.
  intros (rs1 & rs2 & ->)%list_elem_of_split Hn. destruct r.
  - eexists. by apply (st_call _ _ 0).
  - eexists. by apply (st_answer _ _ false).
  - destruct n as [|n]; [naive_solver lia|]. eexists. by apply st_release.
  - eexists. by apply st_done.
Qed.

Lemma starter_progress c : starter_inv c → st_main c = Finished ∨ ∃ c', starter_step c c'.
Proof.
  intros [Hp _ Hs Hc Hw _ _ _]. destruct c as [p n w rs q f].
  cbn [st_main sem wg routines requests] in *. destruct p as [i|i|]; [|right; eexists; apply st_go|by left].
  right. cbn [position tokens_main] in *. destruct (decide (i < numWorkflows ∧ n < sem_cap)) as [[]|Hfull].
  { eexists. by apply st_acquire. }
  destruct rs as [|r rs].
  - cbn in Hs, Hw. unfold sem_cap in *. assert (i = numWorkflows) as -> by lia.
    replace w with 0%Z by lia. eexists. apply st_wait.
  - apply (routine_steps _ _ _ _ _ _ r); [set_solver|]. rewrite Hs. cbn.
    destruct r; cbn; auto with lia.
Qed.

Lemma requests_ids l :
  Forall request_ok l → NoDup (l.*1.*1) → NoDup ((λ q, Start_ID q.1.2) <$> l).
Proof.
  intros Hok. induction Hok as [|[[i o] ty] l (t & Ht & _) Hok IH]; intros Hnd; [constructor|].
  cbn in Hnd, Ht |- *. apply NoDup_cons in Hnd as [Hi Hnd]. constructor; [|by apply IH].
  intros ([[j o'] ty'] & E & Hin)%list_elem_of_fmap. apply Hi.
  rewrite Forall_forall in Hok. destruct (Hok _ Hin) as (t' & Ht' & _). cbn in E, Ht'. subst o o'.
  cbn in E. apply workflowID_index in E as ->.
  by apply (list_elem_of_fmap_2 fst), (list_elem_of_fmap_2 fst) in Hin.
Qed.

Lemma starter_inv_reachable c : rtc starter_step starter_start c → starter_inv c.
Proof.
  intros Hc. refine (rtc_ind_r starter_inv _ starter_inv_start _ c Hc).
  intros ? ? _ ? ?. by eapply starter_inv_step.
Qed.

Lemma in_flight_tokens rs : sum_list_with in_flight rs ≤ sum_list_with tokens rs.
Proof. induction rs as [|r rs IH]; [done|]. cbn [sum_list_with]. destruct r; cbn [in_flight tokens]; lia. Qed.

(** C10: every workflow is started, once, and the program ends.  Whatever the
    interleaving of its goroutines and the answers of the proxy, the starter
    comes to its end, having sent one start request for each of the thousand
    indices, under pairwise different workflow ids whatever its clock says; and
    until then at most two calls wait for an answer at any time and the wait
    group's counter never goes below zero. *)
Theorem starter_starts_all :
  eventually starter_step
    (λ c, st_main c = Finished ∧ routines c = [] ∧
       (requests c).*1.*1 ≡ₚ seq 0 numWorkflows ∧
       NoDup ((λ q, Start_ID q.1.2) <$> requests c))
    starter_start ∧
  ∀ c, rtc starter_step starter_start c →
    sum_list_with in_flight (routines c) ≤ 2 ∧ (0 ≤ wg c)%Z ∧
    (∀ c', starter_step c c' → (0 ≤ wg c')%Z).
Proof.
  assert (∀ c, starter_inv c → (0 ≤ wg c)%Z) as Hwg by (intros c [_ _ _ _ -> _ _ _]; lia).
  split.
  - apply (eventually_weaken _ (λ c, starter_inv c ∧ st_main c = Finished)).
    + intros c [[_ _ _ _ _ Hq Hok He] HF]. specialize (He HF). rewrite He, HF, app_nil_r in Hq.
      split; [done|]. split; [done|]. split; [done|].
      assert (NoDup ((requests c).*1.*1)) as Hnd by (rewrite Hq; apply NoDup_seq).
      by apply requests_ids.
    + apply (eventually_measure _ starter_inv _ work_left).
      * intros c Hc. destruct (starter_progress c Hc); auto.
      * intros c c' Hc Hst. split; [by eapply starter_inv_step|by apply starter_step_work].
      * apply starter_inv_start.
  - intros c Hc.
    pose proof (starter_inv_reachable c Hc) as Hinv.
    split_and!; [|by apply Hwg|intros c' Hst; eapply Hwg, starter_inv_step; done].
    destruct Hinv as [_ _ Hs Hcap _ _ _ _]. unfold sem_cap in Hcap.
    pose proof (in_flight_tokens (routines c)). lia.
Qed.

(** The first call of a run. *)
Lemma one_started :
  rtc starter_step starter_start
    (mkStarter (Loop 1) 1 (Z.of_nat numWorkflows) [Calling 0] [(0, workflowOptions 7 0, started_type)] []).
Proof.
  eapply rtc_l; [apply st_acquire; unfold numWorkflows, sem_cap; lia|].
  eapply rtc_l; [apply st_go|]. eapply rtc_l; [apply (st_call _ _ 7 _ _ [] [])|]. apply rtc_refl.
Qed.

Lemma starter_starts_all_witness :
  sum_list_with in_flight [Calling 0] ≤ 2 ∧
  eventually starter_step (λ c, st_main c = Finished) starter_start.
Proof.
  split.
  - apply (proj1 (proj2 starter_starts_all _ one_started)).
  - eapply eventually_weaken; [|exact (proj1 starter_starts_all)]. by intros c [H _].
Defined.

(** * The worker *)

Definition worker_client : ClientOptions := mkClient "localhost:8088" "default".

Definition DummyActivityType (name : string) : res string :=
  Ok ("Hello " +:+ name +:+ " from Activity!").

(** How the SDK runs an activity under a start-to-close timeout, in nanoseconds. *)
Definition activity_runner : Type := Z → (string → res string) → string → res string.

Definition DummyWorkflowType (ExecuteActivity : activity_runner) : res string :=
  match ExecuteActivity (10 * 1000000000)%Z DummyActivityType "Temporal" with
  | Ok result => Ok ("Success: " +:+ result)
  | r => r
  end.

(** The registered functions, under their names. *)
Record worker := mkWorker {
  w_client : ClientOptions; w_queue : string;
  w_workflows : gmap string (activity_runner → res string);
  w_activities : gmap string (string → res string)
}.

Definition dummy_worker : worker :=
  mkWorker worker_client "test-task-queue" {["DummyWorkflowType" := DummyWorkflowType]}
    {["DummyActivityType" := DummyActivityType]}.

(** [main]; [log.Fatalln] ends the program. *)
Definition worker_main (dial : ClientOptions → option string) (run : worker → option string) : res unit :=
  match dial worker_client with
  | Some err => Panic ("Unable to create Temporal client: " +:+ err)
  | None =>
      match run dummy_worker with
      | Some err => Panic ("Worker failed to start: " +:+ err)
      | None => Ok tt
      end
  end.

(** The worker serves what the starter starts: every request of any run of the
    starter names a workflow type the worker has registered, on the task queue
    it polls through the same proxy address and namespace; and if the SDK runs an
    activity by calling it or failing, the workflow succeeds with the activity's
    greeting or returns the error. *)
Theorem worker_serves_starter c i o ty :
  rtc starter_step starter_start c → (i, o, ty) ∈ requests c →
  w_client dummy_worker = starter_client ∧ Start_TaskQueue o = w_queue dummy_worker ∧
  ∃ f, w_workflows dummy_worker !! ty = Some f ∧
    ∀ ExecuteActivity : activity_runner,
      (∀ t g x, ExecuteActivity t g x = g x ∨ ∃ err, ExecuteActivity t g x = Err err) →
      f ExecuteActivity = Ok "Success: Hello Temporal from Activity!" ∨
      ∃ err, f ExecuteActivity = Err err.
Proof.
  intros Hc Hin. destruct (starter_inv_reachable c Hc) as [_ _ _ _ _ _ Hok _].
  rewrite Forall_forall in Hok. destruct (Hok _ Hin) as (t & Ho & Hty). cbn [fst snd] in Ho, Hty. subst o ty.
  split; [done|]. split; [done|]. exists DummyWorkflowType. split; [done|].
  intros EA HEA. unfold DummyWorkflowType.
  destruct (HEA (10 * 1000000000)%Z DummyActivityType "Temporal") as [->|[err ->]]; [by left|by right; exists err].
Qed.

(** The first request of a run. *)
Lemma worker_serves_starter_witness :
  ∃ c, rtc starter_step starter_start c ∧ (0, workflowOptions 7 0, started_type) ∈ requests c ∧
    w_client dummy_worker = starter_client.
Proof.
  eexists. split; [exact one_started|]. assert ((0, workflowOptions 7 0, started_type) ∈
    [(0, workflowOptions 7 0, started_type)]) as Hin by set_solver.
  split; [exact Hin|]. apply (worker_serves_starter _ 0 (workflowOptions 7 0) started_type one_started Hin).
Defined.
