(* ===== verification/MixedBuild.v ===== *)
(** What the mixed-version test runs: the commands that fetch and build the
    released server and the load generator ([conformance-tests/mixedbrain],
    [build_util.go]), the start of a server and the waits of [server_util.go].

    The state is the history of the commands run so far; what a command answers
    is a function of the history it ends, so that a command may fail at one time
    and succeed at another. *)

From S2P Require Import Prelude GoStrings GoNet MixedBrain.
From Stdlib Require Import Ascii.
From stdpp Require Import options.

(** [exec] runs in a directory, [""] being the current one. *)
Inductive command :=
| RemoveAllDir (dir : string)
| Exec (dir : string) (args : list string).

Definition temporalRepo : string := "https://github.com/temporalio/temporal.git".
Definition omesRepo : string := "https://github.com/temporalio/omes".
Definition omesCommit : string := "8e4c1f54f3b0fb5e39d131f859c56fb2236395b1".

(** [filename] is the path of [build_util.go]. *)
Definition sourceRoot (filename : string) : string :=
  filepath_Dir (filepath_Dir (filepath_Dir filename)).

(** [require.NoError(t, err)] fails the test. *)
Definition must {S A} (m : GoM S A) : GoM S A :=
  r ← try m; match r with inl err => panic err | inr a => mret a end.

(** [require.EventuallyWithT]: [tries] attempts fit into the timeout. *)
Fixpoint EventuallyWithT {S A} (tries : nat) (m : GoM S A) : GoM S A :=
  match tries with
  | O => panic "Condition never satisfied"
  | S tries => r ← try m; match r with inr a => mret a | inl _ => EventuallyWithT tries m end
  end.

(** The root of the repository, wherever it is checked out. *)
Lemma sourceRoot_repository root :
  root ≠ "" → sourceRoot (root +:+ "/conformance-tests/mixedbrain/build_util.go") = root.
Proof.
  intros Hr. unfold sourceRoot.
  change (root +:+ _) with (root +:+ ("/conformance-tests/mixedbrain" +:+ "/" +:+ "build_util.go")).
  rewrite <-str_app_assoc, filepath_Dir_join; [|by destruct root|set_solver].
  change (root +:+ _) with (root +:+ ("/conformance-tests" +:+ "/" +:+ "mixedbrain")).
  rewrite <-str_app_assoc, filepath_Dir_join; [|by destruct root|set_solver].
  apply (filepath_Dir_join root "conformance-tests"); [done|set_solver].
Qed.

Section build.
Context `{Semver} (Version_String : Version → string) (ServerVersion : string).
(** What the last command of a history answers: an error or its output. *)
Context (outcome : list command → string + string) (tries : nat).

Definition exec_in (dir : string) (args : list string) : GoM (list command) string := λ h,
  let h := h ++ [Exec dir args] in
  (h, match outcome h with inl err => Err err | inr out => Ok out end).

Definition clone_args (url destDir : string) : list string :=
  ["git"; "clone"; "--filter=blob:none"; url; destDir].
Definition checkout_args (destDir ref : string) : list string := ["git"; "-C"; destDir; "checkout"; ref].

Definition cloneRepo (url destDir ref : string) : GoM (list command) unit :=
  EventuallyWithT tries
    (modify (λ h, h ++ [RemoveAllDir destDir]);; exec_in "" (clone_args url destDir));;
  must (exec_in "" (checkout_args destDir ref));;
  mret tt.

Definition build_args (outputPath : string) : list string :=
  ["go"; "build"; "-tags"; "disable_grpc_modules"; "-o"; outputPath; "./cmd/server"].

Definition buildServer (srcDir outputPath : string) : GoM (list command) unit :=
  must (exec_in srcDir (build_args outputPath));; mret tt.

Definition ls_remote : list string := ["git"; "ls-remote"; "--tags"; "--refs"; temporalRepo].

(** One try to find the release; a server version that is none panics. *)
Definition fetch_tags : GoM (list command) Version :=
  reply ← try (exec_in "" ls_remote);
  version ← lift (fetch_release ServerVersion reply);
  match version with
  | Some v => mret v
  | None => fail "no tags found for previous minor"
  end.

Definition downloadAndBuildReleaseServer (outputPath : string) : GoM (list command) string :=
  version ← EventuallyWithT tries fetch_tags;
  let tag := "v" +:+ Version_String version in
  let repoDir := filepath_Join [filepath_Dir outputPath; "temporal-release"] in
  cloneRepo temporalRepo repoDir tag;;
  buildServer repoDir outputPath;;
  mret tag.

Definition downloadAndBuildOmes (workDir : string) : GoM (list command) unit :=
  let repoDir := filepath_Join [workDir; "omes"] in
  cloneRepo omesRepo repoDir omesCommit;;
  must (exec_in repoDir ["go"; "build"; "-o"; filepath_Join [workDir; "omes-bin"]; "./cmd"]);;
  mret tt.

(** ** What has been run *)

(** The last command of [h] succeeded. *)
Definition succeeded (h : list command) : Prop := ∃ out, outcome h = inr out.

Lemma must_Ok {S A} (m : GoM S A) s s' a : must m s = (s', Ok a) → m s = (s', Ok a).
Proof. unfold must. go_simpl. destruct (m s) as [? []]; cbn; intros; by simplify_eq. Qed.

Lemma tries_Ok {S A} n (m : GoM S A) s s' a :
  EventuallyWithT n m s = (s', Ok a) → ∃ s0, m s0 = (s', Ok a).
Proof.
  revert s. induction n as [|n IH]; intros s; cbn; [done|]. go_simpl.
  destruct (m s) as [s1 [b|e|p|]] eqn:E; cbn; intros; simplify_eq; [by eexists|by eapply IH].
Qed.

Lemma exec_in_Ok dir args h h' out :
  exec_in dir args h = (h', Ok out) → h' = h ++ [Exec dir args] ∧ outcome h' = inr out.
Proof. unfold exec_in. destruct (outcome _) eqn:E; intros; by simplify_eq. Qed.

(** A clone that ended well began by removing what was in its place. *)
Lemma cloneRepo_Ok url dest ref h h' :
  cloneRepo url dest ref h = (h', Ok tt) →
  ∃ h0, h' = h0 ++ [RemoveAllDir dest; Exec "" (clone_args url dest); Exec "" (checkout_args dest ref)] ∧
    succeeded (h0 ++ [RemoveAllDir dest; Exec "" (clone_args url dest)]) ∧ succeeded h'.
Proof.
  unfold cloneRepo. intros (h1 & out & H1 & H2)%go_bind_Ok_inv.
  apply go_bind_Ok_inv in H2 as (h2 & o2 & (-> & Ho2)%must_Ok%exec_in_Ok & [= <-]).
  apply tries_Ok in H1 as (h0 & H1). exists h0.
  apply go_bind_Ok_inv in H1 as (h01 & [] & [= <-] & H1). apply exec_in_Ok in H1 as [-> Ho1].
  rewrite <-!(assoc_L (++)) in *. cbn [app] in *. split; [done|]. unfold succeeded. eauto.
Qed.

Lemma buildServer_Ok dir outputPath h h' :
  buildServer dir outputPath h = (h', Ok tt) →
  h' = h ++ [Exec dir (build_args outputPath)] ∧ succeeded h'.
Proof.
  unfold buildServer. intros (h1 & out & (-> & Ho)%must_Ok%exec_in_Ok & [= <-])%go_bind_Ok_inv.
  split; [done|by exists out].
Qed.

Lemma fetch_tags_Ok h h' v :
  fetch_tags h = (h', Ok v) →
  h' = h ++ [Exec "" ls_remote] ∧
  ∃ out, outcome h' = inr out ∧ fetch_release ServerVersion (inr out) = Ok (Some v).
Proof.
  unfold fetch_tags. intros (h1 & reply & H1 & H2)%go_bind_Ok_inv.
  apply go_bind_Ok_inv in H2 as (h2 & version & [= <- Hf] & H2).
  destruct version as [v'|]; [|done]. injection H2 as <- <-.
  unfold try, exec_in in H1. destruct (outcome _) as [err|out] eqn:Eo; injection H1 as <- <-.
  - by cbn in Hf.
  - split; [done|]. by exists out.
Qed.

(** The released server is built from its tag.  If [downloadAndBuildReleaseServer]
    ends well, the version it names was picked from the output of a successful
    [git ls-remote]; after that the directory of the release was emptied, the
    server's repository cloned into it, that version's tag checked out there and
    the binary built there into the output path, all four without an error and
    nothing in between or after. *)
Theorem release_built_from_tag outputPath h h' tag :
  downloadAndBuildReleaseServer outputPath h = (h', Ok tag) →
  ∃ v out hl h0,
    let repo := filepath_Join [filepath_Dir outputPath; "temporal-release"] in
    let clone := Exec "" (clone_args temporalRepo repo) in
    let checkout := Exec "" (checkout_args repo tag) in
    tag = "v" +:+ Version_String v ∧
    outcome (hl ++ [Exec "" ls_remote]) = inr out ∧
    fetch_release ServerVersion (inr out) = Ok (Some v) ∧
    h' = h0 ++ [RemoveAllDir repo; clone; checkout; Exec repo (build_args outputPath)] ∧
    succeeded (h0 ++ [RemoveAllDir repo; clone]) ∧
    succeeded (h0 ++ [RemoveAllDir repo; clone; checkout]) ∧ succeeded h'.
Proof.
  unfold downloadAndBuildReleaseServer. set (repo := filepath_Join _).
  intros (h1 & v & H1 & H2)%go_bind_Ok_inv.
  apply go_bind_Ok_inv in H2 as (h2 & [] & (h0 & -> & Hc & Hk)%cloneRepo_Ok & H2).
  apply go_bind_Ok_inv in H2 as (h3 & [] & [-> Hb]%buildServer_Ok & [= <- <-]).
  apply tries_Ok in H1 as (hl & [-> (out & Ho & Hf)]%fetch_tags_Ok).
  exists v, out, hl, h0. rewrite <-!(assoc_L (++)) in *. by cbn [app] in *.
Qed.

(** ** Clones go into cleared directories *)

Definition clean_clones (h : list command) : Prop :=
  ∀ pre url dest post, h = pre ++ Exec "" (clone_args url dest) :: post →
    ∃ pre', pre = pre' ++ [RemoveAllDir dest].

Definition keeps_clean {A} (m : GoM (list command) A) : Prop :=
  ∀ h, clean_clones h → clean_clones (m h).1.

Lemma clean_snoc h c :
  clean_clones h →
  (∀ url dest, c = Exec "" (clone_args url dest) → last h = Some (RemoveAllDir dest)) →
  clean_clones (h ++ [c]).
Proof.
  intros Hh Hc pre url dest post E. destruct post as [|c' post _] using rev_ind.
  - apply app_inj_tail in E as [<- ->]. apply last_Some. by eapply Hc.
  - rewrite app_comm_cons, (assoc_L (++)) in E. apply app_inj_tail in E as [-> _]. by eapply Hh.
Qed.

Lemma keeps_clean_ret {A} (a : A) : keeps_clean (mret a).
Proof. by intros h. Qed.

Lemma keeps_clean_bind {A B} (m : GoM (list command) A) (k : A → GoM (list command) B) :
  keeps_clean m → (∀ a, keeps_clean (k a)) → keeps_clean (m ≫= k).
Proof.
  intros Hm Hk h Hh. specialize (Hm h Hh). unfold mbind, go_bind.
  destruct (m h) as [h1 []]; cbn in *; [by apply Hk|done|done|done].
Qed.

Lemma keeps_clean_try {A} (m : GoM (list command) A) : keeps_clean m → keeps_clean (try m).
Proof. intros Hm h Hh. specialize (Hm h Hh). unfold try. by destruct (m h) as [? []]. Qed.

Lemma keeps_clean_must {A} (m : GoM (list command) A) : keeps_clean m → keeps_clean (must m).
Proof. intros Hm. apply keeps_clean_bind; [by apply keeps_clean_try|]. by intros [] h. Qed.

Lemma keeps_clean_eventually {A} n (m : GoM (list command) A) :
  keeps_clean m → keeps_clean (EventuallyWithT n m).
Proof.
  intros Hm. induction n as [|n IH]; [by intros h|].
  apply keeps_clean_bind; [by apply keeps_clean_try|]. intros []; [done|apply keeps_clean_ret].
Qed.

Ltac not_clone :=
  intros ? ? E; unfold checkout_args, build_args, ls_remote, clone_args in E; simplify_eq.

Lemma keeps_clean_exec dir args :
  (∀ url dest, args ≠ clone_args url dest) → keeps_clean (exec_in dir args).
Proof.
  intros Hn h Hh. unfold exec_in. cbn [fst]. apply clean_snoc; [done|].
  intros url dest [= _ E]. by destruct (Hn url dest).
Qed.

Lemma keeps_clean_cloneRepo url dest ref : keeps_clean (cloneRepo url dest ref).
Proof.
  apply keeps_clean_bind; [|intros _; apply keeps_clean_bind; [|intros _; apply keeps_clean_ret]].
  - apply keeps_clean_eventually. intros h Hh. unfold mbind, go_bind, modify, exec_in. cbn [fst].
    apply clean_snoc; [apply clean_snoc; [done|by intros ?? E]|].
    intros url' dest' [= -> ->]. by rewrite last_snoc.
  - apply keeps_clean_must, keeps_clean_exec; not_clone.
Qed.

(** No clone meets the remains of an earlier one: whatever the commands answer
    and wherever the builds fail, every [git clone] either build runs comes
    directly after its directory was removed. *)
Theorem clones_into_cleared_directories outputPath workDir h :
  clean_clones h →
  clean_clones (downloadAndBuildReleaseServer outputPath h).1 ∧
  clean_clones (downloadAndBuildOmes workDir h).1.
Proof.
  intros Hh. split; [revert h Hh; fold (keeps_clean (downloadAndBuildReleaseServer outputPath))
                    |revert h Hh; fold (keeps_clean (downloadAndBuildOmes workDir))].
  - apply keeps_clean_bind.
    + apply keeps_clean_eventually, keeps_clean_bind.
      * apply keeps_clean_try, keeps_clean_exec; not_clone.
      * intros reply. apply keeps_clean_bind; [by intros h|]. by intros [] h.
    + intros v. apply keeps_clean_bind; [apply keeps_clean_cloneRepo|].
      intros _. apply keeps_clean_bind; [|by intros _ h].
      apply keeps_clean_bind; [|by intros _ h]. apply keeps_clean_must, keeps_clean_exec; not_clone.
  - apply keeps_clean_bind; [apply keeps_clean_cloneRepo|].
    intros _. apply keeps_clean_bind; [|by intros _ h]. apply keeps_clean_must, keeps_clean_exec; not_clone.
Qed.
End build.

(** * Starting and preparing the servers *)

(** [startServerProcess]: the errors of creating the log file and of starting
    the binary, which runs in the source root with these arguments. *)
Record launch := mkLaunch { l_binary : string; l_args : list string; l_dir : string }.

Definition server_launch (binary configDir root : string) : launch :=
  mkLaunch binary ["--root"; "/"; "--config"; configDir; "--allow-no-auth"; "start"] root.

Definition startServerProcess (createErr : option string) (start : launch → option string)
    (binary configDir root : string) : res serverProcess :=
  match createErr with
  | Some err => Panic err
  | None =>
      match start (server_launch binary configDir root) with
      | Some err => Panic err
      | None => Ok (mkProcess true None true)
      end
  end.

(** [require.Eventually] over a service with state [W]: [tries] calls fit into the
    timeout. *)
Section prepare.
Context {W : Type}.

Fixpoint Eventually (tries : nat) (cond : W → W * bool) (msg : string) : GoM W unit := λ w,
  match tries with
  | O => (w, Panic msg)
  | S tries => let '(w, b) := cond w in if b then (w, Ok tt) else Eventually tries cond msg w
  end.

Record RegisterDefault := mkRegister { rd_Namespace : string; rd_Retention : Z }.
Record NexusEndpointSpec := mkEndpoint { ne_Name : string; ne_Namespace : string; ne_TaskQueue : string }.

Context (RegisterNamespace : RegisterDefault → W → W * grpc_reply).
Context (CreateNexusEndpoint : NexusEndpointSpec → W → W * grpc_reply).
Context (DescribeCluster : W → W * (string + option (list string))).

Definition registerDefaultNamespace (tries : nat) : GoM W unit :=
  Eventually tries (λ w, prod_map id created (RegisterNamespace (mkRegister "default" (24 * 3600 * 1000000000)) w))
    "failed to register default namespace".

Definition createNexusEndpoint_mixed (tries : nat) (endpointName namespace taskQueue : string) : GoM W unit :=
  Eventually tries (λ w, prod_map id created (CreateNexusEndpoint (mkEndpoint endpointName namespace taskQueue) w))
    ("failed to create nexus endpoint " +:+ endpointName).

Definition waitForClusterFormation (tries : nat) (timeout : string) (portSets : list portSet) : GoM W unit :=
  Eventually tries (λ w, prod_map id (λ reply, cluster_formed reply portSets) (DescribeCluster w))
    ("cluster did not form within " +:+ timeout).

(** It ends well exactly with the call that fulfils the condition. *)
Lemma Eventually_ends tries cond msg w :
  (∃ n w0, n < tries ∧ w0 = Nat.iter n (λ v, (cond v).1) w ∧ (cond w0).2 = true ∧
     Eventually tries cond msg w = ((cond w0).1, Ok tt)) ∨
  ((∀ n, n < tries → (cond (Nat.iter n (λ v, (cond v).1) w)).2 = false) ∧
   (Eventually tries cond msg w).2 = Panic msg).
Proof.
  revert w. induction tries as [|tries IH]; intros w; [right; split; [lia|done]|].
  cbn [Eventually]. destruct (cond w) as [w1 []] eqn:E.
  - left. exists 0, w. cbn. rewrite E. split; [lia|done].
  - destruct (IH w1) as [(n & w0 & Hn & -> & Hc & Hr)|[Hno Hr]].
    + left. exists (S n), (Nat.iter (S n) (λ v, (cond v).1) w). rewrite Nat.iter_succ_r, E. cbn [fst].
      split; [lia|done].
    + right. split; [|done]. intros [|n] Hlt; [by cbn; rewrite E|].
      rewrite Nat.iter_succ_r, E. apply Hno. lia.
Qed.

(** What registration is for.  If the frontend answers a registration with
    success or "already exists" only when the namespace exists afterwards, then
    [registerDefaultNamespace] ends: with the default namespace in place, or with
    the failure of the test after a full round of calls that were all refused. *)
Theorem default_namespace_registered (exists_ns : string → W → Prop) tries w :
  (∀ r v, created (RegisterNamespace r v).2 = true → exists_ns (rd_Namespace r) (RegisterNamespace r v).1) →
  let o := registerDefaultNamespace tries w in
  (o.2 = Ok tt ∧ exists_ns "default" o.1) ∨
  (o.2 = Panic "failed to register default namespace" ∧
   let call v := RegisterNamespace (mkRegister "default" (24 * 3600 * 1000000000)) v in
   ∀ n, n < tries → created (call (Nat.iter n (λ v, (call v).1) w)).2 = false).
Proof.
  intros Hlaw. cbn zeta. unfold registerDefaultNamespace.
  destruct (Eventually_ends tries
    (λ w, prod_map id created (RegisterNamespace (mkRegister "default" (24 * 3600 * 1000000000)) w))
    "failed to register default namespace" w) as [(n & w0 & _ & _ & Hc & ->)|[Hno ->]].
  - left. split; [done|]. by apply (Hlaw (mkRegister "default" _)).
  - by right.
Qed.
End prepare.

(** * At concrete values *)

Definition w_outcome (h : list command) : string + string :=
  match last h with
  | Some (Exec _ ["git"; "ls-remote"; _; _; _]) => inr w_ls_remote
  | Some (Exec _ ["git"; "clone"; _; _; _]) =>
      if decide (length h = 3) then inl "connection reset" else inr ""
  | _ => inr ""
  end.

Definition w_show (v : Z * Z * Z) : string :=
  show_int v.1.1 +:+ "." +:+ show_int v.1.2 +:+ "." +:+ show_int v.2.

Definition w_build := downloadAndBuildReleaseServer (H := Semver_ref) w_show "1.31.2" w_outcome 15 "/tmp/w/release".

Lemma release_built_from_tag_witness :
  length (w_build []).1 = 7 ∧
  ∃ h0, (w_build []).1 = h0 ++ [RemoveAllDir "/tmp/w/temporal-release";
    Exec "" (clone_args temporalRepo "/tmp/w/temporal-release");
    Exec "" (checkout_args "/tmp/w/temporal-release" "v1.30.11");
    Exec "/tmp/w/temporal-release" (build_args "/tmp/w/release")].
Proof.
  split; [vm_compute; reflexivity|].
  assert (w_build [] = ((w_build []).1, Ok "v1.30.11")) as E by (vm_compute; reflexivity).
  destruct (release_built_from_tag (H := Semver_ref) w_show "1.31.2" w_outcome 15 "/tmp/w/release" []
    _ _ E) as (v & out & hl & h0 & _ & _ & _ & Hh & _).
  exists h0. exact Hh.
Defined.

Lemma clones_into_cleared_directories_witness :
  clean_clones (downloadAndBuildOmes w_outcome 15 "/tmp/w" []).1.
Proof.
  apply (clones_into_cleared_directories (H := Semver_ref) w_show "1.31.2" w_outcome 15 "/tmp/w/release" "/tmp/w" []).
  intros pre url dest post E. by destruct pre.
Defined.
