(* ===== verification/ProxyConn.v ===== *)
(** One connection of the load-balancing proxy of the mixed-version test
    ([proxyConn] and [stop] in [conformance-tests/mixedbrain/proxy_util.go]): two
    goroutines copy between the client's socket and the backend's, and each
    closes the socket it wrote to when it is done.

    A direction is one [io.Copy]: bytes come in at one socket, are read in
    chunks and written to the other, where a write blocks when the receiving peer and the
    buffers on the way take no more.  The two directions share the sockets: the one
    copying up reads where the other writes. *)

From S2P Require Import Prelude.
From stdpp Require Import options.

(** A copying goroutine: at a read, with a chunk to write, past [io.Copy], or
    ended. *)
Inductive copier := Reading | Writing (chunk : list byte) | Copied | Ended.

(** The receiving peer of a direction: it keeps reading; it does not read, and the
    buffers on the way to it take so many more bytes; or it has closed. *)
Inductive sink := Taking | Stalled (room : nat) | Gone.

(** A direction: what its source has sent in all, what of it waits at the
    proxy's socket, whether the source has closed, what was delivered to the
    receiving peer and its buffers, the goroutine, and the receiving peer. *)
Record direction := mkDir {
  d_sent : list byte; d_pending : list byte; d_eof : bool;
  d_delivered : list byte; d_pc : copier; d_sink : sink
}.

(** A connection: from client to backend and back, and the proxy's two sockets. *)
Record proxied := mkProxied {
  up : direction; down : direction; client_open : bool; server_open : bool
}.

(** After a successful dial. *)
Definition fresh : direction := mkDir [] [] false [] Reading Taking.
Definition proxied_start : proxied := mkProxied fresh fresh true true.

(** Bytes that can be written now, and the peer after them. *)
Definition takes (k : sink) (bs : list byte) : bool :=
  match k with Stalled room => bool_decide (length bs ≤ room) | _ => true end.
Definition after (k : sink) (bs : list byte) : sink :=
  match k with Stalled room => Stalled (room - length bs) | _ => k end.

(** One step of a copying goroutine.  [src] and [dst] say which of the proxy's
    sockets are open, [reset] that the sending peer is gone, when a read may fail
    with bytes pending; the last component says that the goroutine closes [dst].
    A read of a socket closed locally fails, whatever is pending.  A write goes
    through as far as the receiving peer and its buffers take it and blocks
    there; it fails when the socket is closed locally, and may when the peer is
    gone. *)
Inductive copy_step (src dst reset : bool) : direction → direction → bool → Prop :=
| cs_read s chunk rest e d k :
    src = true → chunk ≠ [] →
    copy_step src dst reset (mkDir s (chunk ++ rest) e d Reading k) (mkDir s rest e d (Writing chunk) k) false
| cs_eof s d k :
    src = true → copy_step src dst reset (mkDir s [] true d Reading k) (mkDir s [] true d Copied k) false
| cs_read_fails s p e d k :
    src = false ∨ reset = true →
    copy_step src dst reset (mkDir s p e d Reading k) (mkDir s p e d Copied k) false
| cs_write s p e d chunk k :
    dst = true → takes k chunk = true →
    copy_step src dst reset (mkDir s p e d (Writing chunk) k) (mkDir s p e (d ++ chunk) Reading (after k chunk)) false
| cs_write_part s p e d part rest k :
    dst = true → part ≠ [] → takes k part = true →
    copy_step src dst reset (mkDir s p e d (Writing (part ++ rest)) k)
      (mkDir s p e (d ++ part) (Writing rest) (after k part)) false
| cs_write_fails s p e d chunk k :
    dst = false ∨ k = Gone →
    copy_step src dst reset (mkDir s p e d (Writing chunk) k) (mkDir s p e d Copied k) false
| cs_close s p e d k :
    copy_step src dst reset (mkDir s p e d Copied k) (mkDir s p e d Ended k) true.

Definition gone (k : sink) : bool := match k with Gone => true | _ => false end.

(** The proxy's steps: the goroutine of [wg.Go] copies up and closes the server's
    socket, the other copies down and closes the client's. *)
Inductive proxy_step : proxied → proxied → Prop :=
| ps_up u u' d c s close :
    copy_step c s (gone (d_sink d)) u u' close →
    proxy_step (mkProxied u d c s) (mkProxied u' d c (if close then false else s))
| ps_down u d d' c s close :
    copy_step s c (gone (d_sink u)) d d' close →
    proxy_step (mkProxied u d c s) (mkProxied u d' (if close then false else c) s).

(** A peer, the source of one direction and the receiver of the other: it sends
    more bytes, closes its sending side, starts or stops reading, or closes. *)
Inductive peer_step : direction → direction → direction → direction → Prop :=
| peer_sends s p d pc k i more :
    gone (d_sink i) = false →
    peer_step (mkDir s p false d pc k) i (mkDir (s ++ more) (p ++ more) false d pc k) i
| peer_half_closes s p d pc k i :
    peer_step (mkDir s p false d pc k) i (mkDir s p true d pc k) i
| peer_reads o s p e d pc k k' :
    gone k = false → gone k' = false →
    peer_step o (mkDir s p e d pc k) o (mkDir s p e d pc k')
| peer_closes s p e d pc k s' p' e' d' pc' k' :
    peer_step (mkDir s p e d pc k) (mkDir s' p' e' d' pc' k')
              (mkDir s p true d pc k) (mkDir s' p' e' d' pc' Gone).

Inductive conn_step : proxied → proxied → Prop :=
| conn_proxy x y : proxy_step x y → conn_step x y
| conn_client u u' d d' c s : peer_step u d u' d' → conn_step (mkProxied u d c s) (mkProxied u' d' c s)
| conn_backend u u' d d' c s : peer_step d u d' u' → conn_step (mkProxied u d c s) (mkProxied u' d' c s).

(** What the goroutines of the connection still count for in [p.wg]. *)
Definition pending_routines (x : proxied) : nat :=
  match d_pc (up x) with Ended => 0 | _ => 1 end + match d_pc (down x) with Ended => 0 | _ => 1 end.

(** ** The bytes are the bytes *)

Definition in_hand (pc : copier) : list byte := match pc with Writing chunk => chunk | _ => [] end.

(** While the goroutine copies, nothing is lost; afterwards what was delivered
    is a beginning of what was sent. *)
Definition dir_ok (x : direction) : Prop :=
  match d_pc x with
  | Reading | Writing _ => d_sent x = d_delivered x ++ in_hand (d_pc x) ++ d_pending x
  | _ => d_delivered x `prefix_of` d_sent x
  end.

Lemma copy_step_ok src dst pe x y close : dir_ok x → copy_step src dst pe x y close → dir_ok y.
Proof.
  unfold dir_ok. intros Hx Hst. destruct Hst; cbn [d_pc d_sent d_delivered d_pending in_hand app] in *.
  - done.
  - rewrite Hx. by rewrite app_nil_r.
  - rewrite Hx. by eexists.
  - by rewrite Hx, <-(assoc_L (++)).
  - by rewrite Hx, <-!(assoc_L (++)).
  - rewrite Hx. by eexists.
  - done.
Qed.

Lemma peer_step_ok o i o' i' : dir_ok o → dir_ok i → peer_step o i o' i' → dir_ok o' ∧ dir_ok i'.
Proof.
  unfold dir_ok. intros Ho Hi Hst. destruct Hst as [s p d pc k i more _| | |]; [|done..].
  split; [|done]. cbn [d_pc d_sent d_delivered d_pending] in *. destruct pc; cbn [in_hand app] in *.
  - by rewrite Ho, <-!(assoc_L (++)).
  - by rewrite Ho, <-!(assoc_L (++)).
  - by apply prefix_app_r.
  - by apply prefix_app_r.
Qed.

(** The sockets and the goroutines: a socket is closed exactly when the
    goroutine that writes to it has ended. *)
Record conn_ok (x : proxied) : Prop := {
  co_up : dir_ok (up x);
  co_down : dir_ok (down x);
  co_server : server_open x = true ↔ d_pc (up x) ≠ Ended;
  co_client : client_open x = true ↔ d_pc (down x) ≠ Ended
}.

(** No peer stops reading before it closes. *)
Definition flowing (x : direction) : Prop := ∀ room, d_sink x ≠ Stalled room.

Lemma copy_step_pc src dst pe x y close :
  copy_step src dst pe x y close →
  d_pc x ≠ Ended ∧ (d_pc y = Ended ↔ close = true) ∧ d_eof y = d_eof x ∧ (flowing x → flowing y).
Proof. unfold flowing. destruct 1; cbn; split_and!; try done; destruct k; naive_solver. Qed.

Lemma peer_step_pc o i o' i' : peer_step o i o' i' → d_pc o' = d_pc o ∧ d_pc i' = d_pc i.
Proof. by destruct 1. Qed.

Lemma conn_ok_start : conn_ok proxied_start.
Proof. by split. Qed.

Lemma conn_ok_step x y : conn_ok x → conn_step x y → conn_ok y.
Proof.
  intros [Hu Hd Hs Hc] Hst.
  destruct Hst as [? ? [u u' d c s close Hcs|u d d' c s close Hcs]|?????? Hp|?????? Hp];
    cbn [up down server_open client_open] in *;
    try (pose proof (copy_step_pc _ _ _ _ _ _ Hcs) as (H1 & H2 & _); eapply copy_step_ok in Hcs; [|done];
         split; cbn [up down server_open client_open]; try done; destruct close; naive_solver);
    pose proof (peer_step_pc _ _ _ _ Hp) as [E1 E2]; eapply peer_step_ok in Hp as [? ?]; try done;
    split; cbn [up down server_open client_open]; rewrite ?E1, ?E2; done.
Qed.

Lemma conn_ok_reachable x : rtc conn_step proxied_start x → conn_ok x.
Proof.
  intros Hx. refine (rtc_ind_r conn_ok _ conn_ok_start _ x Hx). intros ? ? _ ? ?. by eapply conn_ok_step.
Qed.

(** ** A connection comes to its end *)

Definition closing (x : proxied) : Prop := d_eof (up x) = true ∨ d_eof (down x) = true.

(** Each peer reads what it is sent, or is gone. *)
Definition unstalled (x : proxied) : Prop := flowing (up x) ∧ flowing (down x).

Definition copy_work (x : direction) : nat :=
  4 * length (d_pending x) +
  match d_pc x with Reading => 3 | Writing chunk => 4 + 2 * length chunk | Copied => 2 | Ended => 1 end.

Definition conn_work (x : proxied) : nat := copy_work (up x) + copy_work (down x).

Lemma copy_step_work src dst pe x y close : copy_step src dst pe x y close → copy_work y < copy_work x.
Proof.
  destruct 1; unfold copy_work; cbn [d_pending d_pc]; rewrite ?length_app; try lia.
  - destruct chunk; [done|]. cbn [length]. lia.
  - destruct part; [done|]. cbn [length]. lia.
Qed.

Lemma proxy_step_work x y : proxy_step x y → conn_work y < conn_work x.
Proof. destruct 1 as [?????? Hst|?????? Hst]; apply copy_step_work in Hst; unfold conn_work; cbn [up down]; lia. Qed.

Lemma proxy_step_closing x y :
  closing x ∧ unstalled x → proxy_step x y → closing y ∧ unstalled y.
Proof.
  unfold closing, unstalled. destruct 2 as [?????? Hst|?????? Hst];
    apply copy_step_pc in Hst as (_ & _ & He & Hf); cbn [up down] in *; rewrite He; naive_solver.
Qed.

(** A goroutine that cannot move has ended, or waits for its peer. *)
Lemma copier_moves src dst pe x :
  flowing x →
  d_pc x = Ended ∨ (src = true ∧ d_eof x = false) ∨ ∃ y close, copy_step src dst pe x y close.
Proof.
  destruct x as [s p e d [] k]; intros Hf; [| | |by left].
  - destruct src.
    + destruct p as [|b p]; [destruct e|].
      * right; right. do 2 eexists. by apply cs_eof.
      * right; left. done.
      * right; right. do 2 eexists. by apply (cs_read _ _ _ s [b] p e d).
    + right; right. do 2 eexists. apply cs_read_fails. by left.
  - right; right. destruct dst.
    + do 2 eexists. apply cs_write; [done|]. destruct k; [done| |done]. by destruct (Hf room).
    + do 2 eexists. apply cs_write_fails. by left.
  - right; right. do 2 eexists. apply cs_close.
Qed.

Lemma conn_moves x :
  conn_ok x → closing x ∧ unstalled x →
  (pending_routines x = 0 ∧ client_open x = false ∧ server_open x = false) ∨ ∃ y, proxy_step x y.
Proof.
  intros [_ _ Hs Hc] [Hcl [Hfu Hfd]]. destruct x as [u d c s]. unfold closing, pending_routines in *.
  cbn [up down client_open server_open] in *.
  destruct (copier_moves c s (gone (d_sink d)) u Hfu) as [Eu|[[Ec Eu]|(y & close & H)]];
    [| |right; eexists; by eapply ps_up];
    (destruct (copier_moves s c (gone (d_sink u)) d Hfd) as [Ed|[[Es Ed]|(y & close & H)]];
    [| |right; eexists; by eapply ps_down]).
  - left. rewrite Eu, Ed. destruct s, c; naive_solver.
  - naive_solver.
  - naive_solver.
  - rewrite Eu, Ed in Hcl. naive_solver.
Qed.

(** ** All the connections of the proxy *)

(** The proxy's goroutines interleave. *)
Inductive proxies_step : list proxied → list proxied → Prop :=
| proxies_one pre x y post : proxy_step x y → proxies_step (pre ++ x :: post) (pre ++ y :: post).

(** [wg.Wait] returns. *)
Definition all_ended (xs : list proxied) : Prop := Forall (λ x, pending_routines x = 0) xs.

Definition conns_ok (xs : list proxied) : Prop := Forall (λ x, conn_ok x ∧ closing x ∧ unstalled x) xs.

Lemma conns_ok_step xs ys : conns_ok xs → proxies_step xs ys →
  conns_ok ys ∧ sum_list_with conn_work ys < sum_list_with conn_work xs.
Proof.
  unfold conns_ok. intros Hxs Hall. destruct Hall as [pre x y post Hst].
  apply Forall_app in Hxs as [Hpre [[Hok Hcl] Hpost]%Forall_cons]. split.
  - apply Forall_app. split; [done|]. constructor; [|done]. split; [|by eapply proxy_step_closing].
    eapply conn_ok_step; [done|by apply conn_proxy].
  - rewrite !sum_list_with_app. cbn [sum_list_with]. apply proxy_step_work in Hst. lia.
Qed.

Lemma conns_move xs : conns_ok xs → all_ended xs ∨ ∃ ys, proxies_step xs ys.
Proof.
  unfold all_ended. induction 1 as [|x xs [Hok Hcl] Hxs IH]; [by left|].
  destruct (conn_moves x Hok Hcl) as [(Hx & _)|(y & Hst)].
  - destruct IH as [IH|(ys & Hst)]; [left; by constructor|].
    right. destruct Hst as [pre z z' post Hst]. eexists. by apply (proxies_one (x :: pre)).
  - right. eexists. by apply (proxies_one [] x y xs).
Qed.

(** *** A peer that does not read *)

(** The client has sent more than the buffers to the backend take, and is gone; the
    backend neither reads nor closes.  The goroutine copying up is at its write,
    the other one at its read. *)
Definition stuck (sent blocked : list byte) : proxied :=
  mkProxied (mkDir (sent ++ blocked) [] true sent (Writing blocked) (Stalled 0))
            (mkDir [] [] false [] Reading Gone) true true.

Lemma stuck_reachable sent blocked :
  sent ≠ [] → blocked ≠ [] → rtc conn_step proxied_start (stuck sent blocked).
Proof.
  intros Hs Hb.
  eapply rtc_l; [by eapply conn_backend, (peer_reads _ _ _ _ _ _ Taking (Stalled (length sent)))|].
  eapply rtc_l; [by eapply conn_client, (peer_sends _ _ _ _ _ _ (sent ++ blocked))|]. cbn.
  eapply rtc_l.
  { eapply conn_proxy, ps_up. rewrite <-(app_nil_r (sent ++ blocked)) at 2.
    apply cs_read; [done|by destruct sent]. }
  eapply rtc_l.
  { eapply conn_proxy, ps_up, cs_write_part; [done|done|]. by apply bool_decide_eq_true. }
  eapply rtc_l; [by eapply conn_client, peer_closes|].
  cbn. rewrite Nat.sub_diag. apply rtc_refl.
Qed.

Lemma stuck_stays sent blocked y : blocked ≠ [] → ¬ proxy_step (stuck sent blocked) y.
Proof.
  intros Hb Hst. unfold stuck in Hst. inversion Hst as [?????? Hcs|?????? Hcs]; subst;
    inversion Hcs; subst; unfold takes in *; repeat case_bool_decide; cbn in *;
    destruct_or?; try done; simplify_eq/=;
    repeat match goal with
    | H : length ?l ≤ 0 |- _ => apply Nat.le_0_r, nil_length_inv in H; simplify_eq/=
    | H : _ ++ _ = [] |- _ => apply app_nil in H as [??]; simplify_eq/=
    end; done.
Qed.

(** C33: the proxy relays faithfully, and [stop] returns when no peer stalls.
    Whatever the peers of a connection send and in whatever order its two
    goroutines run, what was delivered to a peer is at any time a beginning of
    what the other one sent.  Once of every connection one side has closed, and
    each peer reads what it is sent or is gone, the goroutines of all connections
    end, in every interleaving, so that the wait of [stop] is over.  The
    condition is needed: when a client has sent more than the buffers take and
    has gone, and its backend neither reads nor closes, no goroutine of the
    connection can move, and [stop] waits for both. *)
Theorem proxy_relays_and_stops :
  (∀ x, rtc conn_step proxied_start x →
     d_delivered (up x) `prefix_of` d_sent (up x) ∧ d_delivered (down x) `prefix_of` d_sent (down x)) ∧
  (∀ xs, Forall (λ x, rtc conn_step proxied_start x ∧ closing x ∧ unstalled x) xs →
    eventually proxies_step all_ended xs) ∧
  (∀ sent blocked, sent ≠ [] → blocked ≠ [] →
    ∃ x, rtc conn_step proxied_start x ∧
      d_sent (up x) = sent ++ blocked ∧ d_delivered (up x) = sent ∧
      d_eof (up x) = true ∧ d_sink (down x) = Gone ∧ d_sink (up x) = Stalled 0 ∧
      pending_routines x = 2 ∧ ∀ y, ¬ proxy_step x y).
Proof.
  split_and!.
  - intros x [Hu Hd _ _]%conn_ok_reachable.
    assert (∀ y, dir_ok y → d_delivered y `prefix_of` d_sent y) as Hp; [|by split; apply Hp].
    intros y. unfold dir_ok. destruct (d_pc y); [intros ->; by eexists|intros ->; by eexists|done|done].
  - intros xs Hxs. apply (eventually_measure _ conns_ok _ (sum_list_with conn_work)).
    + apply conns_move.
    + apply conns_ok_step.
    + eapply Forall_impl; [done|]. intros x [Hx Hcl]. split; [by apply conn_ok_reachable|done].
  - intros sent blocked Hs Hb. exists (stuck sent blocked). split; [by apply stuck_reachable|].
    do 6 (split; [done|]). intros y. by apply stuck_stays.
Qed.

(** A closing side takes both down: a client that closes its sending side while
    the backend's answer is on its way may not get it. *)
Lemma half_close_loses_answer b :
  ∃ x, rtc conn_step proxied_start x ∧ pending_routines x = 0 ∧
    d_eof (down x) = false ∧ d_sent (down x) = [b] ∧ d_delivered (down x) = [] ∧
    d_sink (down x) = Taking.
Proof.
  exists (mkProxied (mkDir [] [] true [] Ended Taking) (mkDir [b] [b] false [] Ended Taking) false false).
  split; [|done].
  eapply rtc_l; [eapply conn_client, peer_half_closes|].
  eapply rtc_l; [by eapply conn_backend, (peer_sends [] [] [] Reading Taking _ [b])|]. cbn.
  eapply rtc_l; [eapply conn_proxy, ps_up, cs_eof; done|].
  eapply rtc_l; [eapply conn_proxy, ps_up, cs_close|].
  eapply rtc_l; [eapply conn_proxy, ps_down, cs_read_fails; by left|].
  eapply rtc_l; [eapply conn_proxy, ps_down, cs_close|]. apply rtc_refl.
Qed.

(** A connection whose client has sent a byte and closed, next to one whose
    backend has closed its sending side; and one that is stuck. *)
Lemma proxy_relays_and_stops_witness :
  eventually proxies_step all_ended
    [mkProxied (mkDir [Byte.x01] [Byte.x01] true [] Reading Taking) (mkDir [] [] false [] Reading Gone) true true;
     mkProxied fresh (mkDir [] [] true [] Reading Taking) true true] ∧
  ∃ x, rtc conn_step proxied_start x ∧ d_sent (up x) = [Byte.x01; Byte.x02] ∧
    d_delivered (up x) = [Byte.x01] ∧ ∀ y, ¬ proxy_step x y.
Proof.
  destruct proxy_relays_and_stops as (_ & Hends & Hstuck). split.
  - apply Hends. constructor; [|constructor; [|constructor]].
    + split; [|by split; [left|]].
      eapply rtc_l; [by eapply conn_client, (peer_sends [] [] [] Reading Taking _ [Byte.x01])|].
      eapply rtc_l; [eapply conn_client, peer_closes|]. apply rtc_refl.
    + split; [|by split; [right|]]. eapply rtc_l; [eapply conn_backend, peer_half_closes|]. apply rtc_refl.
  - destruct (Hstuck [Byte.x01] [Byte.x02]) as (x & Hx & Hs & Hd & _ & _ & _ & _ & Hno); [done..|].
    exists x. done.
Defined.
