(* ===== verification/Helpers.v ===== *)
(** Smaller helpers of the test harness: version histories, replication messages
    and contexts ([conformance-tests/testcore/utils.go], [context.go]), the flags
    ([flag.go]), the settings every cluster starts with
    ([dynamic_config_overrides.go]), the clusters of the NDC tests
    ([conformance-tests/ndc/cluster_config.go]), and the source root and temporary
    files ([conformance-tests/testutils]). *)

From S2P Require Import Prelude GoStrings GoNet Json Checkpoint Mappings.
From S2P Require Import ClusterOptions TestEnv Onebox TestCluster.
From stdpp Require Import options.

(** * Version histories *)

(** [versionhistory]: histories and their items, an event id and a version each.
    Adding changes the history it is given. *)
Class VersionHistories := {
  VersionHistory : Type;
  NewVersionHistory : VersionHistory;
  Items : VersionHistory → list (Z * Z);
  AddOrUpdateVersionHistoryItem : Z * Z → GoM VersionHistory unit
}.

(** An item may not go back; one of the last version moves that version's last
    event, a higher version is appended. *)
Class VersionHistoryLaws `{VersionHistories} := {
  new_Items : Items NewVersionHistory = [];
  add_first it h : Items h = [] →
    ∃ h', AddOrUpdateVersionHistoryItem it h = (h', Ok tt) ∧ Items h' = [it];
  add_back it h l old : Items h = l ++ [old] → (it.2 < old.2 ∨ it.1 ≤ old.1)%Z →
    ∃ h' err, AddOrUpdateVersionHistoryItem it h = (h', Err err);
  add_same it h l old : Items h = l ++ [old] → it.2 = old.2 → (old.1 < it.1)%Z →
    ∃ h', AddOrUpdateVersionHistoryItem it h = (h', Ok tt) ∧ Items h' = l ++ [it];
  add_next it h l old : Items h = l ++ [old] → (old.2 < it.2)%Z → (old.1 < it.1)%Z →
    ∃ h', AddOrUpdateVersionHistoryItem it h = (h', Ok tt) ∧ Items h' = l ++ [old; it]
}.

Section version_history.
Context `{VersionHistories}.

Fixpoint add_events (events : list (Z * Z)) : GoM VersionHistory unit :=
  match events with
  | [] => mret tt
  | e :: events => AddOrUpdateVersionHistoryItem e;; add_events events
  end.

Fixpoint add_batches (eventBatches : list (list (Z * Z))) : GoM VersionHistory unit :=
  match eventBatches with
  | [] => mret tt
  | batch :: eventBatches => add_events batch;; add_batches eventBatches
  end.

(** The history that was passed is itself extended, also when an event is
    refused; [nil] stands for a new one.  A batch is the ids and versions of its
    events. *)
Definition EventBatchesToVersionHistory (versionHistory : option VersionHistory)
    (eventBatches : list (list (Z * Z))) : VersionHistory * res VersionHistory :=
  (add_batches eventBatches;; gets id) (default NewVersionHistory versionHistory).

(** Event ids increase and versions do not decrease. *)
Fixpoint in_order (events : list (Z * Z)) : bool :=
  match events with
  | a :: (b :: _) as rest => bool_decide (a.1 < b.1 ∧ a.2 ≤ b.2)%Z && in_order rest
  | _ => true
  end.

(** The last event of each version. *)
Fixpoint version_items (events : list (Z * Z)) : list (Z * Z) :=
  match events with
  | a :: (b :: _) as rest => if decide (a.2 = b.2) then version_items rest else a :: version_items rest
  | l => l
  end.

Context {VL : VersionHistoryLaws}.

Lemma add_events_from events h l old :
  Items h = l ++ [old] →
  (in_order (old :: events) = true ∧
   ∃ h', add_events events h = (h', Ok tt) ∧ Items h' = l ++ version_items (old :: events)) ∨
  (in_order (old :: events) = false ∧ ∃ h' err, add_events events h = (h', Err err)).
Proof using VL.
  revert h l old. induction events as [|e events IH]; intros h l old Hh; [left; split; [done|by eexists]|].
  cbn [add_events]. change (in_order (old :: e :: events))
    with (bool_decide (old.1 < e.1 ∧ old.2 ≤ e.2)%Z && in_order (e :: events)).
  destruct (decide (old.1 < e.1 ∧ old.2 ≤ e.2)%Z) as [[H1 H2]|Hno].
  - rewrite bool_decide_true by done. cbn [andb].
    assert (∃ h1 l1, AddOrUpdateVersionHistoryItem e h = (h1, Ok tt) ∧ Items h1 = l1 ++ [e] ∧
      l ++ version_items (old :: e :: events) = l1 ++ version_items (e :: events)) as (h1 & l1 & E & Hh1 & Hv).
    { cbn [version_items]. destruct (decide (old.2 = e.2)) as [E2|E2].
      - destruct (add_same e h l old Hh) as (h1 & E & Hh1); [done|done|]. by exists h1, l.
      - destruct (add_next e h l old Hh) as (h1 & E & Hh1); [lia|done|]. exists h1, (l ++ [old]).
        by rewrite Hh1, <-!(assoc_L (++)). }
    rewrite (go_bind_ok _ _ _ _ _ E), Hv. by apply IH.
  - right. rewrite bool_decide_false by done. split; [done|].
    destruct (add_back e h l old Hh) as (h' & err & E); [lia|]. exists h', err.
    unfold mbind, go_bind. by rewrite E.
Qed.

Lemma add_events_app l1 l2 h : add_events (l1 ++ l2) h = (add_events l1;; add_events l2) h.
Proof.
  revert h. induction l1 as [|e l1 IH]; intros h; [done|]. rewrite <-app_comm_cons. cbn [add_events].
  rewrite go_bind_assoc. unfold mbind, go_bind.
  destruct (AddOrUpdateVersionHistoryItem e h) as [? []]; try done; apply IH.
Qed.

Lemma add_batches_concat batches h : add_batches batches h = add_events (concat batches) h.
Proof.
  revert h. induction batches as [|b batches IH]; intros h; [done|]. cbn [add_batches concat].
  rewrite add_events_app. unfold mbind, go_bind. destruct (add_events b h) as [? []]; try done; apply IH.
Qed.

(** The version history of batches of events.  From no history, batches in order
    (increasing event ids, versions that do not decrease, across batches too) give
    the last event of each version and its version, in order; any other batches
    give an error. *)
Theorem batches_version_history batches :
  if in_order (concat batches)
  then ∃ h, (EventBatchesToVersionHistory None batches).2 = Ok h ∧ Items h = version_items (concat batches)
  else ∃ err, (EventBatchesToVersionHistory None batches).2 = Err err.
Proof using VL.
  unfold EventBatchesToVersionHistory. cbn [default]. unfold mbind, go_bind. rewrite add_batches_concat.
  destruct (concat batches) as [|e events]; [exists NewVersionHistory; by rewrite new_Items|].
  cbn [add_events]. destruct (add_first e NewVersionHistory new_Items) as (h1 & E & Hh1).
  rewrite (go_bind_ok _ _ _ _ _ E).
  destruct (add_events_from events h1 [] e Hh1) as [(-> & h' & -> & Hi)|(-> & h' & err & ->)].
  - by exists h'.
  - by exists err.
Qed.
End version_history.

(** * The clusters of the NDC tests *)

(** The cluster with index [i] of the arguments. *)
Definition ndc_info (i : nat) : cluster_info :=
  mkClusterInfo true false (Z.of_nat (i + 1)) ("nowhere" +:+ Itoa (i + 1) +:+ ":7134") "" 0 "".

(** The loop over the names, from index [i]; a later name overwrites. *)
Fixpoint ndc_information (i : nat) (names : list string) (m : gmap string cluster_info)
    : gmap string cluster_info :=
  match names with
  | [] => m
  | cn :: names => ndc_information (S i) names (<[cn := ndc_info i]> m)
  end.

(** The fields that are set, the others being zero. *)
Record ndc_config := mkNdc { ndc_ClusterMetadata : cluster_config; ndc_NumHistoryShards : Z }.

Definition clustersConfig (clusterNames : list string) : res (list ndc_config) :=
  if decide (length clusterNames < 2) then Panic "at least 2 clusters are needed for ndc tests"
  else
    let clusterInformation := ndc_information 0 clusterNames ∅ in
    Ok ((λ cn, mkNdc (mkClusterConfig true 10 (default "" (head clusterNames)) cn clusterInformation) 1)
          <$> clusterNames).

Lemma ndc_information_other i names m cn :
  cn ∉ names → ndc_information i names m !! cn = m !! cn.
Proof.
  revert i m. induction names as [|n names IH]; intros i m Hn; [done|].
  cbn. rewrite IH by set_solver. apply lookup_insert_ne. set_solver.
Qed.

Lemma ndc_information_lookup i names m j cn :
  NoDup names → names !! j = Some cn → ndc_information i names m !! cn = Some (ndc_info (i + j)).
Proof.
  intros Hnd. revert i m j. induction Hnd as [|n names Hn Hnd IH]; intros i m j Hj; [done|].
  cbn. destruct j as [|j]; cbn in Hj.
  - injection Hj as ->. rewrite ndc_information_other by done. by rewrite lookup_insert_eq, Nat.add_0_r.
  - rewrite (IH (S i) _ j Hj). by rewrite Nat.add_succ_comm.
Qed.

(** The clusters of an NDC test.  Fewer than two names panic.  Otherwise there is
    a configuration for every name, with that name as its own, the first name as
    the master and one table of all clusters; if the names differ and there are
    at most ten of them, failover versions tell the clusters apart: no version of
    one cluster, its initial version plus a multiple of the increment, is a
    version of another. *)
Theorem ndc_clusters names :
  match clustersConfig names with
  | Ok cfgs =>
      2 ≤ length names ∧ length cfgs = length names ∧
      (∀ i c, cfgs !! i = Some c →
         names !! i = Some (CurrentClusterName (ndc_ClusterMetadata c)) ∧
         head names = Some (MasterClusterName (ndc_ClusterMetadata c)) ∧
         ClusterInformation (ndc_ClusterMetadata c) = ndc_information 0 names ∅) ∧
      (NoDup names → length names ≤ 10 →
       ∀ c1 c2 i1 i2 (k1 k2 : Z), c1 ∈ cfgs → c2 ∈ cfgs →
         let name c := CurrentClusterName (ndc_ClusterMetadata c) in
         ClusterInformation (ndc_ClusterMetadata c1) !! name c1 = Some i1 →
         ClusterInformation (ndc_ClusterMetadata c1) !! name c2 = Some i2 →
         let increment := FailoverVersionIncrement (ndc_ClusterMetadata c1) in
         (ci_InitialFailoverVersion i1 + k1 * increment = ci_InitialFailoverVersion i2 + k2 * increment)%Z →
         c1 = c2)
  | Panic _ => length names < 2
  | _ => False
  end.
Proof.
  unfold clustersConfig. case_decide as Hlen; [done|]. split; [lia|]. rewrite length_fmap. split; [done|]. split.
  - intros i c. rewrite list_lookup_fmap. intros (cn & Hcn & ->)%fmap_Some. cbn. split; [done|]. split; [|done].
    by destruct names.
  - intros Hnd Hle c1 c2 i1 i2 k1 k2 Hc1 Hc2. cbn zeta.
    apply list_elem_of_fmap in Hc1 as (cn1 & -> & [j1 H1]%list_elem_of_lookup).
    apply list_elem_of_fmap in Hc2 as (cn2 & -> & [j2 H2]%list_elem_of_lookup).
    cbn [ndc_ClusterMetadata ClusterInformation CurrentClusterName FailoverVersionIncrement].
    rewrite (ndc_information_lookup 0 names ∅ j1 cn1 Hnd H1), (ndc_information_lookup 0 names ∅ j2 cn2 Hnd H2).
    intros [= <-] [= <-]. cbn [ci_InitialFailoverVersion ndc_info Nat.add]. intros E.
    apply lookup_lt_Some in H1 as ?. apply lookup_lt_Some in H2 as ?.
    assert (j1 = j2) as -> by lia. congruence.
Qed.

(** With an eleventh cluster they no longer do. *)
Example eleven_clusters_collide :
  (ci_InitialFailoverVersion (ndc_info 0) + 1 * 10 = ci_InitialFailoverVersion (ndc_info 10))%Z.
Proof. reflexivity. Qed.

(** * Flags *)

Record cliFlags := mkFlags {
  persistenceType : string; persistenceDriver : string; enableFaultInjection : string
}.

Definition default_cliFlags : cliFlags := mkFlags "sql" "sqlite" "".

(** The names of the SQL plugins are the server's. *)
Definition UseSQLVisibility (plugins : list string) (f : cliFlags) : bool :=
  bool_decide (persistenceDriver f ∈ plugins).

Definition UseCassandraPersistence (StoreTypeNoSQL : string) (f : cliFlags) : bool :=
  bool_decide (persistenceType f = StoreTypeNoSQL) && bool_decide (persistenceDriver f = "cassandra").

(** A cluster over Cassandra searches Elasticsearch. *)
Lemma cassandra_needs_elasticsearch plugins nosql f :
  "cassandra" ∉ plugins → UseCassandraPersistence nosql f = true → UseSQLVisibility plugins f = false.
Proof.
  unfold UseCassandraPersistence, UseSQLVisibility. intros Hn [_ ->%bool_decide_eq_true]%andb_true_iff.
  by apply bool_decide_eq_false.
Qed.

(** * Replication messages and contexts *)

(** A proto message: [None] is a nil message. *)
Inductive stream_message (M : Type) :=
| HistoryResponse (messages : option M)
| AdminResponse (messages : option M)
| OtherMessage.
Arguments HistoryResponse {_} _.
Arguments AdminResponse {_} _.
Arguments OtherMessage {_}.

Definition ExtractReplicationMessages {M} (msg : option (stream_message M)) : option M :=
  match msg with
  | Some (HistoryResponse messages) | Some (AdminResponse messages) => messages
  | _ => None
  end.

(** Contexts: the server's constructors get the timeout. *)
Definition NewContext {Ctx} (fromParent : Ctx → Z → Ctx) (standalone : Z → Ctx) (defaultTestTimeout : Z)
    (parent : list (option Ctx)) : Ctx :=
  match parent with
  | Some ctx :: _ => fromParent ctx defaultTestTimeout
  | _ => standalone defaultTestTimeout
  end.

(** * The source root and temporary files *)

(** Options replace how the environment is read. *)
Definition GetRepoRootDirectory (fileName : string) (opts : list (string → string)) (getenv : string → string)
    : string :=
  let p_Getenv := foldl (λ _ getenv, getenv) getenv opts in
  let custom := p_Getenv "TEMPORAL_ROOT" in
  if decide (custom ≠ "") then custom else filepath_Dir (filepath_Dir (filepath_Dir fileName)).

Theorem repo_root root opts getenv :
  root ≠ "" →
  GetRepoRootDirectory (root +:+ "/conformance-tests/testutils/source_root.go") opts getenv =
    let custom := default getenv (last opts) "TEMPORAL_ROOT" in
    if decide (custom ≠ "") then custom else root.
Proof.
  intros Hr. unfold GetRepoRootDirectory.
  assert (foldl (λ _ getenv, getenv) getenv opts = default getenv (last opts)) as ->.
  { induction opts as [|o opts IH] using rev_ind; [done|]. by rewrite foldl_app, last_snoc. }
  cbn zeta. case_decide; [done|].
  change (root +:+ _) with (root +:+ ("/conformance-tests/testutils" +:+ "/" +:+ "source_root.go")).
  rewrite <-str_app_assoc, filepath_Dir_join; [|by destruct root|set_solver].
  change (root +:+ _) with (root +:+ ("/conformance-tests" +:+ "/" +:+ "testutils")).
  rewrite <-str_app_assoc, filepath_Dir_join; [|by destruct root|set_solver].
  apply (filepath_Dir_join root "conformance-tests"); [done|set_solver].
Qed.

(** What a test does with temporary files; the names are those [os] picks. *)
Inductive temp_op := TCreateTemp (name : string) | TMkdirTemp (name : string) | TWrite (path : string).

(** Files and directories, the files the test process has open, and the test's
    cleanups, last first: [os.Remove] or, for a directory, [os.RemoveAll]. *)
Record temp_world := mkTemp {
  tw_files : gset string; tw_open : gset string; tw_cleanups : list (bool * string)
}.

Definition CreateTemp (name : string) (w : temp_world) : temp_world :=
  mkTemp ({[name]} ∪ tw_files w) ({[name]} ∪ tw_open w) ((false, name) :: tw_cleanups w).

Definition MkdirTemp (name : string) (w : temp_world) : temp_world :=
  mkTemp ({[name]} ∪ tw_files w) (tw_open w) ((true, name) :: tw_cleanups w).

Definition temp_do (o : temp_op) (w : temp_world) : temp_world :=
  match o with
  | TCreateTemp name => CreateTemp name w
  | TMkdirTemp name => MkdirTemp name w
  | TWrite path => mkTemp ({[path]} ∪ tw_files w) (tw_open w) (tw_cleanups w)
  end.

(** A path a cleanup removes. *)
Definition removed_by (c : bool * string) (path : string) : bool :=
  bool_decide (path = c.2) || (c.1 && HasPrefix path (c.2 +:+ "/")).

Definition temp_cleanup (c : bool * string) (w : temp_world) : temp_world :=
  mkTemp (filter (λ p, removed_by c p = false) (tw_files w)) (tw_open w) (tw_cleanups w).

Definition temp_end (w : temp_world) : temp_world :=
  let w' := foldl (λ w c, temp_cleanup c w) w (tw_cleanups w) in mkTemp (tw_files w') (tw_open w') [].

Lemma temp_cleanups_files cs w p :
  p ∈ tw_files (foldl (λ w c, temp_cleanup c w) w cs) ↔
  p ∈ tw_files w ∧ ∀ c, c ∈ cs → removed_by c p = false.
Proof.
  revert w. induction cs as [|c cs IH]; intros w; [set_solver|].
  cbn [foldl]. rewrite IH. cbn [temp_cleanup tw_files]. rewrite elem_of_filter. set_solver.
Qed.

Lemma temp_cleanups_open cs w : tw_open (foldl (λ w c, temp_cleanup c w) w cs) = tw_open w.
Proof. revert w. induction cs as [|c cs IH]; intros w; [done|]. cbn. by rewrite IH. Qed.

Lemma temp_ops_cleanups ops w c :
  c ∈ tw_cleanups (foldl (λ w o, temp_do o w) w ops) ↔
  c ∈ tw_cleanups w ∨ (c.1 = false ∧ TCreateTemp c.2 ∈ ops) ∨ (c.1 = true ∧ TMkdirTemp c.2 ∈ ops).
Proof.
  revert w. induction ops as [|o ops IH]; intros w; [set_solver|].
  cbn [foldl]. rewrite IH. destruct c as [[] n], o; cbn; set_solver.
Qed.

Lemma temp_ops_open ops w n :
  n ∈ tw_open (foldl (λ w o, temp_do o w) w ops) ↔ n ∈ tw_open w ∨ TCreateTemp n ∈ ops.
Proof.
  revert w. induction ops as [|o ops IH]; intros w; [set_solver|].
  cbn [foldl]. rewrite IH. destruct o; cbn; set_solver.
Qed.

(** Temporary files are removed, not closed.  Whatever a test creates and writes,
    its cleanups remove exactly the temporary files and the temporary directories
    with all that is below them; but every file [CreateTemp] returned is still
    open afterwards. *)
Theorem temp_removed_not_closed ops files :
  let w := foldl (λ w o, temp_do o w) (mkTemp files ∅ []) ops in
  (∀ p, p ∈ tw_files (temp_end w) ↔
     p ∈ tw_files w ∧ TCreateTemp p ∉ ops ∧
     ∀ d, TMkdirTemp d ∈ ops → p ≠ d ∧ HasPrefix p (d +:+ "/") = false) ∧
  (∀ n, TCreateTemp n ∈ ops → n ∈ tw_open (temp_end w) ∧ n ∉ tw_files (temp_end w)).
Proof.
  cbn zeta. set (w := foldl _ _ ops).
  assert (∀ p, p ∈ tw_files (temp_end w) ↔
     p ∈ tw_files w ∧ TCreateTemp p ∉ ops ∧
     ∀ d, TMkdirTemp d ∈ ops → p ≠ d ∧ HasPrefix p (d +:+ "/") = false) as Hfiles.
  { intros p. unfold temp_end. cbn [tw_files]. rewrite temp_cleanups_files. apply and_iff_compat_l.
    unfold w. setoid_rewrite temp_ops_cleanups. split.
    - intros Hc. split.
      + intros Hin. specialize (Hc (false, p) (or_intror (or_introl (conj eq_refl Hin)))).
        unfold removed_by in Hc. cbn in Hc. by rewrite bool_decide_true in Hc.
      + intros d Hin. specialize (Hc (true, d) (or_intror (or_intror (conj eq_refl Hin)))).
        unfold removed_by in Hc. cbn in Hc. apply orb_false_iff in Hc as [Hc%bool_decide_eq_false Hp]. done.
    - intros [Hf Hd] [[] n] [Hc|[[[=] Hc]|[[=] Hc]]]; try by apply elem_of_nil in Hc.
      + cbn in Hc. destruct (Hd n Hc) as [Hne Hp]. unfold removed_by. cbn.
        by rewrite bool_decide_false, Hp.
      + cbn in Hc. unfold removed_by. cbn. rewrite bool_decide_false; [done|]. by intros ->. }
  split; [exact Hfiles|]. intros n Hn. split.
  - unfold temp_end. cbn [tw_open]. rewrite temp_cleanups_open. unfold w. apply temp_ops_open. by right.
  - rewrite Hfiles. naive_solver.
Qed.

(** * The settings of every cluster *)

Inductive setting := SInt (n : Z) | SBool (b : bool) | SDuration (nanos : Z) | SServer (name : string).

Definition millisecond : Z := 1000000.
Definition second : Z := 1000 * millisecond.
Definition NamespaceCacheRefreshInterval : Z := second.
Definition ClientSuiteLimit : Z := 10.

(** Keys by the names of their settings; the last kind of value is a constant of
    the server. *)
Definition defaultDynamicConfigOverrides : gmap string setting := list_to_map
  [("dynamicconfig.FrontendRPS", SInt 3000);
   ("dynamicconfig.FrontendNamespaceReplicationInducingAPIsRPS", SInt 1000);
   ("dynamicconfig.FrontendMaxNamespaceVisibilityRPSPerInstance", SInt 50);
   ("dynamicconfig.FrontendMaxNamespaceVisibilityBurstRatioPerInstance", SInt 1);
   ("dynamicconfig.ReplicationTaskProcessorErrorRetryMaxAttempts", SInt 1);
   ("dynamicconfig.SecondaryVisibilityWritingMode", SServer "visibility.SecondaryVisibilityWritingModeOff");
   ("dynamicconfig.WorkflowTaskHeartbeatTimeout", SDuration (5 * second));
   ("dynamicconfig.ReplicationTaskFetcherAggregationInterval", SDuration (200 * millisecond));
   ("dynamicconfig.ReplicationTaskFetcherErrorRetryWait", SDuration (50 * millisecond));
   ("dynamicconfig.ReplicationTaskProcessorErrorRetryWait", SDuration (1 * millisecond));
   ("dynamicconfig.ClusterMetadataRefreshInterval", SDuration (100 * millisecond));
   ("dynamicconfig.NamespaceCacheRefreshInterval", SDuration NamespaceCacheRefreshInterval);
   ("dynamicconfig.ReplicationEnableUpdateWithNewTaskMerge", SBool true);
   ("dynamicconfig.FrontendMaskInternalErrorDetails", SBool false);
   ("dynamicconfig.HistoryScannerEnabled", SBool false);
   ("dynamicconfig.TaskQueueScannerEnabled", SBool false);
   ("dynamicconfig.ExecutionsScannerEnabled", SBool false);
   ("dynamicconfig.BuildIdScavengerEnabled", SBool false);
   ("dynamicconfig.ForceSearchAttributesCacheRefreshOnRead", SBool true);
   ("dynamicconfig.SendRawHistoryBetweenInternalServices", SBool true);
   ("dynamicconfig.RetentionTimerJitterDuration", SDuration (1 * second));
   ("dynamicconfig.EnableTransitionHistory", SBool true);
   ("dynamicconfig.NumPendingChildExecutionsLimitError", SInt ClientSuiteLimit);
   ("dynamicconfig.NumPendingActivitiesLimitError", SInt ClientSuiteLimit);
   ("dynamicconfig.NumPendingCancelRequestsLimitError", SInt ClientSuiteLimit);
   ("dynamicconfig.NumPendingSignalsLimitError", SInt ClientSuiteLimit);
   ("dynamicconfig.FrontendMaxConcurrentBatchOperationPerNamespace", SInt ClientSuiteLimit);
   ("dynamicconfig.FrontendEnableWorkerVersioningDataAPIs", SBool true);
   ("dynamicconfig.FrontendEnableWorkerVersioningWorkflowAPIs", SBool true);
   ("dynamicconfig.ForceNexusEndpointRefreshOnRead", SBool true);
   ("dynamicconfig.RefreshNexusEndpointsMinWait", SDuration (1 * millisecond));
   ("nexusoperations.RecordCancelRequestCompletionEvents", SBool true);
   ("nexusoperations.UseSystemCallbackURL", SBool true)].

Definition CallbackURLTemplate_keys : string * string :=
  ("nexusoperations.CallbackURLTemplate", "chasmnexus.CallbackURLTemplate").

(** What a new cluster runs with, in the order [newTemporal] sets it: the options
    of its suite win over these settings, except that the callback templates are
    the cluster's own unless the suite gives one; and the caches are refreshed
    every second unless the suite says otherwise. *)
Theorem cluster_settings `{MapRange} {ML : MapRangeLaws} url (suite : gmap string setting) k :
  let started := startup_overrides defaultDynamicConfigOverrides CallbackURLTemplate_keys.1
                   CallbackURLTemplate_keys.2 url suite in
  (∀ v, suite !! k = Some v → in_force k started = Some v) ∧
  (suite !! k = None → k = CallbackURLTemplate_keys.1 ∨ k = CallbackURLTemplate_keys.2 →
     in_force k started = Some url) ∧
  (∀ v, suite !! k = None → defaultDynamicConfigOverrides !! k = Some v → in_force k started = Some v) ∧
  (suite !! "dynamicconfig.NamespaceCacheRefreshInterval" = None →
     in_force "dynamicconfig.NamespaceCacheRefreshInterval" started =
       Some (SDuration NamespaceCacheRefreshInterval)).
Proof.
  cbn zeta. rewrite !startup_precedence. split; [by intros v ->|]. split; [|split].
  - intros -> Hk. by rewrite decide_True.
  - intros v -> Hv. rewrite decide_False; [done|].
    intros [-> | ->]; by vm_compute in Hv.
  - intros ->. by vm_compute.
Qed.
