(* ===== verification/EnvSdk.v ===== *)
(** The SDK of a [TestEnv] ([conformance-tests/testcore/test_env.go]): the client
    and the worker that a test makes on first use, and how they are released;
    and the smaller helpers of a test around them, the channels among them. *)

From S2P Require Import Prelude GoStrings GoNet Murmur Mappings Json Checkpoint.
From S2P Require Import ClusterOptions TestEnv Onebox TestCluster Wiring SuiteLife.
From stdpp Require Import options.

Section env_sdk.
Context {TLS : Type}.

(** ** The lazily created client and worker *)

(** What [t.Cleanup] was given. *)
Inductive sdk_cleanup := CloseClient | StopWorker_.

(** The fields of a [TestEnv] for the SDK ([sync.Once] is whether its function was
    called), the SDK, and the cleanups, the last registered first. *)
Record env_sdk := mkEnvSdk {
  e_sdk : sdk_world (TLS := TLS);
  sdkClientOnce : bool; e_sdkClient : option nat;
  sdkWorkerOnce : bool; e_sdkWorker : option nat;
  e_cleanups : list sdk_cleanup
}.

(** The namespace of a test and the TLS configuration of its cluster. *)
Record env_config := mkEnvConfig { ec_proxyPort : Z; ec_nsName : string; ec_TLS : option TLS }.

Definition env_client_options (c : env_config) : client_options (TLS := TLS) :=
  mkClientOptions (TempuraProxyGRPCAddress (ec_proxyPort c)) (ec_nsName c) (ec_TLS c).

(** [sdkworker.New], which panics for clients it does not accept. *)
Context (New : option nat → option string).

(** The function of the first [sync.Once]; [Fatalf] ends the goroutine, after
    which the function counts as called. *)
Definition make_client (c : env_config) (dial_err : option string) : GoM env_sdk unit := λ s,
  let w := e_sdk s in
  let o := env_client_options c in
  match dial_err with
  | Some err =>
      (mkEnvSdk (mkSdk (open w) (running w) (dialled w ++ [o]) (next_id w))
         true None (sdkWorkerOnce s) (e_sdkWorker s) (e_cleanups s),
       Panic ("Failed to create SDK client: " +:+ err))
  | None =>
      (mkEnvSdk (mkSdk ({[next_id w]} ∪ open w) (running w) (dialled w ++ [o]) (S (next_id w)))
         true (Some (next_id w)) (sdkWorkerOnce s) (e_sdkWorker s) (CloseClient :: e_cleanups s), Ok tt)
  end.

Definition SdkClient (c : env_config) (dial_err : option string) : GoM env_sdk (option nat) :=
  once ← gets sdkClientOnce;
  (if once : bool then mret tt else make_client c dial_err);;
  gets e_sdkClient.

Definition call_worker_once : GoM env_sdk unit :=
  modify (λ s, mkEnvSdk (e_sdk s) (sdkClientOnce s) (e_sdkClient s) true (e_sdkWorker s) (e_cleanups s)).

(** [New] and [Start]: the field is set also when starting fails. *)
Definition start_worker (client : option nat) (start_err : option string) : GoM env_sdk unit := λ s,
  let w := e_sdk s in
  let set running cleanups :=
    mkEnvSdk (mkSdk (open w) running (dialled w) (S (next_id w))) (sdkClientOnce s) (e_sdkClient s)
      (sdkWorkerOnce s) (Some (next_id w)) cleanups in
  match New client with
  | Some msg => (s, Panic msg)
  | None =>
      match start_err with
      | Some err => (set (running w) (e_cleanups s), Panic ("Failed to start SDK worker: " +:+ err))
      | None => (set ({[next_id w]} ∪ running w) (StopWorker_ :: e_cleanups s), Ok tt)
      end
  end.

Definition SdkWorker (c : env_config) (dial_err start_err : option string)
    : GoM env_sdk (option nat) :=
  once ← gets sdkWorkerOnce;
  (if once : bool then mret tt
   else call_worker_once;; client ← SdkClient c dial_err; start_worker client start_err);;
  gets e_sdkWorker.

(** What a test and its helpers call, from any of their goroutines: a [sync.Once]
    makes the others wait for its function. *)
Inductive sdk_op := OpClient (dial_err : option string) | OpWorker (dial_err start_err : option string).

Definition run_op (c : env_config) (s : env_sdk) (op : sdk_op) : env_sdk :=
  match op with
  | OpClient d => (SdkClient c d s).1
  | OpWorker d e => (SdkWorker c d e s).1
  end.

Definition run_ops (c : env_config) (ops : list sdk_op) (s : env_sdk) : env_sdk := foldl (run_op c) s ops.

(** The cleanups read the fields when they run. *)
Definition run_sdk_cleanup (s : env_sdk) : env_sdk :=
  let w := e_sdk s in
  match e_cleanups s with
  | [] => s
  | CloseClient :: cs =>
      mkEnvSdk (mkSdk (remove_opt (e_sdkClient s) (open w)) (running w) (dialled w) (next_id w))
        (sdkClientOnce s) (e_sdkClient s) (sdkWorkerOnce s) (e_sdkWorker s) cs
  | StopWorker_ :: cs =>
      mkEnvSdk (mkSdk (open w) (remove_opt (e_sdkWorker s) (running w)) (dialled w) (next_id w))
        (sdkClientOnce s) (e_sdkClient s) (sdkWorkerOnce s) (e_sdkWorker s) cs
  end.

Fixpoint run_sdk_cleanups (k : nat) (s : env_sdk) : env_sdk :=
  match k with O => s | S k => run_sdk_cleanups k (run_sdk_cleanup s) end.

Definition new_env_sdk : env_sdk := mkEnvSdk (mkSdk ∅ ∅ [] 0) false None false None [].

(** ** The states of a test *)

(** Nothing yet; the client could not be dialled; a client; a client and a
    running worker.  The last two also describe the cleanups underway. *)
Inductive env_phase (c : env_config) : env_sdk → Prop :=
| phase_new n : env_phase c (mkEnvSdk (mkSdk ∅ ∅ [] n) false None false None [])
| phase_failed n wo :
    env_phase c (mkEnvSdk (mkSdk ∅ ∅ [env_client_options c] n) true None wo None [])
| phase_client n k wo worker : (wo = false → worker = None) →
    env_phase c (mkEnvSdk (mkSdk {[k]} ∅ [env_client_options c] n) true (Some k) wo worker [CloseClient])
| phase_worker n k m :
    env_phase c (mkEnvSdk (mkSdk {[k]} {[m]} [env_client_options c] n) true (Some k) true (Some m)
                   [StopWorker_; CloseClient]).

(** The SDK has no worker for a client that is nil. *)
Context (New_nil : New None ≠ None).

Lemma env_phase_op c s op : env_phase c s → env_phase c (run_op c s op).
Proof using New_nil.
  intros Hs. destruct op as [d|d e]; destruct Hs as [n|n wo|n k wo worker Hw|n k m]; cbn [run_op];
    unfold SdkWorker, SdkClient, call_worker_once, make_client, start_worker; go_simpl; cbn.
  all: try (constructor; done).
  all: try destruct wo; try destruct d; cbn; rewrite ?(right_id_L ∅ (∪)); try (constructor; done).
  all: try (rewrite Hw by done).
  all: try match goal with |- context [New ?x] => destruct (New x) eqn:E end;
    cbn; try done; try (constructor; done).
  all: destruct e; cbn; rewrite ?(right_id_L ∅ (∪)); try (constructor; done).
Qed.

Lemma env_phase_ops c ops s : env_phase c s → env_phase c (run_ops c ops s).
Proof using New_nil.
  unfold run_ops. revert s. induction ops as [|op ops IH]; [done|]. intros s Hs.
  by apply IH, env_phase_op.
Qed.

(** A test dials at most one client, through the proxy and for its own namespace;
    whatever it calls and whatever fails, a running worker has its client open, also
    while the cleanups run; and after the cleanups nothing is open or running. *)
Theorem env_sdk_released c ops :
  let s := run_ops c ops new_env_sdk in
  dialled (e_sdk s) `prefix_of` [env_client_options c] ∧
  (∀ k, let s' := run_sdk_cleanups k s in
     running (e_sdk s') ≠ ∅ → ∃ cl, e_sdkClient s' = Some cl ∧ cl ∈ open (e_sdk s')) ∧
  (let s' := run_sdk_cleanups (length (e_cleanups s)) s in
     e_cleanups s' = [] ∧ open (e_sdk s') = ∅ ∧ running (e_sdk s') = ∅).
Proof using New_nil.
  intros s. assert (env_phase c s) as Hs by apply env_phase_ops, phase_new. clearbody s.
  assert (∀ k s', e_cleanups s' = [] → run_sdk_cleanups k s' = s') as Hstop.
  { intros k. induction k as [|k IH]; [done|]. intros s' Hc. cbn [run_sdk_cleanups].
    assert (run_sdk_cleanup s' = s') as -> by (unfold run_sdk_cleanup; by rewrite Hc). by apply IH. }
  split; [destruct Hs; [apply prefix_nil|done..]|]. split.
  - intros k s' Hrun. subst s'. revert Hrun. destruct Hs as [n|n wo|n j wo worker Hw|n j m].
    1,2: by rewrite Hstop.
    + destruct k; [by cbn|]. cbn [run_sdk_cleanups]. by rewrite Hstop.
    + destruct k as [|[|k]].
      * intros _. exists j. cbn. set_solver.
      * intros _. exists j. cbn. set_solver.
      * cbn [run_sdk_cleanups]. rewrite Hstop by done. cbn. set_solver.
  - destruct Hs; cbn; split_and!; (done || set_solver).
Qed.

(** Once a client was made, every later call returns it; after a dial that
    failed every later call returns nil. *)
Theorem SdkClient_once c d ops s :
  env_phase c s →
  let s' := (SdkClient c d s).1 in
  ∀ d', (SdkClient c d' (run_ops c ops s')).2 = Ok (e_sdkClient s').
Proof using New_nil.
  intros Hs s' d'.
  assert (sdkClientOnce s' = true) as Ho.
  { subst s'. unfold SdkClient. go_simpl. destruct (sdkClientOnce s) eqn:E; cbn; [done|].
    unfold make_client. by destruct d. }
  clearbody s'. revert s' Ho. induction ops as [|op ops IH]; intros s' Ho.
  { cbn. unfold SdkClient. go_simpl. by rewrite Ho. }
  assert (sdkClientOnce (run_op c s' op) = true ∧ e_sdkClient (run_op c s' op) = e_sdkClient s') as [H1 H2].
  { destruct op as [x|x y]; cbn [run_op]; unfold SdkWorker, SdkClient, call_worker_once, start_worker; go_simpl.
    - by rewrite Ho.
    - destruct (sdkWorkerOnce s'); cbn; [done|]. rewrite Ho. cbn.
      destruct (New (e_sdkClient s')); cbn; [done|]. by destruct y. }
  rewrite <-H2. cbn [run_ops foldl]. by apply IH.
Qed.
End env_sdk.

(** ** Channels *)

(** A [select] on a channel that is ready from time [ch] on, if ever, and on a
    context that is done at time [ctx]: when it ends, and whether by the channel.
    When both are ready either case may be taken. *)
Inductive select_ends (ch : option nat) (ctx : nat) : nat → bool → Prop :=
| select_channel t : ch = Some t → t ≤ ctx → select_ends ch ctx t true
| select_context : (∀ t, ch = Some t → ctx ≤ t) → select_ends ch ctx ctx false.

(** [WaitForChannel] and [SendToChannel]. *)
Definition channel_result (what : string) (by_channel : bool) : res unit :=
  if by_channel then Ok tt else Panic ("context timeout while " +:+ what +:+ " channel").
Definition WaitForChannel : bool → res unit := channel_result "waiting for".
Definition SendToChannel : bool → res unit := channel_result "sending to".
Definition base_WaitForChannel : bool → res unit := channel_result "waiting for".
Definition base_SendToChannel : bool → res unit := channel_result "sending to".

(** The helpers end, by the end of the context at the latest: well when the
    channel was ready before it, with a failed test when the channel was not. *)
Theorem channel_helpers_end ch ctx :
  (∃ t b, select_ends ch ctx t b) ∧
  ∀ t b, select_ends ch ctx t b →
    t ≤ ctx ∧
    ((∃ t', ch = Some t' ∧ t' < ctx) → WaitForChannel b = Ok tt ∧ SendToChannel b = Ok tt) ∧
    ((∀ t', ch = Some t' → ctx < t') →
       is_panic (WaitForChannel b) = true ∧ is_panic (SendToChannel b) = true).
Proof.
  split.
  - destruct ch as [t|]; [destruct (decide (t ≤ ctx))|].
    + exists t, true. by constructor.
    + exists ctx, false. constructor. intros ? [= <-]. lia.
    + exists ctx, false. by constructor.
  - intros t b []; (split; [lia|]); (split; [|by naive_solver lia]); [done|].
    intros (t' & -> & Ht). specialize (H _ eq_refl). lia.
Qed.

(** ** Calls of a suite *)

(** [GetNamespaceID]: the answer to [DescribeNamespace]. *)
Definition GetNamespaceID (describe : string → string + string) (namespace : string) : res string :=
  match describe namespace with inl err => Panic err | inr id => Ok id end.

Record signal_request {Execution Input : Type} := mkSignalRequest {
  sig_Namespace : string; sig_WorkflowExecution : Execution; sig_SignalName : string;
  sig_Input : Input; sig_Identity : string
}.
Arguments signal_request : clear implicits.

Definition SendSignal {Execution Input}
    (service : signal_request Execution Input → option string)
    (nsName : string) (execution : Execution) (signalName : string) (input : Input) (identity : string)
    : option string :=
  service (mkSignalRequest _ _ nsName execution signalName input identity).

(** [newClientAndWorker] ([xdc/base.go]): a client of one of the clusters and a
    worker for it that is not started; releasing them is up to the test. *)
Definition newClientAndWorker {TLS} (New : option nat → option string) (dial_err : option string)
    (hostport ns taskqueue : string) : GoM (sdk_world (TLS := TLS)) (nat * nat * string) := λ w,
  let dialled' := dialled w ++ [mkClientOptions hostport ns None] in
  match dial_err with
  | Some err => (mkSdk (open w) (running w) dialled' (next_id w), Panic err)
  | None =>
      match New (Some (next_id w)) with
      | Some msg => (mkSdk ({[next_id w]} ∪ open w) (running w) dialled' (S (next_id w)), Panic msg)
      | None => (mkSdk ({[next_id w]} ∪ open w) (running w) dialled' (S (S (next_id w))),
                 Ok (next_id w, S (next_id w), taskqueue))
      end
  end.

(** ** A test with a worker *)

Definition w_New (client : option nat) : option string :=
  match client with None => Some "Client must be created with client.Dial()" | Some _ => None end.
Definition w_env_config : env_config (TLS := unit) := mkEnvConfig 9000 "ns-1" None.

Lemma env_sdk_released_witness :
  let s := run_ops w_New w_env_config [OpWorker None None; OpClient None] new_env_sdk in
  running (e_sdk s) = {[1]} ∧ e_cleanups s = [StopWorker_; CloseClient] ∧
  running (e_sdk (run_sdk_cleanups 2 s)) = ∅.
Proof.
  split; [vm_compute; reflexivity|]. split; [reflexivity|].
  destruct (env_sdk_released w_New ltac:(discriminate) w_env_config [OpWorker None None; OpClient None])
    as (_ & _ & _ & _ & H). exact H.
Defined.

(** A dial that fails in one goroutine leaves the others with a nil client. *)
Example failed_dial_nil :
  (SdkClient w_env_config None (SdkClient w_env_config (Some "refused") new_env_sdk).1).2 = Ok None.
Proof. reflexivity. Qed.
