(* ===== verification/DemoRun.v ===== *)
(** The demonstration run end to end: the workflows that [scripts/start_workflows.go]
    starts, as the proxy routes them ([resolver.go]) and the worker of
    [scripts/worker.go] serves them. *)

From S2P Require Import Prelude GoStrings GoSort ConsistentHash RingSpec Murmur Namespaces.
From S2P Require Import Mappings Resolver Scripts.
From stdpp Require Import options.

Section demo.
Context {M3 : Murmur3} {R : Type} `{Redis R} `{!RedisLaws R}.

(** What the proxy makes of a start request: the resolver's payload. *)
Definition start_payload (q : nat * StartWorkflowOptions * string) : Payload :=
  mkPayload (Start_ID q.1.2) (Client_Namespace starter_client).

Definition start_events (qs : list (nat * StartWorkflowOptions * string)) : list event :=
  (λ q, EResolve (start_payload q)) <$> qs.

(** Resolving new ids adds to the table what the ring says, and nothing else. *)
Lemma abs_start_events reg v qs T :
  namespaces reg !! "default" = Some v →
  NoDup ((λ q, Start_ID q.1.2) <$> qs) → (∀ q, q ∈ qs → T !! Start_ID q.1.2 = None) →
  (abs_events (start_events qs) (reg, T)).1 =
    (reg, list_to_map ((λ q, (Start_ID q.1.2, GetSlot (Ring v) (Start_ID q.1.2))) <$> qs) ∪ T).
Proof.
  intros Hv. revert T. induction qs as [|q qs IH]; intros T Hnd HT.
  { cbn. by rewrite (left_id_L ∅ (∪)). }
  cbn [start_events fmap list_fmap] in *. apply NoDup_cons in Hnd as [Hq Hnd].
  cbn [abs_events fst abs_event]. unfold abs_Resolve.
  cbn [start_payload WorkflowID PayloadNamespace starter_client Client_Namespace fst snd].
  rewrite (HT q) by set_solver. rewrite Hv. cbn [fst].
  fold (start_events qs). rewrite IH; [|done|].
  - cbn [list_to_map foldr]. f_equal. rewrite <-insert_union_r; [by rewrite insert_union_l|].
    apply not_elem_of_list_to_map. intros ([id s] & E & Hin)%list_elem_of_fmap.
    cbn in E. subst. apply Hq. apply list_elem_of_fmap in Hin as (q' & [= -> _] & Hin).
    apply list_elem_of_fmap. by exists q'.
  - intros q' Hq'. rewrite lookup_insert_ne; [by apply HT; set_solver|]. intros E. apply Hq.
    apply list_elem_of_fmap. by exists q'.
Qed.

Context (v : VirtualNamespace).

(** C11: a run of the demonstration, over the proxy.  When the starter has finished,
    however its goroutines interleaved, and the proxy has resolved its requests in
    any order, starting with nothing routed and with a virtual namespace "default"
    whose ring finds an active physical namespace for every key: exactly the
    thousand workflows are routed, each to an active physical namespace, the one
    the ring has for its id; every later request about one of them is a cache hit
    that goes there; and the allocation counter of every physical namespace is the
    number of workflows routed to it. *)
Theorem demo_workflows_routed c qs (w : World R) :
  rtc starter_step starter_start c → st_main c = Finished → qs ≡ₚ requests c →
  w_reachable w → w_cached w = ∅ → totalWorkflowAllocated w = ∅ →
  namespaces (registry w) !! "default" = Some v →
  (∀ key, GetSlot (Ring v) key ≠ "" ∧ Namespaces v !! GetSlot (Ring v) key = Some NamespaceActive) →
  let w' := (exec_events (start_events qs) w).1 in
  size (w_cached w') = numWorkflows ∧
  (∀ q, q ∈ requests c →
     let s := GetSlot (Ring v) (Start_ID q.1.2) in
     w_cached w' !! Start_ID q.1.2 = Some s ∧ Namespaces v !! s = Some NamespaceActive ∧
     ∀ p, WorkflowID p = Start_ID q.1.2 → (Resolve p w').2 = Ok (s, true)) ∧
  ∀ s, s ≠ "" → counter w' s = Z.of_nat (assigned s (w_cached w')).
Proof.
  intros Hc HF Hqs Hon Hcache Hcount Hv Hact w'.
  destruct (starter_inv_reachable c Hc) as [_ _ _ _ _ Hseq Hok He].
  rewrite (He HF), HF, app_nil_r in Hseq. cbn [position] in Hseq.
  assert (NoDup ((λ q, Start_ID q.1.2) <$> qs)) as Hnd.
  { rewrite Hqs. apply requests_ids; [done|]. rewrite Hseq. apply NoDup_seq. }
  destruct (exec_events_refines (start_events qs) w Hon) as (Hon' & Habs & _).
  fold w' in Hon', Habs. unfold w_abs in Habs. rewrite Hcache in Habs.
  rewrite (abs_start_events _ v) in Habs by (done || (intros; apply lookup_empty)).
  rewrite (right_id_L ∅ (∪)) in Habs. injection Habs as _ Hw'.
  set (kvs := (λ q, (Start_ID q.1.2, GetSlot (Ring v) (Start_ID q.1.2))) <$> qs) in Hw'.
  assert (NoDup kvs.*1) as Hnd' by (unfold kvs; by rewrite <-list_fmap_compose).
  split; [|split].
  - rewrite Hw'. rewrite map_size_list_to_map by done. unfold kvs. rewrite length_fmap, Hqs.
    apply Permutation_length in Hseq. by rewrite !length_fmap, length_seq in Hseq.
  - intros q Hq s.
    assert (w_cached w' !! Start_ID q.1.2 = Some s) as Hs.
    { rewrite Hw'. apply elem_of_list_to_map_1; [done|]. apply list_elem_of_fmap.
      exists q. split; [done|]. by rewrite Hqs. }
    destruct (Hact (Start_ID q.1.2)) as [Hne Ha]. split; [done|]. split; [done|].
    intros p Hp. apply Resolve_hit; [done|by rewrite Hp|done].
  - intros s Hs. apply allocation_counter_exact; try done.
    unfold start_events. apply Forall_fmap, Forall_true. done.
Qed.
End demo.

(** ** With one physical namespace *)

Lemma starter_finishes : ∃ c, rtc starter_step starter_start c ∧ st_main c = Finished.
Proof.
  apply eventually_reaches. apply (eventually_measure _ starter_inv _ work_left).
  - apply starter_progress.
  - intros c c' Hc Hst. split; [by eapply starter_inv_step|by apply starter_step_work].
  - apply starter_inv_start.
Qed.

Definition w_default : VirtualNamespace :=
  (run_ns_ops (M3 := Murmur3_ref) [NsAdd "default::c1:7233"] (NewVirtualNamespace "default")).1.

Definition w_demo_world : World MemRedis :=
  mkWorld (mkMappings (mkMemRedis true ∅) 0 0) (Register w_default (mkRegistry ∅)) ∅.

Lemma demo_workflows_routed_witness :
  ∃ c, st_main c = Finished ∧
    size (w_cached (exec_events (M3 := Murmur3_ref) (start_events (requests c)) w_demo_world).1)
      = numWorkflows.
Proof.
  destruct starter_finishes as (c & Hc & HF). exists c. split; [exact HF|].
  apply (demo_workflows_routed (M3 := Murmur3_ref) w_default c (requests c) w_demo_world Hc HF);
    try reflexivity.
  intros key.
  assert (GetSlot (M3 := Murmur3_ref) (Ring w_default) key = "default::c1:7233") as ->
    by (apply (GetSlot_single (M3 := Murmur3_ref)); lia).
  split; [discriminate|vm_compute; reflexivity].
Defined.
