(* ===== verification/ClusterSetup.v ===== *)
(** Creating and tearing down a test cluster
    ([newClusterWithPersistenceTestBaseFactory], [newArchiverBase], [setupIndex] and
    [TearDownCluster] in [conformance-tests/testcore/test_cluster.go]): what a
    cluster takes hold of on the way, at which steps creating it can fail, and
    what is left behind then.  The profiler's listener belongs to the test binary,
    not to a cluster. *)

From S2P Require Import Prelude GoStrings GoNet GoSort ConsistentHash RingSpec Murmur Namespaces.
From S2P Require Import Mappings Resolver Wire TaskToken Http Messages Samples Handlers.
From S2P Require Import HandlerSpec ConnPark Proxy Json Checkpoint Admin Fleet.
From S2P Require Import ClusterOptions TestEnv Onebox TestBase TestCluster Wiring Helpers.
From Stdlib Require Import Ascii.
From stdpp Require Import options.

(** What exists, the Elasticsearch indices, the fault injection of the test base,
    the directory [buildTempuraOnce] has built the proxy in, and the proxies that
    were started. *)
Record lab {Fault : Type} := mkLab {
  lab_held : held; lab_indices : gset string; lab_faults : option Fault;
  lab_built : option string; lab_proxies : list (string * flags)
}.
Arguments lab : clear implicits.

Section lab_steps.
Context {Fault : Type}.
Notation world := (lab Fault).

Definition hold (f : held → held) : GoM world unit :=
  modify (λ w, mkLab _ (f (lab_held w)) (lab_indices w) (lab_faults w) (lab_built w) (lab_proxies w)).

(** A call that returns an error, and one whose error is fatal. *)
Definition err_of (e : option string) : GoM world unit :=
  match e with Some err => fail err | None => mret tt end.
Definition fatal_of (what : string) (e : option string) : GoM world unit :=
  match e with Some err => panic (what +:+ ": " +:+ err) | None => mret tt end.

Definition set_server (b : bool) (h : held) : held :=
  mkHeld b (h_store h) (h_index h) (h_history_dir h) (h_visibility_dir h) (h_redis h) (h_proxy h) (h_es_client h) (h_conn h).
Definition set_store (b : bool) (h : held) : held :=
  mkHeld (h_server h) b (h_index h) (h_history_dir h) (h_visibility_dir h) (h_redis h) (h_proxy h) (h_es_client h) (h_conn h).
Definition set_index (b : bool) (h : held) : held :=
  mkHeld (h_server h) (h_store h) b (h_history_dir h) (h_visibility_dir h) (h_redis h) (h_proxy h) (h_es_client h) (h_conn h).
Definition set_history_dir (b : bool) (h : held) : held :=
  mkHeld (h_server h) (h_store h) (h_index h) b (h_visibility_dir h) (h_redis h) (h_proxy h) (h_es_client h) (h_conn h).
Definition set_visibility_dir (b : bool) (h : held) : held :=
  mkHeld (h_server h) (h_store h) (h_index h) (h_history_dir h) b (h_redis h) (h_proxy h) (h_es_client h) (h_conn h).
Definition set_redis (b : bool) (h : held) : held :=
  mkHeld (h_server h) (h_store h) (h_index h) (h_history_dir h) (h_visibility_dir h) b (h_proxy h) (h_es_client h) (h_conn h).
Definition set_proxy (b : bool) (h : held) : held :=
  mkHeld (h_server h) (h_store h) (h_index h) (h_history_dir h) (h_visibility_dir h) (h_redis h) b (h_es_client h) (h_conn h).
Definition set_es_client (b : bool) (h : held) : held :=
  mkHeld (h_server h) (h_store h) (h_index h) (h_history_dir h) (h_visibility_dir h) (h_redis h) (h_proxy h) b (h_conn h).
Definition set_conn (b : bool) (h : held) : held :=
  mkHeld (h_server h) (h_store h) (h_index h) (h_history_dir h) (h_visibility_dir h) (h_redis h) (h_proxy h) (h_es_client h) b.

(** * Archival *)

Record ArchiverBase := mkArchiver {
  historyStoreDirectory : string; visibilityStoreDirectory : string;
  historyURI : string; visibilityURI : string; archival_state : string
}.

(** [newArchiverBase]: the results of the two [os.MkdirTemp], and the scheme of the
    file store. *)
Definition newArchiverBase (enabled : bool) (scheme : string) (history visibility : string + string)
    : GoM world ArchiverBase :=
  if negb enabled then mret (mkArchiver "" "" "" "" "")
  else
    h ← match history with
        | inl err => panic ("Failed to create temp dir for history archival: " +:+ err)
        | inr dir => hold (set_history_dir true);; mret dir
        end;
    v ← match visibility with
        | inl err => panic ("Failed to create temp dir for visibility archival: " +:+ err)
        | inr dir => hold (set_visibility_dir true);; mret dir
        end;
    mret (mkArchiver h v (scheme +:+ "://" +:+ h) (scheme +:+ "://" +:+ v) "enabled").

(** * Elasticsearch *)

(** The service: the errors of connecting (after the retries), of reading the
    template and of each call, and the status of an index. *)
Record es_service := mkES {
  es_connect : option string; es_IndexExists : option string;
  es_delete : option string; es_template : option string; es_IndexPutTemplate : option string;
  es_CreateIndex : option string; es_status : nat → string + string; es_NewClient : option string
}.

Definition waitForYellowStatus (index : string) (status : string + string) : GoM world unit :=
  match status with
  | inl err => fail err
  | inr s => if decide (s = "red")
             then fail ("Elasticsearch index status for " +:+ index +:+ " is red") else mret tt
  end.

Definition deleteIndex (index : string) (es : es_service) : GoM world unit :=
  err_of (es_delete es);;
  modify (λ w, mkLab _ (lab_held w) (lab_indices w ∖ {[index]}) (lab_faults w) (lab_built w) (lab_proxies w)).

Definition create_index (index : string) : GoM world unit :=
  modify (λ w, mkLab _ (set_index true (lab_held w)) ({[index]} ∪ lab_indices w) (lab_faults w)
                 (lab_built w) (lab_proxies w)).

Definition setupIndex (index : string) (es : es_service) : GoM world unit :=
  fatal_of "Failed to connect to elasticsearch" (es_connect es);;
  err_of (es_IndexExists es);;
  there ← gets (λ w, bool_decide (index ∈ lab_indices w));
  (if there : bool then deleteIndex index es else mret tt);;
  err_of (es_template es);;
  err_of (es_IndexPutTemplate es);;
  err_of (es_CreateIndex es);;
  create_index index;;
  waitForYellowStatus index (es_status es 0);;
  waitForYellowStatus index (es_status es 1).

(** * The cluster *)

Context {Obj Policy : Type} {MR : MapRange}.
Notation impl := (TemporalImpl (Obj := Obj) (Policy := Policy)).

(** The fields of [TestClusterConfig]. *)
Record cluster_options := mkOptions {
  o_EnableArchival : bool; o_IsMasterCluster : bool; o_ClusterMetadata : cluster_config;
  o_hosts : host_config; o_NumHistoryShards : Z; o_FaultInjection : option Fault;
  o_MockAdminClient : option Obj; o_DCRedirectionPolicy : Policy;
  o_DynamicConfigOverrides : gmap string setting; o_EnableMTLS : bool; o_EnableMetricsCapture : bool;
  o_SpanExporters : option Obj; o_ServiceFxOptions : gmap string (list Obj);
  o_TokenProvider : option Obj; o_TLSConfigProvider : option Obj
}.

(** Everything outside: ports, command-line flags, the server's packages and the
    results of the calls. *)
Record outside := mkOutside {
  x_free : nat → Z; x_Intn : nat → nat;
  x_UseSQLVisibility : bool; x_enableFaultInjection : string; x_default_faults : Fault;
  x_test_metadata : bool → bool → cluster_config;
  x_scheme : string; x_mkdir_history : string + string; x_mkdir_visibility : string + string;
  x_index : string; x_es : es_service; x_es_config : string → Obj; x_es_client : Obj;
  x_save : string → cluster_info → option string; x_uuid : nat → string;
  x_apply_metadata : cluster_config → string + cluster_config * Obj;
  x_createFixedTLSConfigProvider : string + Obj;
  x_archiver : ArchiverBase → Obj * Obj; x_stores : option Obj * option Obj; x_ExecutionManager : Obj;
  x_capture : Obj; x_registry : Obj;
  x_pprof : option string; x_init : option string;
  x_cwd : string; x_go_build : string → option string; x_miniredis : string + string;
  x_exec : string → flags → option string; x_Dial : option string
}.

(** The server's start ([Wiring]). *)
Context (start : option string → GoM impl unit).

Record TestCluster := mkTestCluster {
  tc_host : impl; tc_archiver : ArchiverBase; tc_es_index : option string;
  tc_settings : list (override (V := setting)); tc_proxyPort : Z; tc_adminPort : Z
}.

(** The test base, set up with the metadata; the flag's fault injection gives way
    to the configuration's own. *)
Definition setup_base (x : outside) (cfg : cluster_options) : GoM world unit :=
  modify (λ w, mkLab _ (set_store true (lab_held w)) (lab_indices w)
    (fault_injection (x_enableFaultInjection x) (x_default_faults x) (o_FaultInjection cfg))
    (lab_built w) (lab_proxies w)).

(** Elasticsearch, unless visibility is in SQL. *)
Definition setup_visibility (x : outside) : GoM world (option string) :=
  if x_UseSQLVisibility x then mret None
  else
    setupIndex (x_index x) (x_es x);;
    err_of (es_NewClient (x_es x));;
    hold (set_es_client true);;
    mret (Some (x_index x)).

(** The metadata of all clusters is saved and applied. *)
Definition setup_metadata (x : outside) (cfg : cluster_options) (m : cluster_config)
    : GoM world (cluster_config * Obj) :=
  infos ← lift (save_metadata (x_save x) (x_uuid x) (o_NumHistoryShards cfg) 0
                  (range_map (ClusterInformation m)) ∅);
  match x_apply_metadata x (mkClusterConfig (EnableGlobalNamespace m) (FailoverVersionIncrement m)
                              (MasterClusterName m) (CurrentClusterName m) infos) with
  | inl err => fail err
  | inr r => mret r
  end.

(** A provider of the configuration wins over a new one for mutual TLS. *)
Definition setup_tls (x : outside) (cfg : cluster_options) : GoM world (option Obj) :=
  match o_TLSConfigProvider cfg with
  | Some p => mret (Some p)
  | None =>
      if o_EnableMTLS cfg
      then match x_createFixedTLSConfigProvider x with inl err => fail err | inr p => mret (Some p) end
      else mret None
  end.

Definition temporal_params (x : outside) (cfg : cluster_options) (table : host_table)
    (metadata : cluster_config * Obj) (archiver : ArchiverBase) (index : option string)
    (tls : option Obj) : TemporalParams (Obj := Obj) (Policy := Policy) :=
  mkTemporalParams metadata.1 metadata.2 (x_es_config x <$> index)
    (match index with Some _ => Some (x_es_client x) | None => None end)
    (x_archiver x archiver).1 (x_archiver x archiver).2 (x_stores x).1 (x_stores x).2
    (x_ExecutionManager x) (o_MockAdminClient cfg) (o_DCRedirectionPolicy cfg) tls
    (if o_EnableMetricsCapture cfg then Some (x_capture x) else None) (o_ServiceFxOptions cfg)
    (x_registry x) table (o_SpanExporters cfg) (o_TokenProvider cfg).

(** [newTemporal] and [Start]; a fatal error of the server ends the test binary. *)
Definition run_start (x : outside) (p : TemporalParams (Obj := Obj) (Policy := Policy))
    : GoM world impl := λ w,
  match start (x_init x) (newTemporal p) with
  | (c, Ok _) =>
      (mkLab _ (set_server true (lab_held w)) (lab_indices w) (lab_faults w) (lab_built w)
         (lab_proxies w), Ok c)
  | (_, Err err) => (w, Err err)
  | (_, Panic msg) => (w, Panic msg)
  | (_, Diverge) => (w, Diverge)
  end.

(** The settings in the order [newTemporal] makes them, then the server. *)
Definition start_server (x : outside) (cfg : cluster_options) (table : host_table)
    (p : TemporalParams (Obj := Obj) (Policy := Policy))
    : GoM world (impl * list (override (V := setting))) :=
  addr ← lift (FrontendHTTPAddress (x_Intn x) table);
  c ← run_start x p;
  mret (c, startup_overrides defaultDynamicConfigOverrides CallbackURLTemplate_keys.1
             CallbackURLTemplate_keys.2 (SServer (nexusCallbackTemplate addr))
             (o_DynamicConfigOverrides cfg)).

(** [filepath.Abs("..")]: the directory above the one the test runs in. *)
Definition projectRoot (cwd : string) : string := filepath_Dir cwd.

Definition buildTempuraOnce (x : outside) : GoM world unit :=
  built ← gets lab_built;
  match built with
  | Some _ => mret tt
  | None =>
      fatal_of "Failed to build tempura" (x_go_build x (projectRoot (x_cwd x)));;
      modify (λ w, mkLab _ (lab_held w) (lab_indices w) (lab_faults w) (Some (projectRoot (x_cwd x)))
                     (lab_proxies w))
  end.

(** Redis and the proxy in front of the server; [n] ports were drawn before. *)
Definition start_proxy (x : outside) (table : host_table) (n : nat) : GoM world (Z * Z) :=
  buildTempuraOnce x;;
  addr ← match x_miniredis x with
         | inl err => fail err
         | inr addr => hold (set_redis true);; mret addr
         end;
  let proxyPort := x_free x n in
  let adminPort := x_free x (S n) in
  frontend ← lift (FrontendGRPCAddress table);
  let args := tempura_flags addr proxyPort adminPort frontend in
  err_of (x_exec x (projectRoot (x_cwd x)) args);;
  modify (λ w, mkLab _ (set_proxy true (lab_held w)) (lab_indices w) (lab_faults w) (lab_built w)
                 (lab_proxies w ++ [(projectRoot (x_cwd x), args)]));;
  err_of (x_Dial x);;
  hold (set_conn true);;
  mret (proxyPort, adminPort).

Definition newClusterWithPersistenceTestBaseFactory (x : outside) (cfg : cluster_options)
    : GoM world TestCluster :=
  let table := allocate_hosts (x_free x) (o_hosts cfg) in
  self ← lift (set_self_address table (o_ClusterMetadata cfg));
  let m := choose_metadata (x_test_metadata x) (o_IsMasterCluster cfg) self in
  setup_base x cfg;;
  archiver ← newArchiverBase (o_EnableArchival cfg) (x_scheme x) (x_mkdir_history x) (x_mkdir_visibility x);
  index ← setup_visibility x;
  metadata ← setup_metadata x cfg m;
  tls ← setup_tls x cfg;
  fatal_of "Failed to start pprof" (x_pprof x);;
  server ← start_server x cfg table (temporal_params x cfg table metadata archiver index tls);
  ports ← start_proxy x table (length (addresses table));
  mret (mkTestCluster server.1 archiver index server.2 ports.1 ports.2).

(** [TearDownCluster]; the arguments are the errors of stopping the server, of
    deleting the index and of removing the two directories. *)
Definition TearDownCluster (x : outside) (tc : TestCluster) (stop_errs : list string)
    (delete_index remove_history remove_visibility : option string) : GoM world unit := λ w,
  let o := TearDownCluster_steps (x_UseSQLVisibility x) stop_errs delete_index remove_history
             remove_visibility (lab_held w) in
  (mkLab _ o.1
     (if h_index o.1 then lab_indices w else lab_indices w ∖ list_to_set (option_list (tc_es_index tc)))
     (lab_faults w) (lab_built w) (lab_proxies w),
   match o.2 with [] => Ok tt | errs => Err (Join errs "; ") end).

(** ** Postconditions of a step

    [post m w Q E]: if [m] ends well it does so in [Q], and an error leaves a world
    in [E]; a failure that ends the test binary is not constrained. *)
Definition post {A} (m : GoM world A) (w : world) (Q : A → world → Prop) (E : world → Prop) : Prop :=
  match m w with (w', Ok a) => Q a w' | (w', Err _) => E w' | _ => True end.

Lemma post_bind {A B} (m : GoM world A) (k : A → GoM world B) w Q E :
  post m w (λ a w', post (k a) w' Q E) E → post (m ≫= k) w Q E.
Proof. unfold post, mbind, go_bind. by destruct (m w) as [? []]. Qed.

Lemma post_mono {A} (m : GoM world A) w (Q Q' : A → world → Prop) (E E' : world → Prop) :
  (∀ a w', Q a w' → Q' a w') → (∀ w', E w' → E' w') → post m w Q E → post m w Q' E'.
Proof. unfold post. destruct (m w) as [? []]; auto. Qed.

Lemma post_ret {A} (a : A) w Q E : Q a w → post (mret a) w Q E.
Proof. done. Qed.

Lemma post_modify (f : world → world) w (Q : unit → world → Prop) E : Q tt (f w) → post (modify f) w Q E.
Proof. done. Qed.

Lemma post_err_of e w (Q : unit → world → Prop) (E : world → Prop) :
  (e = None → Q tt w) → E w → post (err_of e) w Q E.
Proof. destruct e; unfold post; cbn; auto. Qed.

Lemma post_fatal_of what e w (Q : unit → world → Prop) E : Q tt w → post (fatal_of what e) w Q E.
Proof. by destruct e. Qed.

(** A step that only looks. *)
Lemma post_reads {A} (m : GoM world A) w (Q : A → world → Prop) (E : world → Prop) :
  (m w).1 = w → (∀ a, (m w).2 = Ok a → Q a w) → E w → post m w Q E.
Proof. unfold post. destruct (m w) as [w' []]; cbn; intros ->; auto. Qed.

Lemma post_archiver s st i r p e c en scheme h v w (E : world → Prop) :
  lab_held w = mkHeld s st i false false r p e c →
  post (newArchiverBase en scheme h v) w
    (λ _ w', lab_held w' = mkHeld s st i en en r p e c ∧ lab_proxies w' = lab_proxies w) E.
Proof.
  intros Hw. unfold newArchiverBase. destruct en; cbn [negb]; [|by apply post_ret].
  destruct h as [|h], v as [|v]; try done. unfold post, mbind, go_bind, hold, modify, mret, go_ret; cbn.
  by rewrite Hw.
Qed.

(** Setting Elasticsearch up touches the index only. *)
Lemma post_setupIndex s st a b r p e c index es w :
  lab_held w = mkHeld s st false a b r p e c →
  post (setupIndex index es) w
    (λ _ w', lab_held w' = mkHeld s st true a b r p e c ∧ lab_proxies w' = lab_proxies w)
    (λ w', (∃ i, lab_held w' = mkHeld s st i a b r p e c) ∧ lab_proxies w' = lab_proxies w).
Proof.
  intros Hw. unfold setupIndex. apply post_bind, post_fatal_of.
  assert ((∃ i, lab_held w = mkHeld s st i a b r p e c) ∧ lab_proxies w = lab_proxies w) as HE by eauto.
  apply post_bind, post_err_of; [intros _|exact HE]. apply post_bind. cbn.
  apply post_bind, (post_mono _ _ (λ _ w', lab_held w' = mkHeld s st false a b r p e c ∧ lab_proxies w' = lab_proxies w) _
    (λ w', (∃ i, lab_held w' = mkHeld s st i a b r p e c) ∧ lab_proxies w' = lab_proxies w)); [|done|].
  2: { destruct (bool_decide _); [|by apply post_ret]. unfold deleteIndex.
    apply post_bind, post_err_of; [intros _|exact HE]. by apply post_modify. }
  intros _ w1 [Hw1 Hp1].
  assert ((∃ i, lab_held w1 = mkHeld s st i a b r p e c) ∧ lab_proxies w1 = lab_proxies w) as HE1 by eauto.
  do 3 (apply post_bind, post_err_of; [intros _|exact HE1]).
  apply post_bind, post_modify. set (w2 := mkLab _ _ _ _ _ _).
  assert (lab_held w2 = mkHeld s st true a b r p e c ∧ lab_proxies w2 = lab_proxies w) as [Hw2 Hp2].
  { subst w2. cbn. by rewrite Hw1. }
  assert (∀ st', post (waitForYellowStatus index st') w2
    (λ _ w', lab_held w' = mkHeld s st true a b r p e c ∧ lab_proxies w' = lab_proxies w)
    (λ w', (∃ i, lab_held w' = mkHeld s st i a b r p e c) ∧ lab_proxies w' = lab_proxies w)) as Hy.
  { intros []; unfold waitForYellowStatus; [split; eauto|]. case_decide; [split; eauto|split; eauto]. }
  apply post_bind. unfold post. pose proof (Hy (es_status es 0)) as H0. unfold post in H0.
  destruct (waitForYellowStatus index (es_status es 0) w2) as [w3 []] eqn:E3; try done.
  assert (w3 = w2) as -> by (revert E3; unfold waitForYellowStatus; repeat case_match; go_simpl; congruence).
  apply Hy.
Qed.

Lemma post_visibility s st a b r p c x w :
  lab_held w = mkHeld s st false a b r p false c →
  post (setup_visibility x) w
    (λ o w', lab_held w' = mkHeld s st (negb (x_UseSQLVisibility x)) a b r p
                             (negb (x_UseSQLVisibility x)) c ∧ lab_proxies w' = lab_proxies w ∧
             o = if x_UseSQLVisibility x then None else Some (x_index x))
    (λ w', (∃ i, lab_held w' = mkHeld s st i a b r p false c ∧
                 (x_UseSQLVisibility x = true → i = false)) ∧
           lab_proxies w' = lab_proxies w).
Proof.
  intros Hw. unfold setup_visibility. destruct (x_UseSQLVisibility x); [by apply post_ret|].
  apply post_bind. eapply post_mono; [| |by apply post_setupIndex].
  - intros _ w1 [Hw1 Hp1]. apply post_bind, post_err_of.
    + intros _. apply post_bind. unfold hold. apply post_modify, post_ret. cbn. by rewrite Hw1.
    + split; [|done]. by exists true.
  - intros w1 [[i Hi] Hp]. split; [|done]. by exists i.
Qed.

Lemma reads_metadata x cfg m w : (setup_metadata x cfg m w).1 = w.
Proof. unfold setup_metadata. go_simpl. repeat case_match; simplify_eq; done. Qed.

Lemma reads_tls x cfg w : (setup_tls x cfg w).1 = w.
Proof. unfold setup_tls. go_simpl. repeat case_match; done. Qed.

Lemma post_lift {A} (m : res A) w (Q : A → world → Prop) (E : world → Prop) :
  (∀ a, m = Ok a → Q a w) → E w → post (lift m) w Q E.
Proof. unfold post, lift. destruct m; auto. Qed.

Lemma post_start_server st i a b r p e k x cfg table params w :
  lab_held w = mkHeld false st i a b r p e k →
  post (start_server x cfg table params) w
    (λ c w', lab_held w' = mkHeld true st i a b r p e k ∧ lab_proxies w' = lab_proxies w ∧
             (start (x_init x) (newTemporal params)).1 = c.1 ∧
             (start (x_init x) (newTemporal params)).2 = Ok tt ∧
             ∃ addr, FrontendHTTPAddress (x_Intn x) table = Ok addr ∧
               c.2 = startup_overrides defaultDynamicConfigOverrides CallbackURLTemplate_keys.1
                 CallbackURLTemplate_keys.2 (SServer (nexusCallbackTemplate addr))
                 (o_DynamicConfigOverrides cfg))
    (λ w', w' = w).
Proof.
  intros Hw. unfold start_server. apply post_bind, post_lift; [|done]. intros addr Ha.
  apply post_bind. unfold post, run_start.
  destruct (start (x_init x) (newTemporal params)) as [c [[]| | |]]; try done.
  cbn. rewrite Hw. cbn. split_and!; try done. by exists addr.
Qed.

Lemma post_start_proxy st i a b e x table n w :
  lab_held w = mkHeld true st i a b false false e false →
  post (start_proxy x table n) w
    (λ ports w', lab_held w' = mkHeld true st i a b true true e true ∧
       ports = (x_free x n, x_free x (S n)) ∧
       ∃ addr frontend, x_miniredis x = inr addr ∧ FrontendGRPCAddress table = Ok frontend ∧
         lab_proxies w' = lab_proxies w ++
           [(projectRoot (x_cwd x), tempura_flags addr (x_free x n) (x_free x (S n)) frontend)])
    (λ w', ∃ r p, lab_held w' = mkHeld true st i a b r p e false ∧ (p = true → r = true)).
Proof.
  intros Hw. unfold start_proxy. apply post_bind.
  apply (post_mono _ _ (λ _ w', lab_held w' = lab_held w ∧ lab_proxies w' = lab_proxies w) _ (λ _, False)); [|done|].
  2: { unfold buildTempuraOnce. apply post_bind. cbn. destruct (lab_built w); [by apply post_ret|].
    apply post_bind, post_fatal_of. by apply post_modify. }
  intros _ w1 [Hh Hp]. apply post_bind. destruct (x_miniredis x) as [err|addr] eqn:Er.
  { exists false, false. by rewrite Hh. }
  apply post_bind. unfold hold. apply post_modify, post_ret. set (w2 := mkLab _ _ _ _ _ _).
  assert (lab_held w2 = mkHeld true st i a b true false e false) as Hw2 by (subst w2; cbn; by rewrite Hh, Hw).
  apply post_bind, post_lift; [|by exists true, false]. intros frontend Hf.
  apply post_bind, post_err_of; [intros _|by exists true, false].
  apply post_bind, post_modify. set (w3 := mkLab _ _ _ _ _ _).
  assert (lab_held w3 = mkHeld true st i a b true true e false) as Hw3 by (subst w3; cbn; by rewrite Hh, Hw).
  apply post_bind, post_err_of; [intros _|by exists true, true].
  apply post_bind. unfold hold. apply post_modify, post_ret.
  split; [cbn; by rewrite Hh, Hw|]. split; [done|]. exists addr, frontend. split; [done|]. split; [done|].
  cbn. by rewrite Hp.
Qed.

Definition nothing : held := mkHeld false false false false false false false false false.

Lemma set_self_address_ok free cfg m : ∃ m', set_self_address (allocate_hosts free cfg) m = Ok m'.
Proof.
  unfold set_self_address. case_decide; [by eexists|].
  pose proof (frontend_address free cfg) as E. unfold FrontendGRPCAddress in E. rewrite E. clear E.
  assert (∃ k, All (hosts_of (allocate_hosts free cfg) httpProtocol "frontend") =
    makeAddresses free k (NumFrontendHosts (normalize_hosts cfg))) as [k ->] by (by eexists).
  rewrite makeAddresses_seq. unfold address_at. rewrite list_lookup_fmap, lookup_seq_lt; [by eexists|].
  unfold normalize_hosts, minNodes. cbn. lia.
Qed.

(** Both ways creating a cluster can end, from nothing. *)
Lemma post_new_cluster x cfg w :
  lab_held w = nothing →
  let table := allocate_hosts (x_free x) (o_hosts cfg) in
  let n := length (addresses table) in
  post (newClusterWithPersistenceTestBaseFactory x cfg) w
    (λ tc w',
       lab_held w' = mkHeld true true (negb (x_UseSQLVisibility x)) (o_EnableArchival cfg)
                       (o_EnableArchival cfg) true true (negb (x_UseSQLVisibility x)) true ∧
       tc_es_index tc = (if x_UseSQLVisibility x then None else Some (x_index x)) ∧
       tc_proxyPort tc = x_free x n ∧ tc_adminPort tc = x_free x (S n) ∧
       (∃ p, p_HostsByProtocolByService p = table ∧
          start (x_init x) (newTemporal p) = (tc_host tc, Ok tt)) ∧
       ∃ addr frontend, x_miniredis x = inr addr ∧ FrontendGRPCAddress table = Ok frontend ∧
         lab_proxies w' = lab_proxies w ++
           [(projectRoot (x_cwd x), tempura_flags addr (tc_proxyPort tc) (tc_adminPort tc) frontend)])
    (λ w', ∃ i s r p e,
       lab_held w' = mkHeld s true i (o_EnableArchival cfg) (o_EnableArchival cfg) r p e false ∧
       (x_UseSQLVisibility x = true → i = false) ∧ (r = true → s = true) ∧ (p = true → r = true)).
Proof.
  intros Hw table n. unfold newClusterWithPersistenceTestBaseFactory. cbn zeta. fold table n.
  destruct (set_self_address_ok (x_free x) (o_hosts cfg) (o_ClusterMetadata cfg)) as [self Es].
  fold table in Es. rewrite Es. apply post_bind. cbn. set (m := choose_metadata _ _ _).
  apply post_bind, post_modify. set (w1 := mkLab _ _ _ _ _ _).
  assert (lab_held w1 = mkHeld false true false false false false false false false ∧ lab_proxies w1 = lab_proxies w) as [H1 P1].
  { subst w1. cbn. by rewrite Hw. }
  clearbody w1. apply post_bind. eapply post_mono; [|exact (λ _ Hf, Hf)|by apply post_archiver].
  intros archiver w2 [H2 P2]. rewrite P1 in P2. clear w1 H1 P1.
  apply post_bind. eapply post_mono; [| |by apply post_visibility].
  2: { intros w3 [(i & Hi & Hs) _]. exists i, false, false, false, false. by split_and!. }
  intros index w3 (H3 & P3 & ->). rewrite P2 in P3. clear w2 H2 P2.
  set (sql := x_UseSQLVisibility x) in *. set (arch := o_EnableArchival cfg) in *.
  assert (∀ w' : world, lab_held w' = lab_held w3 → ∃ i s r p e, lab_held w' = mkHeld s true i arch arch r p e false ∧
    (sql = true → i = false) ∧ (r = true → s = true) ∧ (p = true → r = true)) as HE.
  { intros w' E. exists (negb sql), false, false, false, (negb sql). rewrite E, H3. split_and!; try done. by intros ->. }
  apply post_bind, post_reads; [apply reads_metadata| |by apply HE]. intros metadata _.
  apply post_bind, post_reads; [apply reads_tls| |by apply HE]. intros tls _.
  apply post_bind, post_fatal_of. set (params := temporal_params _ _ _ _ _ _ _).
  apply post_bind. eapply post_mono; [| |by apply post_start_server]; [|by intros w' ->; apply HE].
  intros c w4 (H4 & P4 & Hc1 & Hc2 & _). rewrite P3 in P4.
  apply post_bind. eapply post_mono; [| |by apply post_start_proxy].
  2: { intros w5 (r & p & H5 & Hrp). exists (negb sql), true, r, p, (negb sql). split_and!; try done. by intros ->. }
  intros ports w5 (H5 & -> & addr & frontend & Hr & Hf & P5). rewrite P4 in P5.
  apply post_ret. cbn [tc_es_index tc_proxyPort tc_adminPort tc_host fst snd].
  split_and!; try done; [|by exists addr, frontend].
  exists params. split; [done|]. rewrite <-Hc1, <-Hc2. by destruct (start _ _).
Qed.

(** When creating a cluster fails, nothing of it is released: the store and the
    archival directories are there, and whatever was started before the step that
    failed (the server, then Redis, then the proxy) still runs; no cluster is
    returned to tear down. *)
Theorem failed_cluster_leaks x cfg w w' err :
  lab_held w = nothing →
  newClusterWithPersistenceTestBaseFactory x cfg w = (w', Err err) →
  let h := lab_held w' in
  h_store h = true ∧ h_history_dir h = o_EnableArchival cfg ∧ h_visibility_dir h = o_EnableArchival cfg ∧
  (x_UseSQLVisibility x = true → h_index h = false) ∧
  (h_redis h = true → h_server h = true) ∧ (h_proxy h = true → h_redis h = true) ∧ h_conn h = false.
Proof.
  intros Hw Hnew. pose proof (post_new_cluster x cfg w Hw) as HP. unfold post in HP. rewrite Hnew in HP.
  destruct HP as (i & s & r & p & e & -> & Hi & Hs & Hr). done.
Qed.

(** Tearing a cluster down takes every step: it keeps what could not be stopped or
    removed, its client of Elasticsearch and its connection, and reports the
    errors. *)
Lemma TearDownCluster_leaves x tc w arch stop_errs di rh rv :
  let sql := x_UseSQLVisibility x in
  lab_held w = mkHeld true true (negb sql) arch arch true true (negb sql) true →
  ∃ w' o, TearDownCluster x tc stop_errs di rh rv w = (w', o) ∧
    lab_held w' = mkHeld (bool_decide (stop_errs ≠ [])) false
      (negb sql && bool_decide (is_Some di)) (arch && bool_decide (is_Some rh))
      (arch && bool_decide (is_Some rv)) false false (negb sql) true ∧
    (o = Ok tt ↔ stop_errs = [] ∧ (sql = false → di = None) ∧ rh = None ∧ rv = None).
Proof.
  intros sql Hw. unfold TearDownCluster. rewrite Hw. fold sql. eexists _, _. split; [reflexivity|].
  unfold TearDownCluster_steps. cbn.
  destruct sql, arch, stop_errs, di, rh, rv; cbn; (split; [done|naive_solver]).
Qed.
End lab_steps.

(** * The traffic of a suite, from the cluster's creation *)

Lemma port_fresh free cfg k :
  (∀ i j, free i = free j → i = j) → length (addresses (allocate_hosts free cfg)) ≤ k →
  "127.0.0.1:" +:+ show_int (free k) ∉ addresses (allocate_hosts free cfg).
Proof.
  intros Hinj Hk. destruct (addresses_allocated free cfg) as [n Hall].
  rewrite Hall in Hk |- *. rewrite length_fmap, length_seq in Hk.
  intros (i & E & Hi%elem_of_seq)%list_elem_of_fmap.
  apply (inj (String.append "127.0.0.1:")) in E. apply (inj pretty) in E. apply Hinj in E. lia.
Qed.

Section serving.
Context {M3 : Murmur3} {GZ : Gzip} `{MR : MapRange} {R : Type} `{Redis R}
  {T : Transport} {AR : Arrival} {X : Type} `{!Codecs X}.
Context (url_Parse : string → string + string) (json_err : list byte → string)
  (metrics : ResponseWriter → ResponseWriter).
Context {Fault Obj Policy : Type}.
Context (MakeURL : fx_value (Obj := Obj) (Policy := Policy) → string → string)
  (fx_Err fx_Start : app → option string) (populate : app → string → Obj) (base_manager : app → Obj).

(** C31: a cluster that was created serves the traffic of its suites.  Created from
    nothing, with ports that are free and distinct, it holds its server, its
    store, an index and a client of Elasticsearch unless visibility is in SQL, the
    archival directories when asked for, a Redis, a proxy and a connection to it;
    the server has an application for every host of the table; the proxy is the one
    process started for it, listens at the addresses the harness asks, on ports of
    its own, and as [main] starts it on that Redis it sends every workflow of a
    namespace the suite has registered, and every call it does not know, to the
    server's first frontend.  Tearing the cluster down, whatever fails on the way,
    gives up the store, Redis and the proxy, keeps exactly what could not be
    stopped or removed, and reports an error exactly when there was one; the client
    of Elasticsearch and the connection to the proxy are never closed. *)
Theorem created_cluster_serves_suite (x : outside (Fault := Fault)) (cfg : cluster_options (Obj := Obj))
    w w' tc addr server server' p ns wf rw r :
  (∀ i, (0 ≤ x_free x i)%Z) → (∀ i j, x_free x i = x_free x j → i = j) →
  lab_held w = nothing →
  newClusterWithPersistenceTestBaseFactory (Start_impl MakeURL fx_Err fx_Start populate base_manager)
    x cfg w = (w', Ok tc) →
  let t := allocate_hosts (x_free x) (o_hosts cfg) in
  FrontendGRPCAddress t = Ok addr →
  url_Parse ("http://" +:+ addr) = inr addr →
  plain (bytes_of ns) → ns ≠ "" → Contains (ns +:+ ":") delim = false →
  lab_held w' = mkHeld true true (negb (x_UseSQLVisibility x)) (o_EnableArchival cfg)
                  (o_EnableArchival cfg) true true (negb (x_UseSQLVisibility x)) true ∧
  apps (tc_host tc) = all_apps t ∧
  (∀ port, port ∈ [tc_proxyPort tc; tc_adminPort tc] →
     "127.0.0.1:" +:+ show_int port ∉ addresses t) ∧ tc_proxyPort tc ≠ tc_adminPort tc ∧
  (∃ args, lab_proxies w' = lab_proxies w ++ [(projectRoot (x_cwd x), args)] ∧
     x_miniredis x = inr (redis_addr args) ∧
     listen_addr args = TempuraProxyGRPCAddress (tc_proxyPort tc) ∧
     admin_port args = tc_adminPort tc ∧ default_target args = "http://" +:+ addr ∧
     (main url_Parse args server = (server', Some p) →
      Resolve_ns (p_registry p) ns = None → (∀ v, (redis_Get wf server').2 ≠ RVal v) →
      dispatch (URLPath r) = RDefault → URLHost r = "" →
      let p' := mkProcess (p_hits p) (p_misses p)
        (registerNamespaceWithTempura json_err metrics true true ns addr (p_registry p))
        (p_allocated p) (p_default p) in
      let world := world_of server' p' in
      (∃ s, (Resolve (mkPayload wf ns) world).2 = Ok (s, false) ∧
            parsePhysicalNamespace s = Ok (mkNamespace (Some (mkCluster addr)) ns)) ∧
      (∃ f, serveHTTP (X := X) (p_default p') rw (world, r) = ((world, r), Ok (Forwarded f)) ∧
            URLHost f = addr))) ∧
  ∀ stop_errs delete_index remove_history remove_visibility, ∃ w'' o,
    TearDownCluster x tc stop_errs delete_index remove_history remove_visibility w' = (w'', o) ∧
    lab_held w'' = mkHeld (bool_decide (stop_errs ≠ [])) false
      (negb (x_UseSQLVisibility x) && bool_decide (is_Some delete_index))
      (o_EnableArchival cfg && bool_decide (is_Some remove_history))
      (o_EnableArchival cfg && bool_decide (is_Some remove_visibility)) false false
      (negb (x_UseSQLVisibility x)) true ∧
    (o = Ok tt ↔ stop_errs = [] ∧ (x_UseSQLVisibility x = false → delete_index = None) ∧
                 remove_history = None ∧ remove_visibility = None).
Proof.
  intros Hfree Hinj Hw Hnew t Haddr Hurl Hns Hne Hdel.
  pose proof (post_new_cluster (Start_impl MakeURL fx_Err fx_Start populate base_manager) x cfg w Hw) as HP.
  unfold post in HP. rewrite Hnew in HP. fold t in HP.
  destruct HP as (Hheld & _ & Hpp & Hap & (params & Ht & Hstart) & ra & addr' & Hr & Ha & Hlab).
  rewrite Haddr in Ha. injection Ha as <-.
  split; [done|]. split; [|split; [|split; [|split]]].
  - destruct (x_init x); [done|]. rewrite <-Ht.
    by apply (started_server_registries _ _ _ _ _ _ _ Hstart).
  - intros port Hport. rewrite Hpp, Hap in Hport.
    apply elem_of_cons in Hport as [->|Hport]; [by apply port_fresh|].
    apply list_elem_of_singleton in Hport as ->. apply port_fresh; [done|unfold t; lia].
  - rewrite Hpp, Hap. intros ?%Hinj. lia.
  - eexists. split; [exact Hlab|]. split_and!; try done. intros Hmain Hreg Hcache Hdisp Hhost.
    by eapply (suite_traffic_reaches_cluster (X := X) url_Parse json_err metrics (x_free x) (o_hosts cfg)).
  - intros. by apply TearDownCluster_leaves.
Qed.
End serving.

(** [projectRoot] is the repository for the packages directly under it, and the
    directory of the tests for those one level deeper. *)
Lemma projectRoot_join root package :
  root ≠ "" → "/"%char ∉ chars package → projectRoot (root +:+ "/" +:+ package) = root.
Proof. apply filepath_Dir_join. Qed.

Lemma projectRoot_suites root :
  root ≠ "" →
  projectRoot (root +:+ "/conformance-tests") = root ∧
  projectRoot (root +:+ "/conformance-tests/xdc") = root +:+ "/conformance-tests".
Proof.
  intros Hr. split; [apply (projectRoot_join root "conformance-tests"); [done|set_solver]|].
  pose proof (projectRoot_join (root +:+ "/conformance-tests") "xdc") as E.
  rewrite str_app_assoc in E. apply E; [|set_solver].
  intros E0. by destruct root.
Qed.

(** ** A cluster *)

Definition w_es : es_service := mkES None None None None None None (λ _, inr "yellow") None.
Definition w_cluster_outside (sql : bool) (dial : option string) : outside (Fault := string) (Obj := string) :=
  mkOutside w_free (λ _, 0) sql "" "faults" (λ _ _, mkClusterConfig false 10 "active" "active" ∅)
    "file" (inr "/tmp/h") (inr "/tmp/v") "visibility" w_es id "es" (λ _ _, None) pretty
    (λ m, inr (m, "persistence")) (inr "tls") (λ _, ("am", "ap")) (None, None) "em" "capture" "registry"
    None None "/src/conformance-tests" (λ _, None) (inr "127.0.0.1:6390") (λ _ _, None) dial.
Definition w_cluster_options : cluster_options (Fault := string) (Obj := string) (Policy := unit) :=
  mkOptions true true (mkClusterConfig false 10 "active" "active" ∅) w_host_config 4 None None tt ∅
    false false None ∅ None None.
Definition w_lab : lab string := mkLab string nothing ∅ None None [].
Definition w_start : option string → GoM (TemporalImpl (Obj := string) (Policy := unit)) unit :=
  Start_impl (λ _ s, s) (λ _, None) (λ _, None) (λ a t, a.2 +:+ t) (λ a, a.2).

Lemma created_cluster_serves_suite_witness :
  ∃ w' tc,
    newClusterWithPersistenceTestBaseFactory (MR := ListRange) w_start (w_cluster_outside false None)
      w_cluster_options w_lab = (w', Ok tc) ∧
    apps (tc_host tc) = all_apps (allocate_hosts w_free w_host_config) ∧
    (∃ s, (Resolve (M3 := Murmur3_ref) (mkPayload "wf-1" "namespace-1")
            (world_of (mkMemRedis true ∅) (mkProcess 0 0
              (registerNamespaceWithTempura (M3 := Murmur3_ref) (λ _, "") id true true "namespace-1"
                "127.0.0.1:33000" (mkRegistry ∅)) ∅ "127.0.0.1:33000"))).2 = Ok (s, false) ∧
          parsePhysicalNamespace s =
            Ok (mkNamespace (Some (mkCluster "127.0.0.1:33000")) "namespace-1")) ∧
    ∃ w'' o, TearDownCluster (w_cluster_outside false None) tc [] (Some "index") None None w' = (w'', o) ∧
      lab_held w'' = mkHeld false false true false false false false true true.
Proof.
  destruct (newClusterWithPersistenceTestBaseFactory (MR := ListRange) w_start
    (w_cluster_outside false None) w_cluster_options w_lab) as [w' r] eqn:E.
  assert (∃ tc, r = Ok tc) as [tc ->].
  { change r with (w', r).2. rewrite <-E. eexists. vm_compute. reflexivity. }
  exists w', tc. split; [reflexivity|].
  destruct (created_cluster_serves_suite (M3 := Murmur3_ref) (GZ := CopyGzip) (MR := ListRange)
    (T := TaskTransport) (AR := ReverseArrival) (X := unit) w_url_host (λ _, "") id
    (λ _ s, s) (λ _, None) (λ _, None) (λ a t, a.2 +:+ t) (λ a, a.2)
    (w_cluster_outside false None) w_cluster_options w_lab w' tc "127.0.0.1:33000"
    (mkMemRedis true ∅) (mkMemRedis true ∅) (mkProcess 0 0 (mkRegistry ∅) ∅ "127.0.0.1:33000")
    "namespace-1" "wf-1" new_writer w_unrouted)
    as (_ & Happs & _ & _ & (args & _ & Hredis & Hlisten & Hadmin & Htarget & Hserve) & Htear).
  - intros i. change (0 ≤ w_free i)%Z. unfold w_free. lia.
  - intros i j. change (w_free i = w_free j → i = j). unfold w_free. lia.
  - reflexivity.
  - exact E.
  - vm_compute. reflexivity.
  - vm_compute. reflexivity.
  - repeat constructor.
  - discriminate.
  - vm_compute. reflexivity.
  - split; [exact Happs|]. split.
    2: { destruct (Htear [] (Some "index") None None) as (w'' & o & Ho & Hh & _).
      exists w'', o. split; [exact Ho|exact Hh]. }
    apply Hserve.
    + destruct args as [a l d t]. injection Hredis as <-. cbn in Htarget. rewrite Htarget.
      vm_compute. reflexivity.
    + reflexivity.
    + intros v. vm_compute. discriminate.
    + vm_compute. reflexivity.
    + reflexivity.
Defined.

(** The client of the proxy cannot be made: everything is left running. *)
Example dial_failure_leaks :
  let s := newClusterWithPersistenceTestBaseFactory (MR := ListRange) w_start
    (w_cluster_outside true (Some "dial")) w_cluster_options w_lab in
  s.2 = Err "dial" ∧ lab_held s.1 = mkHeld true true false true true true true false false.
Proof. vm_compute. split; reflexivity. Qed.
